(* ===== verification/_CoqProject ===== *)
-Q . S2P
Prelude.v
RingBuffer.v
Float64.v
GoStrings.v
Utf8.v
Lines.v
Strconv.v
Json.v
Config.v
Evaluator.v
EvalConc.v
Breaker.v
Calculator.v
Provider.v
Chaos.v
Sha256.v
SemanticCache.v
ToolCache.v
Telemetry.v
Memory.v
Orchestrator.v
Stream.v
Guarded.v
Tools.v
Summarize.v
Agent.v
Toolset.v
GetTime.v
React.v
Net.v
WebhookUrl.v
RateLimit.v
Webhook.v
Demo.v
Decode.v
Backends.v
Wiring.v
Api.v
Wire.v
ApiSpec.v
Footprint.v
Service.v
Lockdown.v
Startup.v
FakeBackend.v
Bench.v
BenchSpec.v
Report.v
McpMock.v
