(* ===== verification/Prelude.v ===== *)
(** * AgentShield: verification development

    AgentShield (src/) is a Go service that answers prompts with large language
    models and never lets an outage or a bad answer through unnoticed: every
    answer is scored by a heuristic evaluator, semantic circuit breakers trip
    on bad quality, and a degradation chain falls back from the primary model
    to a smaller one, to a semantic cache, and at last to a graceful denial.
    This library models the program's own logic and proves what makes it
    correct.

    ** The parts and how they fit

    The foundations:
    - Prelude.v (this file): Go's [int] with its wrap-around, time, slices with
      their run-time panics, the state-and-panic monad [Prog] with its
      total-correctness predicate [runs], lists, automation.
    - RingBuffer.v: the rolling window that four components keep in a slice;
      the class [Window] states its contract, each component discharges it.
    - Float64.v: binary64 as the executable [SpecFloat] of the Standard Library
      (no real arithmetic stands in for it) with its rounding lemmas.
    - GoStrings.v, Utf8.v, Lines.v, Strconv.v: the parts of packages strings,
      unicode/utf8, strconv, fmt and time the program uses, on byte strings;
      the classes [Unicode] and [Printable] for the tables.
    - Json.v, Decode.v: encoding/json as a scanner machine over bytes and a
      printer, with the round trip between them; decoding into typed fields.
    - Net.v: addresses and CIDR ranges of package net.
    - Sha256.v: the hash of the cache keys and the session IDs' hexadecimals.

    Answer quality and degradation:
    - Evaluator.v (quality/evaluator.go, internal.go): [Evaluate] and its five
      signals: the score accounts for its signals and stays in [0, 1]; the
      length baseline is the window of the last responses; the repetition
      score equals a reference definition.
    - EvalConc.v: calls that share an evaluator, in steps of its two locked
      sections; [evaluations_interleave] holds for every schedule.
    - Breaker.v (quality/breaker.go): the semantic circuit breaker, one
      function per method ([Record_], [ShouldBlock], [updateState],
      [calibrate]) and the documented automaton [sb_step] it refines;
      calibration bands, recovery, one probe at a time.
    - Provider.v (provider/provider.go, degraded.go): the backend interface as
      a record of operations and the chaos decorator.
    - Chaos.v (orchestrator/chaos.go): the kill switches with auto-restore, as
      sequential methods and as interleaved atomic steps.
    - SemanticCache.v (cache/semantic.go): asynchronous embeddings are jobs
      completed in any order.
    - ToolCache.v (agent/toolcache.go): the LRU cache against a list.
    - Telemetry.v (telemetry/latency.go, costs.go, score.go, tier.go).
    - Memory.v (memory/): sessions, traces, score history.
    - Orchestrator.v (orchestrator/orchestrator.go): [Degrade] over the
      evaluator, the breakers, the cache, the chaos switches, the trace and the
      telemetry, and the specification [chain_run] it refines.
    - Stream.v (orchestrator/stream.go): the quality-gated stream.

    The agent:
    - Guarded.v, Agent.v (agent/agent.go): the load shedder and bulkheads as
      guards around [Degrade]; [Ask], [AskBatch], [Status].
    - Calculator.v, Tools.v, Toolset.v, GetTime.v (agent/tool.go,
      mcp_tool.go): the expression evaluator, the knowledge base, the
      registry, the tools; the clock's dates against a calendar counted day by
      day.
    - Summarize.v, React.v (agent/summarize.go, react.go): the ReAct loop from
      the parsing of the model's answer to the stored session and trace.
    - Demo.v (agent/agent.go [Compare], [StartChaos], agent/chaos.go): the side
      by side comparison and the scripted outage, a list of steps between which
      the auto-restore timers may fire.
    - Wiring.v (agent/agent.go [newAgent]): the state and the parts a
      configuration gives; [New_well_formed] discharges the invariants every
      other theorem starts from; [NewWithOllamaURL] with the test stores.
    - Config.v (config/): defaults, environment overrides, validation.
    - Backends.v (provider/ollama.go, openai.go): the two LLM backends as
      instances of the interface of Provider.v, over an HTTP client.

    The service:
    - Webhook.v, WebhookUrl.v (telemetry/webhook.go, api/webhook_validate.go):
      the dispatcher's semaphore and the check of its URL.
    - RateLimit.v (api/ratelimit.go): client addresses and limiters.
    - Api.v, ApiSpec.v (api/handler.go, auth.go): one state for the whole
      service, one function per handler, the route table [Register] with its
      middlewares (the handlers of libraries are the functions of [Pages]);
      [serve_total], [auth_gate] and the chat and ReAct routes' theorems compose the layers below, from the agent's invariant
      [agent_ok] and the webhook's [hook_valid] alone.
    - Wire.v: the JSON of the streams' events and the loops that write them
      with heartbeats until the deadline; [stream_reads_back] decodes the text.
    - Service.v: the running process as a state machine, [service_step]:
      requests and everything the service does on its own (cleanups, timers,
      embedding jobs, the steps of a scenario, webhook reports, posts, the
      stop), in any order; [service_total] says that from any environment it
      keeps answering and keeps every invariant.
    - Footprint.v: what a request can touch: which routes leave the switches,
      the webhook and the scenarios alone.
    - Lockdown.v: over the same steps, [strangers_change_nothing]: without the
      token no sequence of requests touches the switches or the webhook.
    - Startup.v (main.go, telemetry/otel.go, metrics.go, cache/metrics.go,
      internal/logctx): [main_start] reaches the state Service.v starts from,
      [main_end]; tracing set-up and the metrics' registration.

    The programs around it:
    - FakeBackend.v, Bench.v, BenchSpec.v, Report.v (bench/): the benchmark
      harness, its fake model server, clients, statistics and texts;
      [scenario_report] says what a run measures, [bench_main_report] that the
      command ends, [csv_reads_back] that its file says so.
    - McpMock.v (cmd/mcp-mock/main.go): the mock tool server, and the lookup
      tool against it.

    ** Conventions

    A definition has the name of the Go function it translates (a trailing
    underscore or a suffix where Rocq reserves the name or two components share
    it: [Record_], [Set_], [Record_latency]).  Structs are records with the
    source's fields, enumerations inductive types, maps [gmap], slices lists.
    [None] is a run-time panic (index out of range, division by zero, nil
    dereference) or, for the calculator and the stream, a run that does not
    end; the theorems show it does not happen.  [time.Now] is a parameter of
    the method, or a read of the world in the chain.  A method under a mutex is
    one step.  Where the source starts a goroutine, the model has an event or a
    job that later steps run in any order.

    ** Bounds and fuel

    Integers are 64-bit with wrap-around ([wrap64], [wrapu64]); theorems that
    need the absence of overflow state the bound (texts under [max_text] =
    2^40 bytes, at most 2^52 calibration samples, fewer than 2^64 - 1 chaos
    steps, a request counter that fits).  The fuels are the calculator's
    [parse_fuel], ten units per rune left and ten more, which [evalExpr_total]
    proves enough for every input, and the months left in [month_day], eleven
    ([date_of_succ]); loops over a text take its length.  All other definitions
    recurse structurally; the ReAct loop on the rounds left, six in all.  The
    benchmark's percentiles are proved for up to 2000 requests a path.

    ** Assumptions

    Code outside the repository is a parameter: flowguard's transport breaker,
    hedge, retry, load shedder and bulkheads ([Guard], with [GuardLaws]: success
    only after a successful call, and [CallsOnce]) and its sliding window
    ([SlidingWindow]); the HTTP client ([http_do]), url.Parse and the resolver;
    the texts of encoding/json's errors; the Unicode tables ([Unicode],
    [Printable]); the conversion of floats out of range ([FloatToInt]) and the
    transcendental functions ([MathFun]); crypto/rand and math/rand ([Rand]); the
    time-zone database ([zone]); the handlers of promhttp and [http.FileServer]
    and the template engine ([Pages]).  What the scheduler or the runtime leaves
    open is an argument: the order of a range over a map,
    which of two goroutines runs first, when a context expires, whether a
    stream's client still reads.  A layer above is proved against the contract
    of the one below ([LLMProvider] with [StreamContract], [OrchLaws],
    [AgentLaws], [HandlerLaws], [SafeTool], [Delivers],
    [Reaches]).  Each has an instance in the witnesses.

    ** Not modelled

    The attributes of log records and their key names (internal/logkeys),
    tracing spans and the updates of Prometheus metrics, which write no state
    the program reads back; connection pooling and the enforcement of server
    deadlines; HTTP headers of replies, the text of the dashboard's template and
    the static files (embedded assets), the parsing of that template and of the
    routes' patterns, which may panic at every start alike; a connection that
    fails while a reply is written; the parsing of the benchmark's flags.  An event of Service.v is atomic:
    where a request's own steps overlap another's, the finer models are
    Chaos.v (switches), EvalConc.v (evaluations), SemanticCache.v (embedding
    jobs) and Demo.v (the two calls of a comparison).  A chaos scenario is
    taken step by step, each of its requests in one step.

    ** What the model showed

    The sections "What the model shows of the code" state as theorems or
    examples where the code does not do what it means to: a full prune blanks
    the newest cache entry ([full_prune_blanks_newest]), a probe that fails in
    transport or is spent on a stream blocks a tier for good
    ([transport_error_leaks_probe], [stream_leaks_probe]), a recovered breaker
    may trip again on old scores ([recovered_breaker_retrips]), overlapping
    kills and restores can strand a switch ([stranded_switch_stays_on]), a
    bare IPv4-mapped proxy trusts its neighbours ([mapped_proxy_trusts_others]),
    a blank client address stops the eviction of limiters
    ([blank_key_blocks_eviction]), and smaller ones. *)
From Stdlib Require Import ZArith Lia.
From stdpp Require Import base tactics list gmap strings.
#[local] Open Scope Z_scope.

(** ** Go's [int]: 64-bit two's complement *)

Definition int64_min : Z := - 2 ^ 63.
Definition int64_max : Z := 2 ^ 63 - 1.

(** Wrap-around of 64-bit signed arithmetic. *)
Definition wrap64 (n : Z) : Z := (n + 2 ^ 63) mod 2 ^ 64 - 2 ^ 63.

(** Wrap-around of 64-bit unsigned arithmetic. *)
Definition wrapu64 (n : Z) : Z := n mod 2 ^ 64.

Lemma wrap64_id n : int64_min <= n <= int64_max -> wrap64 n = n.
Proof. unfold wrap64, int64_min, int64_max. intros H. rewrite Z.mod_small; lia. Qed.

Lemma wrap64_range n : int64_min <= wrap64 n <= int64_max.
Proof.
  unfold wrap64, int64_min, int64_max.
  pose proof (Z.mod_pos_bound (n + 2 ^ 63) (2 ^ 64) ltac:(lia)). lia.
Qed.

(** ** Time

    [time.Time] is an instant in nanoseconds since the Unix epoch, [Duration]
    a 64-bit nanosecond count.  The zero [time.Time] is January 1 of year 1. *)

Definition time_zero : Z := - 62135596800 * 10 ^ 9.
Definition nanosecond : Z := 1.
Definition millisecond : Z := 10 ^ 6.
Definition second : Z := 10 ^ 9.
Definition minute : Z := 60 * second.

(** [t.Sub(u)] saturates at the extreme durations. *)
Definition time_sub (t u : Z) : Z := Z.max int64_min (Z.min int64_max (t - u)).
(** [t.After(u)], [t.Before(u)] and [t.IsZero()]. *)
Definition time_after (t u : Z) : bool := u <? t.
Definition time_before (t u : Z) : bool := t <? u.
Definition time_is_zero (t : Z) : bool := t =? time_zero.
(** [d.Milliseconds()]: integer division truncating toward zero. *)
Definition milliseconds (d : Z) : Z := Z.quot d millisecond.

(** ** Slices

    A slice is the list of its elements; an access out of range is a run-time
    panic, modelled as [None]. *)

Definition len {A} (l : list A) : Z := Z.of_nat (length l).

Definition slice_get {A} (l : list A) (i : Z) : option A :=
  if 0 <=? i then l !! Z.to_nat i else None.

Definition slice_set {A} (l : list A) (i : Z) (x : A) : option (list A) :=
  if (0 <=? i) && (i <? len l) then Some (<[Z.to_nat i := x]> l) else None.

(** [l[a:b]] of a slice whose capacity is its length. *)
Definition slice {A} (l : list A) (a b : Z) : option (list A) :=
  if (0 <=? a) && (a <=? b) && (b <=? len l)
  then Some (take (Z.to_nat (b - a)) (drop (Z.to_nat a) l)) else None.

(** [make([]T, n)]. *)
Definition make_slice {A} (zero : A) (n : Z) : option (list A) :=
  if 0 <=? n then Some (replicate (Z.to_nat n) zero) else None.

(** [a % b]: the remainder has the dividend's sign; [b = 0] panics. *)
Definition go_rem (a b : Z) : option Z := if b =? 0 then None else Some (Z.rem a b).

Lemma slice_set_in {A} (l : list A) i x :
  0 <= i < len l -> slice_set l i x = Some (<[Z.to_nat i := x]> l).
Proof.
  intros H. unfold slice_set.
  rewrite (proj2 (Z.leb_le 0 i)), (proj2 (Z.ltb_lt i (len l))) by lia. reflexivity.
Qed.

Lemma slice_get_nat {A} (l : list A) (i : nat) : slice_get l (Z.of_nat i) = l !! i.
Proof. unfold slice_get. rewrite (proj2 (Z.leb_le _ _)) by lia. now rewrite Nat2Z.id. Qed.

Lemma slice_get_in {A} (l : list A) i : 0 <= i < len l -> is_Some (slice_get l i).
Proof.
  intros H. unfold slice_get. rewrite (proj2 (Z.leb_le 0 i)) by lia.
  apply lookup_lt_is_Some_2. unfold len in H. lia.
Qed.

Lemma len_insert {A} (l : list A) i x : len (<[i := x]> l) = len l.
Proof. unfold len. now rewrite length_insert. Qed.
Lemma len_app {A} (l k : list A) : len (l ++ k) = len l + len k.
Proof. unfold len. rewrite length_app. lia. Qed.
Lemma len_nonneg {A} (l : list A) : 0 <= len l.
Proof. unfold len. lia. Qed.
Lemma len_cons {A} (x : A) l : len (x :: l) = len l + 1.
Proof. unfold len. cbn. lia. Qed.
Lemma len_replicate {A} n (x : A) : 0 <= n -> len (replicate (Z.to_nat n) x) = n.
Proof. intros. unfold len. rewrite length_replicate. lia. Qed.
Lemma len_zero_nil {A} (l : list A) : len l = 0 -> l = [].
Proof. destruct l; [done|]. rewrite len_cons. pose proof (len_nonneg l). lia. Qed.

(** ** State with panics

    [Prog S A]: from a state, a result and a new state, or a panic.  Used with
    stdpp's [x ← m; k] notation. *)

Definition Prog (S A : Type) : Type := S -> option (A * S).
#[export] Instance prog_ret {S} : MRet (Prog S) := fun A x s => Some (x, s).
#[export] Instance prog_bind {S} : MBind (Prog S) := fun A B k m s =>
  match m s with Some (x, s') => k x s' | None => None end.

Definition get_st {S} : Prog S S := fun s => Some (s, s).
Definition update_st {S} (f : S -> S) : Prog S unit := fun s => Some (tt, f s).
(** A step of a component that may panic. *)
Definition run_part {S A} (f : S -> option (A * S)) : Prog S A := f.

(** A reading, and an update, that may panic. *)
Definition query_st {S A} (f : S -> option A) : Prog S A := fun s => x ← f s; Some (x, s).
Definition change_st {S} (f : S -> option S) : Prog S unit := fun s => s' ← f s; Some (tt, s').

Lemma prog_bind_eq {S A B} (m : Prog S A) (k : A -> Prog S B) s :
  (m ≫= k) s = match m s with Some (x, s') => k x s' | None => None end.
Proof. reflexivity. Qed.

(** [runs m s Q]: from [s], [m] does not panic and ends in [Q]. *)
Definition runs {S A} (m : Prog S A) (s : S) (Q : A -> S -> Prop) : Prop :=
  exists x s', m s = Some (x, s') /\ Q x s'.

Section Runs.
Context {S A B : Type}.
Implicit Types (m : Prog S A) (k : A -> Prog S B).

Lemma runs_bind m k s Q : runs m s (fun x s' => runs (k x) s' Q) -> runs (m ≫= k) s Q.
Proof. intros (x & s1 & E & y & s2 & E2 & H). exists y, s2. rewrite prog_bind_eq, E. auto. Qed.
Lemma runs_ret (x : A) s (Q : A -> S -> Prop) : Q x s -> runs (mret x) s Q.
Proof. intros H. exists x, s. auto. Qed.
Lemma runs_get s (Q : S -> S -> Prop) : Q s s -> runs get_st s Q.
Proof. intros H. exists s, s. auto. Qed.
Lemma runs_update f s (Q : unit -> S -> Prop) : Q tt (f s) -> runs (update_st f) s Q.
Proof. intros H. exists tt, (f s). auto. Qed.
Lemma runs_mono m s (P Q : A -> S -> Prop) : runs m s P -> (forall x s', P x s' -> Q x s') -> runs m s Q.
Proof. intros (x & s' & E & H) HPQ. exists x, s'. auto. Qed.
(** A program has one run. *)
Lemma runs_both m s (P Q : A -> S -> Prop) : runs m s P -> runs m s Q -> runs m s (fun x s' => P x s' /\ Q x s').
Proof. intros (x & s' & E & HP) (x' & s'' & E' & HQ). rewrite E in E'. injection E' as <- <-. exists x, s'. auto. Qed.
End Runs.

(** [keeps R m]: whenever [m] runs, [R] relates the state before and after. *)
Definition keeps {S A} (R : S -> S -> Prop) (m : Prog S A) : Prop :=
  forall s x s', m s = Some (x, s') -> R s s'.

Section Keeps.
Context {S : Type} (R : S -> S -> Prop) `{!PreOrder R}.

Lemma keeps_bind {A B} (m : Prog S A) (k : A -> Prog S B) :
  keeps R m -> (forall x, keeps R (k x)) -> keeps R (m ≫= k).
Proof.
  intros Hm Hk s y s' E. rewrite prog_bind_eq in E. destruct (m s) as [[x s1]|] eqn:E1; [|discriminate].
  transitivity s1; [eapply Hm; exact E1|eapply Hk; exact E].
Qed.
Lemma keeps_ret {A} (x : A) : keeps R (mret x : Prog S A).
Proof. intros s y s' [= _ <-]. reflexivity. Qed.
Lemma keeps_get : keeps R (get_st : Prog S S).
Proof. intros s y s' [= _ <-]. reflexivity. Qed.
Lemma keeps_query {A} (f : S -> option A) : keeps R (query_st f).
Proof. intros s y s' E. unfold query_st in E. destruct (f s); [|discriminate]. injection E as _ <-. reflexivity. Qed.
Lemma keeps_update (f : S -> S) : (forall s, R s (f s)) -> keeps R (update_st f).
Proof. intros Hf s y s' [= _ <-]. apply Hf. Qed.
End Keeps.

(** ** The last [n] elements of a list *)

Definition lastn {A} (n : nat) (l : list A) : list A := drop (length l - n) l.

Lemma lastn_all {A} n (l : list A) : (length l <= n)%nat -> lastn n l = l.
Proof. intros H. unfold lastn. replace (length l - n)%nat with 0%nat by lia. apply drop_0. Qed.
Lemma length_lastn {A} n (l : list A) : length (lastn n l) = Nat.min n (length l).
Proof. unfold lastn. rewrite length_drop. lia. Qed.
Lemma lastn_snoc_full {A} n (l : list A) x :
  length l = n -> (0 < n)%nat -> lastn n (l ++ [x]) = drop 1 l ++ [x].
Proof.
  intros H Hn. unfold lastn. rewrite length_app. cbn.
  rewrite drop_app_le by lia. f_equal. f_equal. lia.
Qed.
Lemma lastn_lastn_app {A} n (l k : list A) :
  lastn n (lastn n l ++ k) = lastn n (l ++ k).
Proof.
  unfold lastn. destruct (decide (length l <= n)%nat).
  - replace (length l - n)%nat with 0%nat by lia. now rewrite drop_0.
  - rewrite !length_app, length_drop.
    destruct (decide (length k <= n)%nat).
    + rewrite !drop_app_le by (rewrite ?length_drop; lia). rewrite drop_drop. f_equal. f_equal. lia.
    + rewrite !drop_app_ge by (rewrite ?length_drop; lia). rewrite length_drop. f_equal. lia.
Qed.
Lemma Forall_lastn {A} (P : A -> Prop) n l : Forall P l -> Forall P (lastn n l).
Proof. apply Forall_drop. Qed.

Lemma filter_Forall_id {A} (P : A -> Prop) `{forall x, Decision (P x)} l : Forall P l -> filter P l = l.
Proof. induction 1 as [|x l Hx _ IH]; [done|]. rewrite filter_cons_True by exact Hx. now rewrite IH. Qed.

Lemma Forall2_in_l {A B} (R : A -> B -> Prop) l k x :
  Forall2 R l k -> x ∈ l -> exists y, y ∈ k /\ R x y.
Proof.
  intros H Hx. apply list_elem_of_lookup in Hx as [n Hn].
  destruct (Forall2_lookup_l _ _ _ _ _ H Hn) as (y & Hy & Hr). exists y.
  split; [eapply list_elem_of_lookup_2; exact Hy|exact Hr].
Qed.
Lemma Forall2_in_r {A B} (R : A -> B -> Prop) l k y :
  Forall2 R l k -> y ∈ k -> exists x, x ∈ l /\ R x y.
Proof.
  intros H Hy. apply list_elem_of_lookup in Hy as [n Hn].
  destruct (Forall2_lookup_r _ _ _ _ _ H Hn) as (x & Hx & Hr). exists x.
  split; [eapply list_elem_of_lookup_2; exact Hx|exact Hr].
Qed.

(** ** Proof automation *)

(** Case analysis on the conditions of [if]s and [match]es of the goal. *)
Ltac case_bool :=
  match goal with
  | |- context [if ?b then _ else _] => destruct b eqn:?
  | H : context [if ?b then _ else _] |- _ => destruct b eqn:?
  end.
(** Step through the primitive actions of a [Prog]. *)
Ltac runs_step :=
  first [apply runs_bind | apply runs_ret | apply runs_get | apply runs_update].
(** Follow a [Prog] to its updates; [tac] closes the actions known already. *)
Ltac keeps_with tac :=
  repeat first
    [ match goal with |- forall _, _ => intro end
    | solve [tac]
    | apply keeps_bind; [typeclasses eauto|..]
    | apply keeps_ret; typeclasses eauto
    | apply keeps_get; typeclasses eauto
    | apply keeps_query; typeclasses eauto
    | apply keeps_update
    | match goal with |- keeps _ (if ?b then _ else _) => destruct b end
    | match goal with |- keeps _ (match ?x with _ => _ end) => destruct x end ].
Ltac keeps_steps := keeps_with fail.
(** Turn boolean comparisons on [Z] into propositions. *)
Ltac zbool :=
  repeat match goal with
  | H : (_ <? _) = true |- _ => apply Z.ltb_lt in H
  | H : (_ <? _) = false |- _ => apply Z.ltb_ge in H
  | H : (_ <=? _) = true |- _ => apply Z.leb_le in H
  | H : (_ <=? _) = false |- _ => apply Z.leb_gt in H
  | H : (_ =? _) = true |- _ => apply Z.eqb_eq in H
  | H : (_ =? _) = false |- _ => apply Z.eqb_neq in H
  | H : _ && _ = true |- _ => apply andb_prop in H as [? ?]
  | H : _ || _ = false |- _ => apply orb_false_elim in H as [? ?]
  | H : negb _ = true |- _ => apply negb_true_iff in H
  | H : negb _ = false |- _ => apply negb_false_iff in H
  end.

Create HintDb shield.
#[export] Hint Resolve len_nonneg wrap64_range Forall_lastn : shield.
Create Rewrite HintDb shield.
#[export] Hint Rewrite @len_insert @len_app @len_cons @length_lastn : shield.
