(* ===== verification/RingBuffer.v ===== *)
(** * Rolling windows

    Four components of AgentShield keep "the last n samples" in a fixed slice
    with a write index and a [filled] flag (quality/breaker.go, the length
    baseline of quality/evaluator.go, memory/score_history.go and
    telemetry/latency.go).  This file states what such a window promises, as
    the type class [Window], and proves once what the push on a slice does;
    each component discharges the class for its own state. *)
From S2P Require Import Prelude.
From Stdlib Require Import ZArith Lia.
From stdpp Require Import base tactics list.
#[local] Open Scope Z_scope.

Section Ring.
Context {A : Type}.
Implicit Types (buf : list A) (idx cap : Z).

(** [buf[idx] = x; idx = (idx + 1) % cap; if idx == 0 { filled = true }]. *)
Definition ring_push buf idx (filled : bool) cap (x : A) : option (list A * Z * bool) :=
  buf' ← slice_set buf idx x;
  idx' ← go_rem (wrap64 (idx + 1)) cap;
  Some (buf', idx', if idx' =? 0 then true else filled).

(** How many slots hold samples. *)
Definition ring_count idx (filled : bool) cap : Z := if filled then cap else idx.

(** The samples, oldest first. *)
Definition ring_contents buf idx (filled : bool) : list A :=
  if filled then drop (Z.to_nat idx) buf ++ take (Z.to_nat idx) buf
  else take (Z.to_nat idx) buf.

Definition ring_ok buf idx cap : Prop := len buf = cap /\ 0 <= idx < cap /\ cap <= int64_max.

Lemma ring_push_total buf idx filled cap x :
  ring_ok buf idx cap ->
  exists idx', ring_push buf idx filled cap x =
      Some (<[Z.to_nat idx := x]> buf, idx', if idx' =? 0 then true else filled) /\
    idx' = (if idx + 1 =? cap then 0 else idx + 1) /\
    ring_ok (<[Z.to_nat idx := x]> buf) idx' cap.
Proof.
  intros (Hl & Hi & Hc). unfold ring_push.
  rewrite slice_set_in by lia. cbn.
  rewrite wrap64_id by (unfold int64_min, int64_max in *; lia).
  unfold go_rem. rewrite (proj2 (Z.eqb_neq cap 0)) by lia. cbn.
  eexists; split; [reflexivity|].
  destruct (Z.eqb_spec (idx + 1) cap) as [->|Hne].
  - rewrite Z.rem_same by lia. unfold ring_ok. rewrite len_insert. lia.
  - rewrite Z.rem_small by lia. unfold ring_ok. rewrite len_insert. lia.
Qed.

(** Pushing keeps the last [cap] samples. *)
Lemma ring_push_contents buf idx filled cap x buf' idx' filled' :
  ring_ok buf idx cap ->
  ring_push buf idx filled cap x = Some (buf', idx', filled') ->
  ring_contents buf' idx' filled' =
    lastn (Z.to_nat cap) (ring_contents buf idx filled ++ [x]).
Proof.
  intros Hok E. destruct (ring_push_total buf idx filled cap x Hok) as (i & E' & Hi & _).
  rewrite E' in E. injection E as <- <- <-. destruct Hok as (Hl & Hr & _).
  unfold len in Hl. set (n := Z.to_nat idx).
  assert (Hn : (n < length buf)%nat) by lia.
  assert (Htake : take (S n) (<[n := x]> buf) = take n buf ++ [x]).
  { rewrite (take_S_r _ _ x) by (apply list_lookup_insert_eq; lia).
    f_equal. rewrite take_insert. case_decide; [lia|done]. }
  assert (Hdrop : forall k, (n < k)%nat -> drop k (<[n := x]> buf) = drop k buf).
  { intros k Hk. rewrite drop_insert. case_decide; [lia|done]. }
  unfold ring_contents. subst i. destruct (Z.eqb_spec (idx + 1) cap) as [Ec|Hne].
  - cbn [Z.eqb]. rewrite Z2Nat.inj_0, drop_0, take_0, app_nil_r.
    assert (Ht : <[n := x]> buf = take n buf ++ [x]).
    { rewrite <- Htake. symmetry. apply take_ge. rewrite length_insert. lia. }
    rewrite Ht. destruct filled; fold n.
    + rewrite <- app_assoc. symmetry. unfold lastn.
      rewrite !length_app, length_drop, length_take. cbn.
      rewrite drop_app_ge; rewrite length_drop; [|lia].
      replace (length buf - n + (n `min` length buf + 1) - Z.to_nat cap - (length buf - n))%nat
        with 0%nat by lia. apply drop_0.
    + symmetry. apply lastn_all. rewrite length_app, length_take. cbn. lia.
  - rewrite (proj2 (Z.eqb_neq (idx + 1) 0)) by lia.
    replace (Z.to_nat (idx + 1)) with (S n) by lia. rewrite Htake.
    destruct filled; fold n.
    + rewrite Hdrop by lia. rewrite app_assoc. symmetry.
      rewrite lastn_snoc_full; [|rewrite length_app, length_drop, length_take; lia|lia].
      rewrite drop_app_le by (rewrite length_drop; lia). rewrite drop_drop.
      now replace (n + 1)%nat with (S n) by lia.
    + symmetry. apply lastn_all. rewrite length_app, length_take. cbn. lia.
Qed.

Lemma ring_contents_length buf idx filled cap :
  ring_ok buf idx cap -> len (ring_contents buf idx filled) = ring_count idx filled cap.
Proof.
  intros (Hl & Hi & _). unfold len in *. unfold ring_contents, ring_count.
  destruct filled; rewrite ?length_app, ?length_drop, ?length_take; lia.
Qed.

Lemma ring_push_count buf idx filled cap x buf' idx' filled' :
  ring_ok buf idx cap -> ring_push buf idx filled cap x = Some (buf', idx', filled') ->
  ring_count idx' filled' cap = Z.min cap (ring_count idx filled cap + 1).
Proof.
  intros Hok E. destruct (ring_push_total buf idx filled cap x Hok) as (i & E' & Hi & _).
  rewrite E' in E. injection E as <- <- <-. destruct Hok as (_ & Hr & _). unfold ring_count.
  subst i. destruct (Z.eqb_spec (idx + 1) cap).
  - cbn. destruct filled; lia.
  - rewrite (proj2 (Z.eqb_neq (idx + 1) 0)) by lia. destruct filled; lia.
Qed.

(** The occupied prefix of the slice holds exactly the samples of the window. *)
Lemma ring_prefix_perm buf idx filled cap :
  ring_ok buf idx cap ->
  ring_contents buf idx filled ≡ₚ take (Z.to_nat (ring_count idx filled cap)) buf.
Proof.
  intros (Hl & Hi & _). unfold len in Hl. unfold ring_contents, ring_count.
  destruct filled; [|reflexivity].
  rewrite (take_ge buf (Z.to_nat cap)) by lia.
  rewrite Permutation_app_comm. now rewrite take_drop.
Qed.

Lemma ring_Forall (P : A -> Prop) buf idx filled cap x buf' idx' filled' :
  ring_ok buf idx cap -> Forall P buf -> P x ->
  ring_push buf idx filled cap x = Some (buf', idx', filled') -> Forall P buf'.
Proof.
  intros Hok HP Hx E. destruct (ring_push_total buf idx filled cap x Hok) as (i & E' & _).
  rewrite E' in E. injection E as <- <- <-. now apply Forall_insert.
Qed.
End Ring.

(** ** The interface *)

(** A component state [S] that keeps a window of samples of type [B]; an
    input [A] of its push carries one sample (and perhaps the time, or what
    else the component records with it). *)
Class Window (S A B : Type) := {
  win_ok : S -> Prop;
  win_cap : S -> Z;
  win_contents : S -> list B;
  win_sample : A -> B;
  win_push : A -> S -> option S;
  win_push_total : forall x s, win_ok s -> exists s', win_push x s = Some s' /\ win_ok s';
  win_push_cap : forall x s s', win_ok s -> win_push x s = Some s' -> win_cap s' = win_cap s;
  win_push_contents : forall x s s', win_ok s -> win_push x s = Some s' ->
    win_contents s' = lastn (Z.to_nat (win_cap s)) (win_contents s ++ [win_sample x]);
}.

Section WindowFacts.
Context {S A B : Type} `{Window S A B}.

(** Record a whole history, one input after the other. *)
Fixpoint win_run (xs : list A) (s : S) : option S :=
  match xs with
  | [] => Some s
  | x :: xs => s' ← win_push x s; win_run xs s'
  end.

Lemma win_run_contents xs : forall s, win_ok s ->
  (length (win_contents s) <= Z.to_nat (win_cap s))%nat ->
  exists s', win_run xs s = Some s' /\ win_ok s' /\ win_cap s' = win_cap s /\
    win_contents s' = lastn (Z.to_nat (win_cap s)) (win_contents s ++ map win_sample xs).
Proof.
  induction xs as [|x xs IH]; intros s Hok Hlen.
  - exists s. cbn [map]. rewrite app_nil_r, lastn_all by exact Hlen. done.
  - cbn [win_run map]. destruct (win_push_total x s Hok) as (s1 & E & Hok1). rewrite E. cbn.
    pose proof (win_push_cap x s s1 Hok E) as Hc.
    pose proof (win_push_contents x s s1 Hok E) as Hct.
    destruct (IH s1 Hok1) as (s' & -> & Hok' & Hc' & Hct').
    { rewrite Hct, Hc, length_lastn. lia. }
    exists s'. split; [done|]. split; [done|]. split; [congruence|].
    rewrite Hct', Hct, Hc, lastn_lastn_app, <- app_assoc. reflexivity.
Qed.
End WindowFacts.
