(* ===== verification/Float64.v ===== *)
(** * Go's float64

    Every score, threshold, average and price of AgentShield is a Go
    [float64].  This file models it as what it is, IEEE 754 binary64 with
    round-to-nearest-even, on the executable specification of the Standard
    Library ([SpecFloat], precision 53, exponent bound 1024), and proves what
    the components' bounds need: each operation returns the rounding of the
    exact result, the rounding never crosses a representable number, and the
    comparisons decide the order of the exact values.  No real arithmetic is
    substituted for the rounded one: [B2R] only states the theorems.

    A decimal constant of the source is [flit n d], the float nearest to n/d.
    Fused multiply-add, which Go may use on some processors, is not modelled:
    the operations are those of amd64. *)
From Stdlib Require Import ZArith Reals Lra Lia SpecFloat.
From stdpp Require Import base tactics list.
#[local] Open Scope Z_scope.

Abbreviation f64 := spec_float.
Definition fadd : f64 -> f64 -> f64 := SFadd 53 1024.
Definition fsub : f64 -> f64 -> f64 := SFsub 53 1024.
Definition fmul : f64 -> f64 -> f64 := SFmul 53 1024.
Definition fdiv : f64 -> f64 -> f64 := SFdiv 53 1024.
Definition fsqrt : f64 -> f64 := SFsqrt 53 1024.
Definition fopp : f64 -> f64 := SFopp.
Definition flt : f64 -> f64 -> bool := SFltb.
Definition fle : f64 -> f64 -> bool := SFleb.
Definition feq : f64 -> f64 -> bool := SFeqb.
Definition f64_of_Z (n : Z) : f64 := binary_normalize 53 1024 n 0 false.
Definition flit (n d : Z) : f64 := fdiv (f64_of_Z n) (f64_of_Z d).


(** ** The value of a float, and correct rounding *)

Definition bpow (e : Z) : R := powerRZ 2 e.
Definition B2R (x : f64) : R :=
  match x with
  | S754_finite s m e => (IZR (cond_Zopp s (Zpos m)) * bpow e)%R
  | _ => 0%R
  end.
(** Finite, in canonical form. *)
Definition is_fin (x : f64) : bool :=
  match x with
  | S754_zero _ => true
  | S754_finite _ m e => bounded 53 1024 m e
  | _ => false
  end.
(** The numbers binary64 can represent. *)
Definition representable (x : R) : Prop :=
  exists m e, Z.abs m < 2 ^ 53 /\ -1074 <= e <= 971 /\ x = (IZR m * bpow e)%R.
(** [z] is a faithful rounding of [X]: no representable number lies strictly
    between them; an infinity only when [X] exceeds every representable number. *)
Definition rounds (z : f64) (X : R) : Prop :=
  (is_fin z = true /\ forall x, representable x ->
     ((x <= X)%R -> (x <= B2R z)%R) /\ ((X <= x)%R -> (B2R z <= x)%R)) \/
  (z = S754_infinity false /\ forall x, representable x -> (x < X)%R) \/
  (z = S754_infinity true /\ forall x, representable x -> (X < x)%R).

(** ** Powers of two *)
Lemma bpow_pos e : (0 < bpow e)%R.
Proof. apply powerRZ_lt. lra. Qed.
Lemma bpow_add a b : bpow (a + b) = (bpow a * bpow b)%R.
Proof. apply powerRZ_add. lra. Qed.
Lemma bpow_nat (n : nat) : bpow (Z.of_nat n) = IZR (2 ^ Z.of_nat n).
Proof. unfold bpow. rewrite <- pow_powerRZ. apply pow_IZR. Qed.
Lemma bpow_Z e : 0 <= e -> bpow e = IZR (2 ^ e).
Proof. intros He. rewrite <- (Z2Nat.id e) by lia. apply bpow_nat. Qed.
Lemma bpow_1 e : bpow (e + 1) = (2 * bpow e)%R.
Proof. rewrite bpow_add, (bpow_Z 1) by lia. simpl. lra. Qed.
(** [m * 2^e = (m * 2^(e-e0)) * 2^e0]: aligning to a smaller exponent. *)
Lemma bpow_align m e e0 : e0 <= e ->
  (IZR m * bpow e = IZR (m * 2 ^ (e - e0)) * bpow e0)%R.
Proof.
  intros H. replace e with ((e - e0) + e0) at 1 by lia.
  rewrite bpow_add, bpow_Z, mult_IZR by lia. lra.
Qed.
(** Comparing two multiples of the same power of two. *)
Lemma scale_le a b e : (IZR a * bpow e <= IZR b * bpow e)%R <-> a <= b.
Proof.
  pose proof (bpow_pos e). split; intros Hab.
  - apply le_IZR. eapply Rmult_le_reg_r; eassumption.
  - apply Rmult_le_compat_r; [lra|]. now apply IZR_le.
Qed.
Lemma scale_lt a b e : (IZR a * bpow e < IZR b * bpow e)%R <-> a < b.
Proof.
  pose proof (bpow_pos e). split; intros Hab.
  - apply lt_IZR. eapply Rmult_lt_reg_r; eassumption.
  - apply Rmult_lt_compat_r; [lra|]. now apply IZR_lt.
Qed.

(** ** Digits and right shifts *)
Lemma digits2_pos_bound p :
  2 ^ (Zpos (digits2_pos p) - 1) <= Zpos p < 2 ^ Zpos (digits2_pos p).
Proof.
  induction p as [p IH|p IH|]; simpl digits2_pos; [| |cbn; lia].
  all: rewrite Pos2Z.inj_succ.
  all: replace (Z.succ (Zpos (digits2_pos p)) - 1) with (Z.succ (Zpos (digits2_pos p) - 1)) by lia.
  all: rewrite !Z.pow_succ_r by lia; lia.
Qed.
Lemma Zdigits2_bound m : 0 < m -> 2 ^ (Zdigits2 m - 1) <= m < 2 ^ Zdigits2 m.
Proof. destruct m; try lia. intros _. apply digits2_pos_bound. Qed.
Lemma Zdigits2_nonneg m : 0 <= Zdigits2 m.
Proof. destruct m; simpl; lia. Qed.
Lemma Zdigits2_pos m : 0 < m -> 0 < Zdigits2 m.
Proof. destruct m; cbn [Zdigits2]; lia. Qed.
Lemma Zdigits2_unique m d : 0 < d -> 2 ^ (d - 1) <= m < 2 ^ d -> Zdigits2 m = d.
Proof.
  intros Hd [H1 H2]. assert (0 < m) by (pose proof (Z.pow_pos_nonneg 2 (d-1)); lia).
  destruct (Zdigits2_bound m) as [H3 H4]; [lia|].
  assert (d - 1 < Zdigits2 m) by (apply (Z.pow_lt_mono_r_iff 2); pose proof (Zdigits2_nonneg m); lia).
  assert (Zdigits2 m - 1 < d) by (apply (Z.pow_lt_mono_r_iff 2); lia). lia.
Qed.
Lemma Zdigits2_le m d : 0 <= m < 2 ^ d -> 0 <= d -> Zdigits2 m <= d.
Proof.
  intros Hm Hd. destruct (Z.eq_dec m 0) as [->|]; [simpl; lia|].
  destruct (Zdigits2_bound m) as [H3 _]; [lia|].
  assert (Zdigits2 m - 1 < d) by (apply (Z.pow_lt_mono_r_iff 2); lia). lia.
Qed.
Lemma Zdigits2_shl m k : 0 < m -> 0 <= k -> Zdigits2 (m * 2 ^ k) = Zdigits2 m + k.
Proof.
  intros Hm Hk. destruct (Zdigits2_bound m Hm).
  assert (0 < 2 ^ k) by (apply Z.pow_pos_nonneg; lia).
  pose proof (Zdigits2_pos m Hm). apply Zdigits2_unique; [lia|].
  replace (Zdigits2 m + k - 1) with (Zdigits2 m - 1 + k) by lia.
  rewrite !Z.pow_add_r by lia. nia.
Qed.

(** [inb m e l X]: the mantissa-exponent-location triple describes [X]. *)
Definition inb (m e : Z) (l : location) (X : R) : Prop :=
  match l with
  | loc_Exact => X = (IZR m * bpow e)%R
  | loc_Inexact _ => (IZR m * bpow e < X < IZR (m + 1) * bpow e)%R
  end.

Lemma inb_shr_1 mrs e X :
  0 <= shr_m mrs -> inb (shr_m mrs) e (loc_of_shr_record mrs) X ->
  shr_m (shr_1 mrs) = shr_m mrs / 2 /\
  inb (shr_m (shr_1 mrs)) (e + 1) (loc_of_shr_record (shr_1 mrs)) X.
Proof.
  destruct mrs as [m r s]; cbn [shr_m]. intros Hm Hin.
  pose proof (bpow_pos e) as Hb.
  assert (Hcase : exists q b, m = 2 * q + Z.b2z b /\ 0 <= q /\
     shr_1 (Build_shr_record m r s) = Build_shr_record q b (r || s)).
  { destruct m as [|[p|p|]|]; [exists 0, false|exists (Zpos p), true|exists (Zpos p), false
      |exists 0, true|lia]; (split; [|split]); (reflexivity || lia). }
  destruct Hcase as (q & b & -> & Hq & ->). cbn [shr_m].
  split; [apply Z.div_unique with (Z.b2z b); [destruct b; cbn; lia|lia]|].
  unfold inb in *. rewrite bpow_1.
  destruct r, s, b; cbn [loc_of_shr_record orb Z.b2z] in *;
    rewrite ?plus_IZR, ?mult_IZR in *; nra.
Qed.

Lemma inb_shr n : forall mrs e X,
  0 <= shr_m mrs -> inb (shr_m mrs) e (loc_of_shr_record mrs) X ->
  shr_m (SpecFloat.iter_pos shr_1 n mrs) = shr_m mrs / 2 ^ Zpos n /\
  inb (shr_m (SpecFloat.iter_pos shr_1 n mrs)) (e + Zpos n) (loc_of_shr_record (SpecFloat.iter_pos shr_1 n mrs)) X.
Proof.
  assert (Hcomb : forall m a b, 0 <= a -> 0 <= b -> m / 2 ^ a / 2 ^ b = m / 2 ^ (a + b)).
  { intros m a b Ha Hb. rewrite Z.div_div by (try apply Z.pow_nonzero; try apply Z.pow_pos_nonneg; lia).
    now rewrite <- Z.pow_add_r by lia. }
  assert (Hnn : forall m a, 0 <= m -> 0 <= a -> 0 <= m / 2 ^ a).
  { intros. apply Z.div_pos; [lia|]. apply Z.pow_pos_nonneg; lia. }
  induction n as [n IH|n IH|]; intros mrs e X Hm Hin; cbn [SpecFloat.iter_pos].
  - destruct (inb_shr_1 _ _ _ Hm Hin) as [E0 Hin0].
    destruct (IH (shr_1 mrs) (e + 1) X) as [E1 Hin1]; [rewrite E0; apply (Hnn _ 1); lia|assumption|].
    destruct (IH (SpecFloat.iter_pos shr_1 n (shr_1 mrs)) (e + 1 + Zpos n) X) as [E2 Hin2];
      [rewrite E1, E0; apply Hnn; [apply (Hnn _ 1)|]; lia|assumption|].
    split.
    + rewrite E2, E1, E0. change 2 with (2 ^ 1) at 1. rewrite !Hcomb by lia. f_equal. f_equal. lia.
    + replace (e + Zpos n~1) with (e + 1 + Zpos n + Zpos n) by lia. assumption.
  - destruct (IH mrs e X) as [E1 Hin1]; [assumption..|].
    destruct (IH (SpecFloat.iter_pos shr_1 n mrs) (e + Zpos n) X) as [E2 Hin2];
      [rewrite E1; apply Hnn; lia|assumption|].
    split.
    + rewrite E2, E1, !Hcomb by lia. f_equal. f_equal. lia.
    + replace (e + Zpos n~0) with (e + Zpos n + Zpos n) by lia. assumption.
  - apply inb_shr_1; assumption.
Qed.

(** ** Correctness of the rounding step *)
Abbreviation gexp := (fexp 53 1024).
Lemma gexp_eq e : gexp e = Z.max (e - 53) (-1074).
Proof. reflexivity. Qed.

Lemma shr_fexp_spec m e l X :
  0 <= m -> e <= gexp (Zdigits2 m + e) -> inb m e l X ->
  exists mrs, shr_fexp 53 1024 m e l = (mrs, gexp (Zdigits2 m + e)) /\
    inb (shr_m mrs) (gexp (Zdigits2 m + e)) (loc_of_shr_record mrs) X /\
    0 <= shr_m mrs < 2 ^ 53 /\
    (gexp (Zdigits2 m + e) = -1074 \/ 2 ^ 52 <= shr_m mrs).
Proof.
  intros Hm He Hin.
  set (mrs0 := shr_record_of_loc m l).
  assert (Hm0 : shr_m mrs0 = m) by (destruct l as [|[]]; reflexivity).
  assert (Hl0 : loc_of_shr_record mrs0 = l) by (destruct l as [|[]]; reflexivity).
  set (n := gexp (Zdigits2 m + e) - e).
  assert (Hn : exists mrs, shr mrs0 e n = (mrs, e + n) /\ shr_m mrs = m / 2 ^ n /\
      inb (shr_m mrs) (e + n) (loc_of_shr_record mrs) X).
  { unfold shr. destruct n as [|p|p] eqn:En; [| |lia].
    - exists mrs0. rewrite Z.add_0_r, Hm0, Hl0, Z.pow_0_r, Z.div_1_r. auto.
    - exists (SpecFloat.iter_pos shr_1 p mrs0).
      destruct (inb_shr p mrs0 e X) as [E1 E2]; [lia|now rewrite Hm0, Hl0|].
      rewrite Hm0 in E1. auto. }
  destruct Hn as (mrs & E & Em & Hin'). exists mrs.
  replace (e + n) with (gexp (Zdigits2 m + e)) in * by lia.
  split; [exact E|]. split; [assumption|]. rewrite Em. clear E Em Hin' Hin.
  pose proof (gexp_eq (Zdigits2 m + e)) as Hg.
  assert (0 < 2 ^ n) by (apply Z.pow_pos_nonneg; lia).
  destruct (Z.eq_dec m 0) as [->|Hm1].
  { rewrite Z.div_0_l by lia. cbn [Zdigits2] in *. split; [lia|left; lia]. }
  destruct (Zdigits2_bound m) as [Hlo Hhi]; [lia|].
  split; [split|].
  - apply Z.div_pos; lia.
  - apply Z.div_lt_upper_bound; [lia|]. rewrite <- Z.pow_add_r by lia.
    eapply Z.lt_le_trans; [exact Hhi|]. apply Z.pow_le_mono_r; lia.
  - destruct (Z.eq_dec (gexp (Zdigits2 m + e)) (-1074)); [left; lia|right].
    apply Z.div_le_lower_bound; [lia|]. rewrite <- Z.pow_add_r by lia.
    replace (n + 52) with (Zdigits2 m - 1) by lia. lia.
Qed.

(** A magnitude: [m * 2^e] with at most 53 bits on binary64's grid. *)
Definition mag (x : R) : Prop :=
  exists m e, 0 <= m < 2 ^ 53 /\ -1074 <= e /\ x = (IZR m * bpow e)%R.

Lemma mag_floor m e f X :
  0 <= m -> (e = -1074 \/ 2 ^ 52 <= m) -> mag f ->
  (X < IZR (m + 1) * bpow e)%R -> (f <= X)%R -> (f <= IZR m * bpow e)%R.
Proof.
  intros Hm Hnorm (mf & ef & Hmf & Hef & ->) HX Hf.
  destruct (Z_le_gt_dec e ef) as [H|H].
  - rewrite (bpow_align mf ef e) in * by lia. apply scale_le.
    assert (mf * 2 ^ (ef - e) < m + 1) by (apply (scale_lt _ _ e); lra). lia.
  - rewrite (bpow_align m e ef) by lia. apply scale_le.
    assert (2 ^ 52 <= m) by lia.
    assert (2 ^ 1 <= 2 ^ (e - ef)) by (apply Z.pow_le_mono_r; lia). nia.
Qed.

Lemma mag_ceil m e f X :
  0 <= m -> (e = -1074 \/ 2 ^ 52 <= m) -> mag f ->
  (IZR m * bpow e < X)%R -> (X <= f)%R -> (IZR (m + 1) * bpow e <= f)%R.
Proof.
  intros Hm Hnorm (mf & ef & Hmf & Hef & ->) HX Hf.
  destruct (Z_le_gt_dec e ef) as [H|H].
  - rewrite (bpow_align mf ef e) in * by lia. apply scale_le.
    assert (m < mf * 2 ^ (ef - e)) by (apply (scale_lt _ _ e); lra). lia.
  - exfalso. rewrite (bpow_align m e ef) in HX by lia.
    assert (m * 2 ^ (e - ef) < mf) by (apply (scale_lt _ _ ef); lra).
    assert (2 ^ 52 <= m) by lia.
    assert (2 ^ 1 <= 2 ^ (e - ef)) by (apply Z.pow_le_mono_r; lia). nia.
Qed.

(** The packed result of rounding mantissa [m] (at most 2^53) at exponent [e]. *)
Lemma pack_spec sx m e :
  0 <= m <= 2 ^ 53 -> -1074 <= e -> (e = -1074 \/ 2 ^ 52 <= m) ->
  let z := (let '(mrs, e') := shr_fexp 53 1024 m e loc_Exact in
            match shr_m mrs with
            | Z0 => S754_zero sx
            | Zpos p => if Z.leb e' (1024 - 53) then S754_finite sx p e' else S754_infinity sx
            | _ => S754_nan
            end) in
  (is_fin z = true /\ B2R z = (if sx then - (IZR m * bpow e) else IZR m * bpow e)%R) \/
  (z = S754_infinity sx /\ (bpow 1024 <= IZR m * bpow e)%R).
Proof.
  intros Hm He Hnorm z.
  assert (Hfin : forall p e', -1074 <= e' -> Zpos p < 2 ^ 53 -> (e' = -1074 \/ 2 ^ 52 <= Zpos p) ->
     (IZR (Zpos p) * bpow e')%R = (IZR m * bpow e)%R ->
     let z := if Z.leb e' (1024 - 53) then S754_finite sx p e' else S754_infinity sx in
     (is_fin z = true /\ B2R z = (if sx then - (IZR m * bpow e) else IZR m * bpow e)%R) \/
     (z = S754_infinity sx /\ (bpow 1024 <= IZR m * bpow e)%R)).
  { intros p e' He' Hp Hn Hv z0. subst z0. rewrite <- Hv.
    destruct (Z.leb_spec e' (1024 - 53)) as [Hle|Hgt]; [left|right]; split.
    - cbn [is_fin]. unfold bounded, canonical_mantissa.
      apply andb_true_intro. split; [|apply Z.leb_le; lia]. apply Z.eqb_eq.
      rewrite gexp_eq.
      assert (Zdigits2 (Zpos p) <= 53) by (apply Zdigits2_le; lia).
      cbn [Zdigits2] in *. destruct Hn as [->|Hn]; [lia|].
      assert (Zdigits2 (Zpos p) = 53) by (apply Zdigits2_unique; lia).
      cbn [Zdigits2] in *. lia.
    - cbn [B2R]. destruct sx; cbn [cond_Zopp]; [rewrite opp_IZR|]; lra.
    - reflexivity.
    - assert (2 ^ 52 <= Zpos p) by lia.
      replace (bpow 1024) with (IZR (2 ^ 52) * bpow 972)%R
        by (rewrite <- bpow_Z by lia; now rewrite <- bpow_add).
      rewrite (bpow_align _ e' 972) by lia. apply scale_le.
      assert (0 < 2 ^ (e' - 972)) by (apply Z.pow_pos_nonneg; lia). nia. }
  destruct (Z.eq_dec m (2 ^ 53)) as [Em|Em].
  - subst z. rewrite Em in Hfin |- *. unfold shr_fexp.
    replace (gexp (Zdigits2 (2 ^ 53) + e) - e) with 1
      by (rewrite gexp_eq; change (Zdigits2 (2^53)) with 54; lia).
    cbn [shr SpecFloat.iter_pos shr_record_of_loc]. change (2 ^ 53) with (Zpos (2 ^ 52)~0).
    cbn [shr_1 orb shr_m]. apply (Hfin (2 ^ 52)%positive (e + 1)); [lia|reflexivity|right; reflexivity|].
    rewrite bpow_1. change (Zpos (2 ^ 52)~0) with (2 ^ 53).
    assert (IZR (2 ^ 53) = 2 * IZR (2 ^ 52))%R by (rewrite <- mult_IZR; reflexivity).
    change (Zpos (2 ^ 52)) with (2 ^ 52). nra.
  - assert (Hd : Zdigits2 m <= 53) by (apply Zdigits2_le; lia).
    subst z. unfold shr_fexp.
    assert (Hshr : shr (shr_record_of_loc m loc_Exact) e (gexp (Zdigits2 m + e) - e)
                   = (shr_record_of_loc m loc_Exact, e)).
    { pose proof (gexp_eq (Zdigits2 m + e)). unfold shr.
      destruct (gexp (Zdigits2 m + e) - e) eqn:E; [reflexivity|lia|reflexivity]. }
    rewrite Hshr. cbn [shr_m shr_record_of_loc].
    destruct m as [|p|p]; [|apply Hfin; auto; lia|lia].
    left. split; [reflexivity|]. cbn. destruct sx; lra.
Qed.

Lemma binary_round_aux_spec sx mx ex lx X :
  0 <= mx -> ex <= gexp (Zdigits2 mx + ex) -> inb mx ex lx X ->
  exists r : R,
    (forall f, mag f -> ((f <= X)%R -> (f <= r)%R) /\ ((X <= f)%R -> (r <= f)%R)) /\
    let z := binary_round_aux 53 1024 sx mx ex lx in
    ((is_fin z = true /\ B2R z = (if sx then - r else r)%R) \/
     (z = S754_infinity sx /\ (bpow 1024 <= r)%R)).
Proof.
  intros Hm He Hin.
  destruct (shr_fexp_spec mx ex lx X Hm He Hin) as (mrs & Eshr & Hin' & Hb & Hn).
  set (e' := gexp (Zdigits2 mx + ex)) in *. set (m' := shr_m mrs) in *.
  pose proof (gexp_eq (Zdigits2 mx + ex)) as Hge. fold e' in Hge.
  assert (Hrne : exists m2, round_nearest_even m' (loc_of_shr_record mrs) = m2 /\
     ((m2 = m' /\ X = (IZR m' * bpow e')%R) \/
      (m2 = m' \/ m2 = m' + 1) /\ (IZR m' * bpow e' < X < IZR (m' + 1) * bpow e')%R)).
  { destruct (loc_of_shr_record mrs) as [|[]]; cbn in Hin' |- *; eexists; (split; [reflexivity|]).
    - auto.
    - right. split; [destruct (Z.even m')|]; auto.
    - right; auto.
    - right; auto. }
  destruct Hrne as (m2 & E2 & Hm2).
  exists (IZR m2 * bpow e')%R. split.
  - intros f Hf.
    destruct Hm2 as [[-> ->]|[Hm2 [HX1 HX2]]]; [tauto|].
    pose proof (mag_floor m' e' f X ltac:(lia) Hn Hf HX2) as Hfl.
    pose proof (mag_ceil m' e' f X ltac:(lia) Hn Hf HX1) as Hce.
    assert (IZR m' * bpow e' <= IZR (m' + 1) * bpow e')%R by (apply scale_le; lia).
    destruct Hm2 as [-> | ->]; split; intros Hcmp.
    + auto.
    + specialize (Hce Hcmp). lra.
    + specialize (Hfl Hcmp). lra.
    + auto.
  - unfold binary_round_aux. rewrite Eshr. cbn zeta. fold m'. rewrite E2.
    apply (pack_spec sx m2 e'); [lia|lia|]. destruct Hn; [now left|right]. lia.
Qed.

Lemma representable_mag x : representable x -> (0 <= x)%R -> mag x.
Proof.
  intros (m & e & Hm & He & ->) Hx. exists m, e. split; [|split; [lia|reflexivity]].
  assert (0 <= m); [|lia]. pose proof (bpow_pos e). apply (scale_le 0 m e). lra.
Qed.
Lemma representable_opp x : representable x -> representable (- x).
Proof.
  intros (m & e & Hm & He & ->). exists (- m), e. rewrite opp_IZR. repeat split; [lia..|lra].
Qed.
Lemma representable_lt_max x : representable x -> (x < bpow 1024)%R.
Proof.
  intros (m & e & Hm & He & ->). apply Rle_lt_trans with (IZR (2 ^ 53 - 1) * bpow 971)%R.
  - destruct (Z_le_gt_dec 0 m).
    + rewrite (bpow_align _ 971 e) by lia. apply scale_le.
      assert (0 < 2 ^ (971 - e)) by (apply Z.pow_pos_nonneg; lia). nia.
    + pose proof (bpow_pos e). pose proof (bpow_pos 971).
      assert (IZR m <= 0)%R by (apply IZR_le; lia).
      assert (0 <= IZR (2 ^ 53 - 1))%R by (apply IZR_le; lia). nra.
  - replace (bpow 1024) with (IZR (2 ^ 53) * bpow 971)%R
      by (rewrite <- bpow_Z by lia; now rewrite <- bpow_add).
    apply scale_lt. lia.
Qed.

Lemma rounds_aux sx mx ex lx X :
  0 <= mx -> ex <= gexp (Zdigits2 mx + ex) -> (0 <= X)%R -> inb mx ex lx X ->
  rounds (binary_round_aux 53 1024 sx mx ex lx) (if sx then - X else X)%R.
Proof.
  intros Hm He HX Hin.
  destruct (binary_round_aux_spec sx mx ex lx X Hm He Hin) as (r & Hr & Hz).
  assert (Hmag0 : mag 0) by (exists 0, 0; repeat split; [lia..|lra]).
  assert (Hr0 : (0 <= r)%R) by (apply (Hr 0%R); [exact Hmag0|exact HX]).
  assert (Hrep : forall x, representable x -> ((x <= X)%R -> (x <= r)%R) /\ ((X <= x)%R -> (r <= x)%R)).
  { intros x Hx. destruct (Rle_dec 0 x) as [H0|H0].
    - apply Hr, representable_mag; assumption.
    - split; lra. }
  assert (Hbig : (bpow 1024 <= r)%R -> forall x, representable x -> (x < X)%R).
  { intros Hb x Hx. pose proof (representable_lt_max x Hx).
    destruct (Rlt_le_dec x X) as [|Hc]; [assumption|].
    pose proof (proj2 (Hrep x Hx) Hc). lra. }
  destruct Hz as [[Hf Hv]|[-> Hb]].
  - left. split; [exact Hf|]. rewrite Hv. intros x Hx.
    destruct sx; [|apply Hrep, Hx].
    destruct (Hrep (- x)%R (representable_opp x Hx)) as [H1 H2]. split; intros Hc.
    + assert (r <= - x)%R by (apply H2; lra). lra.
    + assert (- x <= r)%R by (apply H1; lra). lra.
  - right. destruct sx; [right|left]; (split; [reflexivity|]); intros x Hx; [|auto].
    pose proof (Hbig Hb (- x)%R (representable_opp x Hx)). lra.
Qed.

(** ** The operations round their exact results *)
Lemma is_fin_bounded s m e : is_fin (S754_finite s m e) = true ->
  Zpos m < 2 ^ 53 /\ -1074 <= e <= 971 /\ (e = -1074 \/ 2 ^ 52 <= Zpos m) /\
  gexp (Zpos (digits2_pos m) + e) = e.
Proof.
  cbn [is_fin]. unfold bounded, canonical_mantissa. intros [H1 H2]%andb_prop.
  apply Z.eqb_eq in H1. apply Z.leb_le in H2.
  pose proof (gexp_eq (Zpos (digits2_pos m) + e)) as Hg.
  pose proof (digits2_pos_bound m) as [Hlo Hhi].
  assert (2 ^ Zpos (digits2_pos m) <= 2 ^ 53) by (apply Z.pow_le_mono_r; lia).
  repeat split; try lia.
  destruct (Z.eq_dec e (-1074)); [now left|right].
  replace (Zpos (digits2_pos m)) with 53 in Hlo by lia. lia.
Qed.

Lemma is_fin_representable x : is_fin x = true -> representable (B2R x).
Proof.
  destruct x as [s| | |s m e]; intros H; try discriminate.
  - exists 0, 0. cbn. repeat split; [lia..|lra].
  - apply is_fin_bounded in H as (H1 & H2 & _). cbn [B2R].
    exists (cond_Zopp s (Zpos m)), e. repeat split; [destruct s; cbn [cond_Zopp]; lia|lia|lia].
Qed.
Lemma representable_double x : is_fin x = true -> (0 <= B2R x <= IZR (2 ^ 100))%R -> representable (2 * B2R x).
Proof.
  destruct x as [s| | |s m e]; intros Hf [H0 H1]; try discriminate.
  - exists 0, 0. cbn. repeat split; [lia..|lra].
  - apply is_fin_bounded in Hf as (Hm & He & _). cbn [B2R] in *.
    assert (Hs : s = false).
    { destruct s; [exfalso|done]. cbn [cond_Zopp] in H0. pose proof (bpow_pos e).
      assert (Hm1 : (IZR (Z.neg m) <= -1)%R) by (apply (IZR_le _ (-1)); lia).
      change (Z.opp (Z.pos m)) with (Z.neg m) in H0. revert H0 Hm1. generalize (IZR (Z.neg m)). intros. nra. }
    subst s. cbn [cond_Zopp] in *. destruct (Z.eq_dec e 971) as [->|Hne].
    + exfalso. assert (Hm1 : (1 <= IZR (Z.pos m))%R) by (apply (IZR_le 1); lia).
      assert (Hb : (IZR (2 ^ 100) < bpow 971)%R) by (rewrite bpow_Z by lia; apply IZR_lt, Z.pow_lt_mono_r; lia).
      pose proof (bpow_pos 971) as Hp. revert H1 Hb Hp. generalize (bpow 971) (IZR (2 ^ 100)) (IZR (Z.pos m)) Hm1. intros. nra.
    + exists (Z.pos m), (e + 1). split; [lia|]. split; [lia|]. rewrite bpow_1. lra.
Qed.
Lemma rounds_exact z X : is_fin z = true -> B2R z = X -> rounds z X.
Proof. intros Hf <-. left. split; [exact Hf|auto]. Qed.

(** Correct results: a representable exact value is returned as is, and two
    representable bounds of the exact value bound the result. *)
Lemma rounds_representable z X : rounds z X -> representable X -> is_fin z = true /\ B2R z = X.
Proof.
  intros [[Hf H]|[[_ H]|[_ H]]] HX; [|specialize (H _ HX); lra..].
  split; [exact Hf|]. destruct (H X HX) as [H1 H2]. apply Rle_antisym; [apply H2|apply H1]; lra.
Qed.
Lemma rounds_between z X lo hi :
  rounds z X -> representable lo -> representable hi -> (lo <= X <= hi)%R ->
  is_fin z = true /\ (lo <= B2R z <= hi)%R.
Proof.
  intros [[Hf H]|[[_ H]|[_ H]]] Hlo Hhi HX;
    [|specialize (H _ Hhi); lra|specialize (H _ Hlo); lra].
  split; [exact Hf|]. split; [apply (H lo Hlo)|apply (H hi Hhi)]; lra.
Qed.

Lemma shl_align_spec mx ex ex' :
  let '(mz, ez) := shl_align mx ex ex' in
  ez = Z.min ex ex' /\ Zpos mz = Zpos mx * 2 ^ (ex - ez).
Proof.
  assert (Hit : forall d, Zpos (Pos.iter xO mx d) = Zpos mx * 2 ^ Zpos d).
  { induction d as [|d IH] using Pos.peano_ind.
    - cbn [Pos.iter]. change (2 ^ 1) with 2. lia.
    - rewrite Pos.iter_succ, Pos2Z.inj_xO, IH, Pos2Z.inj_succ, Z.pow_succ_r by lia. lia. }
  unfold shl_align. destruct (ex' - ex) as [|p|p] eqn:E.
  - split; [lia|]. rewrite Z.sub_diag. lia.
  - split; [lia|]. rewrite Z.sub_diag. lia.
  - split; [lia|]. rewrite Hit. f_equal. f_equal. lia.
Qed.

Lemma rounds_normalize m e szero :
  rounds (binary_normalize 53 1024 m e szero) (IZR m * bpow e)%R.
Proof.
  assert (Hpos : forall s p, rounds (binary_round 53 1024 s p e)
     (if s then - (IZR (Zpos p) * bpow e) else IZR (Zpos p) * bpow e)%R).
  { intros s p. unfold binary_round.
    pose proof (shl_align_spec p e (gexp (Zpos (digits2_pos p) + e))) as Hs.
    destruct (shl_align p e (gexp (Zpos (digits2_pos p) + e))) as [mz ez].
    destruct Hs as [Hez Hmz].
    assert (Hd : Zdigits2 (Zpos mz) = Zpos (digits2_pos p) + (e - ez))
      by (rewrite Hmz; apply Zdigits2_shl; lia).
    pose proof (bpow_pos e).
    apply rounds_aux; [lia| | |].
    - rewrite Hd. replace (Zpos (digits2_pos p) + (e - ez) + ez) with (Zpos (digits2_pos p) + e) by lia. lia.
    - assert (0 <= IZR (Zpos p))%R by (apply IZR_le; lia). nra.
    - cbn [inb]. rewrite Hmz. apply bpow_align. lia. }
  destruct m as [|p|p]; cbn [binary_normalize].
  - apply rounds_exact; [reflexivity|]. cbn. lra.
  - apply (Hpos false).
  - pose proof (Hpos true p) as H. cbn beta iota in H.
    replace (IZR (Zneg p) * bpow e)%R with (- (IZR (Zpos p) * bpow e))%R; [exact H|].
    change (Zneg p) with (- Zpos p). rewrite opp_IZR. lra.
Qed.

Lemma f64_of_Z_rounds n : rounds (f64_of_Z n) (IZR n).
Proof.
  pose proof (rounds_normalize n 0 false) as H. unfold f64_of_Z.
  replace (IZR n) with (IZR n * bpow 0)%R by (cbn; lra). exact H.
Qed.
Lemma representable_Z n : Z.abs n <= 2 ^ 53 -> representable (IZR n).
Proof.
  intros Hn. destruct (Z.eq_dec (Z.abs n) (2 ^ 53)) as [E|E].
  - exists (Z.sgn n * 2 ^ 52), 1. repeat split; [lia..|].
    rewrite (bpow_Z 1), <- mult_IZR by lia. f_equal. lia.
  - exists n, 0. repeat split; [lia..|]. cbn. lra.
Qed.
Lemma f64_of_Z_exact n : Z.abs n <= 2 ^ 53 ->
  is_fin (f64_of_Z n) = true /\ B2R (f64_of_Z n) = IZR n.
Proof. intros Hn. apply rounds_representable; [apply f64_of_Z_rounds|now apply representable_Z]. Qed.

Lemma B2R_align s m e ez : ez <= e ->
  B2R (S754_finite s m e) = (IZR (cond_Zopp s (Zpos (fst (shl_align m e ez)))) * bpow ez)%R.
Proof.
  intros H. pose proof (shl_align_spec m e ez) as Hs.
  destruct (shl_align m e ez) as [mz ez'] eqn:E. destruct Hs as [-> Hm].
  replace (Z.min e ez) with ez in * by lia. cbn [fst B2R]. rewrite Hm.
  rewrite (bpow_align _ e ez) by lia. f_equal. f_equal. destruct s; cbn [cond_Zopp]; lia.
Qed.

Lemma fadd_rounds x y : is_fin x = true -> is_fin y = true -> rounds (fadd x y) (B2R x + B2R y).
Proof.
  destruct x as [sx| | |sx mx ex]; try discriminate; destruct y as [sy| | |sy my ey]; try discriminate;
    intros Hx Hy; unfold fadd, SFadd.
  1-3: try (destruct sx, sy); apply rounds_exact; (assumption || cbn; lra).
  rewrite (B2R_align sx mx ex (Z.min ex ey)), (B2R_align sy my ey (Z.min ex ey)) by lia.
  rewrite <- Rmult_plus_distr_r, <- plus_IZR. apply rounds_normalize.
Qed.

Lemma fopp_fin x : is_fin (fopp x) = is_fin x.
Proof. destruct x as [[]| | |]; reflexivity. Qed.
Lemma fopp_B2R x : B2R (fopp x) = (- B2R x)%R.
Proof.
  destruct x as [[]|[]| |[] m e]; cbn [fopp SFopp B2R negb cond_Zopp]; try lra.
  - change (- Zpos m) with (Zneg m). change (Zneg m) with (- Zpos m). rewrite opp_IZR. lra.
  - rewrite opp_IZR. lra.
Qed.

Lemma fsub_rounds x y : is_fin x = true -> is_fin y = true -> rounds (fsub x y) (B2R x - B2R y).
Proof.
  destruct x as [sx| | |sx mx ex]; try discriminate; destruct y as [sy| | |sy my ey]; try discriminate;
    intros Hx Hy; unfold fsub, SFsub.
  - destruct sx, sy; apply rounds_exact; (assumption || cbn; lra).
  - apply rounds_exact; [exact Hy|]. pose proof (fopp_B2R (S754_finite sy my ey)) as H.
    cbn [fopp SFopp] in H. rewrite H. cbn [B2R]. lra.
  - apply rounds_exact; [exact Hx|]. cbn [B2R]. lra.
  - rewrite (B2R_align sx mx ex (Z.min ex ey)), (B2R_align sy my ey (Z.min ex ey)) by lia.
    rewrite <- Rmult_minus_distr_r, <- minus_IZR. apply rounds_normalize.
Qed.

Lemma cond_Zopp_IZR s m : IZR (cond_Zopp s m) = (if s then - IZR m else IZR m)%R.
Proof. destruct s; cbn [cond_Zopp]; [apply opp_IZR|reflexivity]. Qed.

Lemma fmul_rounds x y : is_fin x = true -> is_fin y = true -> rounds (fmul x y) (B2R x * B2R y).
Proof.
  destruct x as [sx| | |sx mx ex]; try discriminate; destruct y as [sy| | |sy my ey]; try discriminate;
    intros Hx Hy; unfold fmul, SFmul; [apply rounds_exact; [reflexivity|cbn [B2R]; lra]..|].
  apply is_fin_bounded in Hx as (_ & _ & _ & Hex). apply is_fin_bounded in Hy as (_ & _ & _ & Hey).
  replace (B2R (S754_finite sx mx ex) * B2R (S754_finite sy my ey))%R
    with (if xorb sx sy then - (IZR (Zpos (mx * my)) * bpow (ex + ey))
          else IZR (Zpos (mx * my)) * bpow (ex + ey))%R.
  2:{ cbn [B2R]. rewrite !cond_Zopp_IZR, Pos2Z.inj_mul, mult_IZR, bpow_add.
      destruct sx, sy; cbn [xorb]; lra. }
  assert (Hp : (0 <= IZR (Zpos (mx * my)) * bpow (ex + ey))%R).
  { pose proof (bpow_pos (ex + ey)). assert (0 <= IZR (Zpos (mx * my)))%R by (apply IZR_le; lia). nra. }
  apply rounds_aux; [lia| |exact Hp|reflexivity].
  rewrite gexp_eq in *.
  pose proof (digits2_pos_bound mx) as [Hx _]. pose proof (digits2_pos_bound my) as [Hy _].
  assert (Hd : Zpos (digits2_pos mx) + Zpos (digits2_pos my) - 1 <= Zdigits2 (Zpos (mx * my))).
  { destruct (Zdigits2_bound (Zpos (mx * my))) as [_ Hb]; [lia|].
    assert (Zpos (digits2_pos mx) - 1 + (Zpos (digits2_pos my) - 1) < Zdigits2 (Zpos (mx * my))); [|lia].
    apply (Z.pow_lt_mono_r_iff 2); [lia|apply Zdigits2_nonneg|].
    eapply Z.le_lt_trans; [|exact Hb]. rewrite Z.pow_add_r, Pos2Z.inj_mul by lia.
    apply Z.mul_le_mono_nonneg; try assumption; apply Z.pow_nonneg; lia. }
  lia.
Qed.

Lemma fdiv_core_spec mx ex my ey q e l :
  SFdiv_core_binary 53 1024 (Zpos mx) ex (Zpos my) ey = (q, e, l) ->
  0 <= q /\ e <= gexp (Zdigits2 q + e) /\
  inb q e l (IZR (Zpos mx) * bpow ex / (IZR (Zpos my) * bpow ey)).
Proof.
  unfold SFdiv_core_binary. cbn zeta.
  set (d1 := Zdigits2 (Zpos mx)). set (d2 := Zdigits2 (Zpos my)).
  set (e0 := Z.min (gexp (d1 + ex - (d2 + ey))) (ex - ey)).
  set (s := ex - ey - e0). assert (Hs : 0 <= s) by lia.
  replace (match s with 0 => Zpos mx | Zpos _ => Z.shiftl (Zpos mx) s | Zneg _ => 0 end)
    with (Zpos mx * 2 ^ s).
  2:{ destruct s eqn:E; [now rewrite Z.mul_1_r| |lia]. rewrite Z.shiftl_mul_pow2 by lia. reflexivity. }
  pose proof (Z_div_mod (Zpos mx * 2 ^ s) (Zpos my) eq_refl) as Hdm.
  destruct (Z.div_eucl (Zpos mx * 2 ^ s) (Zpos my)) as [q0 r] eqn:Eq.
  intros [= <- <- <-]. destruct Hdm as [Hdm Hr].
  assert (0 < 2 ^ s) by (apply Z.pow_pos_nonneg; lia).
  assert (Hq : 0 <= q0) by nia.
  split; [exact Hq|]. split.
  - destruct (Zdigits2_bound (Zpos mx)) as [Hx1 _]; [lia|]. fold d1 in Hx1.
    destruct (Zdigits2_bound (Zpos my)) as [_ Hy2]; [lia|]. fold d2 in Hy2.
    assert (Hd1 : 0 < d1) by (apply Zdigits2_pos; lia).
    assert (Hd2 : 0 < d2) by (apply Zdigits2_pos; lia).
    assert (Hdq : d1 + s - d2 <= Zdigits2 q0).
    { destruct (Z_le_gt_dec (d1 + s - d2) 0); [pose proof (Zdigits2_nonneg q0); lia|].
      assert (Hlow : 2 ^ (d1 + s - d2 - 1) <= q0).
      { assert (Zpos mx * 2 ^ s < Zpos my * (q0 + 1)) by nia.
        assert (2 ^ (d1 - 1 + s) <= Zpos mx * 2 ^ s) by (rewrite Z.pow_add_r by lia; nia).
        assert (Hlt : 2 ^ (d1 - 1 + s) < 2 ^ d2 * (q0 + 1)) by nia.
        replace (d1 - 1 + s) with (d2 + (d1 + s - d2 - 1)) in Hlt by lia.
        rewrite Z.pow_add_r in Hlt by lia.
        assert (0 < 2 ^ d2) by (apply Z.pow_pos_nonneg; lia). nia. }
      assert (0 < q0) by (pose proof (Z.pow_pos_nonneg 2 (d1 + s - d2 - 1)); lia).
      destruct (Zdigits2_bound q0) as [_ Hq2]; [lia|].
      assert (d1 + s - d2 - 1 < Zdigits2 q0); [|lia].
      apply (Z.pow_lt_mono_r_iff 2); [lia|apply Zdigits2_nonneg|lia]. }
    pose proof (gexp_eq (d1 + ex - (d2 + ey))). pose proof (gexp_eq (Zdigits2 q0 + e0)).
    assert (s = ex - ey - e0) by reflexivity.
    assert (e0 = Z.min (gexp (d1 + ex - (d2 + ey))) (ex - ey)) by reflexivity. clearbody s e0. lia.
  - assert (HX : (IZR (Zpos mx) * bpow ex / (IZR (Zpos my) * bpow ey)
                  = IZR (Zpos mx * 2 ^ s) / IZR (Zpos my) * bpow e0)%R).
    { rewrite mult_IZR, <- bpow_Z by lia. pose proof (bpow_pos ey).
      replace ex with (s + (ey + e0)) by lia. rewrite !bpow_add.
      assert (0 < IZR (Zpos my))%R by (apply IZR_lt; lia). field. lra. }
    rewrite HX, Hdm, plus_IZR, mult_IZR. clear HX.
    assert (Hy : (0 < IZR (Zpos my))%R) by (apply IZR_lt; lia).
    pose proof (bpow_pos e0) as Hb.
    assert (Hloc : (r = 0 /\ new_location (Zpos my) r = loc_Exact) \/
                   (r <> 0 /\ exists c, new_location (Zpos my) r = loc_Inexact c)).
    { unfold new_location. clear Hdm Eq. destruct r as [|p|p]; [left|right|lia].
      - split; [reflexivity|]. match goal with |- (if ?b then _ else _) _ = _ => now destruct b end.
      - split; [lia|]. match goal with |- context [(if ?b then _ else _) _] => destruct b end;
          eexists; reflexivity. }
    destruct Hloc as [[-> ->]|[Hr0 [c ->]]]; cbn [inb].
    + field. lra.
    + assert (0 < IZR r < IZR (Zpos my))%R by (split; apply IZR_lt; lia).
      replace ((IZR (Zpos my) * IZR q0 + IZR r) / IZR (Zpos my))%R
        with (IZR q0 + IZR r / IZR (Zpos my))%R by (field; lra).
      assert (0 < IZR r / IZR (Zpos my) < 1)%R.
      { split; [apply Rdiv_lt_0_compat; lra|]. apply Rmult_lt_reg_r with (IZR (Zpos my)); [lra|].
        replace (IZR r / IZR (Zpos my) * IZR (Zpos my))%R with (IZR r) by (field; lra). lra. }
      rewrite plus_IZR. nra.
Qed.

Lemma fdiv_rounds x y : is_fin x = true -> is_fin y = true -> B2R y <> 0%R ->
  rounds (fdiv x y) (B2R x / B2R y).
Proof.
  intros Hx Hy Hy0.
  destruct y as [sy| | |sy my ey]; try discriminate; [now destruct Hy0|].
  destruct x as [sx| | |sx mx ex]; try discriminate; unfold fdiv, SFdiv.
  - apply rounds_exact; [reflexivity|]. cbn [B2R]. now rewrite Rdiv_0_l.
  - destruct (SFdiv_core_binary 53 1024 (Zpos mx) ex (Zpos my) ey) as [[q e] l] eqn:E.
    apply fdiv_core_spec in E as (Hq & He & Hin).
    assert (Hmx : (0 < IZR (Zpos mx))%R) by (apply IZR_lt; lia).
    assert (Hmy : (0 < IZR (Zpos my))%R) by (apply IZR_lt; lia).
    pose proof (bpow_pos ex). pose proof (bpow_pos ey).
    set (X := (IZR (Zpos mx) * bpow ex / (IZR (Zpos my) * bpow ey))%R) in *.
    replace (B2R (S754_finite sx mx ex) / B2R (S754_finite sy my ey))%R
      with (if xorb sx sy then - X else X)%R.
    2:{ unfold X. cbn [B2R]. rewrite !cond_Zopp_IZR. destruct sx, sy; cbn [xorb]; field; lra. }
    apply rounds_aux; [exact Hq|exact He| |exact Hin].
    unfold X. apply Rlt_le, Rdiv_lt_0_compat; nra.
Qed.

(** The float nearest to [n / d], for any size of the two. *)
Definition fratio (n d : positive) : f64 := fdiv (S754_finite false n 0) (S754_finite false d 0).

Lemma fratio_rounds n d : rounds (fratio n d) (IZR (Zpos n) / IZR (Zpos d)).
Proof.
  unfold fratio, fdiv, SFdiv. destruct (SFdiv_core_binary 53 1024 (Zpos n) 0 (Zpos d) 0) as [[q e] l] eqn:E.
  apply fdiv_core_spec in E as (Hq & He & Hin). unfold bpow in Hin. cbn [powerRZ] in Hin. rewrite !Rmult_1_r in Hin.
  assert (Hn : (0 < IZR (Zpos n))%R) by (apply IZR_lt; lia). assert (Hd : (0 < IZR (Zpos d))%R) by (apply IZR_lt; lia).
  apply (rounds_aux (xorb false false)); [exact Hq|exact He| |exact Hin]. now apply Rlt_le, Rdiv_lt_0_compat.
Qed.


Lemma fsqrt_core_spec m e q e' l :
  SFsqrt_core_binary 53 1024 (Zpos m) e = (q, e', l) ->
  0 <= q /\ e' <= gexp (Zdigits2 q + e') /\ inb q e' l (sqrt (IZR (Zpos m) * bpow e)).
Proof.
  unfold SFsqrt_core_binary. cbn zeta.
  change IntDef.Z.div2 with Z.div2. change IntDef.Z.sqrtrem with Z.sqrtrem.
  set (d := Zdigits2 (Zpos m)).
  set (e0 := Z.min (gexp (Z.div2 (d + e + 1))) (Z.div2 e)).
  set (s := e - 2 * e0).
  assert (Hs : 0 <= s).
  { assert (e0 <= Z.div2 e) by apply Z.le_min_r. pose proof (Z.div2_odd e) as Ho.
    destruct (Z.odd e); cbn [Z.b2z] in Ho; unfold s; lia. }
  replace (match s with 0 => Zpos m | Zpos _ => Z.shiftl (Zpos m) s | Zneg _ => 0 end)
    with (Zpos m * 2 ^ s).
  2:{ destruct s eqn:E; [now rewrite Z.mul_1_r| |lia]. rewrite Z.shiftl_mul_pow2 by lia. reflexivity. }
  assert (0 < 2 ^ s) by (apply Z.pow_pos_nonneg; lia).
  pose proof (Z.sqrtrem_spec (Zpos m * 2 ^ s) ltac:(lia)) as Hsq.
  destruct (Z.sqrtrem (Zpos m * 2 ^ s)) as [q0 r]. destruct Hsq as [Hn Hr].
  intros [= <- <- <-].
  assert (Hq : 0 <= q0) by lia.
  assert (Hm1 : 2 ^ (d - 1) <= Zpos m) by (apply Zdigits2_bound; lia).
  assert (Hd : 0 < d) by (apply Zdigits2_pos; lia).
  split; [exact Hq|]. split.
  - assert (Hdq : Z.div2 (d + s + 1) <= Zdigits2 q0).
    { assert (Hlow : 2 ^ (d - 1 + s) < (q0 + 1) * (q0 + 1)) by (rewrite Z.pow_add_r by lia; nia).
      set (k := Z.div2 (d + s + 1)) in *.
      assert (Hk : d + s <= 2 * k <= d + s + 1)
        by (pose proof (Z.div2_odd (d + s + 1)) as Ho; fold k in Ho;
            destruct (Z.odd (d + s + 1)); cbn [Z.b2z] in Ho; lia).
      assert (2 ^ (k - 1) <= q0).
      { assert (2 ^ (k - 1) < q0 + 1); [|lia].
        apply (Z.square_lt_simpl_nonneg); [lia|]. eapply Z.le_lt_trans; [|exact Hlow].
        rewrite <- Z.pow_add_r by lia. apply Z.pow_le_mono_r; lia. }
      assert (0 < 2 ^ (k - 1)) by (apply Z.pow_pos_nonneg; lia).
      destruct (Zdigits2_bound q0) as [_ Hq2]; [lia|].
      assert (k - 1 < Zdigits2 q0); [|lia].
      apply (Z.pow_lt_mono_r_iff 2); [lia|apply Zdigits2_nonneg|lia]. }
    pose proof (gexp_eq (Z.div2 (d + e + 1))). pose proof (gexp_eq (Zdigits2 q0 + e0)).
    assert (s = e - 2 * e0) by reflexivity.
    assert (e0 = Z.min (gexp (Z.div2 (d + e + 1))) (Z.div2 e)) by reflexivity. clearbody s e0.
    replace (d + s + 1) with (d + e + 1 - 2 * e0) in Hdq by lia.
    rewrite Z.div2_div in *. replace (d + e + 1 - 2 * e0) with (d + e + 1 + (- e0) * 2) in Hdq by lia.
    rewrite Z.div_add in Hdq by lia. lia.
  - pose proof (bpow_pos e0) as Hb.
    assert (HX : sqrt (IZR (Zpos m) * bpow e) = (sqrt (IZR (Zpos m * 2 ^ s)) * bpow e0)%R).
    { replace (IZR (Zpos m) * bpow e)%R with (IZR (Zpos m * 2 ^ s) * (bpow e0 * bpow e0))%R.
      - rewrite sqrt_mult, sqrt_square; [reflexivity|lra|apply IZR_le; nia|nra].
      - replace e with (s + e0 + e0) by lia. rewrite !bpow_add, mult_IZR, (bpow_Z s) by lia. lra. }
    rewrite HX. clear HX.
    assert (Hq0 : (0 <= IZR q0)%R) by (apply IZR_le; lia).
    change (IntDef.Z.eqb r 0) with (Z.eqb r 0). destruct (Z.eqb_spec r 0) as [->|Hr0]; cbn [inb].
    + f_equal. rewrite Hn, Z.add_0_r, mult_IZR. now apply sqrt_square.
    + assert (IZR q0 < sqrt (IZR (Zpos m * 2 ^ s)) < IZR (q0 + 1))%R; [|nra].
      split.
      * rewrite <- (sqrt_square (IZR q0)) by assumption. apply sqrt_lt_1_alt. rewrite <- mult_IZR.
        split; [apply IZR_le; nia|apply IZR_lt; nia].
      * rewrite <- (sqrt_square (IZR (q0 + 1))) by (apply IZR_le; lia). apply sqrt_lt_1_alt.
        rewrite <- mult_IZR. split; [apply IZR_le; nia|apply IZR_lt; nia].
Qed.

Lemma fsqrt_rounds x : is_fin x = true -> (0 <= B2R x)%R -> rounds (fsqrt x) (sqrt (B2R x)).
Proof.
  intros Hx Hp. destruct x as [s| | |s m e]; try discriminate; unfold fsqrt, SFsqrt.
  - apply rounds_exact; [reflexivity|]. cbn [B2R]. now rewrite sqrt_0.
  - assert (Hm : (0 < IZR (Zpos m))%R) by (apply IZR_lt; lia). pose proof (bpow_pos e).
    destruct s; [exfalso; cbn [B2R] in Hp; rewrite cond_Zopp_IZR in Hp; nra|].
    destruct (SFsqrt_core_binary 53 1024 (Zpos m) e) as [[q e'] l] eqn:E.
    apply fsqrt_core_spec in E as (Hq & He & Hin).
    apply (rounds_aux false); [exact Hq|exact He|apply sqrt_pos|exact Hin].
Qed.

(** ** Comparisons *)
Lemma SFcompare_fin x y : is_fin x = true -> is_fin y = true ->
  exists c, SFcompare x y = Some c /\
    match c with Eq => B2R x = B2R y | Lt => (B2R x < B2R y)%R | Gt => (B2R y < B2R x)%R end.
Proof.
  assert (Hpos : forall m e, (0 < IZR (Zpos m) * bpow e)%R).
  { intros m e. pose proof (bpow_pos e). assert (0 < IZR (Zpos m))%R by (apply IZR_lt; lia). nra. }
  assert (Hexp : forall m1 e1 m2 e2, Zpos m1 < 2 ^ 53 -> (e2 = -1074 \/ 2 ^ 52 <= Zpos m2) ->
     -1074 <= e1 -> e1 < e2 -> (IZR (Zpos m1) * bpow e1 < IZR (Zpos m2) * bpow e2)%R).
  { intros m1 e1 m2 e2 Hm1 Hm2 He1 He. rewrite (bpow_align (Zpos m2) e2 e1) by lia.
    apply scale_lt. assert (2 ^ 1 <= 2 ^ (e2 - e1)) by (apply Z.pow_le_mono_r; lia). nia. }
  destruct x as [sx| | |sx mx ex]; try discriminate; destruct y as [sy| | |sy my ey]; try discriminate;
    intros Hx Hy; cbn [SFcompare].
  - eexists; split; [reflexivity|reflexivity].
  - eexists; split; [reflexivity|]. specialize (Hpos my ey). cbn [B2R]. rewrite cond_Zopp_IZR.
    destruct sy; lra.
  - eexists; split; [reflexivity|]. specialize (Hpos mx ex). cbn [B2R]. rewrite cond_Zopp_IZR.
    destruct sx; lra.
  - apply is_fin_bounded in Hx as (Hx1 & Hx2 & Hx3 & _). apply is_fin_bounded in Hy as (Hy1 & Hy2 & Hy3 & _).
    eexists; split; [reflexivity|]. cbn [B2R]. rewrite !cond_Zopp_IZR.
    pose proof (Hpos mx ex). pose proof (Hpos my ey).
    change (IntDef.Z.compare ex ey) with (Z.compare ex ey).
    change (Pos.compare_cont Eq mx my) with (Pos.compare mx my).
    assert (Hc : match match Z.compare ex ey with Lt => Lt | Gt => Gt | Eq => Pos.compare mx my end with
                 | Eq => (IZR (Zpos mx) * bpow ex = IZR (Zpos my) * bpow ey)%R
                 | Lt => (IZR (Zpos mx) * bpow ex < IZR (Zpos my) * bpow ey)%R
                 | Gt => (IZR (Zpos my) * bpow ey < IZR (Zpos mx) * bpow ex)%R end).
    { destruct (Z.compare_spec ex ey) as [->|Hlt|Hgt].
      - destruct (Pos.compare_spec mx my) as [->|Hlt|Hgt]; [reflexivity|apply scale_lt; lia..].
      - apply Hexp; lia || assumption.
      - apply Hexp; lia || assumption. }
    destruct (Z.compare ex ey), (Pos.compare mx my), sx, sy; cbn [CompOpp]; lra.
Qed.

Lemma flt_spec x y : is_fin x = true -> is_fin y = true -> flt x y = true <-> (B2R x < B2R y)%R.
Proof.
  intros Hx Hy. destruct (SFcompare_fin x y Hx Hy) as (c & E & Hc).
  unfold flt, SFltb. rewrite E. destruct c; (split; [intros; try discriminate|intros; try reflexivity; exfalso]; lra).
Qed.
Lemma fle_spec x y : is_fin x = true -> is_fin y = true -> fle x y = true <-> (B2R x <= B2R y)%R.
Proof.
  intros Hx Hy. destruct (SFcompare_fin x y Hx Hy) as (c & E & Hc).
  unfold fle, SFleb. rewrite E. destruct c; (split; [intros; try discriminate|intros; try reflexivity; exfalso]; lra).
Qed.
Lemma flt_false x y : is_fin x = true -> is_fin y = true -> flt x y = false <-> (B2R y <= B2R x)%R.
Proof.
  intros Hx Hy. pose proof (flt_spec x y Hx Hy) as H. destruct (flt x y).
  - split; [discriminate|]. pose proof (proj1 H eq_refl). lra.
  - split; [|reflexivity]. intros _. destruct (Rle_dec (B2R y) (B2R x)); [assumption|].
    discriminate (proj2 H ltac:(lra)).
Qed.
Lemma fle_false x y : is_fin x = true -> is_fin y = true -> fle x y = false <-> (B2R y < B2R x)%R.
Proof.
  intros Hx Hy. pose proof (fle_spec x y Hx Hy) as H. destruct (fle x y).
  - split; [discriminate|]. pose proof (proj1 H eq_refl). lra.
  - split; [|reflexivity]. intros _. destruct (Rlt_dec (B2R y) (B2R x)); [assumption|].
    discriminate (proj2 H ltac:(lra)).
Qed.

(** ** Bounds in the form the components use

    Each operation, applied to finite floats whose exact result lies between
    two representable numbers, is finite and lies between them. *)
Section Between.
Context (x y : f64) (lo hi : R).
Hypothesis Hx : is_fin x = true.
Hypothesis Hy : is_fin y = true.
Hypothesis Hlo : representable lo.
Hypothesis Hhi : representable hi.

Lemma fadd_between : (lo <= B2R x + B2R y <= hi)%R ->
  is_fin (fadd x y) = true /\ (lo <= B2R (fadd x y) <= hi)%R.
Proof using All. intros H. eapply rounds_between; eauto using fadd_rounds. Qed.
Lemma fsub_between : (lo <= B2R x - B2R y <= hi)%R ->
  is_fin (fsub x y) = true /\ (lo <= B2R (fsub x y) <= hi)%R.
Proof using All. intros H. eapply rounds_between; eauto using fsub_rounds. Qed.
Lemma fmul_between : (lo <= B2R x * B2R y <= hi)%R ->
  is_fin (fmul x y) = true /\ (lo <= B2R (fmul x y) <= hi)%R.
Proof using All. intros H. eapply rounds_between; eauto using fmul_rounds. Qed.
Lemma fdiv_between : B2R y <> 0%R -> (lo <= B2R x / B2R y <= hi)%R ->
  is_fin (fdiv x y) = true /\ (lo <= B2R (fdiv x y) <= hi)%R.
Proof using All. intros H0 H. eapply rounds_between; eauto using fdiv_rounds. Qed.
End Between.

Lemma fsqrt_between x lo hi : is_fin x = true -> (0 <= B2R x)%R ->
  representable lo -> representable hi -> (lo <= sqrt (B2R x) <= hi)%R ->
  is_fin (fsqrt x) = true /\ (lo <= B2R (fsqrt x) <= hi)%R.
Proof. intros Hx Hp Hlo Hhi H. eapply rounds_between; eauto using fsqrt_rounds. Qed.

(** The largest float below a normal one: nothing lies in between. *)
Lemma below_pred x s m e :
  is_fin x = true -> is_fin (S754_finite false (Pos.succ m) e) = true -> s = false ->
  2 ^ 52 <= Zpos m -> (B2R x < B2R (S754_finite s (Pos.succ m) e))%R ->
  (B2R x <= B2R (S754_finite s m e))%R.
Proof.
  intros Hx Hf -> Hm Hlt. apply is_fin_bounded in Hf as (Hf1 & Hf2 & _).
  cbn [B2R cond_Zopp] in *. pose proof (bpow_pos e).
  assert (Hm0 : (0 <= IZR (Zpos m))%R) by (apply IZR_le; lia).
  destruct (Rle_dec (B2R x) 0) as [|Hp]; [nra|].
  assert (Hmag : mag (B2R x)) by (apply representable_mag; [now apply is_fin_representable|lra]).
  apply (mag_floor (Zpos m) e (B2R x) (B2R x)); [lia|now right|exact Hmag| |lra].
  replace (Zpos m + 1) with (Zpos (Pos.succ m)) by lia. exact Hlt.
Qed.

(** ** Constants *)

(** A closed float as a fraction of two integer literals, for [lra]. *)
Lemma B2R_frac s m p :
  B2R (S754_finite s m (Zneg p)) = (IZR (cond_Zopp s (Zpos m)) / IZR (2 ^ Zpos p))%R.
Proof.
  cbn [B2R]. unfold Rdiv. f_equal. pose proof (bpow_add (Zpos p) (Zneg p)) as H.
  replace (Zpos p + Zneg p) with 0 in H by lia. change (bpow 0) with 1%R in H.
  rewrite (bpow_Z (Zpos p)) in H by lia.
  assert (0 < IZR (2 ^ Zpos p))%R by (apply IZR_lt, Z.pow_pos_nonneg; lia).
  apply (Rmult_eq_reg_l (IZR (2 ^ Zpos p))); [|lra]. rewrite <- H. field. lra.
Qed.

Definition f0 : f64 := f64_of_Z 0.
Definition f1 : f64 := f64_of_Z 1.

Lemma f0_val : is_fin f0 = true /\ B2R f0 = 0%R.
Proof. split; reflexivity. Qed.
Lemma f1_val : is_fin f1 = true /\ B2R f1 = 1%R.
Proof. exact (f64_of_Z_exact 1 ltac:(lia)). Qed.

(** [fval c]: adds the finiteness and the value of the closed float [c]. *)
Ltac fval c :=
  let v := eval vm_compute in c in
  let H := fresh "Hval" in
  lazymatch v with
  | S754_finite ?s ?m (Zneg ?p) =>
      let n := eval vm_compute in (cond_Zopp s (Zpos m)) in
      let d := eval vm_compute in (2 ^ Zpos p) in
      assert (H : is_fin c = true /\ B2R c = (IZR n / IZR d)%R)
        by (split; [vm_compute; reflexivity
                   |change c with (S754_finite s m (Zneg p)) || 
                    (let E := fresh in assert (E : c = S754_finite s m (Zneg p)) by (vm_compute; reflexivity);
                     rewrite E; clear E);
                    rewrite B2R_frac; reflexivity])
  end.

Lemma representable_0 : representable 0.
Proof. apply (representable_Z 0). lia. Qed.
Lemma representable_1 : representable 1.
Proof. apply (representable_Z 1). lia. Qed.

(** ** The unit interval *)

Definition in_unit (x : f64) : Prop := is_fin x = true /\ (0 <= B2R x <= 1)%R.

Lemma in_unit_0 : in_unit f0.
Proof. destruct f0_val. split; [assumption|lra]. Qed.
Lemma in_unit_1 : in_unit f1.
Proof. destruct f1_val. split; [assumption|lra]. Qed.

(** [1.0 - x] of a score. *)
Lemma in_unit_compl x : in_unit x -> in_unit (fsub f1 x).
Proof.
  intros [Hf Hx]. destruct f1_val as [H1 E1].
  apply fsub_between; auto using representable_0, representable_1. lra.
Qed.
Lemma in_unit_mul x y : in_unit x -> in_unit y -> in_unit (fmul x y).
Proof.
  intros [Hf Hx] [Hg Hy].
  apply fmul_between; auto using representable_0, representable_1. nra.
Qed.
(** Subtracting a penalty lowers a score, by at most one. *)
Lemma fsub_penalty x p k :
  0 <= k < 100 -> is_fin x = true -> (IZR (- k) <= B2R x <= 1)%R -> in_unit p ->
  is_fin (fsub x p) = true /\ (IZR (- (k + 1)) <= B2R (fsub x p) <= B2R x)%R.
Proof.
  intros Hk Hf Hx [Hg Hp].
  apply fsub_between; auto using is_fin_representable; [apply representable_Z; lia|].
  replace (- (k + 1)) with (- k - 1) by lia. rewrite minus_IZR. lra.
Qed.

(** A sum of [n] scores, accumulated from the left, lies between 0 and [n];
    the average between 0 and 1. *)
Definition fsum_from (acc : f64) (l : list f64) : f64 := foldl fadd acc l.

Lemma fsum_from_bounds l : forall acc k,
  is_fin acc = true -> 0 <= k -> (0 <= B2R acc <= IZR k)%R ->
  Forall in_unit l -> k + Z.of_nat (length l) <= 2 ^ 53 ->
  is_fin (fsum_from acc l) = true /\ (0 <= B2R (fsum_from acc l) <= IZR (k + Z.of_nat (length l)))%R.
Proof.
  induction l as [|x l IH]; intros acc k Hf Hk Hacc Hl Hlen; cbn [fsum_from foldl length] in *.
  - replace (k + Z.of_nat 0) with k by lia. auto.
  - apply Forall_cons in Hl as [[Hxf Hx] Hl].
    assert (Hk1 : representable (IZR (k + 1))) by (apply representable_Z; lia).
    destruct (fadd_between acc x 0 (IZR (k + 1)) Hf Hxf representable_0 Hk1) as [Hf1 Hb1].
    { rewrite plus_IZR. lra. }
    destruct (IH (fadd acc x) (k + 1) Hf1) as [Hf2 Hb2]; [lia|exact Hb1|exact Hl|lia|].
    split; [exact Hf2|]. replace (k + Z.of_nat (S (length l))) with (k + 1 + Z.of_nat (length l)) by lia.
    exact Hb2.
Qed.

Lemma favg_unit l n :
  Forall in_unit l -> n = Z.of_nat (length l) -> 0 < n <= 2 ^ 53 ->
  in_unit (fdiv (fsum_from f0 l) (f64_of_Z n)).
Proof.
  intros Hl -> Hn. destruct f0_val as [H0f H0].
  destruct (fsum_from_bounds l f0 0) as [Hsf Hs]; [assumption|lia|rewrite H0; lra|assumption|lia|].
  rewrite Z.add_0_l in Hs.
  destruct (f64_of_Z_exact (Z.of_nat (length l))) as [Hnf Hnv]; [lia|].
  assert (0 < IZR (Z.of_nat (length l)))%R by (apply IZR_lt; lia).
  apply fdiv_between; auto using representable_0, representable_1; rewrite Hnv; [lra|].
  split.
  - apply Rmult_le_pos; [lra|]. apply Rlt_le, Rinv_0_lt_compat. lra.
  - apply Rmult_le_reg_r with (IZR (Z.of_nat (length l))); [lra|].
    unfold Rdiv. rewrite Rmult_assoc, Rinv_l by lra. lra.
Qed.

(** ** Package [math] *)

Definition is_nan (x : f64) : bool := match x with S754_nan => true | _ => false end.
Definition is_inf (x : f64) (neg : bool) : bool :=
  match x with S754_infinity s => Bool.eqb s neg | _ => false end.
Definition signbit (x : f64) : bool :=
  match x with S754_zero s | S754_infinity s | S754_finite s _ _ => s | S754_nan => false end.

Definition fmax (x y : f64) : f64 :=
  if is_inf x false || is_inf y false then S754_infinity false
  else if is_nan x || is_nan y then S754_nan
  else if feq x f0 && feq x y then (if signbit x then y else x)
  else if flt y x then x else y.

Definition fmin (x y : f64) : f64 :=
  if is_inf x true || is_inf y true then S754_infinity true
  else if is_nan x || is_nan y then S754_nan
  else if feq x f0 && feq x y then (if signbit x then x else y)
  else if flt x y then x else y.

Lemma is_fin_not_special x : is_fin x = true ->
  is_nan x = false /\ is_inf x true = false /\ is_inf x false = false.
Proof. destruct x; try discriminate; auto. Qed.

Lemma feq_spec x y : is_fin x = true -> is_fin y = true -> feq x y = true -> B2R x = B2R y.
Proof.
  intros Hx Hy. destruct (SFcompare_fin x y Hx Hy) as (c & E & Hc).
  unfold feq, SFeqb. rewrite E. destruct c; [auto|discriminate..].
Qed.

Lemma fmax_spec x y : is_fin x = true -> is_fin y = true ->
  is_fin (fmax x y) = true /\ B2R (fmax x y) = Rmax (B2R x) (B2R y).
Proof.
  intros Hx Hy. destruct (is_fin_not_special x Hx) as (? & ? & ?).
  destruct (is_fin_not_special y Hy) as (? & ? & ?). destruct f0_val as [Hz0 Hz0v].
  unfold fmax. repeat match goal with H : _ = false |- _ => rewrite H end. cbn [orb].
  destruct (feq x f0 && feq x y) eqn:E.
  - apply andb_prop in E as [_ E]. apply feq_spec in E; [|assumption..].
    destruct (signbit x); (split; [assumption|]); rewrite E; unfold Rmax; destruct (Rle_dec _ _); congruence.
  - destruct (flt y x) eqn:El; (split; [assumption|]).
    + apply flt_spec in El; [|assumption..]. rewrite Rmax_left; lra.
    + apply flt_false in El; [|assumption..]. rewrite Rmax_right; lra.
Qed.

Lemma fmin_spec x y : is_fin x = true -> is_fin y = true ->
  is_fin (fmin x y) = true /\ B2R (fmin x y) = Rmin (B2R x) (B2R y).
Proof.
  intros Hx Hy. destruct (is_fin_not_special x Hx) as (? & ? & ?).
  destruct (is_fin_not_special y Hy) as (? & ? & ?). destruct f0_val as [Hz0 Hz0v].
  unfold fmin. repeat match goal with H : _ = false |- _ => rewrite H end. cbn [orb].
  destruct (feq x f0 && feq x y) eqn:E.
  - apply andb_prop in E as [_ E]. apply feq_spec in E; [|assumption..].
    destruct (signbit x); (split; [assumption|]); rewrite E; unfold Rmin; destruct (Rle_dec _ _); congruence.
  - destruct (flt x y) eqn:El; (split; [assumption|]).
    + apply flt_spec in El; [|assumption..]. rewrite Rmin_left; lra.
    + apply flt_false in El; [|assumption..]. rewrite Rmin_right; lra.
Qed.

(** Exact value of a finite float as a fraction, and [int(x)], which
    truncates toward zero ([None]: not representable, where Go leaves the
    result to the implementation). *)
Definition f_num (x : f64) : Z :=
  match x with S754_finite s m e => cond_Zopp s (Zpos m) * 2 ^ Z.max 0 e | _ => 0 end.
Definition f_den (x : f64) : Z :=
  match x with S754_finite _ _ e => 2 ^ Z.max 0 (- e) | _ => 1 end.
Definition f64_to_int (x : f64) : option Z :=
  if is_fin x then
    let n := Z.quot (f_num x) (f_den x) in
    if (- 2 ^ 63 <=? n) && (n <? 2 ^ 63) then Some n else None
  else None.

Lemma f_num_den x : is_fin x = true -> B2R x = (IZR (f_num x) / IZR (f_den x))%R.
Proof.
  destruct x as [s| | |s m e]; try discriminate; intros _; cbn [B2R f_num f_den]; [lra|].
  destruct (Z_le_gt_dec 0 e).
  - replace (Z.max 0 (- e)) with 0 by lia. rewrite Z.max_r, mult_IZR, <- bpow_Z by lia. lra.
  - rewrite Z.max_l, Z.max_r, Z.mul_1_r by lia. destruct e as [|p|p]; try lia.
    apply (B2R_frac s m p).
Qed.

Lemma f_den_pos x : 0 < f_den x.
Proof. destruct x; unfold f_den; try lia; apply Z.pow_pos_nonneg; lia. Qed.

(** [int(x)] of a float in [lo, hi], for integer bounds with [0 <= lo]. *)
Lemma f64_to_int_bounds x lo hi :
  is_fin x = true -> 0 <= lo -> hi < 2 ^ 63 -> (IZR lo <= B2R x <= IZR hi)%R ->
  exists n, f64_to_int x = Some n /\ lo <= n <= hi.
Proof.
  intros Hf Hlo Hhi Hx. rewrite (f_num_den x Hf) in Hx. pose proof (f_den_pos x) as Hd.
  assert (0 < IZR (f_den x))%R by (apply IZR_lt; lia).
  assert (Hn : lo * f_den x <= f_num x <= hi * f_den x).
  { assert (E : (IZR (f_num x) = IZR (f_num x) / IZR (f_den x) * IZR (f_den x))%R) by (field; lra).
    split; apply le_IZR; rewrite mult_IZR, E; apply Rmult_le_compat_r; lra. }
  exists (Z.quot (f_num x) (f_den x)). unfold f64_to_int. rewrite Hf.
  rewrite Z.quot_div_nonneg by nia.
  assert (lo <= f_num x / f_den x) by (apply Z.div_le_lower_bound; lia).
  assert (f_num x / f_den x <= hi) by (apply Z.div_le_upper_bound; lia).
  rewrite (proj2 (Z.leb_le _ _)), (proj2 (Z.ltb_lt _ _)) by lia. auto.
Qed.

(** [int(x)]: outside the integers' range the result is the processor's. *)
Class FloatToInt := { out_of_range_int : f64 -> Z; out_of_range_int64 : forall x, - 2 ^ 63 <= out_of_range_int x < 2 ^ 63 }.
Definition to_int `{FloatToInt} (x : f64) : Z := match f64_to_int x with Some n => n | None => out_of_range_int x end.
Lemma to_int_in `{FloatToInt} x n : f64_to_int x = Some n -> to_int x = n.
Proof. unfold to_int. now intros ->. Qed.
(** amd64: the smallest integer. *)
#[export] Program Instance amd64_int : FloatToInt := {| out_of_range_int := fun _ => - 2 ^ 63 |}.
Next Obligation. cbn. lia. Qed.

(** ** Well-formed floats

    Every Go [float64] is a canonical binary64 datum; the operations keep it so
    on all inputs, infinities and NaN included. *)

Definition valid (x : f64) : bool := valid_binary 53 1024 x.

Lemma is_fin_valid x : is_fin x = true -> valid x = true.
Proof. destruct x; try discriminate; auto. Qed.
Lemma valid_not_fin x : valid x = true -> is_fin x = false ->
  x = S754_nan \/ exists s, x = S754_infinity s.
Proof. destruct x; cbn; intros H1 H2; eauto; congruence. Qed.
Lemma rounds_valid z X : rounds z X -> valid z = true.
Proof. intros [[H _]|[[-> _]|[-> _]]]; [now apply is_fin_valid|reflexivity..]. Qed.

Ltac valid_cases :=
  intros Hx Hy;
  match goal with |- valid (_ ?x ?y) = true =>
    destruct (is_fin x) eqn:Fx;
      [|destruct (valid_not_fin x Hx Fx) as [-> | [[] ->]]];
    (destruct (is_fin y) eqn:Fy;
      [|destruct (valid_not_fin y Hy Fy) as [-> | [[] ->]]])
  end.

Lemma valid_fadd x y : valid x = true -> valid y = true -> valid (fadd x y) = true.
Proof.
  valid_cases; try (eapply rounds_valid, fadd_rounds; eassumption);
    try reflexivity; (destruct x || destruct y); (reflexivity || discriminate).
Qed.
Lemma valid_fsub x y : valid x = true -> valid y = true -> valid (fsub x y) = true.
Proof.
  valid_cases; try (eapply rounds_valid, fsub_rounds; eassumption);
    try reflexivity; (destruct x || destruct y); (reflexivity || discriminate).
Qed.
Lemma valid_fmul x y : valid x = true -> valid y = true -> valid (fmul x y) = true.
Proof.
  valid_cases; try (eapply rounds_valid, fmul_rounds; eassumption);
    try reflexivity; (destruct x || destruct y); (reflexivity || discriminate).
Qed.
Lemma B2R_zero x : is_fin x = true -> B2R x = 0%R -> exists s, x = S754_zero s.
Proof.
  destruct x as [s| | |s m e]; try discriminate; [eauto|]. intros _ H. exfalso. cbn [B2R] in H.
  pose proof (bpow_pos e). rewrite cond_Zopp_IZR in H.
  assert (0 < IZR (Zpos m))%R by (apply IZR_lt; lia). destruct s; nra.
Qed.
Lemma valid_fdiv x y : valid x = true -> valid y = true -> valid (fdiv x y) = true.
Proof.
  valid_cases; try reflexivity; try ((destruct x || destruct y); (reflexivity || discriminate)).
  destruct (Req_dec (B2R y) 0) as [E|E].
  - apply B2R_zero in E as [s ->]; [|assumption]. destruct x; reflexivity.
  - eapply rounds_valid, fdiv_rounds; assumption.
Qed.
Lemma valid_fsqrt x : valid x = true -> valid (fsqrt x) = true.
Proof.
  intros Hx. destruct x as [|[]| |[] m e]; try reflexivity.
  apply (rounds_valid _ (sqrt (B2R (S754_finite false m e)))), fsqrt_rounds; [exact Hx|].
  cbn [B2R cond_Zopp]. pose proof (bpow_pos e).
  assert (0 < IZR (Zpos m))%R by (apply IZR_lt; lia). nra.
Qed.

(** What a comparison with a finite constant says of any float. *)
Lemma flt_true_inv x c : valid x = true -> is_fin c = true -> flt x c = true ->
  (is_fin x = true /\ (B2R x < B2R c)%R) \/ x = S754_infinity true.
Proof.
  intros Hx Hc H. destruct (is_fin x) eqn:Fx; [left; now rewrite flt_spec in H|].
  destruct (valid_not_fin x Hx Fx) as [-> | [[] ->]]; destruct c; try discriminate; auto.
Qed.
Lemma flt_false_inv x c : valid x = true -> is_fin c = true -> flt x c = false ->
  (is_fin x = true /\ (B2R c <= B2R x)%R) \/ x = S754_infinity false \/ x = S754_nan.
Proof.
  intros Hx Hc H. destruct (is_fin x) eqn:Fx; [left; now rewrite flt_false in H|].
  destruct (valid_not_fin x Hx Fx) as [-> | [[] ->]]; destruct c; try discriminate; auto.
Qed.

(** The order of comparisons, infinities included: what does not exceed [a]
    does not exceed anything greater than [a]. *)
Lemma flt_trans_false a b c : valid a = true -> valid b = true -> valid c = true ->
  flt a b = true -> flt a c = false -> flt b c = false.
Proof.
  intros Va Vb Vc Hab Hac.
  destruct (is_fin a) eqn:Fa; [|destruct (valid_not_fin a Va Fa) as [-> | [[] ->]]];
  (destruct (is_fin b) eqn:Fb; [|destruct (valid_not_fin b Vb Fb) as [-> | [[] ->]]]);
  (destruct (is_fin c) eqn:Fc; [|destruct (valid_not_fin c Vc Fc) as [-> | [[] ->]]]);
  try reflexivity; try discriminate;
  try (apply flt_spec in Hab; [|assumption..]; apply flt_false in Hac; [|assumption..];
       apply flt_false; [assumption..|lra]);
  repeat match goal with
  | x : f64 |- _ => destruct x as [?|?| |? ? ?]; try reflexivity; try discriminate
  end.
Qed.
Lemma fle_flt_false t a b : valid a = true -> valid b = true -> is_fin t = true ->
  fle t a = false -> fle t b = true -> is_nan a = false -> flt a b = true.
Proof.
  intros Va Vb Ft Ha Hb Hn.
  destruct (is_fin a) eqn:Fa; [|destruct (valid_not_fin a Va Fa) as [-> | [[] ->]]];
  (destruct (is_fin b) eqn:Fb; [|destruct (valid_not_fin b Vb Fb) as [-> | [[] ->]]]);
  try discriminate;
  try (apply fle_false in Ha; [|assumption..]; apply fle_spec in Hb; [|assumption..];
       apply flt_spec; [assumption..|lra]);
  repeat match goal with
  | x : f64 |- _ => destruct x as [?|?| |? ? ?]; try reflexivity; try discriminate
  end.
Qed.
