(* ===== verification/GoStrings.v ===== *)
(** * Go strings

    A Go string is a sequence of bytes; [string] of the Standard Library is
    exactly that.  This file defines the part of packages [strings],
    [unicode/utf8], [strconv] and [fmt] that AgentShield uses, executable on
    bytes: UTF-8 decoding as [range] does it, case mapping, trimming,
    splitting, searching, decimal printing of integers and of floats.

    The Unicode tables ([unicode.IsLetter], [unicode.IsDigit],
    [unicode.ToLower]) are data of the Go distribution: they are the type class
    [Unicode], whose laws say what they are on ASCII; the instance [latin1]
    gives them up to U+00FF. *)
From S2P Require Import Prelude Float64.
From Stdlib Require Import ZArith Lia Ascii String SpecFloat.
From stdpp Require Import base tactics list strings.
#[local] Open Scope Z_scope.

(** ** Bytes *)

Definition byte_val (c : ascii) : Z := Z.of_N (N_of_ascii c).
Definition byte_of (z : Z) : ascii := ascii_of_N (Z.to_N z).
Definition slen (s : string) : Z := Z.of_nat (String.length s).
Definition byte_at (s : string) (n : nat) : option Z := option_map byte_val (String.get n s).
Definition str1 (b : Z) : string := String (byte_of b) EmptyString.

Fixpoint str_drop (n : nat) (s : string) : string :=
  match n, s with
  | O, _ => s
  | S _, EmptyString => EmptyString
  | S n, String _ s => str_drop n s
  end.
Fixpoint str_take (n : nat) (s : string) : string :=
  match n, s with
  | O, _ | S _, EmptyString => EmptyString
  | S n, String c s => String c (str_take n s)
  end.

Definition nl : string := str1 10.
Definition quote : string := str1 34.

(** ** UTF-8 *)

Definition rune_error : Z := 65533.

(** The bytes that may follow a first byte: length, bounds of the second. *)
Definition utf8_first (b : Z) : option (nat * Z * Z) :=
  if (194 <=? b) && (b <=? 223) then Some (2%nat, 128, 191)
  else if b =? 224 then Some (3%nat, 160, 191)
  else if b =? 237 then Some (3%nat, 128, 159)
  else if (225 <=? b) && (b <=? 239) then Some (3%nat, 128, 191)
  else if b =? 240 then Some (4%nat, 144, 191)
  else if (241 <=? b) && (b <=? 243) then Some (4%nat, 128, 191)
  else if b =? 244 then Some (4%nat, 128, 143)
  else None.

(** [utf8.DecodeRuneInString]: rune and width; [None] on the empty string. *)
Definition decode_rune (s : string) : option (Z * nat) :=
  match byte_at s 0 with
  | None => None
  | Some b0 =>
      if b0 <? 128 then Some (b0, 1%nat)
      else
        let bad := Some (rune_error, 1%nat) in
        let cont lo hi k :=
          match byte_at s k with
          | Some b => if (lo <=? b) && (b <=? hi) then Some (Z.land b 63) else None
          | None => None
          end in
        match utf8_first b0 with
        | None => bad
        | Some (n, lo, hi) =>
            match cont lo hi 1%nat with
            | None => bad
            | Some c1 =>
                if (n =? 2)%nat then Some (Z.lor (Z.shiftl (Z.land b0 31) 6) c1, 2%nat)
                else match cont 128 191 2%nat with
                | None => bad
                | Some c2 =>
                    if (n =? 3)%nat
                    then Some (Z.lor (Z.shiftl (Z.land b0 15) 12) (Z.lor (Z.shiftl c1 6) c2), 3%nat)
                    else match cont 128 191 3%nat with
                    | None => bad
                    | Some c3 =>
                        Some (Z.lor (Z.shiftl (Z.land b0 7) 18)
                                (Z.lor (Z.shiftl c1 12) (Z.lor (Z.shiftl c2 6) c3)), 4%nat)
                    end
                end
            end
        end
  end.

(** [utf8.EncodeRune]: an invalid rune is written as U+FFFD. *)
Definition encode_rune (r : Z) : string :=
  let cont x := Z.lor 128 (Z.land x 63) in
  if (0 <=? r) && (r <? 128) then str1 r
  else if (128 <=? r) && (r <? 2048) then str1 (Z.lor 192 (Z.shiftr r 6)) +:+ str1 (cont r)
  else if ((2048 <=? r) && (r <? 55296)) || ((57344 <=? r) && (r <? 65536))
  then str1 (Z.lor 224 (Z.shiftr r 12)) +:+ str1 (cont (Z.shiftr r 6)) +:+ str1 (cont r)
  else if (65536 <=? r) && (r <? 1114112)
  then str1 (Z.lor 240 (Z.shiftr r 18)) +:+ str1 (cont (Z.shiftr r 12))
       +:+ str1 (cont (Z.shiftr r 6)) +:+ str1 (cont r)
  else str1 239 +:+ str1 191 +:+ str1 189.

(** [for i, r := range s]: the runes with the offsets of their first bytes.
    Every step consumes at least one byte, so the length is enough fuel. *)
Fixpoint runes_from (fuel : nat) (off : nat) (s : string) : list (nat * Z) :=
  match fuel with
  | O => []
  | S fuel =>
      match decode_rune s with
      | None => []
      | Some (r, w) => (off, r) :: runes_from fuel (off + w)%nat (str_drop w s)
      end
  end.
Definition runes (s : string) : list (nat * Z) := runes_from (String.length s) 0 s.
Definition rune_values (s : string) : list Z := map snd (runes s).
Definition string_of_runes (l : list Z) : string := String.concat EmptyString (map encode_rune l).

(** ** Unicode classes *)

Definition ascii_upper (r : Z) : bool := (65 <=? r) && (r <=? 90).
Definition ascii_letter (r : Z) : bool := ascii_upper r || ((97 <=? r) && (r <=? 122)).
Definition ascii_digit (r : Z) : bool := (48 <=? r) && (r <=? 57).

Class Unicode := {
  is_letter : Z -> bool;
  is_digit : Z -> bool;
  lower_rune : Z -> Z;
  is_letter_ascii : forall r, 0 <= r < 128 -> is_letter r = ascii_letter r;
  is_digit_ascii : forall r, 0 <= r < 128 -> is_digit r = ascii_digit r;
  lower_rune_ascii : forall r, 0 <= r < 128 -> lower_rune r = if ascii_upper r then r + 32 else r;
}.

(** The tables up to U+00FF; no letter, digit or case mapping beyond. *)
Definition latin1_letter (r : Z) : bool :=
  ascii_letter r || (r =? 170) || (r =? 181) || (r =? 186) ||
  ((192 <=? r) && (r <=? 255) && negb (r =? 215) && negb (r =? 247)).
Definition latin1_lower (r : Z) : Z :=
  if ascii_upper r || ((192 <=? r) && (r <=? 222) && negb (r =? 215)) then r + 32 else r.

#[export] Program Instance latin1 : Unicode := {
  is_letter := latin1_letter;
  is_digit := ascii_digit;
  lower_rune := latin1_lower;
}.
Next Obligation.
  intros r H. unfold latin1_letter. destruct (ascii_letter r); [done|].
  repeat (case_bool || rewrite ?(proj2 (Z.eqb_neq _ _)) by lia). 
  all: rewrite ?(proj2 (Z.leb_gt 192 r)) by lia; done.
Qed.
Next Obligation. done. Qed.
Next Obligation.
  intros r H. unfold latin1_lower. rewrite (proj2 (Z.leb_gt 192 r)) by lia.
  cbn. now rewrite orb_false_r.
Qed.

(** [unicode.IsSpace]: a fixed set. *)
Definition is_space (r : Z) : bool :=
  ((9 <=? r) && (r <=? 13)) || (r =? 32) || (r =? 133) || (r =? 160) || (r =? 5760) ||
  ((8192 <=? r) && (r <=? 8202)) || (r =? 8232) || (r =? 8233) || (r =? 8239) ||
  (r =? 8287) || (r =? 12288).

(** [strings.ToLower]: case mapping rune by rune, invalid bytes as U+FFFD. *)
Definition to_lower `{Unicode} (s : string) : string :=
  string_of_runes (map lower_rune (rune_values s)).

(** ** Searching and cutting *)

Definition has_prefix (s p : string) : bool := String.prefix p s.
Fixpoint contains (s sub : string) : bool :=
  String.prefix sub s ||
  match s with EmptyString => false | String _ s' => contains s' sub end.
(** [strings.IndexByte]; [None] where Go returns -1. *)
Fixpoint index_byte (s : string) (c : ascii) : option nat :=
  match s with
  | EmptyString => None
  | String d s' => if Ascii.eqb c d then Some O else option_map S (index_byte s' c)
  end.

Definition drop_while_space (l : list (nat * Z)) : list (nat * Z) :=
  (fix go l := match l with
               | (i, r) :: l' => if is_space r then go l' else l
               | [] => []
               end) l.

(** [strings.TrimSpace]. *)
Definition trim_space (s : string) : string :=
  match drop_while_space (runes s) with
  | [] => EmptyString
  | ((i, _) :: _) as l =>
      match drop_while_space (rev l) with
      | [] => EmptyString
      | (j, _) :: _ =>
          let w := match decode_rune (str_drop j s) with Some (_, w) => w | None => O end in
          str_take (j + w - i) (str_drop i s)
      end
  end.

(** [strings.Fields]: the maximal runs of non-space runes, as substrings;
    [start] is the offset at which the current run began. *)
Fixpoint fields_go (l : list (nat * Z)) (start : option nat) (s : string) : list string :=
  match l, start with
  | [], None => []
  | [], Some i => [str_drop i s]
  | (j, r) :: l, None => fields_go l (if is_space r then None else Some j) s
  | (j, r) :: l, Some i =>
      if is_space r then str_take (j - i) (str_drop i s) :: fields_go l None s
      else fields_go l (Some i) s
  end.
Definition fields (s : string) : list string := fields_go (runes s) None s.

(** [strings.Split(s, sep)] for a one-byte separator: always at least one part. *)
Fixpoint split_byte (sep : ascii) (s : string) : list string :=
  match s with
  | EmptyString => [EmptyString]
  | String c s' =>
      if Ascii.eqb c sep then EmptyString :: split_byte sep s'
      else match split_byte sep s' with
           | p :: ps => String c p :: ps
           | [] => [String c EmptyString]
           end
  end.
Definition str_join (sep : string) (l : list string) : string := String.concat sep l.

(** ** Decimal printing *)

Fixpoint digits_go (fuel : nat) (n : Z) (acc : string) : string :=
  match fuel with
  | O => acc
  | S fuel =>
      let acc := String (byte_of (48 + n mod 10)) acc in
      if n <? 10 then acc else digits_go fuel (n / 10) acc
  end.
(** Decimal digits of [n >= 0]: the bit length bounds their number. *)
Definition digits (n : Z) : string := digits_go (S (Z.to_nat (Z.log2 n))) n EmptyString.
(** [%d]. *)
Definition itoa (n : Z) : string := if n <? 0 then str1 45 +:+ digits (- n) else digits n.

Fixpoint zeros (n : nat) : string :=
  match n with O => EmptyString | S n => String (byte_of 48) (zeros n) end.

(** [n / d] rounded to the nearest integer, ties to even. *)
Definition round_half_even (n d : Z) : Z :=
  let q := n / d in let r := n mod d in
  if (d <? 2 * r) || ((2 * r =? d) && Z.odd q) then q + 1 else q.

(** [%.<prec>f]: the exact decimal value rounded half to even. *)
Definition fmt_fixed (prec : nat) (x : f64) : string :=
  match x with
  | S754_nan => "NaN"
  | S754_infinity s => if s then "-Inf" else "+Inf"
  | _ =>
      let n := round_half_even (Z.abs (f_num x) * 10 ^ Z.of_nat prec) (f_den x) in
      let ds := digits n in
      let ds := zeros (S prec - String.length ds) +:+ ds in
      let k := (String.length ds - prec)%nat in
      (if signbit x then str1 45 else EmptyString) +:+
      (if (prec =? 0)%nat then ds else str_take k ds +:+ "." +:+ str_drop k ds)
  end.

(** ** Facts *)

Lemma slen_app a b : slen (a +:+ b) = slen a + slen b.
Proof.
  unfold slen. induction a as [|c a IH]; [done|].
  change (String c a +:+ b) with (String c (a +:+ b)). cbn [String.length]. lia.
Qed.
Lemma slen_nonneg s : 0 <= slen s.
Proof. unfold slen. lia. Qed.
Lemma slen_0 s : slen s = 0 -> s = EmptyString.
Proof. destruct s; [done|]. unfold slen. cbn. lia. Qed.

Lemma join_split sep s : str_join (String sep EmptyString) (split_byte sep s) = s.
Proof.
  assert (Hne : forall s, split_byte sep s <> []).
  { intros t. destruct t as [|c t]; cbn; [done|]. destruct (Ascii.eqb c sep); [done|].
    now destruct (split_byte sep t). }
  induction s as [|c s IH]; [done|]. cbn. destruct (Ascii.eqb_spec c sep) as [->|].
  - destruct (split_byte sep s) as [|p ps] eqn:E; [now destruct (Hne s)|]. cbn in *. now rewrite IH.
  - destruct (split_byte sep s) as [|p [|p' ps]] eqn:E; [now destruct (Hne s)|..]; cbn in *; now rewrite <- IH.
Qed.

Lemma str_take_drop n s : str_take n s +:+ str_drop n s = s.
Proof.
  revert s. induction n as [|n IH]; intros [|c s]; try done.
  change (String c (str_take n s +:+ str_drop n s) = String c s). now rewrite IH.
Qed.

Lemma str_app_assoc a b c : (a +:+ b) +:+ c = a +:+ (b +:+ c).
Proof. induction a as [|x a IH]; [done|]. change (String x ((a +:+ b) +:+ c) = String x (a +:+ (b +:+ c))). now rewrite IH. Qed.
Lemma str_app_nil_r a : a +:+ EmptyString = a.
Proof. induction a as [|x a IH]; [done|]. change (String x (a +:+ EmptyString) = String x a). now rewrite IH. Qed.
Lemma str_length_app a b : String.length (a +:+ b) = (String.length a + String.length b)%nat.
Proof. pose proof (slen_app a b) as H. unfold slen in H. lia. Qed.
Lemma str_drop_app a b : str_drop (String.length a) (a +:+ b) = b.
Proof. induction a as [|x a IH]; [done|]. exact IH. Qed.
Lemma str_take_app a b : str_take (String.length a) (a +:+ b) = a.
Proof. induction a as [|x a IH]; [now destruct b|]. change (String x (str_take (String.length a) (a +:+ b)) = String x a). now rewrite IH. Qed.

Lemma byte_val_range c : 0 <= byte_val c < 256.
Proof. unfold byte_val. pose proof (N_ascii_bounded c). lia. Qed.
Lemma byte_of_val c : byte_of (byte_val c) = c.
Proof. unfold byte_of, byte_val. rewrite N2Z.id. apply ascii_N_embedding. Qed.
Lemma byte_val_of z : 0 <= z < 256 -> byte_val (byte_of z) = z.
Proof. intros Hz. unfold byte_of, byte_val. rewrite N_ascii_embedding by lia. lia. Qed.
Lemma byte_val_inj c d : byte_val c = byte_val d -> c = d.
Proof. intros E. rewrite <- (byte_of_val c), <- (byte_of_val d). now rewrite E. Qed.

Example decode_euro : runes "a€b" = [(0%nat, 97); (1%nat, 8364); (4%nat, 98)].
Proof. vm_compute. reflexivity. Qed.
Example trim_ex : trim_space "  a b
 " = "a b"%string /\ trim_space " x" = "x"%string.
Proof. vm_compute. auto. Qed.
Example fmt_ex : fmt_fixed 0 (flit 5 2) = "2"%string /\ fmt_fixed 2 (flit 314159 100000) = "3.14"%string
  /\ fmt_fixed 6 (flit (-1) 3) = "-0.333333"%string.
Proof. vm_compute. auto. Qed.
