(* ===== verification/Utf8.v ===== *)
(** * UTF-8 decoding and encoding are inverse

    [rune_at r l]: the bytes [l] are the encoding of the rune [r].  A string is
    [valid_utf8] when it is a sequence of such encodings; the texts of the
    program's JSON are, so encoding them loses nothing. *)
From S2P Require Import Prelude GoStrings.
From Stdlib Require Import ZArith Lia String Ascii.
From stdpp Require Import base tactics list strings.
#[local] Open Scope Z_scope.

Definition str_of (l : list Z) : string := string_of_list_ascii (map byte_of l).
Lemma str_of_length l : String.length (str_of l) = length l.
Proof. induction l as [|b l IH]; [done|]. cbn. now rewrite <- IH. Qed.
Lemma str_of_cons b l t : str_of (b :: l) +:+ t = String (byte_of b) (str_of l +:+ t).
Proof. reflexivity. Qed.

Definition cont_byte (b : Z) : Prop := 128 <= b <= 191.
Inductive rune_at : Z -> list Z -> Prop :=
| rune_1 b : 0 <= b < 128 -> rune_at b [b]
| rune_2 b0 b1 : 194 <= b0 <= 223 -> cont_byte b1 -> rune_at ((b0 - 192) * 64 + (b1 - 128)) [b0; b1]
| rune_3 b0 b1 b2 : 224 <= b0 <= 239 -> cont_byte b1 -> cont_byte b2 ->
    (b0 = 224 -> 160 <= b1) -> (b0 = 237 -> b1 <= 159) ->
    rune_at ((b0 - 224) * 4096 + (b1 - 128) * 64 + (b2 - 128)) [b0; b1; b2]
| rune_4 b0 b1 b2 b3 : 240 <= b0 <= 244 -> cont_byte b1 -> cont_byte b2 -> cont_byte b3 ->
    (b0 = 240 -> 144 <= b1) -> (b0 = 244 -> b1 <= 143) ->
    rune_at ((b0 - 240) * 262144 + (b1 - 128) * 4096 + (b2 - 128) * 64 + (b3 - 128)) [b0; b1; b2; b3].

Lemma rune_at_pos r l : rune_at r l -> (1 <= length l)%nat.
Proof. intros []; cbn; lia. Qed.

(** ** Bits *)

Lemma land_low x k : 0 <= k -> Z.land x (2 ^ k - 1) = x mod 2 ^ k.
Proof. intros Hk. rewrite <- Z.land_ones by lia. f_equal. rewrite Z.ones_equiv. lia. Qed.
Lemma lor_low a b k : 0 <= k -> 0 <= b < 2 ^ k -> Z.lor (Z.shiftl a k) b = a * 2 ^ k + b.
Proof.
  intros Hk Hb. apply Z.bits_inj'. intros n Hn. rewrite Z.lor_spec, Z.shiftl_spec by lia.
  destruct (Z.ltb_spec n k) as [Hl|Hl].
  - rewrite (Z.testbit_neg_r a) by lia. cbn [orb].
    rewrite <- (Z.mod_pow2_bits_low (a * 2 ^ k + b) k n) by lia.
    rewrite Z.add_comm, Z.mod_add, Z.mod_small by lia. reflexivity.
  - assert (Hbn : Z.testbit b n = false).
    { destruct (Z.eq_dec b 0) as [->|]; [apply Z.testbit_0_l|]. apply Z.bits_above_log2; [lia|].
      apply Z.lt_le_trans with k; [apply Z.log2_lt_pow2|]; lia. }
    rewrite Hbn, orb_false_r. replace n with ((n - k) + k) at 2 by lia. rewrite <- Z.div_pow2_bits by lia.
    rewrite Z.add_comm, Z.div_add, Z.div_small by lia. now rewrite Z.add_0_l.
Qed.
Lemma lor_const c x k : 0 <= k -> c mod 2 ^ k = 0 -> 0 <= x < 2 ^ k -> Z.lor c x = c + x.
Proof.
  intros Hk Hc Hx. pose proof (Z.pow_pos_nonneg 2 k ltac:(lia) Hk). rewrite (Z.div_mod c (2 ^ k)) at 1 by lia. rewrite Hc.
  replace (2 ^ k * (c / 2 ^ k) + 0) with (Z.shiftl (c / 2 ^ k) k) by (rewrite Z.shiftl_mul_pow2 by lia; lia).
  rewrite lor_low by lia. rewrite (Z.div_mod c (2 ^ k)) at 2 by lia. lia.
Qed.

(** ** Decoding *)

Lemma byte_at_0 c t : byte_at (String c t) 0 = Some (byte_val c).
Proof. reflexivity. Qed.
Lemma byte_at_S c t n : byte_at (String c t) (S n) = byte_at t n.
Proof. reflexivity. Qed.
Ltac land_arith :=
  change 63 with (2 ^ 6 - 1); change 31 with (2 ^ 5 - 1); change 15 with (2 ^ 4 - 1); change 7 with (2 ^ 3 - 1);
  rewrite ?land_low by lia.

Lemma cont_low b : cont_byte b -> Z.land b 63 = b - 128.
Proof. unfold cont_byte. intros Hb. land_arith. pose proof (Z.mod_unique b (2 ^ 6) 2 (b - 128)). lia. Qed.
Ltac mod_val q := match goal with |- ?x mod ?m = ?r => symmetry; apply (Z.mod_unique x m q r); lia end.


(** What [utf8_first] says of the first byte of an encoding. *)
Ltac first_byte :=
  unfold utf8_first;
  repeat match goal with
  | |- context [?a <=? ?b] => first [rewrite (proj2 (Z.leb_le a b)) by lia | rewrite (proj2 (Z.leb_gt a b)) by lia]
  | |- context [?a =? ?b] => first [rewrite (proj2 (Z.eqb_eq a b)) by lia | rewrite (proj2 (Z.eqb_neq a b)) by lia]
  end; cbn [andb].
Lemma first_2 b : 194 <= b <= 223 -> utf8_first b = Some (2%nat, 128, 191).
Proof. intros Hb. now first_byte. Qed.
Lemma first_3 b b1 : 224 <= b <= 239 -> cont_byte b1 -> (b = 224 -> 160 <= b1) -> (b = 237 -> b1 <= 159) ->
  exists lo hi, utf8_first b = Some (3%nat, lo, hi) /\ lo <= b1 <= hi.
Proof.
  unfold cont_byte. intros Hb H1 Ha Hs. destruct (decide (b = 224)); [|destruct (decide (b = 237))].
  - exists 160, 191. split; [now first_byte|lia].
  - exists 128, 159. split; [now first_byte|lia].
  - exists 128, 191. split; [now first_byte|lia].
Qed.
Lemma first_4 b b1 : 240 <= b <= 244 -> cont_byte b1 -> (b = 240 -> 144 <= b1) -> (b = 244 -> b1 <= 143) ->
  exists lo hi, utf8_first b = Some (4%nat, lo, hi) /\ lo <= b1 <= hi.
Proof.
  unfold cont_byte. intros Hb H1 Ha Hs. destruct (decide (b = 240)); [|destruct (decide (b = 244))].
  - exists 144, 191. split; [now first_byte|lia].
  - exists 128, 143. split; [now first_byte|lia].
  - exists 128, 191. split; [now first_byte|lia].
Qed.

Lemma decode_good r l t : rune_at r l -> decode_rune (str_of l +:+ t) = Some (r, length l).
Proof.
  intros Hr. destruct Hr as [b Hb|b0 b1 H0 H1|b0 b1 b2 H0 H1 H2 Ha Hs|b0 b1 b2 b3 H0 H1 H2 H3 Ha Hs];
    rewrite ?str_of_cons; unfold decode_rune; rewrite ?byte_at_S, !byte_at_0, ?byte_at_S, ?byte_at_0;
    repeat rewrite byte_val_of by (unfold cont_byte in *; lia).
  - rewrite (proj2 (Z.ltb_lt b 128)) by lia. reflexivity.
  - rewrite (proj2 (Z.ltb_ge b0 128)) by lia. rewrite first_2 by lia. unfold cont_byte in H1.
    rewrite (proj2 (Z.leb_le 128 b1)), (proj2 (Z.leb_le b1 191)) by lia. cbn [andb Nat.eqb].
    rewrite cont_low by exact H1. rewrite lor_low by lia. f_equal. f_equal.
    land_arith. rewrite <- (Z.mod_unique b0 (2 ^ 5) 6 (b0 - 192)) by lia. lia.
  - rewrite (proj2 (Z.ltb_ge b0 128)) by lia. destruct (first_3 b0 b1 H0 H1 Ha Hs) as (lo & hi & -> & Hl).
    rewrite (proj2 (Z.leb_le lo b1)), (proj2 (Z.leb_le b1 hi)) by lia. unfold cont_byte in *.
    rewrite (proj2 (Z.leb_le 128 b2)), (proj2 (Z.leb_le b2 191)) by lia. cbn [andb Nat.eqb].
    rewrite !cont_low by (unfold cont_byte; lia). rewrite !lor_low by (rewrite ?lor_low by lia; lia). f_equal. f_equal.
    land_arith. rewrite <- (Z.mod_unique b0 (2 ^ 4) 14 (b0 - 224)) by lia. lia.
  - rewrite (proj2 (Z.ltb_ge b0 128)) by lia. destruct (first_4 b0 b1 H0 H1 Ha Hs) as (lo & hi & -> & Hl).
    rewrite (proj2 (Z.leb_le lo b1)), (proj2 (Z.leb_le b1 hi)) by lia. unfold cont_byte in *.
    rewrite (proj2 (Z.leb_le 128 b2)), (proj2 (Z.leb_le b2 191)), (proj2 (Z.leb_le 128 b3)), (proj2 (Z.leb_le b3 191)) by lia.
    cbn [andb Nat.eqb]. rewrite !cont_low by (unfold cont_byte; lia).
    rewrite (lor_low (b2 - 128) (b3 - 128) 6), (lor_low (b1 - 128) _ 12), lor_low by lia. f_equal. f_equal.
    land_arith. rewrite <- (Z.mod_unique b0 (2 ^ 3) 30 (b0 - 240)) by lia. lia.
Qed.

Lemma first_inv b n lo hi : utf8_first b = Some (n, lo, hi) -> 128 <= lo /\ hi <= 191 /\
  (n = 2%nat /\ 194 <= b <= 223 \/
   n = 3%nat /\ 224 <= b <= 239 /\ (b = 224 -> 160 <= lo) /\ (b = 237 -> hi <= 159) \/
   n = 4%nat /\ 240 <= b <= 244 /\ (b = 240 -> 144 <= lo) /\ (b = 244 -> hi <= 143)).
Proof. unfold utf8_first. intros E. repeat case_bool; zbool; injection E as <- <- <- || discriminate E; lia. Qed.

(** A string starts with an encoding or with a byte that is none. *)
Lemma decode_split s : s <> EmptyString ->
  (exists r l t, rune_at r l /\ s = str_of l +:+ t) \/
  (decode_rune s = Some (rune_error, 1%nat) /\ exists c t, s = String c t /\ 128 <= byte_val c).
Proof.
  destruct s as [|c s]; [done|]. intros _. pose proof (byte_val_range c) as Hc.
  destruct (Z.ltb_spec (byte_val c) 128) as [H128|H128].
  { left. exists (byte_val c), [byte_val c], s. split; [constructor; lia|]. cbn. now rewrite byte_of_val. }
  unfold decode_rune. rewrite byte_at_0, (proj2 (Z.ltb_ge (byte_val c) 128)) by lia.
  assert (Hbad : exists c' t, String c s = String c' t /\ 128 <= byte_val c') by eauto.
  destruct (utf8_first (byte_val c)) as [[[n lo] hi]|] eqn:E1; [|right; auto].
  apply first_inv in E1. rewrite byte_at_S.
  destruct s as [|c1 s]; [right; auto|]. rewrite byte_at_0. destruct ((lo <=? byte_val c1) && (byte_val c1 <=? hi)) eqn:F1; [|right; auto].
  zbool. destruct (Nat.eqb_spec n 2) as [->|Hn2].
  { left. eexists _, [byte_val c; byte_val c1], s. split; [apply rune_2; unfold cont_byte; lia|]. cbn. now rewrite !byte_of_val. }
  rewrite byte_at_S. destruct s as [|c2 s]; [right; auto|]. rewrite byte_at_S, byte_at_0.
  destruct ((128 <=? byte_val c2) && (byte_val c2 <=? 191)) eqn:F2; [|right; auto].
  zbool. destruct (Nat.eqb_spec n 3) as [->|Hn3].
  { left. eexists _, [byte_val c; byte_val c1; byte_val c2], s. split; [apply rune_3; unfold cont_byte; lia|]. cbn. now rewrite !byte_of_val. }
  rewrite !byte_at_S. destruct s as [|c3 s]; [right; auto|]. rewrite byte_at_0.
  destruct ((128 <=? byte_val c3) && (byte_val c3 <=? 191)) eqn:F3; [|right; auto]. zbool.
  left. eexists _, [byte_val c; byte_val c1; byte_val c2; byte_val c3], s. split; [apply rune_4; unfold cont_byte; lia|]. cbn. now rewrite !byte_of_val.
Qed.
Lemma decode_inv s r w : decode_rune s = Some (r, w) ->
  (exists l t, rune_at r l /\ s = str_of l +:+ t /\ w = length l) \/
  (r = rune_error /\ w = 1%nat /\ exists c t, s = String c t /\ 128 <= byte_val c).
Proof.
  intros E. destruct (decode_split s) as [(r' & l & t & Hr & ->)|(E' & Hc)]; [now intros ->|left|right].
  - rewrite (decode_good r' l t Hr) in E. injection E as <- <-. eauto.
  - rewrite E' in E. injection E as <- <-. auto.
Qed.
Lemma decode_width s r w : decode_rune s = Some (r, w) -> (1 <= w <= String.length s)%nat.
Proof.
  intros [(l & t & Hr & -> & ->)|(_ & -> & c & t & -> & _)]%decode_inv; [|cbn; lia].
  rewrite str_length_app, str_of_length. destruct Hr; cbn; lia.
Qed.

(** ** Encoding *)

Lemma rune_range r l : rune_at r l -> 0 <= r < 1114112 /\ ~ (55296 <= r < 57344).
Proof. intros []; unfold cont_byte in *; lia. Qed.

Lemma cont_enc x q b : cont_byte b -> x = q * 64 + (b - 128) -> 0 <= q -> Z.lor 128 (Z.land x 63) = b.
Proof.
  unfold cont_byte. intros Hb -> Hq. land_arith. rewrite <- (Z.mod_unique _ (2 ^ 6) q (b - 128)) by lia.
  rewrite (lor_const 128 _ 6) by (try reflexivity; lia). lia.
Qed.
Lemma shiftr_val x n q r : 0 <= n -> x = q * 2 ^ n + r -> 0 <= r < 2 ^ n -> Z.shiftr x n = q.
Proof. intros Hn -> Hr. rewrite Z.shiftr_div_pow2 by lia. symmetry. apply (Z.div_unique_pos _ (2 ^ n) q r); lia. Qed.
Ltac bool_arith :=
  repeat match goal with
  | |- context [?a <=? ?b] => first [rewrite (proj2 (Z.leb_le a b)) by lia | rewrite (proj2 (Z.leb_gt a b)) by lia]
  | |- context [?a <? ?b] => first [rewrite (proj2 (Z.ltb_lt a b)) by lia | rewrite (proj2 (Z.ltb_ge a b)) by lia]
  end.

Lemma encode_good r l : rune_at r l -> encode_rune r = str_of l.
Proof.
  intros Hr. unfold encode_rune. destruct Hr as [b Hb|b0 b1 H0 H1|b0 b1 b2 H0 H1 H2 Ha Hs|b0 b1 b2 b3 H0 H1 H2 H3 Ha Hs].
  - bool_arith. reflexivity.
  - unfold cont_byte in *. bool_arith. cbn [andb].
    rewrite (cont_enc _ (b0 - 192) b1) by (unfold cont_byte; lia).
    rewrite (shiftr_val _ 6 (b0 - 192) (b1 - 128)) by lia.
    rewrite (lor_const 192 _ 5) by (try reflexivity; lia). replace (192 + (b0 - 192)) with b0 by lia. reflexivity.
  - set (r := (b0 - 224) * 4096 + (b1 - 128) * 64 + (b2 - 128)).
    assert (Hr : 2048 <= r < 65536 /\ ~ (55296 <= r < 57344)) by (unfold r, cont_byte in *; lia).
    assert (E : (0 <=? r) && (r <? 128) = false /\ (128 <=? r) && (r <? 2048) = false /\
      ((2048 <=? r) && (r <? 55296)) || ((57344 <=? r) && (r <? 65536)) = true).
    { destruct (Z.ltb_spec r 55296); bool_arith; repeat split; reflexivity || lia. }
    destruct E as (-> & -> & ->). unfold r, cont_byte in *.
    rewrite (shiftr_val _ 6 ((b0 - 224) * 64 + (b1 - 128)) (b2 - 128)) by lia.
    rewrite (shiftr_val _ 12 (b0 - 224) ((b1 - 128) * 64 + (b2 - 128))) by lia.
    rewrite (cont_enc _ (b0 - 224) b1) by (unfold cont_byte; lia).
    rewrite (cont_enc _ ((b0 - 224) * 64 + (b1 - 128)) b2) by (unfold cont_byte; lia).
    rewrite (lor_const 224 _ 4) by (try reflexivity; lia). replace (224 + (b0 - 224)) with b0 by lia. reflexivity.
  - set (r := (b0 - 240) * 262144 + (b1 - 128) * 4096 + (b2 - 128) * 64 + (b3 - 128)).
    assert (Hr : 65536 <= r < 1114112) by (unfold r, cont_byte in *; lia).
    bool_arith. cbn [andb orb]. unfold r, cont_byte in *.
    rewrite (shiftr_val _ 6 ((b0 - 240) * 4096 + (b1 - 128) * 64 + (b2 - 128)) (b3 - 128)) by lia.
    rewrite (shiftr_val _ 12 ((b0 - 240) * 64 + (b1 - 128)) ((b2 - 128) * 64 + (b3 - 128))) by lia.
    rewrite (shiftr_val _ 18 (b0 - 240) ((b1 - 128) * 4096 + (b2 - 128) * 64 + (b3 - 128))) by lia.
    rewrite (cont_enc _ (b0 - 240) b1) by (unfold cont_byte; lia).
    rewrite (cont_enc _ ((b0 - 240) * 64 + (b1 - 128)) b2) by (unfold cont_byte; lia).
    rewrite (cont_enc _ ((b0 - 240) * 4096 + (b1 - 128) * 64 + (b2 - 128)) b3) by (unfold cont_byte; lia).
    rewrite (lor_const 240 _ 3) by (try reflexivity; lia). replace (240 + (b0 - 240)) with b0 by lia. reflexivity.
Qed.

(** ** Valid strings *)

Inductive valid_utf8 : string -> Prop :=
| valid_nil : valid_utf8 EmptyString
| valid_rune r l t : rune_at r l -> valid_utf8 t -> valid_utf8 (str_of l +:+ t).

(** [utf8.ValidString]; the length is enough fuel. *)
Fixpoint valid_go (fuel : nat) (s : string) : bool :=
  match fuel with
  | O => true
  | S fuel =>
      match decode_rune s with
      | None => true
      | Some (r, w) => negb ((r =? rune_error) && (w =? 1)%nat) && valid_go fuel (str_drop w s)
      end
  end.
Definition ValidString (s : string) : bool := valid_go (String.length s) s.

Lemma decode_rune_nil s : decode_rune s = None -> s = EmptyString.
Proof.
  intros E. destruct (decide (s = EmptyString)) as [|Hs]; [done|].
  destruct (decode_split s Hs) as [(r & l & t & Hr & ->)|(E' & _)]; [|congruence].
  rewrite (decode_good r l t Hr) in E. discriminate.
Qed.
Lemma ValidString_valid s : ValidString s = true -> valid_utf8 s.
Proof.
  unfold ValidString. assert (H : forall n s, (String.length s <= n)%nat -> valid_go n s = true -> valid_utf8 s); [|now apply H].
  clear s. induction n as [|n IH]; intros s Hl.
  { destruct s; [constructor|cbn in Hl; lia]. }
  cbn [valid_go]. destruct (decode_rune s) as [[r w]|] eqn:E; [|intros _; rewrite (decode_rune_nil s E); constructor].
  destruct (decode_inv s r w E) as [(l & t & Hr & -> & ->)|(-> & -> & _)]; [|discriminate].
  intros H. apply andb_prop in H as [_ H]. constructor 2 with r; [exact Hr|]. apply IH.
  - rewrite str_length_app, str_of_length in Hl. destruct Hr; cbn in Hl; lia.
  - rewrite <- (str_of_length l) in H. now rewrite str_drop_app in H.
Qed.

(** Texts are put together from valid pieces. *)
Lemma valid_app s t : valid_utf8 s -> valid_utf8 t -> valid_utf8 (s +:+ t).
Proof. induction 1 as [|r l u Hr _ IH]; intros Ht; [exact Ht|]. rewrite str_app_assoc. econstructor; eauto. Qed.
Lemma valid_encode r l : rune_at r l -> valid_utf8 (encode_rune r).
Proof. intros Hr. rewrite (encode_good r l Hr), <- (str_app_nil_r (str_of l)). econstructor; [exact Hr|constructor]. Qed.
Lemma valid_str1 b : 0 <= b < 128 -> valid_utf8 (str1 b).
Proof. intros Hb. change (str1 b) with (str_of [b] +:+ EmptyString). econstructor; [now constructor|constructor]. Qed.
Lemma valid_ValidString s : valid_utf8 s -> ValidString s = true.
Proof.
  intros Hs. unfold ValidString. generalize (le_n (String.length s)). generalize (String.length s) at 2 3.
  induction Hs as [|r l t Hr Ht IH]; intros n Hn; [now destruct n|].
  destruct n as [|n]; [reflexivity|]. cbn [valid_go]. rewrite (decode_good r l t Hr).
  pose proof (rune_at_pos _ _ Hr) as Hl. rewrite str_length_app, str_of_length in Hn.
  rewrite <- (str_of_length l) at 2. rewrite str_drop_app, IH by lia. rewrite andb_true_r. apply negb_true_iff, andb_false_iff.
  destruct Hr; [left; apply Z.eqb_neq; unfold rune_error; lia|right; reflexivity..].
Qed.

(** A byte below 128 in first place is the whole encoding. *)
Lemma encode_low r c t : encode_rune r = String c t -> byte_val c < 128 -> t = EmptyString.
Proof.
  assert (Hh : forall k n x, k mod 2 ^ n = 0 -> 192 <= k -> 0 <= n -> k + 2 ^ n <= 256 -> 0 <= x < 2 ^ n -> 128 <= byte_val (byte_of (Z.lor k x))).
  { intros k n x Hk H1 Hn H2 Hx. rewrite (lor_const k x n) by lia. rewrite byte_val_of; lia. }
  unfold encode_rune. case_bool; [now intros [= _ <-]|]. intros E Hc. exfalso. revert E.
  case_bool; [|case_bool; [|case_bool]]; cbn -[Z.lor Z.shiftr Z.land byte_of]; intros [= <- _]; revert Hc; apply Z.le_ngt.
  - zbool. apply (Hh 192 5); try reflexivity; try lia. rewrite Z.shiftr_div_pow2 by lia. split; [apply Z.div_pos; lia|apply Z.div_lt_upper_bound; lia].
  - assert (0 <= r < 65536) by (apply orb_prop in Heqb1 as [E|E]; zbool; lia).
    apply (Hh 224 4); try reflexivity; try lia. rewrite Z.shiftr_div_pow2 by lia. split; [apply Z.div_pos; lia|apply Z.div_lt_upper_bound; lia].
  - zbool. apply (Hh 240 3); try reflexivity; try lia. rewrite Z.shiftr_div_pow2 by lia. split; [apply Z.div_pos; lia|apply Z.div_lt_upper_bound; lia].
  - rewrite byte_val_of by lia. lia.
Qed.
Lemma encode_nonempty r : encode_rune r <> EmptyString.
Proof. unfold encode_rune. repeat case_bool; discriminate. Qed.

(** An ASCII prefix of a sequence of runes takes one rune per byte. *)
Lemma prefix_runes p : forall l, Forall (fun c => byte_val c < 128) (list_ascii_of_string p) ->
  String.prefix p (string_of_runes l) = true -> (String.length p <= length l)%nat.
Proof.
  induction p as [|c p IH]; intros l Hp Hpre; [cbn; lia|]. apply Forall_cons in Hp as [Hc Hp].
  destruct l as [|r l]; [discriminate|]. assert (E : string_of_runes (r :: l) = encode_rune r +:+ string_of_runes l).
  { unfold string_of_runes. cbn. destruct l; [cbn; now rewrite str_app_nil_r|reflexivity]. }
  rewrite E in Hpre. destruct (encode_rune r) as [|d t] eqn:Er; [now destruct (encode_nonempty r)|].
  change (String d t +:+ string_of_runes l) with (String d (t +:+ string_of_runes l)) in Hpre. cbn [String.prefix] in Hpre.
  destruct (Ascii.ascii_dec c d) as [<-|]; [|discriminate]. rewrite (encode_low r c t Er Hc) in Hpre.
  cbn. specialize (IH l Hp Hpre). lia.
Qed.
Lemma runes_from_length n : forall off s, (length (runes_from n off s) <= n)%nat.
Proof.
  induction n as [|n IH]; intros off s; [done|]. cbn [runes_from]. destruct (decode_rune s) as [[r w]|]; [|cbn; lia].
  cbn. specialize (IH (off + w)%nat (str_drop w s)). lia.
Qed.
(** A line whose lower case has an ASCII prefix is at least as long. *)
Lemma lower_prefix_length `{Unicode} p s : Forall (fun c => byte_val c < 128) (list_ascii_of_string p) ->
  has_prefix (to_lower s) p = true -> slen p <= slen s.
Proof.
  intros Hp Hpre. unfold has_prefix, to_lower in Hpre. apply prefix_runes in Hpre; [|exact Hp].
  rewrite length_map in Hpre. unfold rune_values, runes in Hpre. rewrite length_map in Hpre.
  pose proof (runes_from_length (String.length s) 0 s). unfold slen. lia.
Qed.
