(* ===== verification/Lines.v ===== *)
(** * Lines of text: runes, trimming, case

    Facts on the string functions of GoStrings.v that the parser of the ReAct
    loop needs: how [range] walks a string, when [strings.TrimSpace] leaves a
    string alone, what lower-casing does to an ASCII prefix, and that splitting
    at newlines finds the lines a text was put together from. *)
From S2P Require Import Prelude GoStrings Utf8.
From Stdlib Require Import ZArith Lia Ascii String.
From stdpp Require Import base tactics list strings.
#[local] Open Scope Z_scope.

(** ** The runes of a string *)

Lemma str_length_drop n s : String.length (str_drop n s) = (String.length s - n)%nat.
Proof. revert s. induction n as [|n IH]; intros [|c s]; cbn; try lia. apply IH. Qed.
Lemma str_length_take n s : String.length (str_take n s) = Nat.min n (String.length s).
Proof. revert s. induction n as [|n IH]; intros [|c s]; cbn; try lia. now rewrite IH. Qed.
Lemma str_drop_drop n m s : str_drop n (str_drop m s) = str_drop (m + n) s.
Proof. revert s. induction m as [|m IH]; intros s; [done|]. destruct s as [|c s]; [now destruct n|]. apply IH. Qed.
Lemma str_take_all n s : (String.length s <= n)%nat -> str_take n s = s.
Proof. revert s. induction n as [|n IH]; intros [|c s] Hl; cbn in *; try done; [lia|]. rewrite IH; [done|lia]. Qed.

(** Each rune with its offset: where it is, how wide it is, whether it is the
    first and whether it is the last. *)
Lemma runes_from_split n : forall off s l1 j r l2, (String.length s <= n)%nat ->
  runes_from n off s = l1 ++ (j, r) :: l2 ->
  exists w, (off <= j)%nat /\ decode_rune (str_drop (j - off) s) = Some (r, w) /\
    (j - off + w <= String.length s)%nat /\ (l2 = [] <-> j - off + w = String.length s)%nat /\ (l1 = [] <-> j = off).
Proof.
  induction n as [|n IH]; intros off s l1 j r l2 Hn E; [now destruct l1|]. cbn [runes_from] in E.
  destruct (decode_rune s) as [[r0 w0]|] eqn:Ed; [|now destruct l1]. pose proof (decode_width s r0 w0 Ed) as Hw.
  destruct l1 as [|x l1]; [injection E as -> -> E|injection E as <- E].
  - exists w0. rewrite Nat.sub_diag. cbn [str_drop]. split; [lia|]. split; [done|]. split; [lia|]. split; [|done].
    destruct n as [|n]; [cbn in E; subst; split; [lia|done]|]. cbn [runes_from] in E.
    destruct (decode_rune (str_drop w0 s)) as [[r1 w1]|] eqn:E1; subst l2.
    + split; [done|]. apply decode_width in E1. rewrite str_length_drop in E1. lia.
    + apply decode_rune_nil, (f_equal String.length) in E1. rewrite str_length_drop in E1. cbn in E1. split; [lia|done].
  - apply IH in E; [|rewrite str_length_drop; lia]. destruct E as (w & H1 & H2 & H3 & H4 & H5). exists w.
    rewrite str_drop_drop in H2. replace (w0 + (j - (off + w0)))%nat with (j - off)%nat in H2 by lia.
    rewrite str_length_drop in H3, H4. split; [lia|]. split; [exact H2|]. split; [lia|]. split; [rewrite H4; lia|].
    split; [done|lia].
Qed.
Lemma runes_split s l1 j r l2 : runes s = l1 ++ (j, r) :: l2 ->
  exists w, decode_rune (str_drop j s) = Some (r, w) /\ (j + w <= String.length s)%nat /\
    (l2 = [] <-> j + w = String.length s)%nat /\ (l1 = [] <-> j = 0%nat).
Proof. intros E. apply runes_from_split in E as (w & _ & H); [|lia]. rewrite Nat.sub_0_r in H. now exists w. Qed.

Definition shift (k : nat) (e : nat * Z) : nat * Z := ((k + e.1)%nat, e.2).
Lemma runes_from_shift n k : forall off s, runes_from n (k + off)%nat s = map (shift k) (runes_from n off s).
Proof.
  induction n as [|n IH]; intros off s; cbn [runes_from]; [done|]. destruct (decode_rune s) as [[r w]|]; [|done].
  cbn. f_equal. rewrite <- IH. f_equal. lia.
Qed.
Lemma decode_ascii c t : byte_val c < 128 -> decode_rune (String c t) = Some (byte_val c, 1%nat).
Proof.
  intros Hc. pose proof (byte_val_range c) as Hr. pose proof (decode_good (byte_val c) [byte_val c] t) as E.
  cbn in E. rewrite byte_of_val in E. apply E. constructor. lia.
Qed.
Lemma runes_ascii c t : byte_val c < 128 -> runes (String c t) = (0%nat, byte_val c) :: map (shift 1) (runes t).
Proof. intros Hc. unfold runes. cbn [String.length runes_from]. rewrite decode_ascii by exact Hc. cbn. f_equal. apply (runes_from_shift _ 1). Qed.

(** The last rune of a string that ends in an ASCII byte. *)
Lemma last_rune_ascii s c : byte_val c < 128 -> exists j, last (runes (s +:+ String c EmptyString)) = Some (j, byte_val c).
Proof.
  intros Hc. set (t := s +:+ String c EmptyString).
  assert (Hlen : String.length t = S (String.length s)) by (unfold t; rewrite str_length_app; cbn; lia).
  assert (Hne : runes t <> []).
  { unfold runes. rewrite Hlen. cbn [runes_from]. destruct (decode_rune t) as [[r w]|] eqn:E; [done|]. apply decode_rune_nil in E.
    rewrite E in Hlen. discriminate. }
  destruct (last (runes t)) as [[j r]|] eqn:El; [|now apply last_None in El].
  apply last_Some in El as [l El]. destruct (runes_split t l j r [] El) as (w & Hd & Hjw & [Hw _] & _). specialize (Hw eq_refl).
  exists j. do 2 f_equal. pose proof (decode_width _ _ _ Hd) as Hw1.
  assert (Hs : str_drop j t = str_drop j s +:+ String c EmptyString).
  { unfold t. assert (Hj : (j <= String.length s)%nat) by lia. clear -Hj. revert s Hj.
    induction j as [|j IH]; intros [|d s] Hj; try done; cbn in Hj; [lia|]. apply (IH s). lia. }
  rewrite Hs in Hd. apply decode_inv in Hd as [(k & t' & Hk & E & ->)|(-> & -> & d & t' & E & Hd')].
  - assert (Et : t' = EmptyString).
    { pose proof (f_equal String.length E) as HE. rewrite <- Hs, str_length_drop, str_length_app, str_of_length in HE.
      destruct t'; [done|cbn in HE; lia]. }
    subst t'. rewrite str_app_nil_r in E. assert (Hb : last k = Some (byte_val c)).
    { assert (Hall : Forall (fun b => 0 <= b < 256) k) by (destruct Hk; unfold cont_byte in *; repeat (constructor; try lia)).
      assert (Hk' : k = map byte_val (list_ascii_of_string (str_of k))).
      { unfold str_of. rewrite list_ascii_of_string_of_list_ascii, map_map. symmetry. rewrite <- (map_id k) at 2.
        apply map_ext_in. intros b Hb. apply byte_val_of. now apply (proj1 (List.Forall_forall _ _) Hall). }
      rewrite Hk', <- E. clear. induction (str_drop j s) as [|d x IH]; [done|].
      change (list_ascii_of_string (String d x +:+ String c EmptyString)) with (d :: list_ascii_of_string (x +:+ String c EmptyString)).
      cbn [map]. destruct (map byte_val (list_ascii_of_string (x +:+ String c EmptyString))) as [|y l]; [done|]. exact IH. }
    destruct Hk; injection Hb as ->; unfold cont_byte in *; lia || reflexivity.
  - exfalso. destruct (str_drop j s) as [|d' x] eqn:Ej; [injection E as <- _; lia|].
    apply (f_equal String.length) in Ej. rewrite str_length_drop in Ej. cbn in Ej. lia.
Qed.

(** ** Trimming *)

Lemma drop_while_split l : (drop_while_space l = [] /\ Forall (fun e => is_space e.2 = true) l) \/
  exists pre j r rest, l = pre ++ (j, r) :: rest /\ is_space r = false /\ drop_while_space l = (j, r) :: rest.
Proof.
  induction l as [|[j r] l IH]; [left; split; [done|constructor]|]. cbn [drop_while_space]. destruct (is_space r) eqn:Er.
  - destruct IH as [[E Hf]|(pre & j' & r' & rest & -> & Hr & E)]; [left; split; [exact E|now constructor]|right].
    now exists ((j, r) :: pre), j', r', rest.
  - right. now exists [], j, r, l.
Qed.
Lemma drop_while_shift k l : drop_while_space (map (shift k) l) = map (shift k) (drop_while_space l).
Proof. induction l as [|[j r] l IH]; [done|]. cbn. now destruct (is_space r). Qed.

(** A string that starts, that ends with something other than space. *)
Definition starts_clean (s : string) : Prop := exists r l, runes s = (0%nat, r) :: l /\ is_space r = false.
Definition ends_clean (s : string) : Prop := exists j r, last (runes s) = Some (j, r) /\ is_space r = false.

Lemma clean_trim s : starts_clean s -> ends_clean s -> trim_space s = s.
Proof.
  intros (r & l & E & Hr) (j & r' & El & Hr'). apply last_Some in El as [pre El].
  assert (E1 : drop_while_space (runes s) = (0%nat, r) :: l) by (rewrite E; cbn; now rewrite Hr).
  assert (E2 : drop_while_space (rev ((0%nat, r) :: l)) = (j, r') :: rev pre).
  { rewrite <- E, El, rev_app_distr. cbn. now rewrite Hr'. }
  unfold trim_space. rewrite E1. cbv iota. rewrite E2.
  destruct (runes_split s pre j r' [] El) as (w & -> & Hjw & [Hw _] & _). specialize (Hw eq_refl).
  cbn [str_drop]. apply str_take_all. lia.
Qed.
Lemma trim_clean s : s <> EmptyString -> trim_space s = s -> starts_clean s /\ ends_clean s.
Proof.
  intros Hs E. assert (Hlen : (0 < String.length s)%nat) by (destruct s; [done|cbn; lia]). unfold trim_space in E.
  destruct (drop_while_split (runes s)) as [[E1 _]|(pre & i & r & rest & Er & Hr & E1)]; rewrite E1 in E; [now rewrite <- E in Hs|].
  destruct (drop_while_split (rev ((i, r) :: rest))) as [[E2 _]|(pre2 & j & r2 & rest2 & Er2 & Hr2 & E2)]; rewrite E2 in E; [now rewrite <- E in Hs|].
  assert (Ei : (i, r) :: rest = rev rest2 ++ (j, r2) :: rev pre2).
  { rewrite <- (rev_involutive ((i, r) :: rest)), Er2, rev_app_distr. cbn [rev]. now rewrite <- app_assoc. }
  destruct (runes_split s pre i r rest Er) as (wi & _ & Hi & _ & Hpre). rewrite Ei, app_assoc in Er.
  destruct (runes_split s _ j r2 _ Er) as (w & Hd & Hjw & Hlast & _). rewrite Hd in E.
  apply (f_equal String.length) in E. rewrite str_length_take, str_length_drop in E.
  assert (Hi0 : i = 0%nat) by lia. subst i. destruct Hpre as [_ Hpre]. rewrite (Hpre eq_refl) in *.
  split; [exists r, rest; split; [|exact Hr]; rewrite Er, <- app_assoc; cbn [app]; now rewrite Ei|].
  exists j, r2. split; [|exact Hr2]. rewrite Er. destruct Hlast as [_ Hlast]. rewrite Hlast by lia. apply last_snoc.
Qed.
Lemma starts_ascii c t : byte_val c < 128 -> is_space (byte_val c) = false -> starts_clean (String c t).
Proof. intros Hc Hs. unfold starts_clean. rewrite runes_ascii by exact Hc. eauto. Qed.
Lemma ends_ascii c t : byte_val c < 128 -> ends_clean t -> ends_clean (String c t).
Proof.
  intros Hc (j & r & E & Hr). exists (S j), r. split; [|exact Hr]. rewrite runes_ascii by exact Hc.
  apply last_Some in E as [l ->]. rewrite map_app. cbn [map]. now rewrite app_comm_cons, last_snoc.
Qed.
Lemma ends_app p t : Forall (fun c => byte_val c < 128) (list_ascii_of_string p) -> ends_clean t -> ends_clean (p +:+ t).
Proof.
  intros Hp Ht. induction p as [|c p IH]; [exact Ht|]. apply Forall_cons in Hp as [Hc Hp].
  change (String c p +:+ t) with (String c (p +:+ t)). apply ends_ascii; [exact Hc|now apply IH].
Qed.
Lemma ends_byte s c : byte_val c < 128 -> is_space (byte_val c) = false -> ends_clean (s +:+ String c EmptyString).
Proof. intros Hc Hs. destruct (last_rune_ascii s c Hc) as [j E]. now exists j, (byte_val c). Qed.
Lemma trim_space_cons c t : byte_val c < 128 -> is_space (byte_val c) = true -> trim_space (String c t) = trim_space t.
Proof.
  intros Hc Hs. unfold trim_space.
  assert (Ed : drop_while_space (runes (String c t)) = map (shift 1) (drop_while_space (runes t))).
  { rewrite runes_ascii by exact Hc. cbn. rewrite Hs. apply drop_while_shift. }
  rewrite Ed. destruct (drop_while_space (runes t)) as [|[i r] l]; [done|]. cbn [map shift fst snd].
  change (((1 + i)%nat, r) :: map (shift 1) l) with (map (shift 1) ((i, r) :: l)). rewrite <- map_rev, drop_while_shift.
  destruct (drop_while_space (rev ((i, r) :: l))) as [|[j r2] l2]; [done|]. cbn [map shift fst snd].
  change (str_drop (1 + j) (String c t)) with (str_drop j t). change (str_drop (1 + i) (String c t)) with (str_drop i t).
  reflexivity.
Qed.

(** ** Case and lines *)

Lemma string_of_runes_cons r l : string_of_runes (r :: l) = encode_rune r +:+ string_of_runes l.
Proof. unfold string_of_runes. cbn. destruct l; [cbn; now rewrite str_app_nil_r|reflexivity]. Qed.
Definition lower_byte (c : ascii) : ascii := if ascii_upper (byte_val c) then byte_of (byte_val c + 32) else c.
Fixpoint lower_ascii (p : string) : string :=
  match p with EmptyString => EmptyString | String c p => String (lower_byte c) (lower_ascii p) end.
Lemma rune_values_cons c t : byte_val c < 128 -> rune_values (String c t) = byte_val c :: rune_values t.
Proof.
  intros Hc. unfold rune_values. rewrite runes_ascii by exact Hc. cbn [map snd]. f_equal. rewrite map_map.
  apply map_ext. now intros [].
Qed.
Lemma to_lower_cons `{Unicode} c t : byte_val c < 128 -> to_lower (String c t) = String (lower_byte c) (to_lower t).
Proof.
  intros Hc. unfold to_lower. rewrite rune_values_cons by exact Hc. cbn [map]. rewrite string_of_runes_cons.
  pose proof (byte_val_range c). rewrite lower_rune_ascii by lia.
  assert (Er : encode_rune (if ascii_upper (byte_val c) then byte_val c + 32 else byte_val c) = String (lower_byte c) EmptyString).
  { unfold lower_byte, ascii_upper. destruct ((65 <=? byte_val c) && (byte_val c <=? 90)) eqn:E; zbool; unfold encode_rune;
      rewrite (proj2 (Z.leb_le 0 _)), (proj2 (Z.ltb_lt _ 128)) by lia; cbn [andb]; unfold str1; [done|now rewrite byte_of_val]. }
  now rewrite Er.
Qed.
(** An ASCII prefix is lower-cased byte by byte. *)
Lemma to_lower_app `{Unicode} p t : Forall (fun c => byte_val c < 128) (list_ascii_of_string p) ->
  to_lower (p +:+ t) = lower_ascii p +:+ to_lower t.
Proof.
  induction p as [|c p IH]; [done|]. intros Hp. apply Forall_cons in Hp as [Hc Hp].
  change (String c p +:+ t) with (String c (p +:+ t)). rewrite to_lower_cons by exact Hc. now rewrite IH.
Qed.

Lemma split_byte_app c a b : ~ In c (list_ascii_of_string a) -> split_byte c (a +:+ String c b) = a :: split_byte c b.
Proof.
  induction a as [|d a IH]; intros Ha.
  - change (EmptyString +:+ String c b) with (String c b). cbn. now rewrite Ascii.eqb_refl.
  - cbn in Ha. change (String d a +:+ String c b) with (String d (a +:+ String c b)). cbn [split_byte].
    rewrite IH by tauto. destruct (Ascii.eqb_spec d c) as [->|]; [tauto|done].
Qed.
Lemma split_byte_one c a : ~ In c (list_ascii_of_string a) -> split_byte c a = [a].
Proof.
  induction a as [|d a IH]; intros Ha; [done|]. cbn in Ha. cbn [split_byte]. rewrite IH by tauto.
  destruct (Ascii.eqb_spec d c) as [->|]; [tauto|done].
Qed.
