(* ===== verification/Strconv.v ===== *)
(** * Reading and quoting text: packages strconv, strings and time

    The conversions the configuration and the ReAct loop use: [strconv.Atoi],
    [strconv.ParseBool], [time.ParseDuration], [strconv.Quote] ([%q]) and
    [strings.Trim] with a set of ASCII characters.  An error is [None].  Which
    runes are printable is the class [Printable]. *)
From S2P Require Import Prelude Float64 GoStrings.
From Stdlib Require Import ZArith Lia String Ascii SpecFloat.
From stdpp Require Import base tactics list strings.
#[local] Open Scope Z_scope.

(** ** Integers and booleans *)

Fixpoint read_digits (s : string) (n : Z) : option Z :=
  match s with
  | EmptyString => Some n
  | String c s => if ascii_digit (byte_val c) then read_digits s (10 * n + (byte_val c - 48)) else None
  end.
Definition Atoi (s : string) : option Z :=
  let '(neg, d) := match s with
                   | String c d => if byte_val c =? 45 then (true, d) else if byte_val c =? 43 then (false, d) else (false, s)
                   | EmptyString => (false, s)
                   end in
  if String.eqb d EmptyString then None
  else
    n ← read_digits d 0;
    let n := if neg then - n else n in
    if (int64_min <=? n) && (n <=? int64_max) then Some n else None.

Definition ParseBool (s : string) : option bool :=
  if existsb (String.eqb s) ["1"; "t"; "T"; "true"; "TRUE"; "True"]%string then Some true
  else if existsb (String.eqb s) ["0"; "f"; "F"; "false"; "FALSE"; "False"]%string then Some false
  else None.

(** ** Durations *)

(** [leadingInt]: [None] on overflow. *)
Fixpoint leadingInt (s : string) (x : Z) : option (Z * string) :=
  match s with
  | String c t =>
      if ascii_digit (byte_val c) then
        if 2 ^ 63 / 10 <? x then None
        else let x := 10 * x + (byte_val c - 48) in if 2 ^ 63 <? x then None else leadingInt t x
      else Some (x, s)
  | EmptyString => Some (x, s)
  end.
(** [leadingFraction]: digits beyond the range are skipped; the scale is the
    float [10^k]. *)
Fixpoint leadingFraction (s : string) (x : Z) (scale : f64) (overflow : bool) : Z * f64 * string :=
  match s with
  | String c t =>
      if ascii_digit (byte_val c) then
        if overflow then leadingFraction t x scale true
        else if (2 ^ 63 - 1) / 10 <? x then leadingFraction t x scale true
        else
          let y := 10 * x + (byte_val c - 48) in
          if 2 ^ 63 <? y then leadingFraction t x scale true
          else leadingFraction t y (fmul scale (f64_of_Z 10)) false
      else (x, scale, s)
  | EmptyString => (x, scale, s)
  end.
Definition unitMap (u : string) : option Z :=
  match List.find (fun e => String.eqb e.1 u)
    [("ns", nanosecond); ("us", 1000); ("µs", 1000); ("μs", 1000); ("ms", millisecond); ("s", second); ("m", minute); ("h", 60 * minute)]%string with
  | Some e => Some e.2
  | None => None
  end.
Fixpoint unit_length (s : string) : nat :=
  match s with
  | String c s => if (byte_val c =? 46) || ascii_digit (byte_val c) then O else S (unit_length s)
  | EmptyString => O
  end.
Definition head_is (p : Z -> bool) (s : string) : bool := match s with String c _ => p (byte_val c) | EmptyString => false end.

(** One number with its unit: the nanoseconds and the rest. *)
Definition duration_part (s : string) : option (Z * string) :=
  if negb (head_is (fun b => (b =? 46) || ascii_digit b) s) then None
  else
    '(v, s1) ← leadingInt s 0;
    let pre := negb (slen s1 =? slen s) in
    let '(f, scale, s2, post) :=
      if head_is (fun b => b =? 46) s1 then
        let t := str_drop 1 s1 in
        let '(f, scale, s2) := leadingFraction t 0 f1 false in (f, scale, s2, negb (slen s2 =? slen t))
      else (0, f1, s1, false) in
    if negb pre && negb post then None
    else
      let i := unit_length s2 in
      if (i =? 0)%nat then None
      else
        unit ← unitMap (str_take i s2);
        if 2 ^ 63 / unit <? v then None
        else
          let v := v * unit in
          frac ← (if 0 <? f then f64_to_int (fmul (f64_of_Z f) (fdiv (f64_of_Z unit) scale)) else Some 0);
          let v := v + frac in
          if 2 ^ 63 <? v then None else Some (v, str_drop i s2).
(** Every part consumes at least one byte, so the length is enough fuel. *)
Fixpoint duration_parts (fuel : nat) (s : string) (d : Z) : option Z :=
  match fuel, s with
  | _, EmptyString => Some d
  | O, _ => None
  | S fuel, _ => '(v, s) ← duration_part s;
            let d := wrapu64 (d + v) in if 2 ^ 63 <? d then None else duration_parts fuel s d
  end.
Lemma leadingInt_length s : forall x v s', leadingInt s x = Some (v, s') -> (String.length s' <= String.length s)%nat.
Proof.
  induction s as [|c s IH]; intros x v s'; cbn [leadingInt]; [now intros [= _ <-]|].
  repeat case_bool; try discriminate; [intros H; apply IH in H; cbn; lia|now intros [= _ <-]].
Qed.
Lemma leadingFraction_length s : forall x scale o, (String.length (leadingFraction s x scale o).2 <= String.length s)%nat.
Proof.
  induction s as [|c s IH]; intros x scale o; cbn [leadingFraction]; [done|].
  repeat case_bool; cbn [snd]; try (cbn [String.length]; etransitivity; [apply IH|lia]). done.
Qed.
Lemma str_drop_length n s : String.length (str_drop n s) = (String.length s - n)%nat.
Proof. revert s. induction n as [|n IH]; intros [|c s]; cbn; auto. Qed.
Lemma unit_length_le s : (unit_length s <= String.length s)%nat.
Proof. induction s as [|c s IH]; cbn; [done|]. case_bool; lia. Qed.
(** Every part is at least one byte, so more fuel than the length changes nothing. *)
Lemma duration_part_shorter s v s' : duration_part s = Some (v, s') -> (String.length s' < String.length s)%nat.
Proof.
  unfold duration_part. destruct (negb (head_is _ s)); [discriminate|].
  destruct (leadingInt s 0) as [[x s1]|] eqn:E1; [|discriminate]. apply leadingInt_length in E1. cbn [mbind option_bind].
  set (y := if head_is _ s1 then _ else _).
  assert (Hy : (String.length y.1.2 <= String.length s1)%nat).
  { unfold y. destruct (head_is _ s1); [|done]. pose proof (leadingFraction_length (str_drop 1 s1) 0 f1 false) as H.
    destruct (leadingFraction (str_drop 1 s1) 0 f1 false) as [[f scale] s2]. cbn [fst snd] in *. rewrite str_drop_length in H. lia. }
  clearbody y. destruct y as [[[f scale] s2] post]. cbn [fst snd] in Hy. destruct (_ && _); [discriminate|].
  destruct (Nat.eqb_spec (unit_length s2) 0) as [|Hu]; [discriminate|]. pose proof (unit_length_le s2).
  destruct (unitMap _) as [u|]; [|discriminate]. cbn [mbind option_bind]. case_bool; [discriminate|].
  destruct (if 0 <? f then _ else _) as [fr|]; [|discriminate]. cbn [mbind option_bind]. case_bool; [discriminate|].
  intros [= _ <-]. rewrite str_drop_length. lia.
Qed.
Lemma duration_parts_fuel n m s d : (String.length s <= n)%nat -> (String.length s <= m)%nat ->
  duration_parts n s d = duration_parts m s d.
Proof.
  revert m s d. induction n as [|n IH]; intros m s d Hn Hm; [destruct s; [now destruct m|cbn in Hn; lia]|].
  destruct m as [|m]; [destruct s; [done|cbn in Hm; lia]|]. destruct s as [|c s]; [done|]. cbn [duration_parts].
  destruct (duration_part (String c s)) as [[v s']|] eqn:E; [|done]. apply duration_part_shorter in E. cbn [mbind option_bind].
  case_bool; [done|]. apply IH; lia.
Qed.
Definition ParseDuration (s : string) : option Z :=
  let neg := head_is (fun b => b =? 45) s in
  let s := if head_is (fun b => (b =? 45) || (b =? 43)) s then str_drop 1 s else s in
  if String.eqb s "0" then Some 0
  else if String.eqb s EmptyString then None
  else
    d ← duration_parts (String.length s) s 0;
    if neg then Some (- d) else if int64_max <? d then None else Some d.

(** ** Quoting *)

Class Printable := {
  is_print : Z -> bool;
  is_print_ascii : forall r, 0 <= r < 128 -> is_print r = ((32 <=? r) && (r <=? 126));
}.
(** The printable runes up to U+00FF. *)
#[export] Program Instance latin1_print : Printable :=
  {| is_print := fun r => ((32 <=? r) && (r <=? 126)) || ((161 <=? r) && (r <=? 255) && negb (r =? 173)) |}.
Next Obligation. intros r Hr. cbn. rewrite (proj2 (Z.leb_gt 161 r)) by lia. apply orb_false_r. Qed.

Definition hex_char (n : Z) : string := str1 (if n <? 10 then 48 + n else 87 + n).
(** [n] lower-case hexadecimal digits of [r]. *)
Fixpoint hex_pad (n : nat) (r : Z) : string :=
  match n with O => EmptyString | S n => hex_char (Z.land (Z.shiftr r (4 * Z.of_nat n)) 15) +:+ hex_pad n r end.
Definition quote_rune `{Printable} (r : Z) (w : nat) (s : string) : string :=
  if (r =? rune_error) && (w =? 1)%nat then "\x" +:+ hex_pad 2 (default 0 (byte_at s 0))
  else if (r =? 34) || (r =? 92) then "\" +:+ str1 r
  else if is_print r then encode_rune r
  else if r =? 7 then "\a" else if r =? 8 then "\b" else if r =? 12 then "\f" else if r =? 10 then "\n"
  else if r =? 13 then "\r" else if r =? 9 then "\t" else if r =? 11 then "\v"
  else if (r <? 32) || (r =? 127) then "\x" +:+ hex_pad 2 r
  else if r <? 65536 then "\u" +:+ hex_pad 4 r
  else "\U" +:+ hex_pad 8 r.
Fixpoint quote_go `{Printable} (fuel : nat) (s : string) : string :=
  match fuel with
  | O => EmptyString
  | S fuel =>
      match decode_rune s with
      | None => EmptyString
      | Some (r, w) => quote_rune r w s +:+ quote_go fuel (str_drop w s)
      end
  end.
(** [strconv.Quote]; the length is enough fuel. *)
Definition Quote `{Printable} (s : string) : string := quote +:+ quote_go (String.length s) s +:+ quote.

(** ** [strings.Trim] with ASCII characters *)

Fixpoint trim_left (p : Z -> bool) (s : string) : string :=
  match s with String c t => if p (byte_val c) then trim_left p t else s | EmptyString => s end.
Fixpoint trim_right (p : Z -> bool) (s : string) : string :=
  match s with
  | String c t => let t := trim_right p t in if p (byte_val c) && String.eqb t EmptyString then EmptyString else String c t
  | EmptyString => s
  end.
Definition Trim (p : Z -> bool) (s : string) : string := trim_right p (trim_left p s).

Example duration_ex : ParseDuration "1h15m30.918s" = Some 4530918000000 /\ ParseDuration "-1.5h" = Some (-5400 * second) /\
  ParseDuration "10" = None /\ ParseDuration "3 s" = None /\ ParseDuration "9223372036854775807ns" = Some int64_max.
Proof. vm_compute. auto 6. Qed.
Example atoi_ex : Atoi "-42" = Some (-42) /\ Atoi "+7" = Some 7 /\ Atoi "1_000" = None /\ Atoi "9223372036854775808" = None.
Proof. vm_compute. auto 6. Qed.
Example quote_ex : Quote ("a" +:+ quote +:+ nl +:+ "é" +:+ str1 255 +:+ str1 127) = quote +:+ "a\" +:+ quote +:+ "\né\xff\x7f" +:+ quote.
Proof. vm_compute. reflexivity. Qed.
