(* ===== verification/Json.v ===== *)
(** * JSON as package encoding/json reads and writes it

    The part of encoding/json the ReAct loop goes through: [Unmarshal] into a
    [map[string]any], [Marshal] of such a map, and for the handlers and clients
    the [Decoder] and the fields of a struct.  The reader is the package's
    scanner, a machine that consumes one byte at a time with a stack of the
    open objects and arrays ([scan_step]); reading a text is a fold, so it needs
    no fuel.  The scanner keeps an object's members in the order of the text; a
    Go map ([to_any]) is the list of its members sorted by key, the order
    [Marshal] writes it in.  [marshal] and the reader are proved inverse to
    each other. *)
From S2P Require Import Prelude Float64 GoStrings Utf8 Lines.
From Stdlib Require Import ZArith Reals Lra Lia String Ascii SpecFloat.
From stdpp Require Import base tactics list strings.
#[local] Open Scope Z_scope.

Inductive jvalue :=
| JNull | JBool (b : bool) | JNum (x : f64) | JStr (s : string)
| JArr (l : list jvalue) | JObj (m : list (string * jvalue)).

(** [map[string]any]: the members in the order of their keys. *)
Definition object : Type := list (string * jvalue).
Fixpoint obj_set (k : string) (v : jvalue) (m : object) : object :=
  match m with
  | [] => [(k, v)]
  | (k', v') :: m' =>
      match String.compare k k' with
      | Lt => (k, v) :: m
      | Eq => (k, v) :: m'
      | Gt => (k', v') :: obj_set k v m'
      end
  end.
Fixpoint obj_get (k : string) (m : object) : option jvalue :=
  match m with
  | [] => None
  | (k', v) :: m => if String.eqb k k' then Some v else obj_get k m
  end.

(** ** Strings *)

Definition hex_digit (n : Z) : ascii := byte_of (if n <? 10 then 48 + n else 87 + n).
Definition backslash : ascii := byte_of 92.
(** [\uXXXX]. *)
Definition u_escape (r : Z) : string :=
  String backslash (String "u" (String (hex_digit (Z.shiftr r 12)) (String (hex_digit (Z.land (Z.shiftr r 8) 15))
    (String (hex_digit (Z.land (Z.shiftr r 4) 15)) (String (hex_digit (Z.land r 15)) EmptyString))))).
Definition escaped (c : ascii) : string := String backslash (String c EmptyString).
Definition escape_byte (b : Z) : string :=
  if (b =? 34) || (b =? 92) then escaped (byte_of b)
  else if b =? 8 then escaped "b" else if b =? 12 then escaped "f" else if b =? 10 then escaped "n"
  else if b =? 13 then escaped "r" else if b =? 9 then escaped "t"
  else if (b <? 32) || (b =? 60) || (b =? 62) || (b =? 38) then u_escape b
  else str1 b.

(** [appendString] with HTML escaping; the length is enough fuel. *)
Definition escape_rune (r : Z) (w : nat) (s : string) : string :=
  if r <? 128 then escape_byte r
  else if (r =? rune_error) && (w =? 1)%nat then u_escape rune_error
  else if (r =? 8232) || (r =? 8233) then u_escape r
  else str_take w s.
Fixpoint escape_go (fuel : nat) (s : string) : string :=
  match fuel with
  | O => EmptyString
  | S fuel =>
      match decode_rune s with
      | None => EmptyString
      | Some (r, w) => escape_rune r w s +:+ escape_go fuel (str_drop w s)
      end
  end.
Definition quote_json (s : string) : string := quote +:+ escape_go (String.length s) s +:+ quote.

Definition hex_value (c : ascii) : option Z :=
  let b := byte_val c in
  if (48 <=? b) && (b <=? 57) then Some (b - 48)
  else if (97 <=? b) && (b <=? 102) then Some (b - 87)
  else if (65 <=? b) && (b <=? 70) then Some (b - 55)
  else None.
(** [getu4]: the code of [\uXXXX] at the head of [s]. *)
Definition getu4 (s : string) : option (Z * string) :=
  match s with
  | String e (String u (String a (String b (String c (String d t))))) =>
      if Ascii.eqb e backslash && Ascii.eqb u "u" then
        a ← hex_value a; b ← hex_value b; c ← hex_value c; d ← hex_value d;
        Some (4096 * a + 256 * b + 16 * c + d, t)
      else None
  | _ => None
  end.
(** [utf16.DecodeRune]. *)
Definition utf16_decode (r1 r2 : Z) : option Z :=
  if (55296 <=? r1) && (r1 <? 56320) && (56320 <=? r2) && (r2 <? 57344)
  then Some (Z.lor (Z.shiftl (r1 - 55296) 10) (r2 - 56320) + 65536) else None.
Definition unescape_byte (c : ascii) : ascii :=
  match c with
  | "b"%char => byte_of 8 | "f"%char => byte_of 12 | "n"%char => byte_of 10
  | "r"%char => byte_of 13 | "t"%char => byte_of 9 | c => c
  end.
(** [unquote] of a literal's inside. *)
Fixpoint unquote_go (fuel : nat) (s : string) : string :=
  match fuel, s with
  | O, _ | _, EmptyString => EmptyString
  | S fuel, String c s' =>
      if Ascii.eqb c backslash then
        match getu4 s with
        | Some (r, t) =>
            if (55296 <=? r) && (r <? 57344) then
              match getu4 t with
              | Some (r2, t2) =>
                  match utf16_decode r r2 with
                  | Some x => encode_rune x +:+ unquote_go fuel t2
                  | None => encode_rune rune_error +:+ unquote_go fuel t
                  end
              | None => encode_rune rune_error +:+ unquote_go fuel t
              end
            else encode_rune r +:+ unquote_go fuel t
        | None => match s' with String e t => String (unescape_byte e) (unquote_go fuel t) | EmptyString => EmptyString end
        end
      else match decode_rune s with
           | Some (r, w) => encode_rune r +:+ unquote_go fuel (str_drop w s)
           | None => EmptyString
           end
  end.
Definition unquote (s : string) : string := unquote_go (String.length s) s.

(** ** Numbers *)

(** [mant * 10^e10] rounded to binary64. *)
Definition decimal_value (neg : bool) (mant e10 : Z) : f64 :=
  let v := match mant with
           | Zpos n => if 0 <=? e10 then fratio (n * Z.to_pos (10 ^ e10)) 1 else fratio n (Z.to_pos (10 ^ (- e10)))
           | _ => S754_zero false
           end in
  if neg then fopp v else v.

(** [strconv.ParseFloat] on the literals the scanner accepts: value, and
    whether it is out of range. *)
Fixpoint mantissa (l : list Z) (mant k : Z) (frac : bool) : Z * Z * list Z :=
  match l with
  | [] => (mant, k, [])
  | c :: l' =>
      if ascii_digit c then mantissa l' (10 * mant + (c - 48)) (if frac then k + 1 else k) frac
      else if c =? 46 then mantissa l' mant k true
      else (mant, k, l)
  end.
Definition decimal_digits (l : list Z) : Z := foldl (fun n c => 10 * n + (c - 48)) 0 l.
Definition exponent (l : list Z) : Z :=
  match l with
  | [] | [_] => 0
  | _ :: c :: ds => if c =? 45 then - decimal_digits ds else if c =? 43 then decimal_digits ds else decimal_digits (c :: ds)
  end.
Definition ParseFloat_literal (l : list Z) : f64 * bool :=
  let '(neg, l) := match l with c :: l' => if c =? 45 then (true, l') else (false, l) | [] => (false, l) end in
  let '(mant, k, rest) := mantissa l 0 0 false in
  let v := decimal_value neg mant (exponent rest - k) in
  (v, is_inf v neg).

(** The shortest decimal [q * 10^e] that is read back as [n / d] (the float
    [x]), the nearest of them to [x]; 17 digits always suffice. *)
Definition f64_eqb (x y : f64) : bool :=
  match x, y with
  | S754_zero s, S754_zero t | S754_infinity s, S754_infinity t => Bool.eqb s t
  | S754_nan, S754_nan => true
  | S754_finite s m e, S754_finite t n f => Bool.eqb s t && Pos.eqb m n && (e =? f)
  | _, _ => false
  end.
Fixpoint small_exp (fuel : nat) (n d : Z) : Z :=
  match fuel with O => 0 | S fuel => if d <=? 10 * n then 0 else 1 + small_exp fuel (10 * n) d end.
Definition exp10 (n d : Z) : Z := if d <=? n then slen (digits (n / d)) else - small_exp 400 n d.
Fixpoint shortest_go (fuel : nat) (x : f64) (n d k p : Z) : Z * Z :=
  let '(num, den) := if k <=? p then (n * 10 ^ (p - k), d) else (n, d * 10 ^ (k - p)) in
  let q := num / den in
  let r := num mod den in
  let lo := f64_eqb (decimal_value false q (k - p)) x in
  let hi := f64_eqb (decimal_value false (q + 1) (k - p)) x in
  let up := (den <? 2 * r) || ((2 * r =? den) && Z.odd q) in
  if lo && hi then (if up then q + 1 else q, k - p)
  else if lo then (q, k - p)
  else if hi then (q + 1, k - p)
  else match fuel with O => (if up then q + 1 else q, k - p) | S fuel => shortest_go fuel x n d k (p + 1) end.
Fixpoint strip_zeros (fuel : nat) (q e : Z) : Z * Z :=
  match fuel with
  | O => (q, e)
  | S fuel => if (q mod 10 =? 0) && negb (q =? 0) then strip_zeros fuel (q / 10) (e + 1) else (q, e)
  end.
Definition shortest (m : positive) (e : Z) : Z * Z :=
  let x := S754_finite false m e in
  let '(q, e) := shortest_go 16 x (f_num x) (f_den x) (exp10 (f_num x) (f_den x)) 1 in strip_zeros 20 q e.

(** The formats [%f] and [%e] of the digits [ds] of [0.ds * 10^dp]. *)
Definition format_f (ds : string) (dp : Z) : string :=
  if dp <=? 0 then "0." +:+ zeros (Z.to_nat (- dp)) +:+ ds
  else if slen ds <=? dp then ds +:+ zeros (Z.to_nat (dp - slen ds))
  else str_take (Z.to_nat dp) ds +:+ "." +:+ str_drop (Z.to_nat dp) ds.
Definition format_e (ds : string) (dp : Z) : string :=
  str_take 1 ds +:+ (if 1 <? slen ds then "." +:+ str_drop 1 ds else EmptyString) +:+
  "e" +:+ (if dp - 1 <? 0 then str1 45 else str1 43) +:+ digits (Z.abs (dp - 1)).
(** [floatEncoder]: an error ([None]) on NaN and the infinities. *)
Definition marshal_float (x : f64) : option string :=
  match x with
  | S754_zero s => Some (if s then "-0" else "0")%string
  | S754_finite s m e =>
      let abs := S754_finite false m e in
      let '(q, e10) := shortest m e in
      let ds := digits q in
      let dp := slen ds + e10 in
      let body := if flt abs (fratio 1 1000000) || fle (f64_of_Z (10 ^ 21)) abs then format_e ds dp else format_f ds dp in
      Some ((if s then str1 45 else EmptyString) +:+ body)
  | _ => None
  end.

(** ** The scanner *)

Inductive frame := FKey (m : object) | FVal (m : object) (k : string) | FArr (l : list jvalue).
Inductive numstate := NNeg | NZero | NInt | NDot | NFrac | NExp | NSign | NExpInt.
Inductive mode :=
| MBegin | MBeginArr | MBeginKey | MBeginKeyOrEmpty
| MStr (acc : list ascii) | MEsc (acc : list ascii) | MHex (n : nat) (acc : list ascii)
| MNum (n : numstate) (acc : list Z)
| MLit (rest : string) (v : jvalue)
| MEnd (v : jvalue).
(** [out_of_range]: some number was, and its value is left [nil]. *)
Record scanner := mkScanner { scan_mode : mode; stack : list frame; out_of_range : bool }.

Definition json_space (b : Z) : bool := (b =? 32) || (b =? 9) || (b =? 13) || (b =? 10).
Definition maxNestingDepth : Z := 10000.
Definition goto (m : mode) (s : scanner) : scanner := mkScanner m (stack s) (out_of_range s).
Definition push (f : frame) (m : mode) (s : scanner) : option scanner :=
  if len (stack s) <? maxNestingDepth then Some (mkScanner m (f :: stack s) (out_of_range s)) else None.

Definition begin_value (b : Z) (s : scanner) : option scanner :=
  if b =? 123 then push (FKey []) MBeginKeyOrEmpty s
  else if b =? 91 then push (FArr []) MBeginArr s
  else if b =? 34 then Some (goto (MStr []) s)
  else if b =? 45 then Some (goto (MNum NNeg [b]) s)
  else if b =? 48 then Some (goto (MNum NZero [b]) s)
  else if (49 <=? b) && (b <=? 57) then Some (goto (MNum NInt [b]) s)
  else if b =? 116 then Some (goto (MLit "rue" (JBool true)) s)
  else if b =? 102 then Some (goto (MLit "alse" (JBool false)) s)
  else if b =? 110 then Some (goto (MLit "ull" JNull) s)
  else None.

(** After a value [v]: what the byte means to the innermost open composite. *)
Definition end_value (v : jvalue) (b : Z) (s : scanner) : option scanner :=
  if json_space b then Some (goto (MEnd v) s)
  else match stack s, v with
  | FKey m :: st, JStr k => if b =? 58 then Some (mkScanner MBegin (FVal m k :: st) (out_of_range s)) else None
  | FVal m k :: st, _ =>
      if b =? 44 then Some (mkScanner MBeginKey (FKey (m ++ [(k, v)]) :: st) (out_of_range s))
      else if b =? 125 then Some (mkScanner (MEnd (JObj (m ++ [(k, v)]))) st (out_of_range s)) else None
  | FArr l :: st, _ =>
      if b =? 44 then Some (mkScanner MBegin (FArr (v :: l) :: st) (out_of_range s))
      else if b =? 93 then Some (mkScanner (MEnd (JArr (rev (v :: l)))) st (out_of_range s)) else None
  | _, _ => None
  end.

Definition num_step (n : numstate) (b : Z) : option numstate :=
  match n with
  | NNeg => if b =? 48 then Some NZero else if ascii_digit b then Some NInt else None
  | NZero => if b =? 46 then Some NDot else if (b =? 101) || (b =? 69) then Some NExp else None
  | NInt => if ascii_digit b then Some NInt else if b =? 46 then Some NDot else if (b =? 101) || (b =? 69) then Some NExp else None
  | NDot => if ascii_digit b then Some NFrac else None
  | NFrac => if ascii_digit b then Some NFrac else if (b =? 101) || (b =? 69) then Some NExp else None
  | NExp => if (b =? 43) || (b =? 45) then Some NSign else if ascii_digit b then Some NExpInt else None
  | NSign | NExpInt => if ascii_digit b then Some NExpInt else None
  end.
Definition num_done (n : numstate) : bool :=
  match n with NZero | NInt | NFrac | NExpInt => true | _ => false end.
Definition end_number (acc : list Z) (s : scanner) : jvalue * scanner :=
  let '(x, bad) := ParseFloat_literal (rev acc) in
  (if bad then JNull else JNum x, mkScanner (scan_mode s) (stack s) (out_of_range s || bad)).

Definition scan_step (s : scanner) (c : ascii) : option scanner :=
  let b := byte_val c in
  match scan_mode s with
  | MBegin => if json_space b then Some s else begin_value b s
  | MBeginArr =>
      if json_space b then Some s
      else if b =? 93 then match stack s with FArr _ :: st => Some (mkScanner (MEnd (JArr [])) st (out_of_range s)) | _ => None end
      else begin_value b s
  | MBeginKey => if json_space b then Some s else if b =? 34 then Some (goto (MStr []) s) else None
  | MBeginKeyOrEmpty =>
      if json_space b then Some s
      else if b =? 125 then match stack s with FKey m :: st => Some (mkScanner (MEnd (JObj m)) st (out_of_range s)) | _ => None end
      else if b =? 34 then Some (goto (MStr []) s) else None
  | MStr acc =>
      if b =? 34 then Some (goto (MEnd (JStr (unquote (string_of_list_ascii (rev acc))))) s)
      else if b =? 92 then Some (goto (MEsc (c :: acc)) s)
      else if b <? 32 then None
      else Some (goto (MStr (c :: acc)) s)
  | MEsc acc =>
      if (b =? 98) || (b =? 102) || (b =? 110) || (b =? 114) || (b =? 116) || (b =? 92) || (b =? 47) || (b =? 34)
      then Some (goto (MStr (c :: acc)) s)
      else if b =? 117 then Some (goto (MHex 4 (c :: acc)) s) else None
  | MHex n acc =>
      _ ← hex_value c;
      Some (goto (match n with S (S n) => MHex (S n) (c :: acc) | _ => MStr (c :: acc) end) s)
  | MNum n acc =>
      match num_step n b with
      | Some n' => Some (goto (MNum n' (b :: acc)) s)
      | None => if num_done n then let '(v, s) := end_number acc s in end_value v b s else None
      end
  | MLit rest v =>
      match rest with
      | String d rest => if Ascii.eqb c d then Some (goto (match rest with EmptyString => MEnd v | _ => MLit rest v end) s) else None
      | EmptyString => None
      end
  | MEnd v => end_value v b s
  end.

Fixpoint scan (t : string) (s : scanner) : option scanner :=
  match t with EmptyString => Some s | String c t => s ← scan_step s c; scan t s end.
(** [eof]: the value and whether a number in it was out of range. *)
Definition scan_eof (s : scanner) : option (jvalue * bool) :=
  match stack s, scan_mode s with
  | [], MEnd v => Some (v, out_of_range s)
  | [], MNum n acc => if num_done n then let '(v, s) := end_number acc s in Some (v, out_of_range s) else None
  | _, _ => None
  end.
Definition parse_json (t : string) : option (jvalue * bool) := s ← scan t (mkScanner MBegin [] false); scan_eof s.

(** The value an [any] takes: of equal keys the last one counts. *)
Definition to_map (m : object) : object := foldl (fun m e => obj_set e.1 e.2 m) [] m.
Fixpoint to_any (v : jvalue) : jvalue :=
  match v with
  | JArr l => JArr (map to_any l)
  | JObj m => JObj (to_map (map (fun e => (e.1, to_any e.2)) m))
  | v => v
  end.

(** [json.Unmarshal] into a [map[string]any] that holds [m]: whether it is an
    error, and the map afterwards. *)
Definition Unmarshal_map (t : string) (m : option object) : bool * option object :=
  match parse_json t with
  | None => (true, m)
  | Some (JObj o, bad) => (bad, Some (foldl (fun m e => obj_set e.1 (to_any e.2) m) (default [] m) o))
  | Some (JNull, _) => (false, None)
  | Some _ => (true, m)
  end.

(** ** [json.Marshal] *)

Fixpoint marshal (v : jvalue) : option string :=
  match v with
  | JNull => Some "null"%string
  | JBool b => Some (if b then "true" else "false")%string
  | JNum x => marshal_float x
  | JStr s => Some (quote_json s)
  | JArr l => r ← mapM marshal l; Some ("[" +:+ str_join "," r +:+ "]")
  | JObj m =>
      r ← mapM (fun e => t ← marshal e.2; Some (quote_json e.1 +:+ ":" +:+ t)) m;
      Some ("{" +:+ str_join "," r +:+ "}")
  end.

Example parse_ex : parse_json ("{" +:+ quote +:+ "b" +:+ quote +:+ ": [1, -2.5e3, true], " +:+ quote +:+ "a\u00e9\n" +:+ quote +:+ ":null}")
  = Some (JObj [("b", JArr [JNum f1; JNum (f64_of_Z (-2500)); JBool true]); ("aé" +:+ nl, JNull)]%string, false).
Proof. vm_compute. reflexivity. Qed.
Example marshal_ex : marshal (JObj [("a<é" +:+ nl, JNum (flit 1 3)); ("b", JArr [JNum (f64_of_Z (10 ^ 21)); JNum (flit 1 10000000); JNum (flit 25 10)])]%string)
  = Some ("{" +:+ quote +:+ "a\u003cé\n" +:+ quote +:+ ":0.3333333333333333," +:+ quote +:+ "b" +:+ quote +:+ ":[1e+21,1e-7,2.5]}").
Proof. vm_compute. reflexivity. Qed.

(** ** Strings are read back as they were written *)

Lemma scan_app a b s : scan (a +:+ b) s = (s' ← scan a s; scan b s').
Proof.
  revert s. induction a as [|c a IH]; intros s; [reflexivity|]. change (String c a +:+ b) with (String c (a +:+ b)).
  cbn [scan]. destruct (scan_step s c) as [s1|]; [|reflexivity]. apply IH.
Qed.

(** A piece of a literal: bytes that the scanner takes inside a string. *)
Definition inside (p : string) : Prop := forall acc st bad,
  scan p (mkScanner (MStr acc) st bad) = Some (mkScanner (MStr (rev (list_ascii_of_string p) ++ acc)) st bad).

Lemma list_ascii_app a b : list_ascii_of_string (a +:+ b) = list_ascii_of_string a ++ list_ascii_of_string b.
Proof. induction a as [|c a IH]; [done|]. cbn. now rewrite <- IH. Qed.
Lemma inside_nil : inside EmptyString.
Proof. intros acc st bad. reflexivity. Qed.
Lemma inside_app a b : inside a -> inside b -> inside (a +:+ b).
Proof.
  intros Ha Hb acc st bad. rewrite scan_app, Ha. cbn [mbind option_bind]. rewrite Hb.
  now rewrite list_ascii_app, rev_app_distr, <- app_assoc.
Qed.
Lemma inside_byte c : 32 <= byte_val c -> byte_val c <> 34 -> byte_val c <> 92 -> inside (String c EmptyString).
Proof.
  intros H1 H2 H3 acc st bad. cbn. unfold scan_step. cbn [scan_mode].
  rewrite (proj2 (Z.eqb_neq _ _) H2), (proj2 (Z.eqb_neq _ _) H3), (proj2 (Z.ltb_ge _ _)) by lia. reflexivity.
Qed.
Lemma inside_bytes l : Forall (fun b => 128 <= b < 256) l -> inside (str_of l).
Proof.
  induction 1 as [|b l Hb _ IH]; [apply inside_nil|]. change (str_of (b :: l)) with (str1 b +:+ str_of l).
  apply inside_app; [|exact IH]. apply inside_byte; rewrite byte_val_of by lia; lia.
Qed.

Lemma hex_value_digit n : 0 <= n < 16 -> hex_value (hex_digit n) = Some n.
Proof.
  intros Hn. unfold hex_digit, hex_value. destruct (Z.ltb_spec n 10); rewrite byte_val_of by lia;
    bool_arith; cbn [andb]; f_equal; lia.
Qed.
(** The four digits of a 16-bit number. *)
Lemma hex_digits r : 0 <= r < 65536 ->
  let a := Z.shiftr r 12 in let b := Z.land (Z.shiftr r 8) 15 in let c := Z.land (Z.shiftr r 4) 15 in let d := Z.land r 15 in
  0 <= a < 16 /\ 0 <= b < 16 /\ 0 <= c < 16 /\ 0 <= d < 16 /\ 4096 * a + 256 * b + 16 * c + d = r.
Proof.
  intros Hr. cbn zeta. rewrite !Z.shiftr_div_pow2 by lia. land_arith.
  pose proof (Z.mod_pos_bound (r / 2 ^ 8) (2 ^ 4)). pose proof (Z.mod_pos_bound (r / 2 ^ 4) (2 ^ 4)). pose proof (Z.mod_pos_bound r (2 ^ 4)).
  pose proof (Z.div_mod r (2 ^ 4)). pose proof (Z.div_mod (r / 2 ^ 4) (2 ^ 4)). pose proof (Z.div_mod (r / 2 ^ 8) (2 ^ 4)).
  assert (E1 : r / 2 ^ 4 / 2 ^ 4 = r / 2 ^ 8) by (rewrite Z.div_div by lia; reflexivity).
  assert (E2 : r / 2 ^ 8 / 2 ^ 4 = r / 2 ^ 12) by (rewrite Z.div_div by lia; reflexivity).
  assert (0 <= r / 2 ^ 12 < 16) by (split; [apply Z.div_pos|apply Z.div_lt_upper_bound]; clear - Hr; lia).
  rewrite E1, E2 in *. lia.
Qed.

Lemma inside_escaped c : (c = "b" \/ c = "f" \/ c = "n" \/ c = "r" \/ c = "t" \/ c = backslash \/ c = byte_of 34)%char -> inside (escaped c).
Proof. intros H acc st bad. destruct H as [->|[->|[->|[->|[->|[->| ->]]]]]]; reflexivity. Qed.
Lemma scan_hex n acc st bad d : hex_value d <> None ->
  scan_step (mkScanner (MHex n acc) st bad) d = Some (mkScanner (match n with S (S n) => MHex (S n) (d :: acc) | _ => MStr (d :: acc) end) st bad).
Proof. intros Hd. unfold scan_step. cbn [scan_mode]. destruct (hex_value d); [reflexivity|done]. Qed.
Lemma scan_hex4 a b c d acc st bad :
  hex_value a <> None -> hex_value b <> None -> hex_value c <> None -> hex_value d <> None ->
  scan (String a (String b (String c (String d EmptyString)))) (mkScanner (MHex 4 acc) st bad)
    = Some (mkScanner (MStr (d :: c :: b :: a :: acc)) st bad).
Proof. intros Ha Hb Hc Hd. cbn [scan]. now do 4 (rewrite scan_hex by assumption; cbn [mbind option_bind]). Qed.
Lemma inside_u r : 0 <= r < 65536 -> inside (u_escape r).
Proof.
  intros Hr acc st bad. destruct (hex_digits r Hr) as (Ha & Hb & Hc & Hd & _). unfold u_escape.
  set (l := list_ascii_of_string _). etransitivity; [apply (scan_hex4 _ _ _ _ ("u"%char :: backslash :: acc))|reflexivity];
    rewrite hex_value_digit by assumption; discriminate.
Qed.
Lemma getu4_escape r t : 0 <= r < 65536 -> getu4 (u_escape r +:+ t) = Some (r, t).
Proof.
  intros Hr. destruct (hex_digits r Hr) as (Ha & Hb & Hc & Hd & E).
  change (u_escape r +:+ t) with (String backslash (String "u" (String (hex_digit (Z.shiftr r 12)) (String (hex_digit (Z.land (Z.shiftr r 8) 15))
    (String (hex_digit (Z.land (Z.shiftr r 4) 15)) (String (hex_digit (Z.land r 15)) t)))))).
  unfold getu4. cbn [Ascii.eqb andb]. rewrite !hex_value_digit by assumption. cbn [mbind option_bind]. now rewrite E.
Qed.

(** The escaped form of a rune, and what [unquote] makes of it. *)
Lemma high_rune r l : rune_at r l -> 128 <= r -> Forall (fun b => 128 <= b < 256) l /\ (r = rune_error -> length l = 3%nat).
Proof. intros [] Hr; unfold cont_byte, rune_error in *; (split; [repeat constructor|cbn]; lia). Qed.
Lemma low_rune r l : rune_at r l -> r < 128 -> l = [r] /\ 0 <= r.
Proof. intros [] Hr; unfold cont_byte in *; lia || (split; [done|lia]). Qed.

Lemma getu4_other e t : e <> "u"%char -> getu4 (String backslash (String e t)) = None.
Proof.
  intros He. destruct t as [|a [|b [|c [|d t]]]]; try reflexivity. unfold getu4.
  rewrite (proj2 (Ascii.eqb_neq e "u") He), andb_false_r. reflexivity.
Qed.
(** The two-byte escapes. *)
Definition short_escape (b : Z) : option ascii :=
  if (b =? 34) || (b =? 92) then Some (byte_of b)
  else if b =? 8 then Some "b"%char else if b =? 12 then Some "f"%char else if b =? 10 then Some "n"%char
  else if b =? 13 then Some "r"%char else if b =? 9 then Some "t"%char else None.
Lemma escape_byte_short b : escape_byte b = match short_escape b with
  | Some c => escaped c
  | None => if (b <? 32) || (b =? 60) || (b =? 62) || (b =? 38) then u_escape b else str1 b
  end.
Proof. unfold escape_byte, short_escape. repeat case_bool; reflexivity. Qed.
Lemma short_escape_ok b c : 0 <= b < 128 -> short_escape b = Some c -> inside (escaped c) /\ c <> "u"%char /\ unescape_byte c = byte_of b.
Proof.
  intros Hb. unfold short_escape. repeat case_bool; zbool; intros [= <-]; subst; try (split; [apply inside_escaped; tauto|now split]).
  apply orb_prop in Heqb0 as [E|E]; zbool; subst; (split; [apply inside_escaped; tauto|now split]).
Qed.
Lemma short_escape_none b : short_escape b = None -> b <> 34 /\ b <> 92.
Proof. unfold short_escape. repeat case_bool; zbool; try discriminate. lia. Qed.

Lemma escape_rune_ok r l t : rune_at r l ->
  let p := escape_rune r (length l) (str_of l +:+ t) in
  inside p /\ p <> EmptyString /\
  forall F rest, unquote_go (S F) (p +:+ rest) = str_of l +:+ unquote_go F rest.
Proof.
  intros Hr p. unfold p, escape_rune. destruct (Z.ltb_spec r 128) as [H128|H128].
  - destruct (low_rune r l Hr H128) as [-> Hr0]. rewrite escape_byte_short. destruct (short_escape r) as [c|] eqn:Es.
    + apply short_escape_ok in Es as (Hin & Hu & He); [|lia]. split; [exact Hin|]. split; [discriminate|]. intros F rest.
      change (escaped c +:+ rest) with (String backslash (String c rest)). cbn [unquote_go].
      rewrite getu4_other by exact Hu. cbn. now rewrite He.
    + apply short_escape_none in Es as [H34 H92]. case_bool.
      * split; [apply inside_u; lia|]. split; [discriminate|]. intros F rest.
        change (u_escape r +:+ rest) with (String backslash (str_drop 1 (u_escape r) +:+ rest)). cbn [unquote_go].
        change (String backslash (str_drop 1 (u_escape r) +:+ rest)) with (u_escape r +:+ rest).
        rewrite getu4_escape by lia. cbn [Ascii.eqb]. rewrite (proj2 (Z.leb_gt 55296 r)) by lia. cbn [andb].
        now rewrite (encode_good _ _ Hr).
      * split; [apply inside_byte; rewrite byte_val_of by lia; zbool; lia|]. split; [discriminate|]. intros F rest.
        change (str1 r +:+ rest) with (String (byte_of r) rest). cbn [unquote_go].
        destruct (Ascii.eqb_spec (byte_of r) backslash) as [E|_].
        { apply (f_equal byte_val) in E. unfold backslash in E. rewrite !byte_val_of in E by lia. lia. }
        change (String (byte_of r) rest) with (str_of [r] +:+ rest). rewrite (decode_good r [r] rest Hr), (encode_good _ _ Hr). reflexivity.
  - destruct (high_rune r l Hr H128) as [Hhigh H3]. assert (Ew : (r =? rune_error) && (length l =? 1)%nat = false).
    { destruct (Z.eqb_spec r rune_error) as [E|]; [|reflexivity]. now rewrite (H3 E). }
    rewrite Ew. case_bool.
    + assert (Hr' : 0 <= r < 55296) by (apply orb_prop in Heqb as [E|E]; zbool; lia).
      split; [apply inside_u; lia|]. split; [discriminate|]. intros F rest.
      change (u_escape r +:+ rest) with (String backslash (str_drop 1 (u_escape r) +:+ rest)). cbn [unquote_go].
      change (String backslash (str_drop 1 (u_escape r) +:+ rest)) with (u_escape r +:+ rest).
      rewrite getu4_escape by lia. cbn [Ascii.eqb]. rewrite (proj2 (Z.leb_gt 55296 r)) by lia. cbn [andb].
      now rewrite (encode_good _ _ Hr).
    + rewrite <- (str_of_length l), str_take_app. split; [now apply inside_bytes|].
      destruct l as [|b l]; [now inversion Hr|]. split; [discriminate|]. intros F rest. rewrite str_of_cons. cbn [unquote_go].
      apply Forall_cons in Hhigh as [Hb _]. destruct (Ascii.eqb_spec (byte_of b) backslash) as [E|_].
      { apply (f_equal byte_val) in E. unfold backslash in E. rewrite !byte_val_of in E by lia. lia. }
      rewrite <- str_of_cons, (decode_good r _ rest Hr), (encode_good _ _ Hr), <- (str_of_length (b :: l)), str_drop_app. reflexivity.
Qed.

Lemma escape_go_ok s : valid_utf8 s -> forall n, (String.length s <= n)%nat ->
  inside (escape_go n s) /\ forall F, (String.length (escape_go n s) <= F)%nat -> unquote_go F (escape_go n s) = s.
Proof.
  induction 1 as [|r l t Hr Ht IH]; intros n Hn.
  { destruct n; (split; [apply inside_nil|]); intros [|F] _; reflexivity. }
  rewrite str_length_app, str_of_length in Hn. pose proof (rune_at_pos r l Hr) as Hl.
  destruct n as [|n]; [lia|]. cbn [escape_go]. rewrite (decode_good r l t Hr).
  replace (str_drop (length l) (str_of l +:+ t)) with t by (now rewrite <- (str_of_length l), str_drop_app).
  destruct (escape_rune_ok r l t Hr) as (Hin & Hne & Hun). set (p := escape_rune r (length l) (str_of l +:+ t)) in *.
  destruct (IH n) as [IHin IHun]; [lia|].
  split; [now apply inside_app|]. intros F HF. rewrite str_length_app in HF.
  destruct p as [|c p]; [done|]. cbn [String.length] in HF. destruct F as [|F]; [lia|].
  rewrite Hun. f_equal. apply IHun. lia.
Qed.

Lemma scan_quote s st bad m : valid_utf8 s ->
  m = MBegin \/ m = MBeginArr \/ m = MBeginKey \/ m = MBeginKeyOrEmpty ->
  scan (quote_json s) (mkScanner m st bad) = Some (mkScanner (MEnd (JStr s)) st bad).
Proof.
  intros Hs Hm. destruct (escape_go_ok s Hs (String.length s)) as [Hin Hun]; [done|].
  unfold quote_json. change (quote +:+ ?t) with (String (byte_of 34) t). cbn [scan].
  replace (scan_step (mkScanner m st bad) (byte_of 34)) with (Some (mkScanner (MStr []) st bad))
    by (destruct Hm as [->|[->|[->| ->]]]; reflexivity).
  cbn [mbind option_bind]. rewrite scan_app, Hin, app_nil_r. cbn [mbind option_bind scan].
  unfold scan_step. cbn -[unquote rev]. rewrite rev_involutive, string_of_list_ascii_of_string.
  unfold unquote. rewrite Hun by lia. reflexivity.
Qed.

(** ** Numbers are read back as they were written *)

Lemma digits_go_app fuel : forall n acc, digits_go fuel n acc = digits_go fuel n EmptyString +:+ acc.
Proof.
  induction fuel as [|fuel IH]; intros n acc; [reflexivity|]. cbn [digits_go]. case_bool; [reflexivity|].
  rewrite IH, (IH _ (String _ EmptyString)), str_app_assoc. reflexivity.
Qed.
(** The digits of a positive number: no leading zero, and its value. *)
Definition bytes_of (s : string) : list Z := map byte_val (list_ascii_of_string s).
Lemma bytes_of_app a b : bytes_of (a +:+ b) = bytes_of a ++ bytes_of b.
Proof. unfold bytes_of. now rewrite list_ascii_app, map_app. Qed.
Lemma bytes_of_length s : length (bytes_of s) = String.length s.
Proof. unfold bytes_of. rewrite length_map. induction s as [|c s IH]; [done|]. cbn. now rewrite IH. Qed.
Definition is_digits (l : list Z) : Prop := Forall (fun c => 48 <= c <= 57) l.
Lemma decimal_digits_snoc l c : decimal_digits (l ++ [c]) = 10 * decimal_digits l + (c - 48).
Proof. unfold decimal_digits. now rewrite foldl_app. Qed.

Lemma digits_go_ok fuel : forall n, 0 < n < 2 ^ Z.of_nat fuel ->
  is_digits (bytes_of (digits_go fuel n EmptyString)) /\ decimal_digits (bytes_of (digits_go fuel n EmptyString)) = n /\
  exists c r, bytes_of (digits_go fuel n EmptyString) = c :: r /\ c <> 48.
Proof.
  induction fuel as [|fuel IH]; intros n Hn; [cbn in Hn; lia|]. cbn [digits_go].
  pose proof (Z.mod_pos_bound n 10 ltac:(lia)) as Hm. destruct (Z.ltb_spec n 10) as [Hl|Hl].
  - rewrite Z.mod_small by lia. unfold bytes_of. cbn [list_ascii_of_string map]. rewrite byte_val_of by lia.
    split; [repeat constructor; lia|]. split; [unfold decimal_digits; cbn; lia|]. eexists _, _. split; [reflexivity|lia].
  - rewrite digits_go_app, bytes_of_app. destruct (IH (n / 10)) as (Hd & Hv & c & r & Hc & Hc0).
    { split; [apply Z.div_str_pos; lia|]. apply Z.div_lt_upper_bound; [lia|]. replace (Z.of_nat (S fuel)) with (Z.of_nat fuel + 1) in Hn by lia.
      rewrite Z.pow_add_r in Hn by lia. lia. }
    unfold bytes_of at 2 4 6. cbn [list_ascii_of_string map]. rewrite byte_val_of by lia.
    split; [apply Forall_app; split; [exact Hd|repeat constructor; lia]|]. split.
    + rewrite decimal_digits_snoc, Hv. pose proof (Z.div_mod n 10). lia.
    + rewrite Hc. eexists c, _. split; [reflexivity|exact Hc0].
Qed.
Lemma digits_ok n : 0 < n ->
  is_digits (bytes_of (digits n)) /\ decimal_digits (bytes_of (digits n)) = n /\ exists c r, bytes_of (digits n) = c :: r /\ c <> 48.
Proof.
  intros Hn. apply digits_go_ok. rewrite Nat2Z.inj_succ, Z2Nat.id by apply Z.log2_nonneg.
  pose proof (Z.log2_spec n Hn). lia.
Qed.
Lemma digits_nonneg n : 0 <= n -> is_digits (bytes_of (digits n)) /\ decimal_digits (bytes_of (digits n)) = n /\ bytes_of (digits n) <> [].
Proof.
  intros Hn. destruct (Z.eq_dec n 0) as [->|]; [split; [repeat constructor; vm_compute; discriminate|split; [reflexivity|discriminate]]|].
  destruct (digits_ok n ltac:(lia)) as (H1 & H2 & c & r & H3 & _). rewrite H3. split; [now rewrite <- H3|]. split; [now rewrite <- H3|discriminate].
Qed.
Lemma bytes_of_zeros n : bytes_of (zeros n) = replicate n 48.
Proof. induction n as [|n IH]; [done|]. change (48 :: bytes_of (zeros n) = 48 :: replicate n 48). now rewrite IH. Qed.
Lemma bytes_of_take n s : bytes_of (str_take n s) = take n (bytes_of s).
Proof. revert s. induction n as [|n IH]; intros [|c s]; try done. change (byte_val c :: bytes_of (str_take n s) = byte_val c :: take n (bytes_of s)). now rewrite IH. Qed.
Lemma bytes_of_drop n s : bytes_of (str_drop n s) = drop n (bytes_of s).
Proof. revert s. induction n as [|n IH]; intros [|c s]; try done. apply IH. Qed.
Lemma slen_bytes s : slen s = len (bytes_of s).
Proof. unfold slen, len. now rewrite bytes_of_length. Qed.

(** The machine on the bytes of a number. *)
Fixpoint num_run (n : numstate) (l : list Z) : option numstate :=
  match l with [] => Some n | b :: l => n ← num_step n b; num_run n l end.
Lemma num_run_app n a b : num_run n (a ++ b) = (n ← num_run n a; num_run n b).
Proof. revert n. induction a as [|x a IH]; intros n; [reflexivity|]. cbn. destruct (num_step n x); [apply IH|reflexivity]. Qed.
Lemma scan_num t : forall n n' acc st bad, num_run n (bytes_of t) = Some n' ->
  scan t (mkScanner (MNum n acc) st bad) = Some (mkScanner (MNum n' (rev (bytes_of t) ++ acc)) st bad).
Proof.
  induction t as [|c t IH]; intros n n' acc st bad E; [injection E as ->; reflexivity|].
  change (bytes_of (String c t)) with (byte_val c :: bytes_of t) in *. cbn [num_run] in E. cbn [scan].
  unfold scan_step. cbn [scan_mode]. destruct (num_step n (byte_val c)) as [n1|]; [|discriminate]. unfold goto. cbn [mbind option_bind stack out_of_range] in *.
  rewrite (IH _ _ _ _ _ E). cbn [rev]. now rewrite <- app_assoc.
Qed.
Lemma scan_num_begin t n' st bad m : num_run NNeg (bytes_of t) = Some n' -> bytes_of t <> [] -> m = MBegin \/ m = MBeginArr ->
  scan t (mkScanner m st bad) = Some (mkScanner (MNum n' (rev (bytes_of t))) st bad).
Proof.
  destruct t as [|c t]; [done|]. change (bytes_of (String c t)) with (byte_val c :: bytes_of t). cbn [num_run scan].
  intros E _ Hm.
  assert (Es : exists n, num_step NNeg (byte_val c) = Some n /\ scan_step (mkScanner m st bad) c = Some (mkScanner (MNum n [byte_val c]) st bad)).
  { unfold num_step, ascii_digit in *. destruct (Z.eqb_spec (byte_val c) 48) as [E0|N0].
    - exists NZero. split; [done|]. destruct Hm as [-> | ->]; unfold scan_step; cbn [scan_mode]; rewrite E0; reflexivity.
    - destruct ((48 <=? byte_val c) && (byte_val c <=? 57)) eqn:Ed; [|discriminate]. exists NInt. split; [done|]. zbool.
      destruct Hm as [-> | ->]; unfold scan_step, json_space, begin_value; cbn [scan_mode];
        rewrite !(proj2 (Z.eqb_neq (byte_val c) _)) by lia; rewrite (proj2 (Z.leb_le 49 _)), (proj2 (Z.leb_le _ 57)) by lia; reflexivity. }
  destruct Es as (n & En & ->). rewrite En in E. cbn [mbind option_bind] in *. rewrite (scan_num _ _ _ _ _ _ E). reflexivity.
Qed.

Lemma digit_true c : 48 <= c <= 57 -> ascii_digit c = true.
Proof. intros Hc. unfold ascii_digit. now rewrite (proj2 (Z.leb_le 48 c)), (proj2 (Z.leb_le c 57)) by lia. Qed.
Lemma num_run_loop n l : is_digits l -> n = NInt \/ n = NFrac \/ n = NExpInt -> num_run n l = Some n.
Proof.
  intros Hl Hn. induction Hl as [|c l Hc _ IH]; [done|]. cbn. replace (num_step n c) with (Some n); [exact IH|].
  destruct Hn as [->|[->| ->]]; unfold num_step; now rewrite digit_true.
Qed.
Lemma num_run_start n n' l : is_digits l -> l <> [] -> (n = NDot /\ n' = NFrac) \/ (n = NSign /\ n' = NExpInt) ->
  num_run n l = Some n'.
Proof.
  intros Hl Hne Hn. destruct Hl as [|c l Hc Hl]; [done|]. cbn. replace (num_step n c) with (Some n').
  - apply num_run_loop; [exact Hl|]. intuition.
  - destruct Hn as [[-> ->]|[-> ->]]; unfold num_step; now rewrite digit_true.
Qed.
Lemma num_run_int c r : is_digits (c :: r) -> c <> 48 -> num_run NNeg (c :: r) = Some NInt.
Proof.
  intros [Hc Hr]%Forall_cons H0. cbn. rewrite (proj2 (Z.eqb_neq c 48) H0), digit_true by lia. apply num_run_loop; auto.
Qed.

Lemma mantissa_digits l : forall m k frac rest, is_digits l ->
  mantissa (l ++ rest) m k frac = mantissa rest (foldl (fun n c => 10 * n + (c - 48)) m l) (if frac then k + len l else k) frac.
Proof.
  induction l as [|c l IH]; intros m k frac rest Hl; cbn [app foldl]; [unfold len; cbn; now rewrite Z.add_0_r; destruct frac|].
  apply Forall_cons in Hl as [Hc Hl]. cbn [mantissa]. rewrite digit_true by exact Hc. rewrite IH by exact Hl. rewrite len_cons.
  destruct frac; [f_equal; lia|reflexivity].
Qed.
Lemma foldl_zeros n : forall m, foldl (fun n c => 10 * n + (c - 48)) m (replicate n 48) = m * 10 ^ Z.of_nat n.
Proof.
  induction n as [|n IH]; intros m; [cbn; lia|]. cbn [replicate foldl]. rewrite IH.
  replace (Z.of_nat (S n)) with (1 + Z.of_nat n) by lia. rewrite Z.pow_add_r by lia. lia.
Qed.
Lemma digits_zeros n : is_digits (replicate n 48).
Proof. apply Forall_replicate. lia. Qed.
Lemma decimal_value_shift neg q j : 0 < q -> 0 <= j -> decimal_value neg (q * 10 ^ j) 0 = decimal_value neg q j.
Proof.
  intros Hq Hj. pose proof (Z.pow_pos_nonneg 10 j ltac:(lia) Hj) as Hp. destruct q as [|q|q]; try lia.
  unfold decimal_value. rewrite (proj2 (Z.leb_le 0 j)) by lia. cbn [Z.leb Z.compare].
  destruct (10 ^ j) as [|p|p] eqn:E; try lia. change (Z.pos q * Z.pos p) with (Z.pos (q * p)).
  cbn [Z.to_pos]. change (Z.to_pos (10 ^ 0)) with 1%positive. now rewrite Pos.mul_1_r.
Qed.

(** What a formatted number is to the reader: a literal of the value
    [q * 10^e]. *)
Definition literal_of (t : string) (q e : Z) : Prop :=
  (exists n, num_run NNeg (bytes_of t) = Some n /\ num_done n = true) /\
  (exists c r, bytes_of t = c :: r /\ 48 <= c <= 57) /\
  (forall neg, let '(m, k, rest) := mantissa (bytes_of t) 0 0 false in decimal_value neg m (exponent rest - k) = decimal_value neg q e).

Lemma mantissa_digits_end l m k frac : is_digits l ->
  mantissa l m k frac = (foldl (fun n c => 10 * n + (c - 48)) m l, if frac then k + len l else k, []).
Proof. intros Hl. rewrite <- (app_nil_r l) at 1. rewrite mantissa_digits by exact Hl. reflexivity. Qed.
Lemma mantissa_dot l m k : mantissa (46 :: l) m k false = mantissa l m k true.
Proof. reflexivity. Qed.
Lemma is_digits_split n l : is_digits l -> is_digits (take n l) /\ is_digits (drop n l).
Proof. intros Hl. split; [now apply Forall_take|now apply Forall_drop]. Qed.

Lemma format_f_literal q dp : 0 < q -> literal_of (format_f (digits q) dp) q (dp - slen (digits q)).
Proof.
  intros Hq. destruct (digits_ok q Hq) as (Hd & Hv & c & r & Hc & H0). pose proof (slen_bytes (digits q)) as Hlen.
  remember (bytes_of (digits q)) as D eqn:HD. unfold literal_of, format_f. destruct (Z.leb_spec dp 0) as [Hdp|Hdp].
  - rewrite !bytes_of_app, bytes_of_zeros, <- HD. change (bytes_of "0.") with [48; 46].
    assert (Hz : is_digits (replicate (Z.to_nat (- dp)) 48 ++ D)) by (apply Forall_app; split; [apply digits_zeros|exact Hd]).
    split; [|split; [eexists _, _; split; [reflexivity|lia]|]].
    + exists NFrac. split; [|reflexivity]. change ([48; 46] ++ ?l) with (48 :: 46 :: l). cbn -[app replicate].
      apply (num_run_start NDot); [exact Hz|rewrite Hc; now destruct (replicate _ _)|tauto].
    + intros neg. change ([48; 46] ++ ?l) with ([48] ++ (46 :: l)). rewrite (mantissa_digits [48]) by (repeat constructor; lia).
      cbn [foldl]. rewrite mantissa_dot, mantissa_digits_end by exact Hz. cbn [exponent].
      rewrite foldl_app, foldl_zeros. change (10 * 0 + (48 - 48)) with 0. rewrite Z.mul_0_l. fold (decimal_digits D). rewrite Hv.
      f_equal. rewrite len_app. unfold len at 1. rewrite length_replicate. lia.
  - destruct (Z.leb_spec (slen (digits q)) dp) as [Hle|Hle].
    + rewrite bytes_of_app, bytes_of_zeros, <- HD. set (j := dp - slen (digits q)) in *.
      assert (Hz : is_digits (D ++ replicate (Z.to_nat j) 48)) by (apply Forall_app; split; [exact Hd|apply digits_zeros]).
      split; [|split].
      * exists NInt. split; [|reflexivity]. rewrite Hc in *. cbn [app] in *. now apply num_run_int.
      * rewrite Hc. eexists c, _. split; [reflexivity|]. rewrite Hc in Hd. now apply Forall_cons in Hd as [? _].
      * intros neg. rewrite mantissa_digits_end by exact Hz. cbn [exponent]. rewrite foldl_app, foldl_zeros. fold (decimal_digits D).
        rewrite Hv, Z2Nat.id by lia. change (0 - 0) with 0. apply decimal_value_shift; lia.
    + rewrite !bytes_of_app, bytes_of_take, bytes_of_drop, <- HD. change (bytes_of ".") with [46].
      destruct (is_digits_split (Z.to_nat dp) D Hd) as [Ht Hdr].
      assert (Hne : drop (Z.to_nat dp) D <> []).
      { intros E. apply (f_equal length) in E. rewrite length_drop in E. cbn in E. unfold len in Hlen. lia. }
      assert (Htk : take (Z.to_nat dp) D = c :: take (Z.to_nat dp - 1) r).
      { rewrite Hc. destruct (Z.to_nat dp) as [|n] eqn:E; [lia|]. cbn. now rewrite Nat.sub_0_r. }
      split; [|split].
      * exists NFrac. split; [|reflexivity]. rewrite Htk in *. rewrite num_run_app, (num_run_int c _ Ht H0).
        cbn [mbind option_bind app num_run]. apply (num_run_start NDot); [exact Hdr|exact Hne|tauto].
      * rewrite Htk. eexists c, _. split; [reflexivity|]. rewrite Hc in Hd. now apply Forall_cons in Hd as [? _].
      * intros neg. rewrite mantissa_digits by exact Ht. change ([46] ++ ?l) with (46 :: l).
        rewrite mantissa_dot, mantissa_digits_end by exact Hdr. cbn [exponent]. rewrite <- foldl_app, take_drop.
        fold (decimal_digits D). rewrite Hv. f_equal. unfold len. rewrite length_drop. unfold len in Hlen. lia.
Qed.

Lemma format_e_literal q dp : 0 < q -> literal_of (format_e (digits q) dp) q (dp - slen (digits q)).
Proof.
  intros Hq. destruct (digits_ok q Hq) as (Hd & Hv & c & r & Hc & H0). pose proof (slen_bytes (digits q)) as Hlen.
  destruct (digits_nonneg (Z.abs (dp - 1)) ltac:(lia)) as (Hed & Hev & Hene).
  remember (bytes_of (digits q)) as D eqn:HD. remember (bytes_of (digits (Z.abs (dp - 1)))) as E eqn:HE.
  unfold literal_of, format_e. rewrite !bytes_of_app, bytes_of_take, <- HD, <- HE.
  assert (Ht : take 1 D = [c]) by (now rewrite Hc). rewrite Ht.
  assert (Hc57 : 48 <= c <= 57) by (rewrite Hc in Hd; now apply Forall_cons in Hd as [? _]).
  assert (Hr : is_digits r) by (rewrite Hc in Hd; now apply Forall_cons in Hd as [_ ?]).
  assert (Hlr : slen (digits q) = 1 + len r) by (rewrite Hlen, Hc, len_cons; lia).
  assert (Hm : bytes_of (if 1 <? slen (digits q) then "." +:+ str_drop 1 (digits q) else EmptyString) = match r with [] => [] | _ => 46 :: r end).
  { rewrite Hlr. destruct r as [|c' r']; [reflexivity|]. rewrite (proj2 (Z.ltb_lt 1 _)) by (rewrite len_cons; pose proof (len_nonneg r'); lia).
    rewrite bytes_of_app, bytes_of_drop, <- HD, Hc. reflexivity. }
  rewrite Hm. set (sign := if dp - 1 <? 0 then 45 else 43).
  assert (Hs : bytes_of (if dp - 1 <? 0 then str1 45 else str1 43) = [sign]) by (unfold sign; destruct (dp - 1 <? 0); reflexivity).
  rewrite Hs. change (bytes_of "e") with [101]. split; [|split].
  - exists NExpInt. split; [|reflexivity]. change ([c] ++ ?l) with (c :: l). cbn [num_run].
    replace (num_step NNeg c) with (Some NInt) by (unfold num_step; now rewrite (proj2 (Z.eqb_neq c 48) H0), digit_true).
    cbn [mbind option_bind].
    assert (Hexp : forall n, n = NInt \/ n = NFrac -> num_run n ([101] ++ [sign] ++ E) = Some NExpInt).
    { intros n Hn. change ([101] ++ [sign] ++ E) with (101 :: sign :: E). cbn [num_run].
      replace (num_step n 101) with (Some NExp) by (destruct Hn as [-> | ->]; reflexivity). cbn [mbind option_bind].
      replace (num_step NExp sign) with (Some NSign) by (unfold sign; destruct (dp - 1 <? 0); reflexivity). cbn [mbind option_bind].
      apply (num_run_start NSign); [exact Hed|exact Hene|tauto]. }
    destruct r as [|c' r']; [apply Hexp; auto|]. rewrite num_run_app. cbn [num_run]. change (num_step NInt 46) with (Some NDot).
    cbn [mbind option_bind]. change (n0 ← num_step NDot c'; num_run n0 r') with (num_run NDot (c' :: r')).
    rewrite (num_run_start NDot NFrac) by (exact Hr || discriminate || tauto). apply Hexp; auto.
  - eexists c, _. split; [reflexivity|exact Hc57].
  - intros neg. rewrite (mantissa_digits [c]) by (now constructor).
    assert (Hm2 : forall m k frac, mantissa ([101] ++ [sign] ++ E) m k frac = (m, k, 101 :: sign :: E)) by reflexivity.
    assert (He : exponent (101 :: sign :: E) = dp - 1).
    { unfold exponent, sign. destruct (Z.ltb_spec (dp - 1) 0); cbn [Z.eqb Pos.eqb]; rewrite Hev; lia. }
    assert (Hval : foldl (fun n c => 10 * n + (c - 48)) 0 (c :: r) = q) by (rewrite <- Hc; exact Hv).
    destruct r as [|c' r'].
    + change ([] ++ ?l) with l. rewrite Hm2, He. cbn [foldl] in *. rewrite Hval. f_equal. rewrite Hlr. change (len []) with 0. lia.
    + change ((46 :: c' :: r') ++ ?l) with (46 :: ((c' :: r') ++ l)). rewrite mantissa_dot, mantissa_digits by exact Hr.
      rewrite Hm2, He. cbn [foldl] in Hval |- *. rewrite Hval. f_equal. lia.
Qed.

(** The numbers whose shortest decimal is read back: strconv's contract for
    every finite number, checked here by evaluation. *)
Lemma f64_eqb_eq x y : f64_eqb x y = true -> x = y.
Proof.
  destruct x as [s|s| |s m e], y as [s'|s'| |s' m' e']; try discriminate; cbn; intros E; try done.
  - now apply eqb_prop in E as ->.
  - now apply eqb_prop in E as ->.
  - apply andb_prop in E as [E E3]. apply andb_prop in E as [E1 E2]. apply eqb_prop in E1 as ->.
    apply Pos.eqb_eq in E2 as ->. now apply Z.eqb_eq in E3 as ->.
Qed.
Definition num_ok (x : f64) : bool :=
  match x with
  | S754_zero _ => true
  | S754_finite _ m e => let '(q, e10) := shortest m e in (0 <? q) && f64_eqb (decimal_value false q e10) (S754_finite false m e)
  | _ => false
  end.

Lemma scan_literal t q e10 (s : bool) m e st bad md : literal_of t q e10 -> decimal_value false q e10 = S754_finite false m e ->
  md = MBegin \/ md = MBeginArr ->
  exists n acc, scan ((if s then str1 45 else EmptyString) +:+ t) (mkScanner md st bad) = Some (mkScanner (MNum n acc) st bad) /\
    num_done n = true /\ ParseFloat_literal (rev acc) = (S754_finite s m e, false).
Proof.
  intros ((n & Hn & Hdone) & (c & r & Hc & Hc57) & Hval) Hv Hm. exists n.
  destruct s; [exists (rev (bytes_of t) ++ [45]%Z)|exists (rev (bytes_of t))].
  - change (str1 45 +:+ t) with (String (byte_of 45) t). split; [|split; [exact Hdone|]].
    + cbn [scan]. replace (scan_step (mkScanner md st bad) (byte_of 45)) with (Some (mkScanner (MNum NNeg [45]) st bad)) by (destruct Hm as [-> | ->]; reflexivity).
      cbn [mbind option_bind]. now apply scan_num.
    + rewrite rev_app_distr, rev_involutive. unfold ParseFloat_literal. cbn [rev app Z.eqb Pos.eqb].
      specialize (Hval true). destruct (mantissa (bytes_of t) 0 0 false) as [[mt k] rest]. rewrite Hval.
      assert (E : decimal_value true q e10 = S754_finite true m e); [|now rewrite E].
      unfold decimal_value in *. now rewrite Hv.
  - change (EmptyString +:+ t) with t. split; [|split; [exact Hdone|]].
    + apply scan_num_begin; [exact Hn|now rewrite Hc|exact Hm].
    + rewrite rev_involutive. unfold ParseFloat_literal. specialize (Hval false).
      rewrite Hc in *. rewrite (proj2 (Z.eqb_neq c 45)) by lia.
      destruct (mantissa (c :: r) 0 0 false) as [[mt k] rest]. now rewrite Hval, Hv.
Qed.

Lemma scan_float x t st bad md : marshal_float x = Some t -> num_ok x = true -> md = MBegin \/ md = MBeginArr ->
  exists n acc, scan t (mkScanner md st bad) = Some (mkScanner (MNum n acc) st bad) /\
    num_done n = true /\ ParseFloat_literal (rev acc) = (x, false).
Proof.
  intros E Hok Hm. destruct x as [s|s| |s m e]; try discriminate.
  - injection E as <-. destruct s; destruct Hm as [-> | ->]; eexists _, _; repeat split.
  - unfold marshal_float in E. unfold num_ok in Hok. destruct (shortest m e) as [q e10].
    apply andb_prop in Hok as [Hq Hv]. zbool. apply f64_eqb_eq in Hv. cbv zeta in E.
    assert (Hsome : forall a b : string, Some a = Some b -> a = b) by congruence.
    destruct (flt _ _ || fle _ _); apply Hsome in E as <-.
    + apply (scan_literal _ _ _ s m e st bad md (format_e_literal q (slen (digits q) + e10) Hq)); [|exact Hm].
      now replace (slen (digits q) + e10 - slen (digits q)) with e10 by lia.
    + apply (scan_literal _ _ _ s m e st bad md (format_f_literal q (slen (digits q) + e10) Hq)); [|exact Hm].
      now replace (slen (digits q) + e10 - slen (digits q)) with e10 by lia.
Qed.

(** ** Values are read back as they were written *)

Section Induction.
Context (P : jvalue -> Prop).
Context (Hnull : P JNull) (Hbool : forall b, P (JBool b)) (Hnum : forall x, P (JNum x)) (Hstr : forall s, P (JStr s)).
Context (Harr : forall l, Forall P l -> P (JArr l)) (Hobj : forall m : object, Forall (fun e => P e.2) m -> P (JObj m)).
Fixpoint jvalue_rect' (v : jvalue) : P v :=
  match v with
  | JNull => Hnull | JBool b => Hbool b | JNum x => Hnum x | JStr s => Hstr s
  | JArr l => Harr l ((fix go l : Forall P l := match l with [] => Forall_nil_2 _ | v :: l => Forall_cons_2 _ v l (jvalue_rect' v) (go l) end) l)
  | JObj m => Hobj m ((fix go m : Forall (fun e => P e.2) m :=
      match m with [] => Forall_nil_2 _ | e :: m => Forall_cons_2 _ e m (jvalue_rect' e.2) (go m) end) m)
  end.
End Induction.

(** Values that can be written as they are: strings that are UTF-8, numbers
    whose decimal is read back. *)
Fixpoint json_text (v : jvalue) : bool :=
  match v with
  | JNull | JBool _ => true
  | JNum x => num_ok x
  | JStr s => ValidString s
  | JArr l => forallb json_text l
  | JObj m => forallb (fun e => ValidString e.1 && json_text e.2) m
  end.
(** Go's maps among them: the members in the order of their keys. *)
Fixpoint keys_sorted (m : object) : bool :=
  match m with [] => true | (k, _) :: m => forallb (fun e => String.ltb k e.1) m && keys_sorted m end.
Fixpoint json_ok (v : jvalue) : bool :=
  match v with
  | JNull | JBool _ => true
  | JNum x => num_ok x
  | JStr s => ValidString s
  | JArr l => forallb json_ok l
  | JObj m => keys_sorted m && forallb (fun e => ValidString e.1 && json_ok e.2) m
  end.
Fixpoint depth (v : jvalue) : Z :=
  match v with
  | JArr l => 1 + foldr (fun v n => Z.max (depth v) n) 0 l
  | JObj m => 1 + foldr (fun e n => Z.max (depth e.2) n) 0 m
  | _ => 0
  end.

Lemma json_ok_text v : json_ok v = true -> json_text v = true.
Proof.
  induction v as [| | | |l IH|m IH] using jvalue_rect'; cbn [json_ok json_text]; intros Hok; try exact Hok.
  - apply forallb_forall. rewrite forallb_forall in Hok. rewrite Forall_forall in IH. intros v Hv. apply IH; [now apply list_elem_of_In|auto].
  - apply andb_prop in Hok as [_ Hok]. apply forallb_forall. rewrite forallb_forall in Hok. rewrite Forall_forall in IH.
    intros e He. specialize (Hok e He). apply andb_prop in Hok as [Hk Hv]. rewrite Hk. apply (IH e); [now apply list_elem_of_In|exact Hv].
Qed.

(** The scanner has read the value [v] when the next delimiter takes it so. *)
Definition ends (s : scanner) (v : jvalue) (st : list frame) (bad : bool) : Prop :=
  (forall b, b = 44 \/ b = 93 \/ b = 125 -> scan_step s (byte_of b) = end_value v b (mkScanner (MEnd v) st bad)) /\
  (st = [] -> scan_eof s = Some (v, bad)).
Lemma ends_end v st bad : ends (mkScanner (MEnd v) st bad) v st bad.
Proof. split; [intros b [->|[->| ->]]; reflexivity|intros ->; reflexivity]. Qed.
Lemma ends_num n acc x st bad : num_done n = true -> ParseFloat_literal (rev acc) = (x, false) ->
  ends (mkScanner (MNum n acc) st bad) (JNum x) st bad.
Proof.
  intros Hd Hx. split.
  - intros b Hb. unfold scan_step. cbn [scan_mode]. rewrite byte_val_of by lia.
    assert (En : num_step n b = None) by (destruct n; try discriminate; destruct Hb as [->|[->| ->]]; reflexivity).
    rewrite En, Hd. unfold end_number. rewrite Hx. cbn [scan_mode stack out_of_range]. rewrite orb_false_r.
    destruct Hb as [->|[->| ->]]; reflexivity.
  - intros ->. unfold scan_eof. cbn [scan_mode stack]. rewrite Hd. unfold end_number. rewrite Hx. cbn. now rewrite orb_false_r.
Qed.

(** The text [t] is read as [v], wherever a value may stand. *)
Definition reads_as (v : jvalue) (t : string) : Prop := forall st bad md,
  md = MBegin \/ md = MBeginArr -> depth v + len st <= maxNestingDepth ->
  exists s, scan t (mkScanner md st bad) = Some s /\ ends s v st bad.
Definition reads (v : jvalue) : Prop := forall t, marshal v = Some t -> json_text v = true -> reads_as v t.

Lemma reads_list st bad l : Forall reads l -> Forall (fun v => json_text v = true /\ depth v + len st < maxNestingDepth) l -> l <> [] ->
  forall r pre md, mapM marshal l = Some r -> md = MBegin \/ md = MBeginArr ->
  scan (str_join "," r +:+ "]") (mkScanner md (FArr pre :: st) bad) = Some (mkScanner (MEnd (JArr (rev pre ++ l))) st bad).
Proof.
  induction 1 as [|v l Hv Hl IH]; intros Hok Hne r pre md E Hm; [done|].
  apply Forall_cons in Hok as [[Hj Hd] Hok]. cbn [mapM] in E. destruct (marshal v) as [t|] eqn:Et; [|discriminate].
  cbn [mbind option_bind] in E. destruct (mapM marshal l) as [r'|] eqn:El; [|discriminate]. injection E as <-.
  destruct (Hv t Et Hj (FArr pre :: st) bad md Hm) as (s & Es & Hends & _); [rewrite len_cons; lia|].
  destruct l as [|v2 l].
  - injection El as <-. cbn [str_join String.concat]. rewrite scan_app, Es. cbn [mbind option_bind scan].
    change "]"%char with (byte_of 93). rewrite Hends by auto. reflexivity.
  - assert (Er : exists t2 r2, r' = t2 :: r2).
    { cbn [mapM] in El. destruct (marshal v2); [|discriminate]. cbn [mbind option_bind] in El. destruct (mapM marshal l); [|discriminate].
      injection El as <-. eauto. }
    destruct Er as (t2 & r2 & ->). change (str_join "," (t :: t2 :: r2)) with (t +:+ "," +:+ str_join "," (t2 :: r2)).
    rewrite !str_app_assoc, scan_app, Es. cbn [mbind option_bind]. change ("," +:+ ?x) with (String (byte_of 44) x). cbn [scan].
    rewrite Hends by auto. cbn [end_value json_space Z.eqb Pos.eqb orb stack out_of_range mbind option_bind].
    rewrite (IH Hok ltac:(discriminate) _ (v :: pre) MBegin eq_refl) by auto.
    cbn [rev]. now rewrite <- app_assoc.
Qed.

Lemma obj_set_last k v m : Forall (fun e => String.ltb e.1 k = true) m -> obj_set k v m = m ++ [(k, v)].
Proof.
  induction 1 as [|[k' v'] m Hk _ IH]; [done|]. cbn [obj_set app]. cbn in Hk. unfold String.ltb in Hk.
  rewrite String.compare_antisym. destruct (String.compare k' k); try discriminate. cbn. now rewrite IH.
Qed.

(** A member as [Marshal] writes it, and as any text that reads as its value. *)
Definition member (e : string * jvalue) : option string := t ← marshal e.2; Some (quote_json e.1 +:+ ":" +:+ t).
Definition member_text (e : string * string) : string := quote_json e.1 +:+ ":" +:+ e.2.
Definition member_reads (e : string * jvalue) (x : string * string) : Prop :=
  e.1 = x.1 /\ ValidString e.1 = true /\ reads_as e.2 x.2.
Lemma scan_members st bad (m : object) (l : list (string * string)) : Forall2 member_reads m l ->
  Forall (fun e => depth e.2 + len st < maxNestingDepth) m ->
  m <> [] -> forall pre md, md = MBeginKey \/ md = MBeginKeyOrEmpty ->
  scan (str_join "," (map member_text l) +:+ "}") (mkScanner md (FKey pre :: st) bad) = Some (mkScanner (MEnd (JObj (pre ++ m))) st bad).
Proof.
  induction 1 as [|[k v] [k' t] m l (Ek & Hk & Hv) Hl IH]; intros Hd Hne pre md Hm; [done|]. cbn [fst snd] in *. subst k'.
  apply Forall_cons in Hd as [Hd Hds]. destruct (Hv (FVal pre k :: st) bad MBegin ltac:(auto)) as (s & Es & Hends & _); [cbn in Hd; rewrite len_cons; lia|].
  assert (Hhead : forall u, scan (member_text (k, t) +:+ u) (mkScanner md (FKey pre :: st) bad) = scan u s).
  { intros u. unfold member_text. cbn [fst snd]. rewrite !str_app_assoc, scan_app, scan_quote; [|now apply ValidString_valid|tauto]. cbn [mbind option_bind].
    change (":" +:+ ?x) with (String (byte_of 58) x). cbn [scan].
    replace (scan_step _ (byte_of 58)) with (Some (mkScanner MBegin (FVal pre k :: st) bad)) by reflexivity.
    cbn [mbind option_bind]. rewrite scan_app, Es. reflexivity. }
  cbn [map]. destruct Hl as [|e2 x2 m l H2 Hl].
  - cbn [map str_join String.concat]. rewrite Hhead. cbn [scan]. change "}"%char with (byte_of 125). rewrite Hends by auto. reflexivity.
  - set (x := member_text (k, t)) in *. cbn [map]. change (str_join "," (x :: ?y :: ?r)) with (x +:+ "," +:+ str_join "," (y :: r)).
    rewrite !(str_app_assoc x), Hhead, str_app_assoc. change ("," +:+ ?y) with (String (byte_of 44) y). cbn [scan].
    rewrite Hends by auto. cbn [end_value json_space Z.eqb Pos.eqb orb stack out_of_range mbind option_bind].
    cbn [map] in IH. rewrite (IH Hds ltac:(discriminate) (pre ++ [(k, v)]) MBeginKey) by auto. now rewrite <- app_assoc.
Qed.
(** The texts of marshalled members. *)
Lemma member_texts (m : object) r : Forall (fun e => reads e.2) m -> Forall (fun e => ValidString e.1 && json_text e.2 = true) m ->
  mapM member m = Some r -> exists l, Forall2 member_reads m l /\ r = map member_text l.
Proof.
  intros Hm. revert r. induction Hm as [|[k v] m Hv _ IH]; intros r Hok E; [cbn in E; injection E as <-; now exists []|].
  apply Forall_cons in Hok as [Hj Hok]. cbn [fst snd] in *. apply andb_prop in Hj as [Hk Hj]. cbn [mapM] in E.
  assert (Em : member (k, v) = t ← marshal v; Some (quote_json k +:+ ":" +:+ t)) by reflexivity. rewrite Em in E. clear Em.
  destruct (marshal v) as [t|] eqn:Et; [|discriminate E]. cbn [mbind option_bind] in E.
  destruct (mapM member m) as [r'|]; [|discriminate E]. injection E as <-. destruct (IH r' Hok eq_refl) as (l & Hl & ->).
  exists ((k, t) :: l). split; [constructor; [|exact Hl]|reflexivity]. split; [done|]. split; [exact Hk|]. now apply Hv.
Qed.

Lemma foldr_max_bound {A} (f : A -> Z) l n : foldr (fun v n => Z.max (f v) n) 0 l <= n -> Forall (fun v => f v <= n) l.
Proof.
  induction l as [|v l IH]; cbn; intros H; [constructor|]. constructor; [lia|]. apply IH. lia.
Qed.
Lemma foldr_max_nonneg {A} (f : A -> Z) l : 0 <= foldr (fun v n => Z.max (f v) n) 0 l.
Proof. induction l as [|v l IH]; cbn; lia. Qed.
Lemma reads_all v : reads v.
Proof.
  induction v as [|b|x|s|l IH|m IH] using jvalue_rect'; intros t E Hok st bad md Hm Hd; cbn [marshal] in E.
  - injection E as <-. eexists. split; [|apply ends_end]. destruct Hm as [-> | ->]; reflexivity.
  - injection E as <-. eexists. split; [|apply ends_end]. destruct b; destruct Hm as [-> | ->]; reflexivity.
  - destruct (scan_float x t st bad md E Hok Hm) as (n & acc & Es & Hn & Hx). eexists. split; [exact Es|]. now apply ends_num.
  - injection E as <-. eexists. split; [|apply ends_end]. apply scan_quote; [now apply ValidString_valid|tauto].
  - cbn [depth] in Hd. destruct (mapM marshal l) as [r|] eqn:El; [|discriminate]. injection E as <-.
    eexists. split; [|apply ends_end]. cbn [json_text] in Hok.
    assert (Hpush : scan_step (mkScanner md st bad) (byte_of 91) = Some (mkScanner MBeginArr (FArr [] :: st) bad)).
    { assert (E1 : (len st <? maxNestingDepth) = true) by (apply Z.ltb_lt; pose proof (foldr_max_nonneg (fun v => depth v) l); lia).
      transitivity (push (FArr []) MBeginArr (mkScanner md st bad)); [destruct Hm as [-> | ->]; reflexivity|].
      unfold push. cbn [stack]. now rewrite E1. }
    change ("[" +:+ ?x) with (String (byte_of 91) x). cbn [scan]. rewrite Hpush. cbn [mbind option_bind].
    destruct l as [|v l]; [injection El as <-; reflexivity|].
    rewrite (reads_list st bad (v :: l) IH) with (pre := []); [reflexivity| |discriminate|exact El|auto].
    assert (Hb := foldr_max_bound depth (v :: l) (maxNestingDepth - 1 - len st) ltac:(lia)).
    rewrite forallb_forall in Hok. apply Forall_forall. intros w Hw. split; [apply Hok; now apply list_elem_of_In|].
    rewrite Forall_forall in Hb. specialize (Hb w Hw). lia.
  - cbn [depth] in Hd. change (mapM _ m) with (mapM member m) in E. destruct (mapM member m) as [r|] eqn:El; [|discriminate]. injection E as <-.
    eexists. split; [|apply ends_end]. cbn [json_text] in Hok.
    assert (Hpush : scan_step (mkScanner md st bad) (byte_of 123) = Some (mkScanner MBeginKeyOrEmpty (FKey [] :: st) bad)).
    { assert (E1 : (len st <? maxNestingDepth) = true) by (apply Z.ltb_lt; pose proof (foldr_max_nonneg (fun e => depth e.2) m); lia).
      transitivity (push (FKey []) MBeginKeyOrEmpty (mkScanner md st bad)); [destruct Hm as [-> | ->]; reflexivity|].
      unfold push. cbn [stack]. now rewrite E1. }
    change ("{" +:+ ?x) with (String (byte_of 123) x). cbn [scan]. rewrite Hpush. cbn [mbind option_bind].
    destruct m as [|e m]; [injection El as <-; reflexivity|].
    assert (Hj : Forall (fun e => ValidString e.1 && json_text e.2 = true) (e :: m)).
    { rewrite forallb_forall in Hok. apply Forall_forall. intros w Hw. apply Hok. now apply list_elem_of_In. }
    destruct (member_texts (e :: m) r IH Hj El) as (l & Hl & ->).
    rewrite (scan_members st bad (e :: m) l Hl) with (pre := []); [reflexivity| |discriminate|auto].
    eapply Forall_impl; [apply (foldr_max_bound (fun e => depth e.2) (e :: m) (maxNestingDepth - 1 - len st)); cbn beta; lia|]. cbn. lia.
Qed.

Lemma parse_marshal v t : marshal v = Some t -> json_text v = true -> depth v <= maxNestingDepth -> parse_json t = Some (v, false).
Proof.
  intros E Hok Hd. destruct (reads_all v t E Hok [] false MBegin) as (s & Es & _ & Hend); [auto|change (len []) with 0; lia|].
  unfold parse_json. rewrite Es. cbn [mbind option_bind]. now apply Hend.
Qed.

(** An object whose members' texts are read as its values. *)
Lemma reads_members (m : object) l : Forall2 member_reads m l -> m <> [] -> reads_as (JObj m) ("{" +:+ str_join "," (map member_text l) +:+ "}").
Proof.
  intros Hl Hne st bad md Hm Hd. cbn [depth] in Hd. eexists. split; [|apply ends_end].
  assert (Hpush : scan_step (mkScanner md st bad) (byte_of 123) = Some (mkScanner MBeginKeyOrEmpty (FKey [] :: st) bad)).
  { assert (E1 : (len st <? maxNestingDepth) = true) by (apply Z.ltb_lt; pose proof (foldr_max_nonneg (fun e => depth e.2) m); lia).
    transitivity (push (FKey []) MBeginKeyOrEmpty (mkScanner md st bad)); [destruct Hm as [-> | ->]; reflexivity|].
    unfold push. cbn [stack]. now rewrite E1. }
  change ("{" +:+ ?x) with (String (byte_of 123) x). cbn [scan]. rewrite Hpush. cbn [mbind option_bind].
  rewrite (scan_members st bad m l Hl) with (pre := []); [reflexivity| |exact Hne|auto].
  eapply Forall_impl; [apply (foldr_max_bound (fun e => depth e.2) m (maxNestingDepth - 1 - len st)); lia|]. cbn. lia.
Qed.
Lemma parse_reads v t : reads_as v t -> depth v <= maxNestingDepth -> parse_json t = Some (v, false).
Proof.
  intros Hr Hd. destruct (Hr [] false MBegin) as (s & Es & _ & Hend); [auto|change (len []) with 0; lia|].
  unfold parse_json. rewrite Es. cbn [mbind option_bind]. now apply Hend.
Qed.
(** An integer's decimal is read as that number. *)
Lemma reads_int n : 0 < n <= 2 ^ 53 -> exists x, B2R x = IZR n /\ reads_as (JNum x) (itoa n).
Proof.
  intros Hn. assert (Hi : itoa n = digits n) by (unfold itoa; now rewrite (proj2 (Z.ltb_ge n 0)) by lia).
  pose proof (fratio_rounds (Z.to_pos n) 1) as Hr. rewrite Z2Pos.id, Rdiv_1_r in Hr by lia.
  apply rounds_representable in Hr as [Hf Hb]; [|apply representable_Z; lia].
  assert (Ev : decimal_value false n 0 = fratio (Z.to_pos n) 1).
  { unfold decimal_value. destruct n as [|p|p]; try lia. cbn [Z.leb Z.compare Z.to_pos]. change (Z.to_pos (10 ^ 0)) with 1%positive. now rewrite Pos.mul_1_r. }
  destruct (fratio (Z.to_pos n) 1) as [s|s| |s m e] eqn:Ef; try discriminate.
  { cbn in Hb. assert (IZR n > 0)%R by (apply IZR_lt; lia). lra. }
  assert (s = false) as ->.
  { destruct s; [|done]. exfalso. assert (Hpos : (0 < IZR n)%R) by (apply IZR_lt; lia). rewrite <- Hb in Hpos. cbn [B2R cond_Zopp] in Hpos.
    pose proof (bpow_pos e). assert (IZR (- Z.pos m) < 0)%R by (apply IZR_lt; lia). nra. }
  exists (S754_finite false m e). split; [exact Hb|]. intros st bad md Hm _. rewrite Hi.
  destruct (digits_ok n ltac:(lia)) as (Hd & Hv & c & r & E & Hc).
  destruct (scan_literal (digits n) n 0 false m e st bad md) as (k & acc & Es & Hk & Hx); [|exact Ev|exact Hm|].
  - split; [|split].
    + exists NInt. split; [|done]. rewrite E in *. now apply num_run_int.
    + exists c, r. split; [exact E|]. rewrite E in Hd. apply Forall_cons in Hd. tauto.
    + intros neg. rewrite (mantissa_digits_end _ _ _ _ Hd). cbn [exponent]. fold (decimal_digits (bytes_of (digits n))). now rewrite Hv.
  - eexists. split; [exact Es|]. now apply ends_num.
Qed.

Lemma to_map_sorted_go (m pre : object) : keys_sorted m = true ->
  Forall (fun e => Forall (fun e' => String.ltb e.1 e'.1 = true) m) pre ->
  foldl (fun m e => obj_set e.1 e.2 m) pre m = pre ++ m.
Proof.
  revert pre. induction m as [|[k v] m IH]; intros pre Hm Hpre; [now rewrite app_nil_r|]. cbn [keys_sorted] in Hm.
  apply andb_prop in Hm as [Hlt Hm]. cbn [foldl fst snd]. rewrite obj_set_last.
  - rewrite IH, <- app_assoc; [reflexivity|exact Hm|]. apply Forall_app. split.
    + eapply Forall_impl; [exact Hpre|]. intros e He. now apply Forall_cons in He as [_ ?].
    + constructor; [|constructor]. rewrite forallb_forall in Hlt. apply Forall_forall. intros e He. apply Hlt. now apply list_elem_of_In.
  - eapply Forall_impl; [exact Hpre|]. intros e He. now apply Forall_cons in He as [? _].
Qed.
Lemma to_any_ok v : json_ok v = true -> to_any v = v.
Proof.
  induction v as [| | | |l IH|m IH] using jvalue_rect'; intros Hok; try reflexivity; cbn [to_any json_ok] in *.
  - f_equal. rewrite forallb_forall in Hok. rewrite Forall_forall in IH. rewrite <- (map_id l) at 2. apply map_ext_in.
    intros v Hv. apply IH; [now apply list_elem_of_In|now apply Hok].
  - apply andb_prop in Hok as [Hs Hok]. rewrite forallb_forall in Hok. rewrite Forall_forall in IH.
    assert (E : map (fun e : string * jvalue => (e.1, to_any e.2)) m = m).
    { rewrite <- (map_id m) at 2. apply map_ext_in. intros [k v] He. cbn. f_equal. apply (IH (k, v)); [now apply list_elem_of_In|].
      specialize (Hok (k, v) He). now apply andb_prop in Hok as [_ ?]. }
    rewrite E. unfold to_map. f_equal. apply (to_map_sorted_go m []); [exact Hs|constructor].
Qed.

(** [Marshal] and [Unmarshal] of a map are inverse. *)
Lemma Unmarshal_marshal m t : marshal (JObj m) = Some t -> json_ok (JObj m) = true -> depth (JObj m) <= maxNestingDepth ->
  Unmarshal_map t None = (false, Some m).
Proof.
  intros E Hok Hd. unfold Unmarshal_map. rewrite (parse_marshal _ _ E (json_ok_text _ Hok) Hd). cbn [default]. f_equal. f_equal.
  pose proof (to_any_ok _ Hok) as Ha. cbn [to_any] in Ha. injection Ha as Ha. unfold to_map in Ha.
  rewrite foldl_fmap in Ha. exact Ha.
Qed.

(** ** Marshalled text has no control characters, and is one line *)

Definition printed (s : string) : Prop := Forall (fun c => 32 <= byte_val c) (list_ascii_of_string s).

Lemma printed_app a b : printed a -> printed b -> printed (a +:+ b).
Proof. unfold printed. rewrite list_ascii_app. now apply Forall_app_2. Qed.
Lemma printed_cons c s : 32 <= byte_val c -> printed s -> printed (String c s).
Proof. now constructor. Qed.
Lemma printed_take n s : printed s -> printed (str_take n s).
Proof. revert s. induction n as [|n IH]; intros [|c s] Hs; try constructor; inversion Hs; subst; [done|now apply IH]. Qed.
Lemma printed_drop n s : printed s -> printed (str_drop n s).
Proof. revert s. induction n as [|n IH]; intros [|c s] Hs; try done. inversion Hs; subst. now apply IH. Qed.
Lemma printed_byte b s : 32 <= b < 256 -> printed s -> printed (String (byte_of b) s).
Proof. intros Hb. apply printed_cons. rewrite byte_val_of; lia. Qed.
Lemma printed_digits n : printed (digits n).
Proof.
  unfold digits. assert (H : forall fuel n acc, printed acc -> printed (digits_go fuel n acc)); [|apply H; constructor].
  clear n. induction fuel as [|fuel IH]; intros n acc Ha; [exact Ha|]. cbn [digits_go].
  assert (printed (String (byte_of (48 + n mod 10)) acc)) by (apply printed_byte; [Z.to_euclidean_division_equations; lia|exact Ha]).
  case_bool; [done|now apply IH].
Qed.
Lemma printed_zeros n : printed (zeros n).
Proof. induction n as [|n IH]; [constructor|]. apply printed_byte; [lia|exact IH]. Qed.
Lemma printed_hex n : 0 <= n < 16 -> 32 <= byte_val (hex_digit n).
Proof. intros Hn. unfold hex_digit. case_bool; zbool; rewrite byte_val_of by lia; lia. Qed.
Lemma printed_const s : forallb (fun c => 32 <=? byte_val c) (list_ascii_of_string s) = true -> printed s.
Proof. intros E. unfold printed. rewrite forallb_forall in E. apply Forall_forall. intros c Hc. apply Z.leb_le, E. now apply list_elem_of_In. Qed.
Create HintDb printed.
#[local] Hint Extern 1 (printed (String _ _)) => apply printed_const; reflexivity : printed.
#[local] Hint Extern 1 (printed EmptyString) => constructor : printed.
#[local] Hint Extern 1 (printed (str1 _)) => apply printed_const; reflexivity : printed.
#[local] Hint Extern 1 (printed quote) => apply printed_const; reflexivity : printed.
#[local] Hint Resolve printed_app printed_take printed_drop printed_digits printed_zeros : printed.

Lemma printed_u r : 0 <= r < 65536 -> printed (u_escape r).
Proof.
  intros Hr. assert (Hl : forall x, 0 <= Z.land x 15 < 16) by (intros x; change 15 with (2 ^ 4 - 1); rewrite land_low by lia; apply Z.mod_pos_bound; lia).
  unfold u_escape. repeat (apply printed_cons; [first [vm_compute; discriminate | apply printed_hex; auto]|]); [|constructor].
  rewrite Z.shiftr_div_pow2 by lia. split; [apply Z.div_pos; lia|apply Z.div_lt_upper_bound; lia].
Qed.
Lemma printed_escape r w s : decode_rune s = Some (r, w) -> printed (escape_rune r w s).
Proof.
  intros E. unfold escape_rune. apply decode_inv in E as [(l & t & Hr & -> & ->)|(-> & -> & _)].
  - pose proof (rune_range r l Hr) as Hrange. destruct (Z.ltb_spec r 128) as [H128|H128].
    + unfold escape_byte. repeat case_bool; try (now (repeat constructor; vm_compute)); try (apply printed_u; lia).
      * apply orb_prop in Heqb as [E|E]; zbool; subst; repeat constructor; vm_compute; discriminate.
      * zbool. apply printed_byte; [|constructor]. repeat match goal with H : _ || _ = false |- _ => apply orb_false_iff in H as [? H] end. zbool. lia.
    + case_bool; [apply printed_u; vm_compute; now split|]. case_bool; [apply orb_prop in Heqb0 as [E|E]; zbool; subst; apply printed_u; lia|].
      destruct (high_rune r l Hr H128) as [Hh _]. rewrite <- (str_of_length l), str_take_app. clear -Hh.
      induction Hh as [|b l Hb _ IH]; [constructor|]. apply printed_byte; [lia|exact IH].
  - apply printed_u. vm_compute. now split.
Qed.
Lemma printed_quote s : printed (quote_json s).
Proof.
  unfold quote_json. assert (H : forall n s, printed (escape_go n s)); [|auto with printed].
  clear s. induction n as [|n IH]; intros s; [constructor|]. cbn [escape_go]. destruct (decode_rune s) as [[r w]|] eqn:E; [|constructor].
  apply printed_app; [now apply printed_escape|apply IH].
Qed.
Lemma printed_format ds (b : bool) dp : printed ds -> printed (if b then format_e ds dp else format_f ds dp).
Proof.
  intros Hq. unfold format_e, format_f. destruct b; [destruct (1 <? slen ds), (dp - 1 <? 0)|destruct (dp <=? 0); [|destruct (slen ds <=? dp)]];
    auto 12 with printed.
Qed.
Lemma printed_float x t : marshal_float x = Some t -> printed t.
Proof.
  destruct x as [s| | |s m e]; cbn; try discriminate; [intros [= <-]; destruct s; auto with printed|].
  destruct (shortest m e) as [q e10]. intros [= <-]. apply printed_app; [destruct s; auto with printed|].
  apply (printed_format (digits q)), printed_digits.
Qed.
Lemma printed_join l : Forall printed l -> printed (str_join "," l).
Proof.
  unfold str_join. induction 1 as [|s [|s' l] Hs Hl IH]; [constructor|exact Hs|].
  change (printed (s +:+ "," +:+ String.concat "," (s' :: l))). auto with printed.
Qed.
Lemma printed_marshal v : forall t, marshal v = Some t -> printed t.
Proof.
  induction v as [|b|x|s|l IH|m IH] using jvalue_rect'; intros t E; cbn [marshal] in E; try (injection E as <-).
  - auto with printed.
  - destruct b; auto with printed.
  - now apply printed_float in E.
  - apply printed_quote.
  - destruct (mapM marshal l) as [r|] eqn:Er; [|discriminate]. injection E as <-. apply mapM_Some_1 in Er.
    apply printed_app; [auto with printed|]. apply printed_app; [|auto with printed]. apply printed_join.
    clear -IH Er. induction Er as [|v t l r Ev _ IHr]; [constructor|]. inversion IH; subst. constructor; auto.
  - destruct (mapM _ m) as [r|] eqn:Er; [|discriminate]. injection E as <-. apply mapM_Some_1 in Er.
    apply printed_app; [auto with printed|]. apply printed_app; [|auto with printed]. apply printed_join.
    clear -IH Er. induction Er as [|[k v] t m r Ev _ IHr]; [constructor|]. inversion IH; subst. constructor; auto.
    cbn [fst snd] in *. destruct (marshal v) as [t'|] eqn:Et; [|discriminate]. injection Ev as <-.
    apply printed_app; [apply printed_quote|]. apply printed_app; auto with printed.
Qed.

(** An object's text starts and ends with its braces, so trimming leaves it. *)
Lemma trim_object m t : marshal (JObj m) = Some t -> trim_space t = t /\ t <> EmptyString /\ ends_clean t.
Proof.
  cbn [marshal]. destruct (mapM _ m) as [r|]; [|discriminate]. intros [= <-].
  change ("{" +:+ str_join "," r +:+ "}") with (String "{" (str_join "," r +:+ "}")).
  assert (He : ends_clean (String "{" (str_join "," r +:+ "}"))) by (apply ends_ascii; [vm_compute; reflexivity|apply ends_byte; vm_compute; reflexivity]).
  split; [|split; [discriminate|exact He]]. apply clean_trim; [apply starts_ascii; vm_compute; reflexivity|exact He].
Qed.

(** ** [Decoder.Decode]: the first value of a text *)

(** A composite ends the value at its closing byte, any other value at the
    byte after it. *)
Fixpoint scan_first (t : string) (s : scanner) : option (jvalue * bool) :=
  let at_end := match stack s, scan_mode s with
                | [], MEnd v => Some (v, out_of_range s)
                | _, _ => None
                end in
  match at_end with
  | Some r => Some r
  | None =>
      match t with
      | EmptyString => scan_eof s
      | String c t =>
          match stack s, scan_mode s with
          | [], MNum n acc =>
              match num_step n (byte_val c) with
              | None => scan_eof s
              | Some _ => s ← scan_step s c; scan_first t s
              end
          | _, _ => s ← scan_step s c; scan_first t s
          end
      end
  end.
Definition decode_first (t : string) : option (jvalue * bool) := scan_first t (mkScanner MBegin [] false).

(** [Decode] into a struct: the members that its fields are looked up in, or
    the error that there is none ([null] sets nothing).  Numbers out of range
    are skipped unless a field takes them. *)
Definition decode_object (t : string) : option object :=
  match decode_first t with Some (JObj m, _) => Some m | Some (JNull, _) => Some [] | _ => None end.

(** Keys match the names of struct fields up to case folding, which maps the
    long s and the Kelvin sign to ASCII letters. *)
Definition fold_rune (r : Z) : Z :=
  if (97 <=? r) && (r <=? 122) then r - 32 else if r =? 383 then 83 else if r =? 8490 then 75 else r.
Definition same_name (key name : string) : bool :=
  bool_decide (map fold_rune (rune_values key) = map fold_rune (rune_values name)).
(** A string field after the members, and whether one had another type;
    [null] leaves the field alone, the last value counts. *)
Definition string_field (name : string) (m : object) : string * bool :=
  foldl (fun '(s, bad) e =>
    if same_name e.1 name then match e.2 with JStr t => (t, bad) | JNull => (s, bad) | _ => (s, true) end else (s, bad))
    (EmptyString, false) m.

Example decode_first_ex : decode_first (" {" +:+ quote +:+ "Result" +:+ quote +:+ ":" +:+ quote +:+ "ok" +:+ quote +:+ "} trailing")
  = Some (JObj [("Result", JStr "ok")]%string, false) /\ string_field "result" [("Result", JStr "ok")]%string = ("ok"%string, false).
Proof. vm_compute. auto. Qed.
