(* ===== verification/Config.v ===== *)
(** * Configuration (config/config.go, config/env.go)

    The typed configuration with its defaults, the overrides from environment
    variables and the validation.  The environment is a function from names to
    values, empty when unset ([os.Getenv]).  [NewLogger] builds a logger and is
    not modelled. *)
From S2P Require Import Prelude Float64 GoStrings Strconv.
From Stdlib Require Import ZArith Lia Reals Lra String SpecFloat.
From stdpp Require Import base tactics list gmap strings.
#[local] Open Scope Z_scope.

(** [slog.Level]. *)
Definition LevelDebug : Z := -4.
Definition LevelInfo : Z := 0.
Definition LevelWarn : Z := 4.
Definition LevelError : Z := 8.

Record ToolCacheConfig := mkToolCacheConfig { tc_Enabled : bool; tc_MaxEntries : Z }.
Record ReActConfig := mkReActConfig { MaxTranscriptTokens : Z }.
Record OTelConfig := mkOTel { Endpoint : string; Insecure : bool; otel_Timeout : Z }.
Record MCPConfig := mkMCP { mcp_URL : string }.
Record LoggerConfig := mkLogger { Level : Z; Format : string }.
Record ProviderConfig := mkProvider { Kind : string; BaseURL : string; APIKey : string; EmbedModel : string; prov_Timeout : Z }.
Record ModelsConfig := mkModels { PrimaryModel : string; FallbackModel : string; EmbeddingModel : string }.
Record LimitsConfig := mkLimits {
  MaxPromptBytes : Z; ToolTimeout : Z; InteractiveSlots : Z; BatchSlots : Z; LoadshedStart : Z; LoadshedWindow : Z;
  PrimaryCBWindow : Z; PrimaryCBErrorRate : f64; FallbackCBThreshold : Z; HedgeDelay : Z; RetryMax : Z; RetryBaseBackoff : Z;
}.
Record QualityConfig := mkQuality { AcceptableScore : f64; DriftWindow : Z; DriftSigma : f64 }.
Record CacheConfig := mkCacheConfig { TTL : Z; SimilarityThreshold : f64; cache_MaxEntries : Z; EmbedAsync : bool }.
Record WebhookConfig := mkWebhook { AllowHTTP : bool; AllowPrivate : bool; hook_Timeout : Z }.
Record ScoreConfig := mkScore { HistorySize : Z; LatencyP95Target : Z; Weights : gmap string Z }.

Record Config := mkConfig {
  Port : string; AuthToken : string; TrustedProxies : string;
  cfg_Logger : LoggerConfig; cfg_Provider : ProviderConfig; cfg_Models : ModelsConfig; cfg_Limits : LimitsConfig;
  cfg_Quality : QualityConfig; cfg_Cache : CacheConfig; cfg_Webhook : WebhookConfig; cfg_Score : ScoreConfig;
  cfg_MCP : MCPConfig; cfg_OTel : OTelConfig; cfg_ToolCache : ToolCacheConfig; cfg_ReAct : ReActConfig;
}.

(** ** Validation *)

Inductive ConfigError :=
| BadInteractiveSlots (n : Z) | BadBatchSlots (n : Z) | BadLoadshedStart (n : Z)
| BadErrorRate (x : f64) | BadLatencyTarget (d : Z) | BadWeights (sum : Z).

(** The sum over the map, in the order of the range: any order gives the same. *)
Definition weight_sum (m : gmap string Z) : Z := map_fold (fun _ w sum => wrap64 (sum + w)) 0 m.

(** [None] is success. *)
Definition Validate (c : Config) : option ConfigError :=
  let l := cfg_Limits c in
  let s := cfg_Score c in
  if InteractiveSlots l <=? 0 then Some (BadInteractiveSlots (InteractiveSlots l))
  else if BatchSlots l <=? 0 then Some (BadBatchSlots (BatchSlots l))
  else if LoadshedStart l <=? 0 then Some (BadLoadshedStart (LoadshedStart l))
  else if fle (PrimaryCBErrorRate l) f0 || fle f1 (PrimaryCBErrorRate l) then Some (BadErrorRate (PrimaryCBErrorRate l))
  else if LatencyP95Target s <=? 0 then Some (BadLatencyTarget (LatencyP95Target s))
  else let sum := weight_sum (Weights s) in if negb (sum =? 100) then Some (BadWeights sum) else None.

Definition default_weights : gmap string Z :=
  list_to_map [("transport", 20); ("quality", 20); ("cache", 20); ("availability", 20); ("latency", 20)]%string.

Definition Defaults : Config := {|
  Port := "8080"; AuthToken := ""; TrustedProxies := "";
  cfg_Logger := mkLogger LevelInfo "text";
  cfg_Provider := mkProvider "ollama" "http://localhost:11434" "" "" (60 * second);
  cfg_Models := mkModels "llama3.2" "llama3.2:1b" "nomic-embed-text";
  cfg_Limits := {| MaxPromptBytes := 32 * 1024; ToolTimeout := 10 * second; InteractiveSlots := 20; BatchSlots := 5;
    LoadshedStart := 50; LoadshedWindow := 30 * second; PrimaryCBWindow := 20; PrimaryCBErrorRate := flit 1 2;
    FallbackCBThreshold := 3; HedgeDelay := 1500 * millisecond; RetryMax := 2; RetryBaseBackoff := 300 * millisecond |};
  cfg_Quality := mkQuality (flit 45 100) 50 (f64_of_Z 2);
  cfg_Cache := mkCacheConfig (10 * minute) (flit 92 100) 1024 true;
  cfg_Webhook := mkWebhook false false (5 * second);
  cfg_Score := mkScore 60 (3 * second) default_weights;
  cfg_MCP := mkMCP "";
  cfg_OTel := mkOTel "" true (10 * second);
  cfg_ToolCache := mkToolCacheConfig true 64;
  cfg_ReAct := mkReActConfig 6000;
|}%string.

(** ** Overrides *)

Definition with_Logger (f : LoggerConfig -> LoggerConfig) (c : Config) : Config :=
  mkConfig (Port c) (AuthToken c) (TrustedProxies c) (f (cfg_Logger c)) (cfg_Provider c) (cfg_Models c) (cfg_Limits c)
    (cfg_Quality c) (cfg_Cache c) (cfg_Webhook c) (cfg_Score c) (cfg_MCP c) (cfg_OTel c) (cfg_ToolCache c) (cfg_ReAct c).
Definition with_Provider (f : ProviderConfig -> ProviderConfig) (c : Config) : Config :=
  mkConfig (Port c) (AuthToken c) (TrustedProxies c) (cfg_Logger c) (f (cfg_Provider c)) (cfg_Models c) (cfg_Limits c)
    (cfg_Quality c) (cfg_Cache c) (cfg_Webhook c) (cfg_Score c) (cfg_MCP c) (cfg_OTel c) (cfg_ToolCache c) (cfg_ReAct c).
Definition with_Models (f : ModelsConfig -> ModelsConfig) (c : Config) : Config :=
  mkConfig (Port c) (AuthToken c) (TrustedProxies c) (cfg_Logger c) (cfg_Provider c) (f (cfg_Models c)) (cfg_Limits c)
    (cfg_Quality c) (cfg_Cache c) (cfg_Webhook c) (cfg_Score c) (cfg_MCP c) (cfg_OTel c) (cfg_ToolCache c) (cfg_ReAct c).
Definition with_Webhook (f : WebhookConfig -> WebhookConfig) (c : Config) : Config :=
  mkConfig (Port c) (AuthToken c) (TrustedProxies c) (cfg_Logger c) (cfg_Provider c) (cfg_Models c) (cfg_Limits c)
    (cfg_Quality c) (cfg_Cache c) (f (cfg_Webhook c)) (cfg_Score c) (cfg_MCP c) (cfg_OTel c) (cfg_ToolCache c) (cfg_ReAct c).
Definition with_OTel (f : OTelConfig -> OTelConfig) (c : Config) : Config :=
  mkConfig (Port c) (AuthToken c) (TrustedProxies c) (cfg_Logger c) (cfg_Provider c) (cfg_Models c) (cfg_Limits c)
    (cfg_Quality c) (cfg_Cache c) (cfg_Webhook c) (cfg_Score c) (cfg_MCP c) (f (cfg_OTel c)) (cfg_ToolCache c) (cfg_ReAct c).
Definition with_ToolCache (f : ToolCacheConfig -> ToolCacheConfig) (c : Config) : Config :=
  mkConfig (Port c) (AuthToken c) (TrustedProxies c) (cfg_Logger c) (cfg_Provider c) (cfg_Models c) (cfg_Limits c)
    (cfg_Quality c) (cfg_Cache c) (cfg_Webhook c) (cfg_Score c) (cfg_MCP c) (cfg_OTel c) (f (cfg_ToolCache c)) (cfg_ReAct c).
Definition with_ReAct (r : ReActConfig) (c : Config) : Config :=
  mkConfig (Port c) (AuthToken c) (TrustedProxies c) (cfg_Logger c) (cfg_Provider c) (cfg_Models c) (cfg_Limits c)
    (cfg_Quality c) (cfg_Cache c) (cfg_Webhook c) (cfg_Score c) (cfg_MCP c) (cfg_OTel c) (cfg_ToolCache c) r.
Definition with_MCP (m : MCPConfig) (c : Config) : Config :=
  mkConfig (Port c) (AuthToken c) (TrustedProxies c) (cfg_Logger c) (cfg_Provider c) (cfg_Models c) (cfg_Limits c)
    (cfg_Quality c) (cfg_Cache c) (cfg_Webhook c) (cfg_Score c) m (cfg_OTel c) (cfg_ToolCache c) (cfg_ReAct c).
Definition with_strings (port auth proxies : string) (c : Config) : Config :=
  mkConfig port auth proxies (cfg_Logger c) (cfg_Provider c) (cfg_Models c) (cfg_Limits c)
    (cfg_Quality c) (cfg_Cache c) (cfg_Webhook c) (cfg_Score c) (cfg_MCP c) (cfg_OTel c) (cfg_ToolCache c) (cfg_ReAct c).

Definition set_BaseURL (v : string) (p : ProviderConfig) : ProviderConfig := mkProvider (Kind p) v (APIKey p) (EmbedModel p) (prov_Timeout p).
Definition set_Kind (v : string) (p : ProviderConfig) : ProviderConfig := mkProvider v (BaseURL p) (APIKey p) (EmbedModel p) (prov_Timeout p).
Definition set_APIKey (v : string) (p : ProviderConfig) : ProviderConfig := mkProvider (Kind p) (BaseURL p) v (EmbedModel p) (prov_Timeout p).
Definition set_EmbedModel (v : string) (p : ProviderConfig) : ProviderConfig := mkProvider (Kind p) (BaseURL p) (APIKey p) v (prov_Timeout p).
Definition set_Primary (v : string) (m : ModelsConfig) : ModelsConfig := mkModels v (FallbackModel m) (EmbeddingModel m).
Definition set_Fallback (v : string) (m : ModelsConfig) : ModelsConfig := mkModels (PrimaryModel m) v (EmbeddingModel m).

Section Load.
Context `{Unicode} (Getenv : string -> string).

(** [if v := os.Getenv(name); v != "" { f }]. *)
Definition if_set (name : string) (f : string -> Config -> Config) (c : Config) : Config :=
  let v := Getenv name in if String.eqb v EmptyString then c else f v c.

(** The defaults of an OpenAI-compatible backend. *)
Definition openai_defaults (c : Config) : Config :=
  if String.eqb (Kind (cfg_Provider c)) "openai" then
    let c := if String.eqb (BaseURL (cfg_Provider c)) "" || String.eqb (BaseURL (cfg_Provider c)) "http://localhost:11434"
             then with_Provider (set_BaseURL "https://api.openai.com/v1") c else c in
    let c := if String.eqb (PrimaryModel (cfg_Models c)) "llama3.2" then with_Models (set_Primary "gpt-4o-mini") c else c in
    if String.eqb (FallbackModel (cfg_Models c)) "llama3.2:1b" then with_Models (set_Fallback "gpt-4o-mini") c else c
  else c.

Definition parseInt (s : string) : option Z := Atoi s.
Definition log_level (v : string) (l : LoggerConfig) : LoggerConfig :=
  let v := to_lower v in
  if String.eqb v "debug" then mkLogger LevelDebug (Format l)
  else if String.eqb v "info" then mkLogger LevelInfo (Format l)
  else if String.eqb v "warn" then mkLogger LevelWarn (Format l)
  else if String.eqb v "error" then mkLogger LevelError (Format l)
  else l.

(** The provider, the models and the secrets (env.go 21-77), in order. *)
Definition provider_overrides : list (Config -> Config) := [
  if_set "PORT" (fun v c => with_strings v (AuthToken c) (TrustedProxies c) c);
  if_set "OLLAMA_URL" (fun v => with_Provider (set_BaseURL v));
  if_set "LLM_PROVIDER" (fun v => with_Provider (set_Kind (to_lower v)));
  openai_defaults;
  if_set "OPENAI_BASE_URL" (fun v => with_Provider (set_BaseURL v));
  if_set "OPENAI_API_KEY" (fun v => with_Provider (set_APIKey v));
  if_set "OPENAI_EMBED_MODEL" (fun v => with_Provider (set_EmbedModel v));
  if_set "OPENAI_PRIMARY_MODEL" (fun v => with_Models (set_Primary v));
  if_set "OPENAI_FALLBACK_MODEL" (fun v => with_Models (set_Fallback v));
  if_set "AGENTSHIELD_AUTH_TOKEN" (fun v c => with_strings (Port c) v (TrustedProxies c) c);
  if_set "AGENTSHIELD_TRUSTED_PROXIES" (fun v c => with_strings (Port c) (AuthToken c) v c);
  if_set "MCP_URL" (fun v => with_MCP (mkMCP v)) ].

(** Webhook, logging, telemetry, ReAct (env.go 78-131), in order. *)
Definition if_is (name value : string) (f : Config -> Config) (c : Config) : Config :=
  if String.eqb (Getenv name) value then f c else c.
Definition if_parsed {A} (parse : string -> option A) (f : A -> Config -> Config) (v : string) (c : Config) : Config :=
  match parse v with Some x => f x c | None => c end.
Definition log_format (c : Config) : Config :=
  let v := Getenv "LOG_FORMAT" in
  if String.eqb v "json" || String.eqb v "text" then with_Logger (fun l => mkLogger (Level l) v) c else c.
Definition runtime_overrides : list (Config -> Config) := [
  if_is "AGENTSHIELD_ALLOW_HTTP_WEBHOOK" "true" (with_Webhook (fun w => mkWebhook true (AllowPrivate w) (hook_Timeout w)));
  if_is "AGENTSHIELD_ALLOW_PRIVATE_WEBHOOK" "true" (with_Webhook (fun w => mkWebhook (AllowHTTP w) true (hook_Timeout w)));
  if_set "LOG_LEVEL" (fun v => with_Logger (log_level v));
  log_format;
  if_set "OTEL_EXPORTER_OTLP_ENDPOINT" (fun v => with_OTel (fun o => mkOTel v (Insecure o) (otel_Timeout o)));
  if_set "OTEL_EXPORTER_OTLP_INSECURE" (if_parsed ParseBool (fun b => with_OTel (fun o => mkOTel (Endpoint o) b (otel_Timeout o))));
  if_set "OTEL_EXPORTER_OTLP_TIMEOUT" (if_parsed ParseDuration (fun d => with_OTel (fun o => mkOTel (Endpoint o) (Insecure o) d)));
  if_is "AGENTSHIELD_TOOL_CACHE_ENABLED" "false" (with_ToolCache (fun t => mkToolCacheConfig false (tc_MaxEntries t)));
  if_set "AGENTSHIELD_TOOL_CACHE_MAX_ENTRIES" (if_parsed parseInt (fun n c =>
    if 0 <? n then with_ToolCache (fun t => mkToolCacheConfig (tc_Enabled t) n) c else c));
  if_set "AGENTSHIELD_REACT_MAX_TRANSCRIPT_TOKENS" (if_parsed parseInt (fun n c =>
    if 0 <? n then with_ReAct (mkReActConfig n) c else c)) ].

Definition override_all (l : list (Config -> Config)) (c : Config) : Config := foldl (fun c f => f c) c l.
Definition LoadFromEnv : ConfigError + Config :=
  let c := override_all (provider_overrides ++ runtime_overrides) Defaults in
  match Validate c with Some e => inl e | None => inr c end.
End Load.

(** ** What a loaded configuration guarantees *)

Definition known_level (n : Z) : Prop := n = LevelDebug \/ n = LevelInfo \/ n = LevelWarn \/ n = LevelError.
(** The invariant of the overrides: what validation looks at is the defaults',
    and every field that a component uses unchecked is usable. *)
Record loaded (c : Config) : Prop := {
  loaded_Limits : cfg_Limits c = cfg_Limits Defaults;
  loaded_Score : cfg_Score c = cfg_Score Defaults;
  loaded_Quality : cfg_Quality c = cfg_Quality Defaults;
  loaded_Cache : cfg_Cache c = cfg_Cache Defaults;
  loaded_Port : Port c <> EmptyString;
  loaded_BaseURL : BaseURL (cfg_Provider c) <> EmptyString;
  loaded_Primary : PrimaryModel (cfg_Models c) <> EmptyString;
  loaded_Fallback : FallbackModel (cfg_Models c) <> EmptyString;
  loaded_Embedding : EmbeddingModel (cfg_Models c) = "nomic-embed-text"%string;
  loaded_Format : (Format (cfg_Logger c) = "json" \/ Format (cfg_Logger c) = "text")%string;
  loaded_Level : known_level (Level (cfg_Logger c));
  loaded_ToolCache : 0 < tc_MaxEntries (cfg_ToolCache c);
  loaded_ReAct : 0 < MaxTranscriptTokens (cfg_ReAct c);
}.

Lemma override_all_keeps (P : Config -> Prop) l c : Forall (fun f => forall c, P c -> P (f c)) l -> P c -> P (override_all l c).
Proof. intros Hl. revert c. induction Hl as [|f l Hf _ IH]; intros c Hc; [exact Hc|]. apply IH, Hf, Hc. Qed.

Section LoadFacts.
Context `{Unicode} (Getenv : string -> string).

Lemma if_set_keeps (P : Config -> Prop) name f :
  (forall v c, v <> EmptyString -> P c -> P (f v c)) -> forall c, P c -> P (if_set Getenv name f c).
Proof. intros Hf c Hc. unfold if_set. destruct (String.eqb_spec (Getenv name) EmptyString); auto. Qed.
Lemma if_is_keeps (P : Config -> Prop) name v f : (forall c, P c -> P (f c)) -> forall c, P c -> P (if_is Getenv name v f c).
Proof. intros Hf c Hc. unfold if_is. case_bool; auto. Qed.
Lemma if_parsed_keeps {A} (P : Config -> Prop) (parse : string -> option A) f :
  (forall x c, P c -> P (f x c)) -> forall v c, v <> EmptyString -> P c -> P (if_parsed parse f v c).
Proof. intros Hf v c _ Hc. unfold if_parsed. destruct (parse v); auto. Qed.

Lemma openai_defaults_loaded c : loaded c -> loaded (openai_defaults c).
Proof.
  intros []. unfold openai_defaults. cbv zeta.
  repeat match goal with |- context [if ?b then _ else _] => destruct b end; split; cbn; solve [assumption|discriminate].
Qed.
Lemma log_level_ok v l : known_level (Level l) -> known_level (Level (log_level v l)) /\ Format (log_level v l) = Format l.
Proof.
  intros Hl. unfold log_level. repeat match goal with |- context [if ?b then _ else _] => destruct b end; unfold known_level; cbn; auto.
Qed.
Lemma log_format_loaded c : loaded c -> loaded (log_format Getenv c).
Proof.
  intros []. unfold log_format. case_bool; split; cbn; auto. apply orb_prop in Heqb as [E|E]; apply String.eqb_eq in E; auto.
Qed.

Lemma overrides_loaded : Forall (fun f => forall c, loaded c -> loaded (f c)) (provider_overrides Getenv ++ runtime_overrides Getenv).
Proof.
  unfold provider_overrides, runtime_overrides. cbn [app].
  repeat (apply Forall_cons; split); try apply Forall_nil_2;
    try (apply if_set_keeps; try apply if_parsed_keeps); try apply if_is_keeps;
    try apply openai_defaults_loaded; try apply log_format_loaded.
  all: try (intros ? ? ?; intros []; split; cbn; assumption).
  all: try (intros ?; intros []; split; cbn; assumption).
  all: try (intros ? ?; intros []; try (destruct (Z.ltb_spec 0 x)); split; cbn; assumption).
  intros v c _ []. destruct (log_level_ok v (cfg_Logger c)) as [H1 H2]; [assumption|].
  split; cbn; rewrite ?H2; assumption.
Qed.
Lemma Defaults_loaded : loaded Defaults.
Proof. split; unfold known_level; cbn; try discriminate; auto; reflexivity. Qed.
Lemma Load_loaded : loaded (override_all (provider_overrides Getenv ++ runtime_overrides Getenv) Defaults).
Proof. apply override_all_keeps; [apply overrides_loaded|apply Defaults_loaded]. Qed.
End LoadFacts.

(** The acceptance condition of [Validate]. *)
Definition rate_ok (x : f64) : Prop := is_nan x = true \/ (is_fin x = true /\ (0 < B2R x < 1)%R).
Lemma rate_spec x : valid x = true -> fle x f0 || fle f1 x = false <-> rate_ok x.
Proof.
  intros Hv. unfold rate_ok. destruct f0_val as [F0 V0], f1_val as [F1 V1]. destruct (is_fin x) eqn:Hf.
  - destruct (fle_false x f0 Hf F0) as [A1 A2], (fle_false f1 x F1 Hf) as [B1 B2]. rewrite V0 in *. rewrite V1 in *.
    split.
    + intros [E1 E2]%orb_false_elim. right. split; [done|]. split; auto.
    + intros [Hn|[_ [H0 H1]]]; [destruct x; discriminate|]. now rewrite A2, B2.
  - destruct (valid_not_fin x Hv Hf) as [->|[s ->]].
    + split; [now left|reflexivity].
    + split; [now destruct s|intros [?|[? _]]; discriminate].
Qed.

Lemma loaded_valid c : loaded c -> Validate c = None.
Proof. intros Hl. unfold Validate. rewrite (loaded_Limits c Hl), (loaded_Score c Hl). vm_compute. reflexivity. Qed.

(** C24.  Whatever the environment, loading the configuration succeeds and what
    it returns is well formed: it passes [Validate], the validated sections and
    the cache and quality settings are the defaults', port, base URL and models
    are not empty, the log format and level are known ones, and the tool cache
    size and the transcript threshold are positive. *)
Theorem LoadFromEnv_well_formed `{Unicode} (Getenv : string -> string) :
  exists c, LoadFromEnv Getenv = inr c /\ Validate c = None /\ loaded c.
Proof.
  set (c := override_all (provider_overrides Getenv ++ runtime_overrides Getenv) Defaults).
  assert (Hl : loaded c) by apply Load_loaded. exists c.
  pose proof (loaded_valid c Hl) as Hv. split; [|split; [exact Hv|exact Hl]]. unfold LoadFromEnv. fold c. now rewrite Hv.
Qed.

(** [Validate] accepts exactly the usable configurations: positive slots
    for both classes, a positive shedder start, an error rate strictly between
    0 and 1 (or NaN, which passes), a positive latency target, and weights
    that add up to 100. *)
Theorem Validate_spec c : valid (PrimaryCBErrorRate (cfg_Limits c)) = true ->
  Validate c = None <->
  0 < InteractiveSlots (cfg_Limits c) /\ 0 < BatchSlots (cfg_Limits c) /\ 0 < LoadshedStart (cfg_Limits c) /\
  rate_ok (PrimaryCBErrorRate (cfg_Limits c)) /\ 0 < LatencyP95Target (cfg_Score c) /\
  weight_sum (Weights (cfg_Score c)) = 100.
Proof.
  intros Hv. rewrite <- (rate_spec _ Hv). unfold Validate. cbv zeta.
  repeat match goal with |- context [if ?b then Some _ else _] => destruct b eqn:? end; zbool;
    (split; [try discriminate; intros _|]); repeat split; try lia; try tauto; try (intros (? & ? & ? & ? & ? & ?)); try lia; congruence.
Qed.

(** The base URL and its sources. *)
Definition base_url (Getenv : string -> string) (openai : bool) : string :=
  let set v := negb (String.eqb v EmptyString) in
  if set (Getenv "OPENAI_BASE_URL") then Getenv "OPENAI_BASE_URL"
  else if set (Getenv "OLLAMA_URL") && negb (openai && String.eqb (Getenv "OLLAMA_URL") "http://localhost:11434") then Getenv "OLLAMA_URL"
  else if openai then "https://api.openai.com/v1" else "http://localhost:11434".

Definition provider_at (k u : string) (c : Config) : Prop := Kind (cfg_Provider c) = k /\ BaseURL (cfg_Provider c) = u.
(** The overrides after the base URL's leave both alone. *)
Lemma later_overrides_provider `{Unicode} Getenv k u :
  Forall (fun f => forall c, provider_at k u c -> provider_at k u (f c))
    (drop 5 (provider_overrides Getenv) ++ runtime_overrides Getenv).
Proof.
  unfold provider_overrides, runtime_overrides. cbn [drop app].
  repeat (apply Forall_cons; split); try apply Forall_nil_2;
    try (apply if_set_keeps; try apply if_parsed_keeps); try apply if_is_keeps; intros; try assumption.
  all: unfold log_format; repeat match goal with |- context [if ?b then _ else _] => destruct b end; assumption.
Qed.
(** The effect of the first five on the two fields, one at a time. *)
Section Early.
Context `{Unicode} (Getenv : string -> string).
Implicit Types (k u : string) (c : Config).
Definition or_set (name old : string) : string := if String.eqb (Getenv name) EmptyString then old else Getenv name.

Lemma at_port k u f c : provider_at k u c -> (forall v, cfg_Provider (f v c) = cfg_Provider c) -> provider_at k u (if_set Getenv "PORT" f c).
Proof. intros Hc Hf. unfold if_set, provider_at. case_bool; [exact Hc|]. now rewrite Hf. Qed.
Lemma at_base name k u c : provider_at k u c -> provider_at k (or_set name u) (if_set Getenv name (fun v => with_Provider (set_BaseURL v)) c).
Proof. intros [Hk Hu]. unfold if_set, or_set, provider_at. case_bool; now split. Qed.
Lemma at_kind k u c : provider_at k u c ->
  provider_at (if String.eqb (Getenv "LLM_PROVIDER") "" then k else to_lower (Getenv "LLM_PROVIDER")) u
    (if_set Getenv "LLM_PROVIDER" (fun v => with_Provider (set_Kind (to_lower v))) c).
Proof. intros [Hk Hu]. unfold if_set, provider_at. case_bool; now split. Qed.
Lemma at_models (b : bool) f k u c : provider_at k u c -> provider_at k u (if b then with_Models f c else c).
Proof. intros Hc. now destruct b. Qed.
Lemma at_openai k u c : provider_at k u c ->
  provider_at k (if String.eqb k "openai" && (String.eqb u "" || String.eqb u "http://localhost:11434") then "https://api.openai.com/v1" else u)
    (openai_defaults c).
Proof.
  intros [Hk Hu]. unfold openai_defaults. rewrite Hk. destruct (String.eqb k "openai"); [|now split]. rewrite Hu. cbn [andb]. cbv zeta.
  apply at_models, at_models. destruct (String.eqb u "" || String.eqb u "http://localhost:11434"); now split.
Qed.
Lemma early_overrides :
  let k := (if String.eqb (Getenv "LLM_PROVIDER") "" then "ollama" else to_lower (Getenv "LLM_PROVIDER"))%string in
  provider_at k (base_url Getenv (String.eqb k "openai")) (override_all (take 5 (provider_overrides Getenv)) Defaults).
Proof.
  intros k. unfold provider_overrides. cbn [take override_all foldl].
  assert (E0 : provider_at "ollama" "http://localhost:11434" Defaults) by now split.
  apply (at_port _ _ (fun v c => with_strings v (AuthToken c) (TrustedProxies c) c)) in E0; [|reflexivity].
  apply (at_base "OLLAMA_URL"), at_kind, at_openai, (at_base "OPENAI_BASE_URL") in E0. fold k in E0.
  assert (Eu : base_url Getenv (String.eqb k "openai") = or_set "OPENAI_BASE_URL"
    (if String.eqb k "openai" && (String.eqb (or_set "OLLAMA_URL" "http://localhost:11434") "" ||
       String.eqb (or_set "OLLAMA_URL" "http://localhost:11434") "http://localhost:11434")
     then "https://api.openai.com/v1" else or_set "OLLAMA_URL" "http://localhost:11434")); [|rewrite Eu; exact E0].
  clearbody k. clear E0. unfold base_url, or_set. destruct (String.eqb (Getenv "OPENAI_BASE_URL") ""); [|reflexivity]. cbn [negb].
  destruct (String.eqb k "openai"); destruct (String.eqb_spec (Getenv "OLLAMA_URL") "") as [E|E]; cbn [negb andb]; try reflexivity.
  rewrite (proj2 (String.eqb_neq _ _) E). cbn [orb]. now destruct (String.eqb (Getenv "OLLAMA_URL") "http://localhost:11434").
Qed.
End Early.

(** Which server answers: [OPENAI_BASE_URL] wins whenever it is set, for
    the Ollama backend too; otherwise [OLLAMA_URL] wins whenever it is set to
    something else than the default address, for the OpenAI backend too; only
    then the default of the chosen backend. *)
Theorem base_url_precedence `{Unicode} (Getenv : string -> string) c : LoadFromEnv Getenv = inr c ->
  Kind (cfg_Provider c) = (if String.eqb (Getenv "LLM_PROVIDER") "" then "ollama" else to_lower (Getenv "LLM_PROVIDER"))%string /\
  BaseURL (cfg_Provider c) = base_url Getenv (String.eqb (Kind (cfg_Provider c)) "openai").
Proof.
  unfold LoadFromEnv. cbv zeta. set (l := provider_overrides Getenv ++ runtime_overrides Getenv).
  destruct (Validate _); [discriminate|]. intros E. assert (Ec : c = override_all l Defaults) by congruence. rewrite Ec. clear c E Ec.
  pose proof (override_all_keeps _ _ _ (later_overrides_provider Getenv _ _) (early_overrides Getenv)) as [Hk Hu].
  assert (El : override_all l Defaults = override_all (drop 5 (provider_overrides Getenv) ++ runtime_overrides Getenv)
    (override_all (take 5 (provider_overrides Getenv)) Defaults)) by reflexivity.
  rewrite El, Hk. split; [reflexivity|exact Hu].
Qed.

(** The environment of docker-compose.yml with [LLM_PROVIDER=openai], and of
    truefoundry/service.yaml. *)
Definition compose_env (name : string) : string :=
  if String.eqb name "OLLAMA_URL" then "http://ollama:11434" else if String.eqb name "LLM_PROVIDER" then "openai" else "".
Definition truefoundry_env (name : string) : string :=
  if String.eqb name "OLLAMA_URL" then "http://gpu-host:11434" else if String.eqb name "OPENAI_BASE_URL" then "https://api.openai.com/v1" else "".
(** The OpenAI backend talks to Ollama, the Ollama backend to OpenAI. *)
Example compose_base_url : exists c, LoadFromEnv compose_env = inr c /\
  Kind (cfg_Provider c) = "openai"%string /\ BaseURL (cfg_Provider c) = "http://ollama:11434"%string.
Proof. eexists. vm_compute. auto. Qed.
Lemma base_url_precedence_witness : exists c, LoadFromEnv truefoundry_env = inr c /\
  Kind (cfg_Provider c) = "ollama"%string /\ BaseURL (cfg_Provider c) = "https://api.openai.com/v1"%string.
Proof.
  set (c := override_all (provider_overrides truefoundry_env ++ runtime_overrides truefoundry_env) Defaults). exists c.
  assert (E : LoadFromEnv truefoundry_env = inr c) by (vm_compute; reflexivity).
  destruct (base_url_precedence truefoundry_env c E) as [Hk Hu]. split; [exact E|]. rewrite Hk in Hu |- *. split; [reflexivity|exact Hu].
Defined.

Lemma Validate_spec_witness : Validate Defaults = None /\ rate_ok (flit 1 2).
Proof.
  assert (E : Validate Defaults = None) by (vm_compute; reflexivity). split; [exact E|].
  destruct (Validate_spec Defaults) as [H _]; [vm_compute; reflexivity|]. destruct (H E) as (_ & _ & _ & Hr & _). exact Hr.
Defined.
