(* ===== verification/Evaluator.v ===== *)
(** * The quality evaluator (quality/evaluator.go, quality/internal.go)

    [Evaluate] scores a response between 0 and 1 from five signals, each
    subtracting a bounded penalty.  The evaluator's state is the rolling
    baseline of response lengths.  [None] is a run-time panic. *)
From S2P Require Import Prelude RingBuffer Float64 GoStrings.
From Stdlib Require Import ZArith Lia Reals Lra Ascii String SpecFloat.
From stdpp Require Import base tactics list gmap strings.
#[local] Open Scope Z_scope.

Record QualitySignal := mkSignal { sig_Name : string; sig_Penalty : f64; sig_Detail : string }.
Record QualityResult := mkResult { res_Score : f64; res_Signals : list QualitySignal }.

Definition QualityGood : f64 := flit 70 100.
Definition QualityAcceptable : f64 := flit 45 100.

(** An embedding call: [None] when it returns an error. *)
Definition Embedder : Type := string -> option (list f64).

Record QualityEvaluator := mkEvaluator {
  lengths : list Z;
  lenIdx : Z;
  lenFilled : bool;
  lenWindow : Z;
  embedder : option Embedder;
}.

Definition NewEvaluator (embedder : option Embedder) : QualityEvaluator :=
  mkEvaluator (replicate 20 0) 0 false 20 embedder.

(** ** Cosine similarity *)

Definition cosine_sums (a b : list f64) : f64 * f64 * f64 :=
  foldl (fun '(dot, na, nb) '(x, y) =>
           (fadd dot (fmul x y), fadd na (fmul x x), fadd nb (fmul y y)))
        (f0, f0, f0) (zip a b).

Definition cosineSimilarity (a b : list f64) : f64 :=
  if negb (len a =? len b) || (len a =? 0) then f0
  else
    let '(dot, normA, normB) := cosine_sums a b in
    let denom := fmul (fsqrt normA) (fsqrt normB) in
    if feq denom f0 then f0 else fdiv dot denom.

(** ** The signals *)

Section Signals.
Context `{Unicode}.

(** [tokenize]: lowercase words of letters and digits. *)
Fixpoint tokenize_go (rs : list Z) (cur : string) : list string :=
  match rs with
  | [] => if slen cur =? 0 then [] else [cur]
  | r :: rs =>
      if is_letter r || is_digit r then tokenize_go rs (cur +:+ encode_rune r)
      else if 0 <? slen cur then cur :: tokenize_go rs EmptyString
      else tokenize_go rs cur
  end.
Definition tokenize (text : string) : list string :=
  tokenize_go (rune_values (to_lower text)) EmptyString.

(** The keys [words[i] + " " + words[i+1] + " " + words[i+2]]. *)
Fixpoint trigram_keys (words : list string) : list string :=
  match words with
  | w0 :: ((w1 :: w2 :: _) as rest) => (w0 +:+ " " +:+ w1 +:+ " " +:+ w2) :: trigram_keys rest
  | _ => []
  end.

Definition count_key (m : gmap string Z) (k : string) : gmap string Z :=
  <[k := default 0 (m !! k) + 1]> m.
Definition trigram_counts (keys : list string) : gmap string Z := foldl count_key ∅ keys.
Definition duplicates (m : gmap string Z) : Z :=
  map_fold (fun _ count acc => if 1 <? count then acc + (count - 1) else acc) 0 m.

Definition repetitionScore (text : string) : f64 * string :=
  let words := tokenize text in
  if len words <? 6 then (f1, EmptyString)
  else
    let keys := trigram_keys words in
    let total := len keys in
    let ratio := fdiv (f64_of_Z (duplicates (trigram_counts keys))) (f64_of_Z total) in
    if flt ratio (flit 15 100) then (f1, EmptyString)
    else if flt (flit 60 100) ratio then (f0, "response is highly repetitive"%string)
    else (fsub f1 (fdiv (fsub ratio (flit 15 100)) (flit 45 100)), "repeated phrases detected"%string).

Definition refusalMarkerPatterns : list string :=
  ["as an ai language model"; "i cannot and will not"; "i am unable to assist";
   "i'm unable to assist"; "i don't have access to real-time"; "i apologize, but i cannot";
   "i apologize, but as an"; "i am just an ai"; "i'm just an ai"]%string.

Definition RefusalMarkerScore (text : string) : f64 * string :=
  let lower := to_lower text in
  let matched := filter (fun p => contains lower p = true) refusalMarkerPatterns in
  let hits := len matched in
  if hits =? 0 then (f1, EmptyString)
  else (fmax f0 (fsub f1 (fmul (f64_of_Z hits) (flit 35 100))),
        "matched: " +:+ str_join "; " matched).

Definition nonASCIIRatio (s : string) : f64 :=
  if slen s =? 0 then f0
  else
    let rs := rune_values s in
    let nonASCII := len (filter (fun r => 127 < r) rs) in
    let total := len rs in
    if total =? 0 then f0 else fdiv (f64_of_Z nonASCII) (f64_of_Z total).

Definition languageMismatchScore (prompt response : string) : f64 * string :=
  if (slen prompt <? 20) || (slen response <? 20) then (f1, EmptyString)
  else
    let p := nonASCIIRatio prompt in
    let r := nonASCIIRatio response in
    if flt p (flit 10 100) && flt (flit 50 100) r
    then (f0, "response language differs from prompt"%string)
    else if flt (flit 50 100) p && flt r (flit 10 100)
    then (flit 1 2, "response may be in different language than prompt"%string)
    else (f1, EmptyString).

(** [firstSentence]: up to the first sentence mark that ends a sentence of
    at least 10 bytes. *)
Fixpoint firstSentence_go (rs : list (nat * Z)) (text : string) : string :=
  match rs with
  | [] => text
  | (i, r) :: rs =>
      if (r =? 46) || (r =? 33) || (r =? 63) then
        let s := trim_space (str_take (S i) text) in
        if 10 <=? slen s then s else firstSentence_go rs text
      else firstSentence_go rs text
  end.
Definition firstSentence (text : string) : string := firstSentence_go (runes text) text.

Definition coherenceScore (embed : Embedder) (prompt response : string) : f64 * string :=
  match embed prompt with
  | None => (f1, EmptyString)
  | Some pVec =>
    match embed response with
    | None => (f1, EmptyString)
    | Some rVec =>
      let sim := cosineSimilarity pVec rVec in
      if flt sim (flit 20 100) then (f0, "response semantically unrelated to prompt"%string)
      else
        let '(score, detail) :=
          if flt sim (flit 55 100)
          then (fdiv (fsub sim (flit 20 100)) (flit 35 100), "low semantic relevance to prompt"%string)
          else (f1, EmptyString) in
        let fs := firstSentence response in
        if negb (String.eqb fs EmptyString) && negb (String.eqb fs response) then
          match embed fs with
          | None => (score, detail)
          | Some fVec =>
              let fSim := cosineSimilarity pVec fVec in
              if flt f0 sim && flt fSim (fmul (flit 1 2) sim)
              then (fmul score (flit 85 100),
                    if String.eqb detail EmptyString
                    then "response opens with off-topic content"%string else detail)
              else (score, detail)
          end
        else (score, detail)
    end
  end.
End Signals.

(** ** The length baseline *)

Definition avgLength (e : QualityEvaluator) : option f64 :=
  let end_ := if lenFilled e then lenWindow e else lenIdx e in
  if end_ =? 0 then Some f0
  else
    seen ← slice (lengths e) 0 end_;
    Some (fdiv (f64_of_Z (foldl (fun sum n => wrap64 (sum + n)) 0 seen)) (f64_of_Z end_)).

Definition lengthScore (e : QualityEvaluator) (length : Z) : option (f64 * string) :=
  avg ← avgLength e;
  Some
    (if feq avg f0 || (length =? 0) then (f1, EmptyString)
     else
       let ratio := fdiv (f64_of_Z length) avg in
       if fle (flit 35 100) ratio then (f1, EmptyString)
       else if flt ratio (flit 10 100) then (f0, "response extremely short vs baseline"%string)
       else (fdiv (fsub ratio (flit 10 100)) (flit 25 100), "response shorter than usual"%string)).

Definition recordLength (n : Z) (e : QualityEvaluator) : option QualityEvaluator :=
  '(l, i, f) ← ring_push (lengths e) (lenIdx e) (lenFilled e) (lenWindow e) n;
  Some (mkEvaluator l i f (lenWindow e) (embedder e)).

(** ** Evaluate *)

(** [if s < 1.0 { penalty := (1.0 - s) * weight; append; score -= penalty }]. *)
Definition penalise (name : string) (weight : f64) (sd : f64 * string)
    (acc : list QualitySignal * f64) : list QualitySignal * f64 :=
  if flt sd.1 f1 then
    let penalty := fmul (fsub f1 sd.1) weight in
    (acc.1 ++ [mkSignal name penalty sd.2], fsub acc.2 penalty)
  else acc.

Section Evaluate.
Context `{Unicode}.

Definition Evaluate (e : QualityEvaluator) (prompt response : string)
    : option (QualityResult * QualityEvaluator) :=
  let n := slen response in
  let acc := penalise "repetition" (flit 45 100) (repetitionScore response) ([], f1) in
  ls ← lengthScore e n;
  let ls := if (n <? 10) && (0 <? n)
            then (f0, "response below absolute minimum length"%string) else ls in
  let acc := penalise "length_anomaly" (flit 25 100) ls acc in
  e ← (if 0 <? n then recordLength n e else Some e);
  let acc := penalise "refusal_marker" (flit 40 100) (RefusalMarkerScore response) acc in
  let acc :=
    match embedder e with
    | Some embed =>
        if negb (String.eqb prompt EmptyString)
        then penalise "low_coherence" (flit 20 100) (coherenceScore embed prompt response) acc
        else acc
    | None => acc
    end in
  let acc := penalise "language_mismatch" (flit 30 100) (languageMismatchScore prompt response) acc in
  let score := if flt acc.2 f0 then f0 else acc.2 in
  Some (mkResult score acc.1, e).
End Evaluate.

(** ** Reference definitions

    Weights of the five signals, in the order [Evaluate] applies them, and the
    score a list of signals stands for. *)

Definition signal_weights : list (string * f64) :=
  [("repetition", flit 45 100); ("length_anomaly", flit 25 100); ("refusal_marker", flit 40 100);
   ("low_coherence", flit 20 100); ("language_mismatch", flit 30 100)]%string.

Definition score_of_signals (l : list QualitySignal) : f64 :=
  let s := foldl (fun s g => fsub s (sig_Penalty g)) f1 l in
  if flt s f0 then f0 else s.

(** A signal carries a weighted penalty that does not exceed its weight. *)
Definition within_weight (g : QualitySignal) (w : string * f64) : Prop :=
  sig_Name g = w.1 /\ is_fin (sig_Penalty g) = true /\ (0 <= B2R (sig_Penalty g) <= B2R w.2)%R.

(** The embedder returns well-formed floats (every Go float64 is). *)
Definition embed_valid (embed : Embedder) : Prop :=
  forall t v, embed t = Some v -> Forall (fun x => valid x = true) v.

(** The evaluator's invariant: a well-formed window of recorded lengths. *)
Definition max_text : Z := 2 ^ 40.
Definition eval_ok (e : QualityEvaluator) : Prop :=
  ring_ok (lengths e) (lenIdx e) (lenWindow e) /\ lenWindow e <= 1024 /\
  Forall (fun n => 0 <= n < max_text) (lengths e) /\
  (forall embed, embedder e = Some embed -> embed_valid embed).

(** ** The length baseline is a rolling window *)

Lemma recordLength_total n e :
  ring_ok (lengths e) (lenIdx e) (lenWindow e) ->
  exists e', recordLength n e = Some e' /\ ring_ok (lengths e') (lenIdx e') (lenWindow e') /\
    lenWindow e' = lenWindow e /\ embedder e' = embedder e /\
    ring_push (lengths e) (lenIdx e) (lenFilled e) (lenWindow e) n
      = Some (lengths e', lenIdx e', lenFilled e').
Proof.
  intros Hok. destruct (ring_push_total _ _ (lenFilled e) _ n Hok) as (i & E & _ & Hok').
  unfold recordLength. rewrite E. cbn. eauto 10.
Qed.

#[export] Program Instance lengths_window : Window QualityEvaluator Z Z := {
  win_sample := fun n => n;
  win_ok := fun e => ring_ok (lengths e) (lenIdx e) (lenWindow e);
  win_cap := lenWindow;
  win_contents := fun e => ring_contents (lengths e) (lenIdx e) (lenFilled e);
  win_push := recordLength;
}.
Next Obligation.
  intros n e Hok. destruct (recordLength_total n e Hok) as (e' & E & Hok' & _). eauto.
Qed.
Next Obligation.
  intros n e e' Hok E. destruct (recordLength_total n e Hok) as (? & E' & ? & ? & _). congruence.
Qed.
Next Obligation.
  intros n e e' Hok E. destruct (recordLength_total n e Hok) as (? & E' & _ & _ & _ & Hp).
  replace e' with x by congruence. eapply ring_push_contents; eassumption.
Qed.

Lemma eval_ok_record n e : eval_ok e -> 0 <= n < max_text ->
  exists e', recordLength n e = Some e' /\ eval_ok e' /\ embedder e' = embedder e.
Proof.
  intros (Hr & Hw & Hf & He) Hn.
  destruct (recordLength_total n e Hr) as (e' & E & Hok' & Hw' & Hem & Hp).
  exists e'. split; [exact E|]. split; [|exact Hem]. split; [exact Hok'|].
  rewrite Hw', Hem. split; [lia|]. split; [|exact He].
  eapply ring_Forall; try exact Hp; eauto.
Qed.

(** ** Each signal scores within [0, 1] *)

Lemma sum_wrap_bounds l : forall acc k,
  0 <= acc <= k * max_text -> 0 <= k -> k + len l <= 1024 ->
  Forall (fun n => 0 <= n < max_text) l ->
  0 <= foldl (fun sum n => wrap64 (sum + n)) acc l <= (k + len l) * max_text.
Proof.
  unfold max_text. induction l as [|n l IH]; intros acc k Ha Hk Hl Hf; cbn [foldl].
  - unfold len. cbn. lia.
  - rewrite len_cons in *. apply Forall_cons in Hf as [Hn Hf].
    rewrite wrap64_id by (unfold int64_min, int64_max; pose proof (len_nonneg l); nia).
    replace (k + (len l + 1)) with (k + 1 + len l) by lia. apply IH; auto; lia.
Qed.

Lemma avgLength_spec e : eval_ok e ->
  exists avg, avgLength e = Some avg /\ is_fin avg = true /\
    (B2R avg = 0%R \/ (/ 1024 <= B2R avg)%R).
Proof.
  intros ((Hl & Hi & Hc) & Hw & Hf & _). unfold avgLength.
  set (n := if lenFilled e then lenWindow e else lenIdx e).
  assert (Hn : 0 <= n <= lenWindow e) by (subst n; destruct (lenFilled e); lia).
  destruct (Z.eqb_spec n 0) as [E|E]; [exists f0; split; [done|]; destruct f0_val; auto|].
  unfold slice. rewrite Z.leb_refl, (proj2 (Z.leb_le 0 n)), (proj2 (Z.leb_le n _)) by lia.
  cbn. rewrite Z.sub_0_r, drop_0. set (l := take (Z.to_nat n) (lengths e)).
  assert (Hlen : len l = n) by (unfold len, l in *; rewrite length_take; lia).
  pose proof (sum_wrap_bounds l 0 0 ltac:(lia) ltac:(lia) ltac:(lia) ltac:(now apply Forall_take)) as Hs.
  set (s := foldl (fun sum n => wrap64 (sum + n)) 0 l) in *.
  unfold max_text in Hs.
  destruct (f64_of_Z_exact s) as [Fs Vs]; [lia|]. destruct (f64_of_Z_exact n) as [Fn Vn]; [lia|].
  assert (Hn1 : (1 <= IZR n <= 1024)%R) by (split; apply IZR_le; lia).
  eexists; split; [reflexivity|].
  destruct (Z.eq_dec s 0) as [Hs0|Hs0].
  - assert (Hz : (B2R (f64_of_Z s) / B2R (f64_of_Z n) = 0)%R)
      by (rewrite Vs, Hs0, Vn; field; lra).
    destruct (fdiv_between (f64_of_Z s) (f64_of_Z n) 0 0 Fs Fn representable_0 representable_0)
      as [Hf' Hb]; [rewrite Vn; lra|lra|]. split; [exact Hf'|left; lra].
  - assert (Hs1 : (1 <= IZR s <= IZR (2 ^ 53))%R) by (split; apply IZR_le; lia).
    assert (Hr : representable (/ 1024)).
    { exists 1, (-10). repeat split; [lia..|]. unfold bpow. simpl. lra. }
    destruct (fdiv_between (f64_of_Z s) (f64_of_Z n) (/ 1024) (IZR (2 ^ 53)) Fs Fn Hr) as [Hf' Hb];
      [apply representable_Z; lia|rewrite Vn; lra| |split; [exact Hf'|right; lra]].
    rewrite Vs, Vn. split.
    + apply Rmult_le_reg_r with (IZR n); [lra|]. unfold Rdiv. rewrite Rmult_assoc, Rinv_l by lra. nra.
    + apply Rmult_le_reg_r with (IZR n); [lra|]. unfold Rdiv. rewrite Rmult_assoc, Rinv_l by lra. nra.
Qed.

(** [(x - lo) / w] on the branch [lo <= x <= hi] with [hi - lo <= w]. *)
Lemma linear_decay x lo hi w :
  is_fin x = true -> is_fin lo = true -> is_fin w = true ->
  (B2R lo <= B2R x <= hi)%R -> (hi - B2R lo <= B2R w)%R -> (0 < B2R w)%R ->
  in_unit (fdiv (fsub x lo) w).
Proof.
  intros Fx Flo Fw Hx Hd Hw.
  destruct (fsub_between x lo 0 (B2R w) Fx Flo representable_0 (is_fin_representable w Fw)) as [F B]; [lra|].
  apply fdiv_between; auto using representable_0, representable_1; [lra|].
  split.
  - apply Rmult_le_pos; [lra|]. apply Rlt_le, Rinv_0_lt_compat. lra.
  - apply Rmult_le_reg_r with (B2R w); [lra|]. unfold Rdiv. rewrite Rmult_assoc, Rinv_l by lra. lra.
Qed.

Lemma lengthScore_unit e n : eval_ok e -> 0 <= n < max_text ->
  exists sd, lengthScore e n = Some sd /\ in_unit sd.1.
Proof.
  intros He Hn. destruct (avgLength_spec e He) as (avg & E & Fa & Ha).
  unfold lengthScore. rewrite E. cbn. eexists; split; [reflexivity|].
  destruct f0_val as [F0 V0].
  case_bool; [apply in_unit_1|]. zbool.
  assert (Hpos : (/ 1024 <= B2R avg)%R).
  { destruct Ha as [Ha|]; [|assumption]. exfalso.
    apply B2R_zero in Ha as [s ->]; [|exact Fa]. discriminate. }
  destruct (f64_of_Z_exact n) as [Fn Vn]; [unfold max_text in Hn; lia|].
  assert (Hr : is_fin (fdiv (f64_of_Z n) avg) = true /\ (0 <= B2R (fdiv (f64_of_Z n) avg) <= IZR (2 ^ 50))%R).
  { apply fdiv_between; auto using representable_0; [apply representable_Z; lia|lra|].
    rewrite Vn. assert (0 <= IZR n <= IZR (2 ^ 40))%R by (unfold max_text in Hn; split; apply IZR_le; lia).
    assert (IZR (2 ^ 50) = 1024 * IZR (2 ^ 40))%R by (rewrite <- mult_IZR; reflexivity).
    split; [apply Rmult_le_pos; [lra|]; apply Rlt_le, Rinv_0_lt_compat; lra|].
    apply Rmult_le_reg_r with (B2R avg); [lra|]. unfold Rdiv. rewrite Rmult_assoc, Rinv_l by lra. nra. }
  destruct Hr as [Fr Hr].
  case_bool; [apply in_unit_1|]. case_bool; [apply in_unit_0|]. cbn [fst].
  fval (flit 35 100). fval (flit 10 100). fval (flit 25 100).
  destruct Hval as [F35 V35], Hval0 as [F10 V10], Hval1 as [F25 V25].
  repeat match goal with
  | H : fle _ _ = false |- _ => apply fle_false in H; [|assumption..]
  | H : flt _ _ = false |- _ => apply flt_false in H; [|assumption..]
  end.
  eapply (linear_decay _ _ (B2R (flit 35 100))); auto; rewrite ?V35, ?V10, ?V25 in *; lra.
Qed.

(** ** Repetition: duplicates are the trigrams beyond their first occurrence *)

Definition keys_ok (m : gmap string Z) : Prop := map_Forall (fun _ c => 1 <= c) m.

Lemma duplicates_insert m k c :
  m !! k = None -> duplicates (<[k := c]> m) = (if 1 <? c then c - 1 else 0) + duplicates m.
Proof.
  intros Hk. unfold duplicates. rewrite map_fold_insert_L; [case_bool; lia| |exact Hk].
  intros. repeat case_bool; lia.
Qed.

Lemma count_key_step m k : keys_ok m ->
  keys_ok (count_key m k) /\
  duplicates (count_key m k) + Z.of_nat (size (count_key m k)) = duplicates m + Z.of_nat (size m) + 1 /\
  dom (count_key m k) = {[k]} ∪ dom m.
Proof.
  intros Hm. unfold count_key. destruct (m !! k) as [c|] eqn:E.
  - change (default 0 (Some c)) with c.
    pose proof (Hm k c E) as Hc. cbn in Hc. split; [apply map_Forall_insert_2; [lia|exact Hm]|].
    split; [|apply dom_insert_L].
    assert (Em : <[k := c]> (delete k m) = m) by (rewrite insert_delete_eq; now apply insert_id).
    assert (Hdel : delete k m !! k = None) by apply lookup_delete_eq.
    rewrite <- (insert_delete_eq m k (c + 1)).
    pose proof (duplicates_insert (delete k m) k c Hdel) as H1.
    pose proof (duplicates_insert (delete k m) k (c + 1) Hdel) as H2.
    pose proof (map_size_insert_None k c (delete k m) Hdel) as H3.
    pose proof (map_size_insert_None k (c + 1) (delete k m) Hdel) as H4.
    rewrite Em in H1, H3. rewrite H2, H4, H1, H3.
    rewrite (proj2 (Z.ltb_lt 1 (c + 1))) by lia. case_bool; zbool; lia.
  - change (default 0 None + 1) with 1.
    split; [apply map_Forall_insert_2; [lia|exact Hm]|]. split; [|apply dom_insert_L].
    rewrite duplicates_insert, map_size_insert_None by exact E. cbn. lia.
Qed.

Lemma trigram_counts_spec keys : forall m, keys_ok m ->
  let m' := foldl count_key m keys in
  keys_ok m' /\ duplicates m' + Z.of_nat (size m') = duplicates m + Z.of_nat (size m) + len keys /\
  dom m' = list_to_set keys ∪ dom m.
Proof.
  induction keys as [|k keys IH]; intros m Hm; cbn [foldl].
  - split; [exact Hm|]. split; [unfold len; cbn; lia|]. cbn. now rewrite (left_id_L ∅ (∪)).
  - destruct (count_key_step m k Hm) as (Hm1 & Hd & Hdom).
    destruct (IH _ Hm1) as (Hm' & Hd' & Hdom'). split; [exact Hm'|].
    rewrite len_cons, Hdom', Hdom. split; [lia|]. cbn.
    now rewrite (assoc_L (∪)), (comm_L (∪) (list_to_set keys)).
Qed.

Lemma duplicates_distinct keys :
  duplicates (trigram_counts keys) = len keys - Z.of_nat (size (list_to_set keys : gset string)).
Proof.
  destruct (trigram_counts_spec keys ∅) as (_ & Hd & Hdom); [apply map_Forall_empty|].
  unfold trigram_counts. rewrite <- size_dom, Hdom in Hd.
  rewrite dom_empty_L, (right_id_L ∅ (∪)) in Hd.
  change (duplicates ∅) with 0 in Hd. rewrite map_size_empty in Hd. lia.
Qed.

Lemma duplicates_bounds keys : 0 <= duplicates (trigram_counts keys) <= len keys.
Proof.
  rewrite duplicates_distinct. unfold len.
  assert (size (list_to_set keys : gset string) <= length keys)%nat; [|lia].
  induction keys as [|k keys IH]; cbn [list_to_set length]; [now rewrite size_empty|].
  rewrite size_union_alt, size_singleton.
  assert (size (list_to_set keys ∖ {[k]} : gset string) <= size (list_to_set keys : gset string))%nat
    by (apply subseteq_size, subseteq_difference_l; reflexivity). lia.
Qed.

Lemma trigram_keys_len ws : len (trigram_keys ws) = Z.max 0 (len ws - 2).
Proof.
  induction ws as [|a ws IH]; [done|]. destruct ws as [|b [|c ws]]; [done..|].
  change (trigram_keys (a :: b :: c :: ws))
    with ((a +:+ " " +:+ b +:+ " " +:+ c) :: trigram_keys (b :: c :: ws))%string.
  rewrite !len_cons in *. pose proof (len_nonneg ws). lia.
Qed.

Section Bounds.
Context `{Unicode}.

Lemma tokenize_go_len rs : forall cur, len (tokenize_go rs cur) <= len rs + 1.
Proof.
  induction rs as [|r rs IH]; intros cur; cbn [tokenize_go].
  - case_bool; unfold len; cbn; lia.
  - rewrite len_cons. case_bool; [specialize (IH (cur +:+ encode_rune r)); lia|].
    case_bool; [rewrite len_cons; specialize (IH EmptyString); lia|specialize (IH cur); lia].
Qed.
Lemma runes_from_len fuel : forall off s, (length (runes_from fuel off s) <= fuel)%nat.
Proof.
  induction fuel as [|fuel IH]; intros off s; cbn; [lia|].
  destruct (decode_rune s) as [[r w]|]; cbn; [|lia]. specialize (IH (off + w)%nat (str_drop w s)). lia.
Qed.
Lemma rune_values_len s : len (rune_values s) <= slen s.
Proof. unfold len, slen, rune_values, runes. rewrite length_map. pose proof (runes_from_len (String.length s) 0 s). lia. Qed.
Lemma encode_rune_len r : slen (encode_rune r) <= 4.
Proof.
  assert (H1 : forall z, slen (str1 z) = 1) by reflexivity.
  unfold encode_rune. repeat case_bool; rewrite ?slen_app, ?H1; lia.
Qed.
Lemma string_of_runes_len l : slen (string_of_runes l) <= 4 * len l.
Proof.
  unfold string_of_runes. induction l as [|r [|r' l] IH]; [unfold len, slen; cbn; lia|..].
  - pose proof (encode_rune_len r). cbn. unfold len. cbn [length]. lia.
  - change (slen (encode_rune r +:+ (EmptyString +:+ String.concat EmptyString (map encode_rune (r' :: l))))
              <= 4 * len (r :: r' :: l)).
    rewrite !slen_app, len_cons. pose proof (encode_rune_len r).
    change (slen EmptyString) with 0. lia.
Qed.
Lemma tokenize_len text : len (tokenize text) <= 4 * slen text + 1.
Proof.
  unfold tokenize. etransitivity; [apply tokenize_go_len|].
  pose proof (rune_values_len (to_lower text)) as H1. unfold to_lower in H1 at 2.
  pose proof (string_of_runes_len (map lower_rune (rune_values text))) as H2.
  unfold len in H2 at 1. rewrite length_map in H2. fold (len (rune_values text)) in H2.
  pose proof (rune_values_len text). lia.
Qed.

Lemma repetitionScore_unit text : slen text < max_text -> in_unit (repetitionScore text).1.
Proof.
  intros Ht. unfold repetitionScore. case_bool; [apply in_unit_1|]. zbool.
  pose proof (tokenize_len text) as Hw. unfold max_text in Ht.
  set (ws := tokenize text) in *. set (keys := trigram_keys ws).
  assert (Hk : len keys = len ws - 2) by (unfold keys; rewrite trigram_keys_len; lia).
  pose proof (duplicates_bounds keys) as Hd. set (d := duplicates (trigram_counts keys)) in *.
  destruct (f64_of_Z_exact d) as [Fd Vd]; [lia|].
  destruct (f64_of_Z_exact (len keys)) as [Fk Vk]; [lia|].
  assert (Hkr : (4 <= IZR (len keys))%R) by (apply IZR_le; lia).
  assert (Hdr : (0 <= IZR d <= IZR (len keys))%R) by (split; apply IZR_le; lia).
  assert (Hratio : in_unit (fdiv (f64_of_Z d) (f64_of_Z (len keys)))).
  { apply fdiv_between; auto using representable_0, representable_1; rewrite ?Vd, ?Vk; [lra|].
    split; [apply Rmult_le_pos; [lra|]; apply Rlt_le, Rinv_0_lt_compat; lra|].
    apply Rmult_le_reg_r with (IZR (len keys)); [lra|]. unfold Rdiv. rewrite Rmult_assoc, Rinv_l by lra. lra. }
  destruct Hratio as [Fr Vr]. cbv zeta.
  set (ratio := fdiv (f64_of_Z d) (f64_of_Z (len keys))) in *.
  case_bool; [apply in_unit_1|]. case_bool; [apply in_unit_0|]. cbn [fst].
  fval (flit 15 100). fval (flit 60 100). fval (flit 45 100).
  destruct Hval as [F15 V15], Hval0 as [F60 V60], Hval1 as [F45 V45].
  repeat match goal with H : flt _ _ = false |- _ => apply flt_false in H; [|assumption..] end.
  apply in_unit_compl, (linear_decay _ _ (B2R (flit 60 100))); auto; rewrite ?V15, ?V60, ?V45 in *; lra.
Qed.

Lemma RefusalMarkerScore_unit text : in_unit (RefusalMarkerScore text).1.
Proof.
  unfold RefusalMarkerScore. set (l := filter _ _).
  assert (Hl : len l <= 9) by (unfold len, l; pose proof (length_filter
     (fun p => contains (to_lower text) p = true) refusalMarkerPatterns); cbn in *; lia).
  case_bool; [apply in_unit_1|]. cbn [fst]. pose proof (len_nonneg l).
  destruct (f64_of_Z_exact (len l)) as [Fl Vl]; [lia|].
  assert (Hlr : (0 <= IZR (len l) <= 9)%R) by (split; apply IZR_le; lia).
  fval (flit 35 100). destruct Hval as [F35 V35]. destruct f1_val as [F1 V1], f0_val as [F0 V0].
  destruct (fmul_between (f64_of_Z (len l)) (flit 35 100) 0 9 Fl F35 representable_0) as [Fm Vm];
    [apply (representable_Z 9); lia|rewrite Vl, V35; nra|].
  destruct (fsub_between f1 (fmul (f64_of_Z (len l)) (flit 35 100)) (-8) 1 F1 Fm) as [Fs Vs];
    [apply (representable_Z (-8)); lia|apply representable_1|lra|].
  destruct (fmax_spec f0 _ F0 Fs) as [Fx Vx]. split; [exact Fx|]. rewrite Vx, V0.
  unfold Rmax. destruct (Rle_dec _ _); lra.
Qed.

Lemma languageMismatchScore_unit p r : in_unit (languageMismatchScore p r).1.
Proof.
  assert (in_unit (flit 1 2)) by (fval (flit 1 2); destruct Hval as [F V]; split; [exact F|rewrite V; lra]).
  unfold languageMismatchScore. repeat case_bool; auto using in_unit_0, in_unit_1.
Qed.

Lemma cosine_sums_valid a b :
  Forall (fun x => valid x = true) a -> Forall (fun x => valid x = true) b ->
  valid (cosine_sums a b).1.1 = true /\ valid (cosine_sums a b).1.2 = true /\
  valid (cosine_sums a b).2 = true.
Proof.
  unfold cosine_sums.
  assert (H0 : valid (f0, f0, f0).1.1 = true /\ valid (f0, f0, f0).1.2 = true /\ valid (f0, f0, f0).2 = true)
    by auto.
  revert H0. generalize (f0, f0, f0). revert b.
  induction a as [|x a IH]; intros [|y b] [[d na] nb] (H1 & H2 & H3) Ha Hb; cbn [zip_with foldl]; auto.
  apply Forall_cons in Ha as [Hx Ha]. apply Forall_cons in Hb as [Hy Hb].
  apply IH; auto. cbn in *. auto 10 using valid_fadd, valid_fmul.
Qed.

Lemma cosineSimilarity_valid a b :
  Forall (fun x => valid x = true) a -> Forall (fun x => valid x = true) b ->
  valid (cosineSimilarity a b) = true.
Proof.
  intros Ha Hb. destruct (cosine_sums_valid a b Ha Hb) as (H1 & H2 & H3).
  unfold cosineSimilarity. case_bool; [reflexivity|].
  destruct (cosine_sums a b) as [[d na] nb]. cbn in *. case_bool; [reflexivity|].
  auto using valid_fdiv, valid_fmul, valid_fsqrt.
Qed.

Lemma coherenceScore_unit embed p r : embed_valid embed -> in_unit (coherenceScore embed p r).1.
Proof.
  intros He. unfold coherenceScore.
  destruct (embed p) as [pv|] eqn:Ep; [|apply in_unit_1].
  destruct (embed r) as [rv|] eqn:Er; [|apply in_unit_1].
  pose proof (cosineSimilarity_valid pv rv (He _ _ Ep) (He _ _ Er)) as Hv.
  set (sim := cosineSimilarity pv rv) in *.
  fval (flit 20 100). fval (flit 55 100). fval (flit 35 100). fval (flit 85 100).
  destruct Hval as [F20 V20], Hval0 as [F55 V55], Hval1 as [F35 V35], Hval2 as [F85 V85].
  case_bool; [apply in_unit_0|]. rename Heqb into H20.
  set (sd := if flt sim (flit 55 100) then _ else _).
  assert (Hsd : in_unit sd.1).
  { unfold sd. destruct (flt sim (flit 55 100)) eqn:H55; [|apply in_unit_1]. cbn [fst].
    destruct (flt_true_inv sim (flit 55 100) Hv F55 H55) as [[Fs Hs]|E].
    2:{ rewrite E in H20. discriminate. }
    apply flt_false in H20; [|assumption..].
    (* the largest float below 0.55 *)
    assert (E55 : flit 55 100 = S754_finite false (Pos.succ 4953959590107545) (-53)) by (vm_compute; reflexivity).
    rewrite E55 in Hs. pose proof Hs as Hp.
    apply (below_pred sim false 4953959590107545 (-53)) in Hp; [|assumption|vm_compute; reflexivity|reflexivity|lia].
    rewrite B2R_frac in Hp. cbn [cond_Zopp] in Hp. change (2 ^ 53) with 9007199254740992 in Hp.
    eapply (linear_decay sim (flit 20 100) (4953959590107545 / 9007199254740992)); auto;
      rewrite ?V20, ?V35 in *; lra. }
  clearbody sd. destruct sd as [score detail]. cbn [fst] in Hsd.
  case_bool; [|exact Hsd]. destruct (embed (firstSentence r)); [|exact Hsd].
  cbv zeta. case_bool; [|exact Hsd]. apply in_unit_mul; [exact Hsd|].
  split; [exact F85|rewrite V85; lra].
Qed.
End Bounds.

(** ** The accumulated penalties *)

(** Every signal of [acc] explains its share: the running score is one minus
    the recorded penalties, in the order and within the weights [ws]. *)
Definition acc_ok (ws : list (string * f64)) (acc : list QualitySignal * f64) : Prop :=
  is_fin acc.2 = true /\ (IZR (- len ws) <= B2R acc.2 <= 1)%R /\
  acc.2 = foldl (fun s g => fsub s (sig_Penalty g)) f1 acc.1 /\
  exists ws', sublist ws' ws /\ Forall2 within_weight acc.1 ws'.

Lemma acc_ok_nil : acc_ok [] ([], f1).
Proof.
  destruct f1_val as [F V]. split; [exact F|]. cbn [fst snd]. rewrite V.
  split; [change (IZR (- len _)) with 0%R; lra|]. split; [done|].
  exists []. auto.
Qed.

Lemma acc_ok_skip ws w acc : acc_ok ws acc -> acc_ok (ws ++ [w]) acc.
Proof.
  intros (F & B & E & ws' & Hs & Hf). split; [exact F|]. split.
  - rewrite len_app. change (len [w]) with 1. replace (- (len ws + 1)) with (- len ws - 1) by lia.
    rewrite minus_IZR. lra.
  - split; [exact E|]. exists ws'. split; [|exact Hf]. now apply sublist_inserts_r.
Qed.

Lemma penalty_bounds w s : in_unit s -> in_unit w ->
  let p := fmul (fsub f1 s) w in is_fin p = true /\ (0 <= B2R p <= B2R w)%R.
Proof.
  intros Hs [Fw Hw]. destruct (in_unit_compl s Hs) as [Fc Hc].
  apply fmul_between; auto using representable_0, is_fin_representable. nra.
Qed.

Lemma penalise_ok ws name w sd acc :
  in_unit w -> in_unit sd.1 -> len ws < 100 -> acc_ok ws acc ->
  acc_ok (ws ++ [(name, w)]) (penalise name w sd acc) /\
  (B2R (penalise name w sd acc).2 <= B2R acc.2)%R.
Proof.
  intros Hw Hs Hk Hacc. unfold penalise. case_bool; [|split; [now apply acc_ok_skip|lra]].
  destruct (penalty_bounds w sd.1 Hs Hw) as [Fp Hp].
  destruct Hacc as (F & B & E & ws' & Hsub & Hf). cbn [fst snd].
  destruct (fsub_penalty acc.2 (fmul (fsub f1 sd.1) w) (len ws)) as [F' B'];
    [pose proof (len_nonneg ws); lia|exact F|exact B| |].
  { split; [exact Fp|]. destruct Hw. lra. }
  split; [|apply B']. split; [exact F'|]. rewrite len_app. change (len [(name, w)]) with 1.
  split; [cbn [snd]; lra|]. cbn [fst snd].
  split; [now rewrite foldl_app, <- E|].
  exists (ws' ++ [(name, w)]). split; [now apply sublist_app|].
  apply Forall2_app; [exact Hf|]. constructor; [|constructor].
  split; [done|split; [exact Fp|exact Hp]].
Qed.

Lemma weights_unit : Forall (fun w => in_unit w.2) signal_weights.
Proof.
  unfold signal_weights, in_unit. fval (flit 45 100). fval (flit 25 100). fval (flit 40 100).
  fval (flit 20 100). fval (flit 30 100).
  repeat (constructor; [cbn [snd]; intuition lra|]). constructor.
Qed.

Section EvaluateFacts.
Context `{Unicode}.

(** The coherence step runs only with an embedder and a prompt. *)
Definition coherence_step (coh : option (f64 * string)) (acc : list QualitySignal * f64) :=
  match coh with Some sd => penalise "low_coherence" (flit 20 100) sd acc | None => acc end.

Definition evaluate_acc (prompt response : string) (ls : f64 * string) (coh : option (f64 * string)) :=
  penalise "language_mismatch" (flit 30 100) (languageMismatchScore prompt response)
    (coherence_step coh
      (penalise "refusal_marker" (flit 40 100) (RefusalMarkerScore response)
        (penalise "length_anomaly" (flit 25 100) ls
          (penalise "repetition" (flit 45 100) (repetitionScore response) ([], f1))))).

Definition clip0 (s : f64) : f64 := if flt s f0 then f0 else s.

(** [Evaluate] never panics and is the chain of the five penalties. *)
Lemma Evaluate_chain e prompt response :
  eval_ok e -> slen response < max_text ->
  exists ls coh e',
    Evaluate e prompt response =
      Some (mkResult (clip0 (evaluate_acc prompt response ls coh).2)
              (evaluate_acc prompt response ls coh).1, e') /\
    in_unit ls.1 /\ (forall sd, coh = Some sd -> in_unit sd.1) /\
    eval_ok e' /\ embedder e' = embedder e /\
    (if 0 <? slen response then recordLength (slen response) e = Some e' else e' = e).
Proof.
  intros He Hr. pose proof (slen_nonneg response) as Hn.
  destruct (lengthScore_unit e (slen response) He) as (ls & El & Hl); [lia|].
  set (ls' := if (slen response <? 10) && (0 <? slen response)
              then (f0, "response below absolute minimum length"%string) else ls).
  assert (Hl' : in_unit ls'.1) by (unfold ls'; case_bool; [apply in_unit_0|exact Hl]).
  destruct (eval_ok_record (slen response) e He) as (e1 & E1 & He1 & Hem1); [lia|].
  set (e2 := if 0 <? slen response then e1 else e).
  assert (E2 : (if 0 <? slen response then recordLength (slen response) e else Some e) = Some e2)
    by (unfold e2; case_bool; auto).
  assert (Hem : embedder e2 = embedder e) by (unfold e2; case_bool; auto).
  exists ls', (match embedder e with
     | Some embed => if negb (String.eqb prompt EmptyString) then Some (coherenceScore embed prompt response) else None
     | None => None end), e2.
  split; [|split; [exact Hl'|split; [|split; [|split; [exact Hem|]]]]].
  - unfold Evaluate. rewrite El. cbn [mbind option_bind]. fold ls'. rewrite E2. cbn [mbind option_bind].
    rewrite Hem. unfold evaluate_acc, coherence_step, clip0.
    destruct (embedder e); [destruct (negb (prompt =? "")%string)|]; reflexivity.
  - intros sd. destruct (embedder e) as [em|] eqn:Em; [|done]. case_bool; [|done]. intros [= <-].
    apply coherenceScore_unit. now apply He.
  - unfold e2. case_bool; auto.
  - unfold e2. case_bool; auto.
Qed.

Lemma evaluate_acc_ok prompt response ls coh :
  slen response < max_text -> in_unit ls.1 -> (forall sd, coh = Some sd -> in_unit sd.1) ->
  acc_ok signal_weights (evaluate_acc prompt response ls coh).
Proof.
  intros Hr Hl Hc. pose proof weights_unit as Hw. unfold signal_weights in Hw.
  rewrite !Forall_cons in Hw. cbn [snd] in Hw. destruct Hw as (W1 & W2 & W3 & W4 & W5 & _).
  assert (S1 := repetitionScore_unit response Hr). assert (S3 := RefusalMarkerScore_unit response).
  assert (S5 := languageMismatchScore_unit prompt response).
  change signal_weights with ((((([] ++ [("repetition"%string, flit 45 100)])
    ++ [("length_anomaly"%string, flit 25 100)]) ++ [("refusal_marker"%string, flit 40 100)])
    ++ [("low_coherence"%string, flit 20 100)]) ++ [("language_mismatch"%string, flit 30 100)]).
  unfold evaluate_acc.
  apply penalise_ok; [exact W5|exact S5|reflexivity|].
  unfold coherence_step. destruct coh as [sd|]; [apply penalise_ok; auto; [reflexivity|]|apply acc_ok_skip].
  all: apply penalise_ok; [exact W3|exact S3|reflexivity|].
  all: apply penalise_ok; [exact W2|exact Hl|reflexivity|].
  all: apply penalise_ok; [exact W1|exact S1|reflexivity|apply acc_ok_nil].
Qed.

Lemma clip0_unit s : is_fin s = true -> (B2R s <= 1)%R -> in_unit (clip0 s).
Proof.
  intros F B. unfold clip0. case_bool; [apply in_unit_0|].
  destruct f0_val as [F0 V0]. apply flt_false in Heqb; [|assumption..]. split; [exact F|lra].
Qed.
End EvaluateFacts.

(** ** Reference for the repetition signal *)

(** The share of repeated trigrams, from the set of distinct ones. *)
Definition repetition_ratio (words : list string) : f64 :=
  let keys := trigram_keys words in
  fdiv (f64_of_Z (len words - 2 - Z.of_nat (size (list_to_set keys : gset string))))
       (f64_of_Z (len words - 2)).

Definition repetition_ref `{Unicode} (text : string) : f64 :=
  let words := tokenize text in
  if len words <? 6 then f1
  else
    let ratio := repetition_ratio words in
    if flt ratio (flit 15 100) then f1
    else if flt (flit 60 100) ratio then f0
    else fsub f1 (fdiv (fsub ratio (flit 15 100)) (flit 45 100)).

(** Evaluate a sequence of prompt and response pairs. *)
Fixpoint evaluate_all `{Unicode} (e : QualityEvaluator) (l : list (string * string)) : option QualityEvaluator :=
  match l with
  | [] => Some e
  | (p, r) :: l => '(_, e) ← Evaluate e p r; evaluate_all e l
  end.

Lemma NewEvaluator_ok em :
  (forall f, em = Some f -> embed_valid f) -> eval_ok (NewEvaluator em).
Proof.
  intros He. split; [split; [reflexivity|cbn; unfold int64_max; lia]|]. split; [cbn; lia|].
  split; [|exact He]. cbn. repeat constructor; unfold max_text; lia.
Qed.

Lemma prefix_app_iff p s : String.prefix p s = true <-> exists b, s = p +:+ b.
Proof.
  revert s. induction p as [|c p IH]; intros s.
  - split; [intros _; now exists s|]. now destruct s.
  - destruct s as [|d s]; [split; [done|intros [b Hb]; discriminate]|].
    cbn [String.prefix]. destruct (ascii_dec c d) as [->|Hne].
    + change (String.prefix p s = true <-> exists b, String d s = String d p +:+ b).
      rewrite IH. split; intros [b Hb]; exists b.
      * now rewrite Hb.
      * change (String d s = String d (p +:+ b)) in Hb. now injection Hb.
    + split; [discriminate|]. intros [b Hb]. change (String d s = String c (p +:+ b)) in Hb. congruence.
Qed.

Lemma contains_iff s sub : contains s sub = true <-> exists a b, s = a +:+ sub +:+ b.
Proof.
  induction s as [|c s IH]; cbn [contains]; rewrite orb_true_iff, prefix_app_iff.
  - split.
    + intros [[b Hb]|]; [exists EmptyString, b; exact Hb|done].
    + intros (a & b & Hab). left. destruct a; [exists b; exact Hab|discriminate].
  - rewrite IH. split.
    + intros [[b Hb]|(a & b & Hb)]; [exists EmptyString, b; exact Hb|].
      exists (String c a), b. now rewrite Hb.
    + intros (a & b & Hab). destruct a as [|d a]; [left; exists b; exact Hab|right].
      change (String c s = String d (a +:+ sub +:+ b)) in Hab. injection Hab as -> ->. eauto.
Qed.

(** ** Properties of the evaluator *)

(** C1.  The score accounts for its signals: [Evaluate] never panics, leaves a
    well-formed evaluator, and returns a score between 0 and 1 that is exactly
    one minus the reported penalties (clipped at 0); the signals come in the
    fixed order, each at most once and within its weight; so a response under
    [QualityAcceptable] always carries a signal that says why. *)
Theorem Evaluate_accounting `{Unicode} e prompt response :
  eval_ok e -> slen response < max_text ->
  exists r e', Evaluate e prompt response = Some (r, e') /\ eval_ok e' /\
    in_unit (res_Score r) /\
    res_Score r = score_of_signals (res_Signals r) /\
    (exists ws, sublist ws signal_weights /\ Forall2 within_weight (res_Signals r) ws) /\
    (flt (res_Score r) QualityAcceptable = true -> res_Signals r <> []).
Proof.
  intros He Hr. destruct (Evaluate_chain e prompt response He Hr) as (ls & coh & e' & E & Hl & Hc & He' & _).
  destruct (evaluate_acc_ok prompt response ls coh Hr Hl Hc) as (F & B & Es & Hws).
  eexists _, e'. split; [exact E|]. split; [exact He'|]. cbn [res_Score res_Signals].
  split; [apply clip0_unit; [exact F|apply B]|].
  assert (Hsc : clip0 (evaluate_acc prompt response ls coh).2
                = score_of_signals (evaluate_acc prompt response ls coh).1)
    by (unfold clip0, score_of_signals; now rewrite <- Es).
  split; [exact Hsc|]. split; [exact Hws|]. rewrite Hsc. intros Hlow Hnil. rewrite Hnil in Hlow.
  vm_compute in Hlow. discriminate.
Qed.

Lemma Evaluate_accounting_witness :
  eval_ok (NewEvaluator None) /\
  exists r e', Evaluate (NewEvaluator None) "hello" "ok" = Some (r, e') /\ eval_ok e' /\
    in_unit (res_Score r) /\
    res_Score r = score_of_signals (res_Signals r) /\
    (exists ws, sublist ws signal_weights /\ Forall2 within_weight (res_Signals r) ws) /\
    (flt (res_Score r) QualityAcceptable = true -> res_Signals r <> []).
Proof.
  assert (He : eval_ok (NewEvaluator None)) by (apply NewEvaluator_ok; discriminate).
  split; [exact He|]. apply (Evaluate_accounting (NewEvaluator None) "hello" "ok"); [exact He|reflexivity].
Defined.

(** The length baseline is the last [lenWindow] non-empty responses: a
    run of any sequence of evaluations ends in the window of their lengths. *)
Theorem evaluate_all_baseline `{Unicode} e l :
  eval_ok e -> Forall (fun pr => slen pr.2 < max_text) l ->
  len (win_contents e) <= win_cap e ->
  exists e', evaluate_all e l = Some e' /\ eval_ok e' /\
    win_contents e' =
      lastn (Z.to_nat (win_cap e)) (win_contents e ++ filter (fun n => 0 < n) (map (fun pr => slen pr.2) l)).
Proof.
  intros He Hl. revert e He. induction Hl as [|[p r] l Hr Hl IH]; intros e He Hcap.
  - exists e. cbn [map]. rewrite filter_nil, app_nil_r, lastn_all; [done|].
    unfold len in Hcap. lia.
  - destruct (Evaluate_chain e p r He Hr) as (ls & coh & e1 & E & _ & _ & He1 & _ & Hrec).
    cbn [evaluate_all map snd]. rewrite E. cbn [mbind option_bind fst snd] in *.
    case_bool.
    + zbool. rewrite filter_cons_True by lia.
      assert (Hok : win_ok e) by apply He.
      pose proof (win_push_cap (slen r) e e1 Hok Hrec) as Hc1.
      pose proof (win_push_contents (slen r) e e1 Hok Hrec) as Ht1.
      destruct (IH e1 He1) as (e' & -> & He' & Hct).
      { rewrite Ht1, Hc1. pose proof (len_nonneg (win_contents e)).
        unfold len in *. rewrite length_lastn. lia. }
      exists e'. split; [done|]. split; [done|].
      rewrite Hct, Hc1, Ht1, lastn_lastn_app, <- app_assoc. done.
    + subst e1. zbool. rewrite filter_cons_False by lia. now apply IH.
Qed.

Lemma evaluate_all_baseline_witness :
  exists e', evaluate_all (NewEvaluator None) [("q", "first answer"); ("q", ""); ("q", "second")]%string = Some e' /\
    eval_ok e' /\ win_contents e' = [12; 6].
Proof.
  destruct (evaluate_all_baseline (NewEvaluator None)
    [("q", "first answer"); ("q", ""); ("q", "second")]%string) as (e' & E & He & Hc).
  - apply NewEvaluator_ok. discriminate.
  - repeat constructor.
  - vm_compute. discriminate.
  - exists e'. split; [exact E|]. split; [exact He|]. rewrite Hc. reflexivity.
Defined.

(** C3.  The repetition signal scores the share of trigrams that repeat an
    earlier one: counting occurrences in a map and summing the counts beyond
    the first gives the same score as removing the distinct trigrams. *)
Theorem repetitionScore_ref `{Unicode} text : (repetitionScore text).1 = repetition_ref text.
Proof.
  unfold repetitionScore, repetition_ref, repetition_ratio.
  case_bool; [done|]. zbool. cbv zeta. rewrite duplicates_distinct, trigram_keys_len.
  rewrite Z.max_r by lia. repeat case_bool; done.
Qed.

(** A response is free of refusal markers exactly when no pattern occurs
    in its lower-cased text; only then is the refusal score 1. *)
Theorem RefusalMarkerScore_clean `{Unicode} text :
  (RefusalMarkerScore text).1 = f1 <->
  ~ exists p a b, p ∈ refusalMarkerPatterns /\ to_lower text = a +:+ p +:+ b.
Proof.
  unfold RefusalMarkerScore. set (l := filter _ _).
  assert (Hl : forall p, p ∈ l <-> p ∈ refusalMarkerPatterns /\ exists a b, to_lower text = a +:+ p +:+ b).
  { intros p. unfold l. rewrite list_elem_of_filter, contains_iff. tauto. }
  assert (Hlen : 0 <= len l <= 9).
  { split; [apply len_nonneg|]. unfold len, l. pose proof (length_filter
      (fun p => contains (to_lower text) p = true) refusalMarkerPatterns). cbn in *. lia. }
  case_bool; zbool; cbn [fst].
  - apply len_zero_nil in Heqb. rewrite Heqb in Hl. split; [|done]. intros _ (p & a & b & Hp & Ht).
    eapply not_elem_of_nil, Hl. eauto.
  - split.
    + assert (Hcase : len l = 1 \/ len l = 2 \/ len l = 3 \/ len l = 4 \/ len l = 5 \/
        len l = 6 \/ len l = 7 \/ len l = 8 \/ len l = 9) by lia.
      intros E. exfalso. repeat (destruct Hcase as [Hk|Hcase]; [rewrite Hk in E; vm_compute in E; discriminate|]).
      rewrite Hcase in E. vm_compute in E. discriminate.
    + intros Hno. exfalso. destruct l as [|p l'] eqn:El; [now apply Heqb|].
      apply Hno. destruct (proj1 (Hl p)) as (Hp & a & b & Hab); [constructor|]. eauto 6.
Qed.
