(* ===== verification/EvalConc.v ===== *)
(** * Concurrent evaluations (quality/evaluator.go)

    One evaluator is shared by all requests.  [Evaluate] holds its mutex twice,
    while the baseline is read and while the length is recorded, and nothing
    in between: here each of these is a step, the rest (the pure signals and
    the embedding calls) goes with the second one, and a schedule says which
    call moves next.  [recorded] is a ghost: the lengths in the order they went
    into the window. *)
From S2P Require Import Prelude RingBuffer Float64 GoStrings Evaluator.
From Stdlib Require Import ZArith Lia String Ascii.
From stdpp Require Import base tactics list.
#[local] Open Scope Z_scope.

Section Conc.
Context `{Unicode}.

(** The two halves of [Evaluate]. *)
Definition length_signal (e : QualityEvaluator) (n : Z) : option (f64 * string) :=
  ls ← lengthScore e n;
  Some (if (n <? 10) && (0 <? n) then (f0, "response below absolute minimum length"%string) else ls).
Definition record_length (n : Z) (e : QualityEvaluator) : option QualityEvaluator := if 0 <? n then recordLength n e else Some e.
Definition score_with (em : option Embedder) (prompt response : string) (ls : f64 * string) : QualityResult :=
  let acc := penalise "repetition" (flit 45 100) (repetitionScore response) ([], f1) in
  let acc := penalise "length_anomaly" (flit 25 100) ls acc in
  let acc := penalise "refusal_marker" (flit 40 100) (RefusalMarkerScore response) acc in
  let acc :=
    match em with
    | Some embed =>
        if negb (String.eqb prompt EmptyString)
        then penalise "low_coherence" (flit 20 100) (coherenceScore embed prompt response) acc
        else acc
    | None => acc
    end in
  let acc := penalise "language_mismatch" (flit 30 100) (languageMismatchScore prompt response) acc in
  mkResult (if flt acc.2 f0 then f0 else acc.2) acc.1.

Inductive EvalThread :=
| Starting (prompt response : string)
| Judged (prompt response : string) (ls : f64 * string)   (** the baseline is read *)
| Evaluated (prompt response : string) (qr : QualityResult).
Record Evals := mkEvals { shared : QualityEvaluator; evals : list EvalThread; recorded : list Z }.

(** The next step of a call: the call after it, the evaluator, what was
    recorded; [None] is a panic. *)
Definition advance (th : EvalThread) (e : QualityEvaluator) : option (EvalThread * QualityEvaluator * list Z) :=
  match th with
  | Starting prompt response => ls ← length_signal e (slen response); Some (Judged prompt response ls, e, [])
  | Judged prompt response ls =>
      let n := slen response in
      e' ← record_length n e;
      Some (Evaluated prompt response (score_with (embedder e) prompt response ls), e', if 0 <? n then [n] else [])
  | Evaluated _ _ _ => Some (th, e, [])
  end.
Definition eval_step (i : nat) (c : Evals) : option Evals :=
  match evals c !! i with
  | None => Some c
  | Some th => '(th, e, ns) ← advance th (shared c); Some (mkEvals e (<[i := th]> (evals c)) (recorded c ++ ns))
  end.
Fixpoint eval_run (schedule : list nat) (c : Evals) : option Evals :=
  match schedule with [] => Some c | i :: schedule => c ← eval_step i c; eval_run schedule c end.
Definition eval_init (e : QualityEvaluator) (jobs : list (string * string)) : Evals :=
  mkEvals e (map (fun j => Starting j.1 j.2) jobs) [].

(** The window after some lengths. *)
Fixpoint record_all (l : list Z) (e : QualityEvaluator) : option QualityEvaluator :=
  match l with [] => Some e | n :: l => e ← recordLength n e; record_all l e end.

(** Run without another call in between, the halves are [Evaluate]. *)
Lemma Evaluate_halves e prompt response :
  Evaluate e prompt response =
    (ls ← length_signal e (slen response); e' ← record_length (slen response) e;
     Some (score_with (embedder e) prompt response ls, e')).
Proof.
  unfold Evaluate, length_signal, record_length. destruct (lengthScore e (slen response)) as [ls|]; [|done]. cbn [mbind option_bind].
  destruct (0 <? slen response); cbn [mbind option_bind]; [|done].
  unfold recordLength. destruct (ring_push _ _ _ _ _) as [[[l i] f]|]; done.
Qed.

Lemma record_all_app l1 l2 : forall e, record_all (l1 ++ l2) e = (e ← record_all l1 e; record_all l2 e).
Proof. induction l1 as [|n l1 IH]; intros e; [done|]. cbn. destruct (recordLength n e); [apply IH|done]. Qed.
Lemma record_all_embedder l : forall e e', record_all l e = Some e' -> embedder e' = embedder e.
Proof.
  induction l as [|n l IH]; intros e e' E; cbn in E; [now injection E as <-|].
  unfold recordLength in E. destruct (ring_push _ _ _ _ _) as [[[x i] f]|]; [|discriminate]. now apply IH in E.
Qed.
Lemma length_signal_total e n : eval_ok e -> 0 <= n < max_text -> is_Some (length_signal e n).
Proof. intros He Hn. unfold length_signal. destruct (lengthScore_unit e n He Hn) as (sd & -> & _). eauto. Qed.

Definition job_of (th : EvalThread) : string * string :=
  match th with Starting p r | Judged p r _ | Evaluated p r _ => (p, r) end.
Definition phase (th : EvalThread) : nat := match th with Starting _ _ => 0 | Judged _ _ _ => 1 | Evaluated _ _ _ => 2 end.
(** The lengths recorded by the calls that have ended. *)
Definition ended_length (th : EvalThread) : option Z :=
  match th with Evaluated _ r _ => if 0 <? slen r then Some (slen r) else None | _ => None end.
(** What a call has learnt, from a baseline the window went through. *)
Definition baseline (e : QualityEvaluator) (l : list Z) (e0 : QualityEvaluator) : Prop :=
  exists k, record_all (take k l) e = Some e0 /\ eval_ok e0.
Definition thread_ok (e : QualityEvaluator) (l : list Z) (th : EvalThread) : Prop :=
  match th with
  | Starting _ _ => True
  | Judged _ r ls => exists e0, baseline e l e0 /\ length_signal e0 (slen r) = Some ls
  | Evaluated p r qr => exists e0, baseline e l e0 /\ option_map fst (Evaluate e0 p r) = Some qr
  end.
Definition conc_ok (e : QualityEvaluator) (c : Evals) : Prop :=
  eval_ok (shared c) /\ record_all (recorded c) e = Some (shared c) /\ Forall (thread_ok e (recorded c)) (evals c) /\
  recorded c ≡ₚ omap ended_length (evals c) /\ Forall (fun th => slen (job_of th).2 < max_text) (evals c).

Lemma baseline_more e l l' e0 : baseline e l e0 -> baseline e (l ++ l') e0.
Proof.
  intros (k & E & Hok). exists (Nat.min k (length l)). split; [|exact Hok]. rewrite take_app_le by lia.
  destruct (Nat.min_spec k (length l)) as [[_ ->]|[Hl ->]]; [exact E|]. rewrite firstn_all. now rewrite firstn_all2 in E by exact Hl.
Qed.
Lemma thread_more e l l' th : thread_ok e l th -> thread_ok e (l ++ l') th.
Proof.
  destruct th as [p r|p r ls|p r qr]; [done|intros (e0 & Hb & E)..]; exists e0; (split; [now apply baseline_more|exact E]).
Qed.
Lemma baseline_now e c : conc_ok e c -> baseline e (recorded c) (shared c).
Proof. intros (Hok & Hr & _). exists (length (recorded c)). rewrite firstn_all. auto. Qed.
Lemma omap_update {A B} (f : A -> option B) l i x y : l !! i = Some x -> f x = None ->
  omap f (<[i := y]> l) ≡ₚ omap f l ++ option_list (f y).
Proof.
  intros Hi Hx. rewrite <- (take_drop_middle l i x Hi) at 2. rewrite insert_take_drop by now apply lookup_lt_Some in Hi.
  rewrite !omap_app. cbn. rewrite Hx. destruct (f y) as [b|]; cbn; [|now rewrite app_nil_r].
  symmetry. rewrite <- app_assoc. apply Permutation_app_head. now rewrite Permutation_app_comm.
Qed.

Lemma eval_step_ok e i c : conc_ok e c -> exists c', eval_step i c = Some c' /\ conc_ok e c' /\
  map job_of (evals c') = map job_of (evals c) /\
  forall j th, evals c !! j = Some th -> exists th', evals c' !! j = Some th' /\
    phase th' = if decide (i = j) then Nat.min 2 (S (phase th)) else phase th.
Proof.
  intros Hc. unfold eval_step. destruct (evals c !! i) as [th|] eqn:Ei.
  2:{ exists c. split; [done|]. split; [exact Hc|]. split; [done|]. intros j th Hj. exists th. split; [exact Hj|]. rewrite decide_False; [done|congruence]. }
  pose proof Hc as (Hok & Hr & Ht & Hp & Hs). pose proof (baseline_now e c Hc) as Hnow.
  assert (Hlen : 0 <= slen (job_of th).2 < max_text) by (rewrite Forall_lookup in Hs; split; [unfold slen; lia|exact (Hs i th Ei)]).
  assert (Hi : (i < length (evals c))%nat) by now apply lookup_lt_Some in Ei.
  (** It is enough to say how this call moves. *)
  cut (exists th' e' ns, advance th (shared c) = Some (th', e', ns) /\ eval_ok e' /\ record_all (recorded c ++ ns) e = Some e' /\
    thread_ok e (recorded c ++ ns) th' /\ recorded c ++ ns ≡ₚ omap ended_length (<[i := th']> (evals c)) /\
    job_of th' = job_of th /\ phase th' = Nat.min 2 (S (phase th))).
  { intros (th' & e' & ns & -> & He' & Hr' & Hth & Hp' & Hj & Hph). cbn [mbind option_bind]. eexists. split; [reflexivity|]. cbn [evals shared recorded].
    split; [|split].
    - split; [exact He'|]. split; [exact Hr'|]. split; [|split; [exact Hp'|]].
      + apply Forall_insert; [|exact Hth]. eapply Forall_impl; [exact Ht|]. intros. now apply thread_more.
      + apply Forall_insert; [exact Hs|]. rewrite Hj. apply Hlen.
    - rewrite list_fmap_insert, Hj. apply list_insert_id. rewrite list_lookup_fmap, Ei. reflexivity.
    - intros j th0 Hj0. case_decide as Hij.
      + subst j. exists th'. rewrite list_lookup_insert_eq by exact Hi. split; [done|]. rewrite Ei in Hj0. now injection Hj0 as <-.
      + exists th0. rewrite list_lookup_insert_ne by exact Hij. auto. }
  destruct th as [p r|p r ls|p r qr]; cbn [job_of snd advance phase] in *.
  - destruct (length_signal_total (shared c) (slen r) Hok Hlen) as [ls Els]. rewrite Els. cbn [mbind option_bind].
    eexists _, _, []. split; [reflexivity|]. rewrite app_nil_r. do 2 (split; [assumption|]). split; [now exists (shared c)|].
    split; [|done]. rewrite (omap_update _ _ _ _ _ Ei) by done. cbn. now rewrite app_nil_r.
  - destruct (Forall_lookup_1 _ _ _ _ Ht Ei) as (e0 & Hb & Els). pose proof Hb as (k & Ek & Hok0).
    assert (Hrec : exists e', record_length (slen r) (shared c) = Some e' /\ eval_ok e' /\
      record_all (if 0 <? slen r then [slen r] else []) (shared c) = Some e').
    { unfold record_length. destruct (0 <? slen r); [|now exists (shared c)].
      destruct (eval_ok_record (slen r) (shared c) Hok Hlen) as (e' & E & He' & _). exists e'. cbn. now rewrite E. }
    destruct Hrec as (e' & E & He' & Hall). rewrite E. cbn [mbind option_bind]. eexists _, _, _. split; [reflexivity|]. split; [exact He'|].
    split; [now rewrite record_all_app, Hr|]. split.
    + exists e0. split; [now apply baseline_more|]. rewrite Evaluate_halves, Els. cbn [mbind option_bind].
      assert (Hrec0 : is_Some (record_length (slen r) e0)) by (unfold record_length; case_bool; [|eauto]; destruct (eval_ok_record (slen r) e0 Hok0 Hlen) as (x & -> & _); eauto).
      destruct Hrec0 as [x ->]. cbn. now rewrite (record_all_embedder _ _ _ Ek), (record_all_embedder _ _ _ Hr).
    + split; [|done]. rewrite (omap_update _ _ _ _ _ Ei) by done. rewrite Hp. cbn. now destruct (0 <? slen r).
  - eexists _, _, []. split; [reflexivity|]. rewrite app_nil_r, list_insert_id by exact Ei. do 2 (split; [assumption|]).
    split; [exact (Forall_lookup_1 _ _ _ _ Ht Ei)|]. auto.
Qed.
(** How far a call is, by how often it was scheduled. *)
Definition scheduled (i : nat) (schedule : list nat) : nat := count_occ Nat.eq_dec schedule i.
Lemma eval_run_ok e schedule : forall c, conc_ok e c -> exists c', eval_run schedule c = Some c' /\ conc_ok e c' /\
  map job_of (evals c') = map job_of (evals c) /\
  forall j th, evals c !! j = Some th -> exists th', evals c' !! j = Some th' /\ phase th' = Nat.min 2 (scheduled j schedule + phase th).
Proof.
  assert (Hmax : forall th, (phase th <= 2)%nat) by (destruct th; cbn; lia).
  induction schedule as [|i schedule IH]; intros c Hc; cbn [eval_run].
  - exists c. split; [done|]. split; [exact Hc|]. split; [done|]. intros j th Hj. exists th. split; [exact Hj|]. specialize (Hmax th). change (scheduled j []) with 0%nat. lia.
  - destruct (eval_step_ok e i c Hc) as (c1 & -> & Hc1 & Hj1 & Hp1). cbn [mbind option_bind].
    destruct (IH c1 Hc1) as (c' & E & Hc' & Hj' & Hp'). exists c'. split; [exact E|]. split; [exact Hc'|]. split; [congruence|].
    intros j th Hj. destruct (Hp1 j th Hj) as (th1 & H1 & E1). destruct (Hp' j th1 H1) as (th' & H2 & E2). exists th'. split; [exact H2|].
    rewrite E2, E1. unfold scheduled. cbn [count_occ]. destruct (Nat.eq_dec i j); case_decide; try congruence; lia.
Qed.
End Conc.

(** C2.  Evaluations may overlap in any way: calls of [Evaluate] that share one
    evaluator, their locked steps interleaved by any schedule, never panic and
    keep it well formed; the window is the lengths recorded so far, one after
    the other; every call that has ended returned exactly what the sequential
    [Evaluate] returns from a baseline the window went through; and once every
    call was scheduled twice all of them have ended, each non-empty length
    recorded once. *)
Theorem evaluations_interleave `{Unicode} e jobs schedule : eval_ok e -> Forall (fun j => slen j.2 < max_text) jobs ->
  exists c, eval_run schedule (eval_init e jobs) = Some c /\ eval_ok (shared c) /\ record_all (recorded c) e = Some (shared c) /\
    (forall i p r qr, evals c !! i = Some (Evaluated p r qr) -> jobs !! i = Some (p, r) /\
       exists k e0, record_all (take k (recorded c)) e = Some e0 /\ eval_ok e0 /\ option_map fst (Evaluate e0 p r) = Some qr) /\
    ((forall i, (i < length jobs)%nat -> (2 <= scheduled i schedule)%nat) ->
       (forall i p r, jobs !! i = Some (p, r) -> exists qr, evals c !! i = Some (Evaluated p r qr)) /\
       recorded c ≡ₚ filter (fun n => 0 < n) (map (fun j => slen j.2) jobs)).
Proof.
  intros He Hjobs. destruct (eval_run_ok e schedule (eval_init e jobs)) as (c & E & Hc & Hj & Hp).
  { split; [exact He|]. split; [done|]. cbn. split; [now apply Forall_fmap, Forall_true|]. split; [|now apply Forall_fmap].
    clear. induction jobs as [|j jobs IH]; [done|exact IH]. }
  assert (Hjob : map job_of (evals c) = jobs).
  { rewrite Hj. unfold eval_init. cbn [evals]. rewrite map_map. clear. induction jobs as [|[p r] jobs IH]; [done|]. cbn [map]. now rewrite IH. }
  pose proof Hc as (Hok & Hr & Ht & Hperm & _). exists c. split; [exact E|]. split; [exact Hok|]. split; [exact Hr|]. split.
  - intros i p r qr Hi. split; [now rewrite <- Hjob, list_lookup_fmap, Hi|].
    destruct (Forall_lookup_1 _ _ _ _ Ht Hi) as (e0 & (k & Ek & He0) & Eq). now exists k, e0.
  - intros Htwice. assert (Hended : forall i th, evals c !! i = Some th -> exists qr, th = Evaluated (job_of th).1 (job_of th).2 qr).
    { intros i th Hi. assert (Hin : exists j, jobs !! i = Some j) by (rewrite <- Hjob, list_lookup_fmap, Hi; now eexists).
      destruct Hin as [j Hin]. destruct (Hp i (Starting j.1 j.2)) as (th' & Hi' & Hph); [cbn; now rewrite list_lookup_fmap, Hin|].
      rewrite Hi in Hi'. injection Hi' as <-. specialize (Htwice i (lookup_lt_Some _ _ _ Hin)). cbn [phase] in Hph.
      destruct th as [p r|p r ls|p r qr]; cbn [phase] in Hph; [lia..|]. now exists qr. }
    split.
    + intros i p r Hi. rewrite <- Hjob, list_lookup_fmap in Hi. destruct (evals c !! i) as [th|] eqn:Eth; [|discriminate]. injection Hi as Hi.
      destruct (Hended i th Eth) as [qr Eq]. rewrite Hi in Eq. exists qr. now rewrite Eq.
    + rewrite Hperm, <- Hjob. clear - Hended. induction (evals c) as [|th l IH]; [done|]. cbn [omap list_omap map].
      destruct (Hended 0%nat th eq_refl) as [qr Eth]. rewrite filter_cons. specialize (IH (fun i => Hended (S i))).
      rewrite Eth at 1. cbn [ended_length]. rewrite Eth at 2. cbn [job_of snd].
      destruct (Z.ltb_spec 0 (slen (job_of th).2)) as [Hl|Hl]; [rewrite decide_True by exact Hl; now apply perm_skip|rewrite decide_False by lia; exact IH].
Qed.

(** ** An overlap no order explains

    After one response of a thousand bytes, two of two hundred: one after the
    other, the second one is measured against the first and keeps its score;
    overlapping, both are measured against the thousand and lose 0.15. *)
Definition two_hundred : string := string_of_list_ascii (replicate 200 "a"%char).
Definition short_answers : list (string * string) := [("q"%string, two_hundred); ("q"%string, two_hundred)].
Definition penalised (schedule : list nat) : option (list bool) :=
  e ← recordLength 1000 (NewEvaluator None); c ← eval_run schedule (eval_init e short_answers);
  mapM (fun th => match th with Evaluated _ _ qr => Some (flt (res_Score qr) (flit 9 10)) | _ => None end) (evals c).
Example overlap_is_no_order :
  penalised [0; 0; 1; 1]%nat = Some [true; false] /\ penalised [1; 1; 0; 0]%nat = Some [false; true] /\
  penalised [0; 1; 0; 1]%nat = Some [true; true].
Proof. vm_compute. auto. Qed.

Lemma evaluations_interleave_witness :
  exists c, eval_run [0; 1; 1; 0]%nat (eval_init (NewEvaluator None) [("q", "one answer"); ("q", "another answer")]%string) = Some c /\
    recorded c ≡ₚ [10; 14] /\ exists qr, evals c !! 0%nat = Some (Evaluated "q" "one answer" qr).
Proof.
  destruct (evaluations_interleave (NewEvaluator None) [("q", "one answer"); ("q", "another answer")]%string [0; 1; 1; 0]%nat)
    as (c & E & _ & _ & _ & Hend).
  - apply NewEvaluator_ok. discriminate.
  - repeat constructor.
  - exists c. split; [exact E|]. destruct Hend as [Hall Hp].
    + intros [|[|i]] Hi; [vm_compute; lia|vm_compute; lia|cbn in Hi; lia].
    + split; [exact Hp|]. apply (Hall 0%nat). reflexivity.
Defined.
