(* ===== verification/Breaker.v ===== *)
(** * The semantic circuit breaker (quality/breaker.go)

    [SemanticBreaker] opens when the rolling average of quality scores falls
    under a threshold, learns its thresholds from the first good scores, and
    lets one probe at a time through once it has been open for [OpenTimeout].
    All its methods run under one mutex, so each is a function of the state;
    [now] is the reading of [time.Now] the method takes.  [go fn(...)] is an
    event the method emits.  [None] is a run-time panic. *)
From S2P Require Import Prelude RingBuffer Float64 GoStrings Evaluator.
From Stdlib Require Import ZArith Lia Reals Lra String SpecFloat.
From stdpp Require Import base tactics list strings.
#[local] Open Scope Z_scope.

Inductive SBState := SBHealthy | SBDegraded | SBFailing.
#[export] Instance SBState_eq_dec : EqDecision SBState.
Proof. solve_decision. Defined.

Record SemanticBreakerConfig := mkSBConfig {
  WindowSize : Z;
  MinSamples : Z;
  DegradedThreshold : f64;
  FailingThreshold : f64;
  OpenTimeout : Z;
  RecoverySamples : Z;
}.

Definition DefaultSBConfig : SemanticBreakerConfig :=
  mkSBConfig 8 3 (flit 65 100) (flit 45 100) (20 * second) 2.

Record CalibrationInfo := mkCalibration {
  Calibrated : bool;
  SamplesCollected : Z;
  SamplesNeeded : Z;
  BaselineMean : f64;
  BaselineStd : f64;
  LearnedDegraded : f64;
  LearnedFailing : f64;
  LongTermMean : f64;
  LongTermCount : Z;
  Drift : bool;
}.

(** [onStateChange] only matters by being set or nil. *)
Record SemanticBreaker := mkBreaker {
  cfg : SemanticBreakerConfig;
  scores : list f64;
  idx : Z;
  filled : bool;
  state : SBState;
  openAt : Z;
  consecutiveGood : Z;
  probeInFlight : bool;
  calibSamples : list f64;
  calibN : Z;
  calibration : CalibrationInfo;
  lastResult : QualityResult;
  TripReason : string;
  onStateChange : bool;
}.

(** A callback started in a goroutine: [fn(prev, next, reason, avg)]. *)
Record StateChange := mkStateChange {
  sc_prev : SBState; sc_next : SBState; sc_reason : string; sc_avg : f64;
}.

(** ** Field updates *)

Definition with_learning (sb : SemanticBreaker) c samples info :=
  mkBreaker c (scores sb) (idx sb) (filled sb) (state sb) (openAt sb) (consecutiveGood sb)
    (probeInFlight sb) samples (calibN sb) info (lastResult sb) (TripReason sb) (onStateChange sb).
Definition with_ring (sb : SemanticBreaker) s i f :=
  mkBreaker (cfg sb) s i f (state sb) (openAt sb) (consecutiveGood sb)
    (probeInFlight sb) (calibSamples sb) (calibN sb) (calibration sb) (lastResult sb) (TripReason sb) (onStateChange sb).
Definition with_control (sb : SemanticBreaker) st op good probe reason :=
  mkBreaker (cfg sb) (scores sb) (idx sb) (filled sb) st op good probe
    (calibSamples sb) (calibN sb) (calibration sb) (lastResult sb) reason (onStateChange sb).
Definition with_lastResult (sb : SemanticBreaker) r :=
  mkBreaker (cfg sb) (scores sb) (idx sb) (filled sb) (state sb) (openAt sb) (consecutiveGood sb)
    (probeInFlight sb) (calibSamples sb) (calibN sb) (calibration sb) r (TripReason sb) (onStateChange sb).
Definition with_probe (sb : SemanticBreaker) probe :=
  with_control sb (state sb) (openAt sb) (consecutiveGood sb) probe (TripReason sb).

(** ** Construction *)

Definition no_calibration (needed : Z) : CalibrationInfo :=
  mkCalibration false 0 needed f0 f0 f0 f0 f0 0 false.

Definition NewSemanticBreaker (c : SemanticBreakerConfig) : option SemanticBreaker :=
  s ← make_slice f0 (WindowSize c);
  Some (mkBreaker c s 0 false SBHealthy time_zero 0 false [] 20 (no_calibration 20)
          (mkResult f0 []) EmptyString false).

Definition NewSemanticBreakerWithCalibN (c : SemanticBreakerConfig) (n : Z) : option SemanticBreaker :=
  sb ← NewSemanticBreaker c;
  Some (mkBreaker (cfg sb) (scores sb) (idx sb) (filled sb) (state sb) (openAt sb) (consecutiveGood sb)
    (probeInFlight sb) (calibSamples sb) n (no_calibration n) (lastResult sb) (TripReason sb) (onStateChange sb)).

Definition WithStateChangeCallback (sb : SemanticBreaker) (fn : bool) : SemanticBreaker :=
  mkBreaker (cfg sb) (scores sb) (idx sb) (filled sb) (state sb) (openAt sb) (consecutiveGood sb)
    (probeInFlight sb) (calibSamples sb) (calibN sb) (calibration sb) (lastResult sb) (TripReason sb) fn.

(** ** The rolling average *)

(** [for i := 0; i < samples; i++ { sum += sb.scores[i] }]. *)
Fixpoint sum_scores (s : list f64) (n : nat) (i : Z) (sum : f64) : option f64 :=
  match n with
  | O => Some sum
  | S n => x ← slice_get s i; sum_scores s n (i + 1) (fadd sum x)
  end.
Definition rollingAvg (sb : SemanticBreaker) (samples : Z) : option f64 :=
  sum ← sum_scores (scores sb) (Z.to_nat samples) 0 f0;
  Some (fdiv sum (f64_of_Z samples)).

(** [samples := WindowSize; if !filled { samples = idx }]. *)
Definition samples_seen (sb : SemanticBreaker) : Z := if filled sb then WindowSize (cfg sb) else idx sb.

Definition RollingAvg (sb : SemanticBreaker) : option f64 :=
  let samples := samples_seen sb in
  if samples =? 0 then Some f1 else rollingAvg sb samples.

Definition State (sb : SemanticBreaker) : SBState := state sb.

Record SBSnapshot := mkSnapshot {
  snap_State : SBState; snap_AvgQuality : f64; snap_TripReason : string; snap_Calibration : CalibrationInfo;
}.
Definition Snapshot (sb : SemanticBreaker) : option SBSnapshot :=
  let samples := samples_seen sb in
  avg ← (if 0 <? samples then rollingAvg sb samples else Some f1);
  Some (mkSnapshot (state sb) avg (TripReason sb) (calibration sb)).

(** ** Adaptive calibration *)

Definition sample_mean (l : list f64) : f64 := fdiv (foldl fadd f0 l) (f64_of_Z (len l)).
Definition sample_std (l : list f64) : f64 :=
  let mean := sample_mean l in
  let variance := foldl (fun v s => let d := fsub s mean in fadd v (fmul d d)) f0 l in
  let std := fsqrt (fdiv variance (f64_of_Z (len l))) in
  if flt std (flit 5 100) then flit 5 100 else std.

(** The thresholds learned from a mean and a standard deviation. *)
Definition learned_thresholds (mean std : f64) : f64 * f64 :=
  let degraded := fmin (flit 80 100) (fmax (flit 40 100) (fsub mean (fmul f1 std))) in
  let failing := fmin (flit 60 100) (fmax (flit 20 100) (fsub mean (fmul (flit 2 1) std))) in
  let failing := if flt (fsub degraded failing) (flit 10 100)
                 then fmax (flit 10 100) (fsub degraded (flit 15 100)) else failing in
  (degraded, failing).

Definition calibrate (sb : SemanticBreaker) : SemanticBreaker :=
  let mean := sample_mean (calibSamples sb) in
  let std := sample_std (calibSamples sb) in
  let '(degraded, failing) := learned_thresholds mean std in
  let c := cfg sb in
  with_learning sb
    (mkSBConfig (WindowSize c) (MinSamples c) degraded failing (OpenTimeout c) (RecoverySamples c))
    (calibSamples sb)
    (mkCalibration true (len (calibSamples sb)) (calibN sb) mean std degraded failing f0 0 false).

(** The first part of [Record]: calibration, then drift detection. *)
Definition learn (sb : SemanticBreaker) (score : f64) : SemanticBreaker :=
  let ci := calibration sb in
  if negb (Calibrated ci) && (0 <? calibN sb) then
    if fle QualityAcceptable score then
      let samples := calibSamples sb ++ [score] in
      let sb := with_learning sb (cfg sb) samples
        (mkCalibration (Calibrated ci) (len samples) (SamplesNeeded ci) (BaselineMean ci) (BaselineStd ci)
           (LearnedDegraded ci) (LearnedFailing ci) (LongTermMean ci) (LongTermCount ci) (Drift ci)) in
      if calibN sb <=? len samples then calibrate sb else sb
    else sb
  else if Calibrated ci then
    let count := wrap64 (LongTermCount ci + 1) in
    let mean := fadd (LongTermMean ci) (fdiv (fsub score (LongTermMean ci)) (f64_of_Z count)) in
    let drift :=
      if 30 <=? count then
        let diff := fsub mean (BaselineMean ci) in
        let diff := if flt diff f0 then fopp diff else diff in
        flt (flit 20 100) diff
      else Drift ci in
    with_learning sb (cfg sb) (calibSamples sb)
      (mkCalibration (Calibrated ci) (SamplesCollected ci) (SamplesNeeded ci) (BaselineMean ci) (BaselineStd ci)
         (LearnedDegraded ci) (LearnedFailing ci) mean count drift)
  else sb.

(** ** The state machine *)

Definition percent (x : f64) : string := fmt_fixed 0 (fmul x (f64_of_Z 100)) +:+ "%".

Definition updateState (now : Z) (latestScore : f64) (sb : SemanticBreaker) : option SemanticBreaker :=
  let c := cfg sb in
  let samples := samples_seen sb in
  if samples <? MinSamples c then Some sb
  else
    avg ← rollingAvg sb samples;
    Some
      match state sb with
      | SBHealthy =>
          if flt avg (FailingThreshold c) then
            with_control sb SBFailing now 0 (probeInFlight sb)
              ("rolling avg quality " +:+ percent avg +:+ " < failing threshold " +:+ percent (FailingThreshold c))
          else if flt avg (DegradedThreshold c) then
            with_control sb SBDegraded (openAt sb) (consecutiveGood sb) (probeInFlight sb)
              ("rolling avg quality " +:+ percent avg +:+ " < degraded threshold " +:+ percent (DegradedThreshold c))
          else sb
      | SBDegraded =>
          if flt avg (FailingThreshold c) then
            with_control sb SBFailing now 0 (probeInFlight sb)
              ("quality deteriorated further: avg " +:+ percent avg)
          else if fle (DegradedThreshold c) avg then
            with_control sb SBHealthy (openAt sb) (consecutiveGood sb) (probeInFlight sb) EmptyString
          else sb
      | SBFailing =>
          if fle (DegradedThreshold c) latestScore then
            let good := wrap64 (consecutiveGood sb + 1) in
            if RecoverySamples c <=? good
            then with_control sb SBHealthy (openAt sb) 0 false EmptyString
            else with_control sb SBFailing (openAt sb) good (probeInFlight sb) (TripReason sb)
          else if fle (FailingThreshold c) latestScore then with_probe sb false
          else with_control sb SBFailing now 0 (probeInFlight sb) (TripReason sb)
      end.

Definition clearProbe (sb : SemanticBreaker) : SemanticBreaker := with_probe sb false.

(** [Record]: the new breaker and the callback it starts, if any. *)
Definition Record_ (now : Z) (score : f64) (result : QualityResult) (sb : SemanticBreaker)
    : option (SemanticBreaker * option StateChange) :=
  let sb := learn (with_lastResult sb result) score in
  '(s, i, f) ← ring_push (scores sb) (idx sb) (filled sb) (WindowSize (cfg sb)) score;
  let sb := with_ring sb s i f in
  let sb := if decide (state sb = SBFailing) then clearProbe sb else sb in
  let prev := state sb in
  sb ← updateState now score sb;
  if bool_decide (state sb <> prev) && onStateChange sb then
    let samples := samples_seen sb in
    avg ← (if 0 <? samples then rollingAvg sb samples else Some f1);
    Some (sb, Some (mkStateChange prev (state sb) (TripReason sb) avg))
  else Some (sb, None).

(** [ShouldBlock]: whether the caller is blocked, and the breaker after the
    compare-and-swap on the probe flag. *)
Definition ShouldBlock (now : Z) (sb : SemanticBreaker) : bool * SemanticBreaker :=
  if decide (state sb = SBFailing) then
    if OpenTimeout (cfg sb) <=? time_sub now (openAt sb) then
      if probeInFlight sb then (true, sb) else (false, with_probe sb true)
    else (true, sb)
  else (false, sb).

(** ** The invariant *)

Definition thresholds_ok (c : SemanticBreakerConfig) : Prop :=
  in_unit (DegradedThreshold c) /\ in_unit (FailingThreshold c) /\
  (B2R (FailingThreshold c) < B2R (DegradedThreshold c))%R.

(** What the control fields mean in each state: the reason is set exactly
    outside Healthy, a probe is in flight only while Failing, and the good
    probes counted so far are fewer than recovery needs. *)
Definition control_ok (sb : SemanticBreaker) : Prop :=
  match state sb with
  | SBHealthy => TripReason sb = EmptyString /\ consecutiveGood sb = 0 /\ probeInFlight sb = false
  | SBDegraded => TripReason sb <> EmptyString /\ consecutiveGood sb = 0 /\ probeInFlight sb = false
  | SBFailing => TripReason sb <> EmptyString /\
      0 <= consecutiveGood sb < Z.max 1 (RecoverySamples (cfg sb))
  end.

Definition sb_ok (sb : SemanticBreaker) : Prop :=
  ring_ok (scores sb) (idx sb) (WindowSize (cfg sb)) /\ WindowSize (cfg sb) <= 2 ^ 53 /\
  Forall in_unit (scores sb) /\ thresholds_ok (cfg sb) /\
  Forall in_unit (calibSamples sb) /\ calibN sb <= 2 ^ 52 /\
  (Calibrated (calibration sb) = false -> len (calibSamples sb) < Z.max 1 (calibN sb)) /\
  RecoverySamples (cfg sb) <= int64_max /\ control_ok sb.

(** ** The rolling average *)

Lemma sum_scores_spec s n : forall i acc, 0 <= i -> i + Z.of_nat n <= len s ->
  sum_scores s n i acc = Some (foldl fadd acc (take n (drop (Z.to_nat i) s))).
Proof.
  induction n as [|n IH]; intros i acc Hi Hn; cbn [sum_scores]; [done|].
  destruct (slice_get_in s i) as [x Hx]; [lia|]. rewrite Hx. cbn [mbind option_bind].
  rewrite IH by lia. unfold slice_get in Hx. rewrite (proj2 (Z.leb_le 0 i)) in Hx by lia.
  rewrite (drop_S _ _ _ Hx). replace (Z.to_nat (i + 1)) with (S (Z.to_nat i)) by lia. done.
Qed.

Lemma rollingAvg_spec sb n : 0 <= n <= len (scores sb) ->
  rollingAvg sb n = Some (fdiv (fsum_from f0 (take (Z.to_nat n) (scores sb))) (f64_of_Z n)).
Proof. intros Hn. unfold rollingAvg. now rewrite sum_scores_spec by lia. Qed.

Lemma rollingAvg_unit sb n : Forall in_unit (scores sb) -> 0 < n <= len (scores sb) -> n <= 2 ^ 53 ->
  exists avg, rollingAvg sb n = Some avg /\ in_unit avg.
Proof.
  intros Hu Hn Hb. rewrite rollingAvg_spec by lia. eexists; split; [reflexivity|].
  apply favg_unit; [now apply Forall_take| |lia].
  rewrite length_take. unfold len in Hn. lia.
Qed.

Lemma RollingAvg_unit sb : sb_ok sb -> exists avg, RollingAvg sb = Some avg /\ in_unit avg.
Proof.
  intros ((Hl & Hi & _) & Hw & Hu & _). unfold RollingAvg, samples_seen.
  case_bool; [exists f1; auto using in_unit_1|]. zbool.
  apply rollingAvg_unit; auto; destruct (filled sb); lia.
Qed.

(** ** Calibration *)

Lemma sample_mean_unit l : Forall in_unit l -> 0 < len l <= 2 ^ 53 -> in_unit (sample_mean l).
Proof. intros Hl Hn. apply favg_unit; auto. Qed.

(** The deviations of scores in [0, 1] from their mean are within [-1, 1]. *)
Lemma square_dev_unit s m : in_unit s -> in_unit m -> in_unit (fmul (fsub s m) (fsub s m)).
Proof.
  intros [Fs Hs] [Fm Hm].
  destruct (fsub_between s m (-1) 1 Fs Fm) as [Fd Hd];
    [apply (representable_Z (-1)); lia|apply representable_1|lra|].
  apply fmul_between; auto using representable_0, representable_1. nra.
Qed.

Lemma variance_sum l m : Forall in_unit l -> in_unit m ->
  foldl (fun v s => let d := fsub s m in fadd v (fmul d d)) f0 l
    = fsum_from f0 (map (fun s => fmul (fsub s m) (fsub s m)) l).
Proof.
  intros _ _. unfold fsum_from. generalize f0. induction l as [|s l IH]; intros acc; cbn; [done|apply IH].
Qed.

Lemma sample_std_bounds l : Forall in_unit l -> 0 < len l <= 2 ^ 53 ->
  is_fin (sample_std l) = true /\ (B2R (flit 5 100) <= B2R (sample_std l) <= 1)%R.
Proof.
  intros Hl Hn. pose proof (sample_mean_unit l Hl Hn) as Hm. unfold sample_std.
  cbv zeta. rewrite variance_sum by assumption.
  set (sq := map _ l).
  assert (Hsq : Forall in_unit sq).
  { unfold sq. rewrite Forall_map. eapply Forall_impl; [exact Hl|].
    intros s Hs. now apply square_dev_unit. }
  assert (Hv : in_unit (fdiv (fsum_from f0 sq) (f64_of_Z (len l)))).
  { apply favg_unit; [exact Hsq| |lia]. unfold sq. now rewrite length_map. }
  destruct Hv as [Fv Vv]. fval (flit 5 100). destruct Hval as [F5 V5].
  destruct (fsqrt_between (fdiv (fsum_from f0 sq) (f64_of_Z (len l))) 0 1 Fv) as [Fs Vs];
    auto using representable_0, representable_1; [lra| |].
  { split; [apply sqrt_pos|]. rewrite <- sqrt_1. apply sqrt_le_1_alt. lra. }
  case_bool; [split; [exact F5|rewrite V5; lra]|].
  apply flt_false in Heqb; [|assumption..]. split; [exact Fs|lra].
Qed.

Lemma representable_16 k : Z.abs k <= 16 -> representable (IZR k / 16).
Proof.
  intros Hk. exists k, (-4). repeat split; [lia..|]. unfold bpow. simpl. lra.
Qed.

(** A difference under a sixteenth below [x] rounds to less than [x]. *)
Lemma fsub_lt_grid x y k : is_fin x = true -> is_fin y = true ->
  is_fin (fsub x y) = true -> Z.abs k <= 16 -> (B2R x - B2R y <= IZR k / 16)%R ->
  (IZR k / 16 < B2R x)%R -> (B2R (fsub x y) < B2R x)%R.
Proof.
  intros Fx Fy Fs Hk H1 H2.
  destruct (fsub_rounds x y Fx Fy) as [[_ Hr]|[[E _]|[E _]]]; [|rewrite E in Fs; discriminate..].
  pose proof (proj2 (Hr _ (representable_16 k Hk)) H1). lra.
Qed.

(** Learned thresholds lie in the documented bands, failing under degraded. *)
Lemma learned_thresholds_bounds m s :
  in_unit m -> is_fin s = true -> (0 <= B2R s <= 1)%R ->
  let '(d, f) := learned_thresholds m s in
  is_fin d = true /\ is_fin f = true /\
  (B2R (flit 40 100) <= B2R d <= B2R (flit 80 100))%R /\
  (B2R (flit 10 100) <= B2R f)%R /\ (B2R f < B2R d)%R /\ (B2R f <= 1)%R.
Proof.
  intros [Fm Hm] Fs Hs. unfold learned_thresholds.
  fval (flit 40 100). fval (flit 80 100). fval (flit 20 100). fval (flit 60 100).
  fval (flit 10 100). fval (flit 15 100). fval (flit 2 1).
  destruct Hval as [F40 V40], Hval0 as [F80 V80], Hval1 as [F20 V20], Hval2 as [F60 V60],
    Hval3 as [F10 V10], Hval4 as [F15 V15], Hval5 as [F2 V2]. destruct f1_val as [F1 V1].
  destruct (fmul_between f1 s 0 1 F1 Fs) as [Fa Ha];
    auto using representable_0, representable_1; [rewrite V1; lra|].
  destruct (fmul_between (flit 2 1) s 0 2 F2 Fs) as [Fb Hb];
    [apply representable_0|apply (representable_Z 2); lia|rewrite V2; lra|].
  destruct (fsub_between m (fmul f1 s) (-1) 1 Fm Fa) as [Fc Hc];
    [apply (representable_Z (-1)); lia|apply representable_1|lra|].
  destruct (fsub_between m (fmul (flit 2 1) s) (-2) 1 Fm Fb) as [Fd Hd];
    [apply (representable_Z (-2)); lia|apply representable_1|lra|].
  destruct (fmax_spec (flit 40 100) _ F40 Fc) as [Fe Ve].
  destruct (fmin_spec (flit 80 100) _ F80 Fe) as [Fg Vg].
  destruct (fmax_spec (flit 20 100) _ F20 Fd) as [Fh Vh].
  destruct (fmin_spec (flit 60 100) _ F60 Fh) as [Fi Vi].
  set (d := fmin (flit 80 100) _) in *. set (f := fmin (flit 60 100) _) in *.
  assert (Hdd : (B2R (flit 40 100) <= B2R d <= B2R (flit 80 100))%R).
  { rewrite Vg, Ve. rewrite V40, V80 in *. unfold Rmin, Rmax. repeat destruct (Rle_dec _ _); lra. }
  assert (Hff : (B2R (flit 20 100) <= B2R f <= B2R (flit 60 100))%R).
  { rewrite Vi, Vh. rewrite V20, V60 in *. unfold Rmin, Rmax. repeat destruct (Rle_dec _ _); lra. }
  clearbody d f. clear Ve Vg Vh Vi.
  destruct (fsub_between d f (-1) 1 Fg Fi) as [Fj Hj];
    [apply (representable_Z (-1)); lia|apply representable_1|rewrite V40, V80, V20, V60 in *; lra|].
  split; [exact Fg|]. case_bool.
  - destruct (fsub_between d (flit 15 100) (/ 8) (11 / 16) Fg F15) as [Fk Hk].
    { replace (/ 8)%R with (IZR 2 / 16)%R by lra. apply representable_16; lia. }
    { apply (representable_16 11). lia. }
    { rewrite V40, V80, V15 in *. lra. }
    destruct (fmax_spec (flit 10 100) _ F10 Fk) as [Fl Vl]. split; [exact Fl|]. split; [exact Hdd|].
    assert (Hlt : (B2R (fsub d (flit 15 100)) < B2R d)%R).
    { rewrite V40, V80 in Hdd. destruct Hdd as [Hd1 Hd2].
      destruct (Rle_dec (B2R d) (/ 2)); [apply (fsub_lt_grid _ _ 6); rewrite ?V15; auto; (lia || lra)|].
      destruct (Rle_dec (B2R d) (587 / 1000)); [apply (fsub_lt_grid _ _ 7); rewrite ?V15; auto; (lia || lra)|].
      destruct (Rle_dec (B2R d) (649 / 1000)); [apply (fsub_lt_grid _ _ 8); rewrite ?V15; auto; (lia || lra)|].
      destruct (Rle_dec (B2R d) (77 / 100)); [apply (fsub_lt_grid _ _ 10); rewrite ?V15; auto; (lia || lra)|].
      apply (fsub_lt_grid _ _ 11); rewrite ?V15; auto; (lia || lra). }
    rewrite Vl. rewrite V10, V40, V80 in *. unfold Rmax. destruct (Rle_dec _ _); lra.
  - apply flt_false in Heqb; [|assumption..]. split; [exact Fi|]. split; [exact Hdd|].
    assert (B2R f < B2R d)%R.
    { destruct (Rlt_dec (B2R f) (B2R d)) as [|Hge]; [assumption|exfalso].
      destruct (fsub_between d f (-1) 0 Fg Fi) as [_ H0];
        [apply (representable_Z (-1)); lia|apply representable_0|rewrite V40, V80, V20, V60 in *; lra|].
      rewrite V10 in Heqb. lra. }
    rewrite V10, V20, V40, V60, V80 in *. lra.
Qed.

(** ** Every operation keeps the invariant and never panics *)

Definition config_ok (c : SemanticBreakerConfig) : Prop :=
  0 < WindowSize c <= 2 ^ 53 /\ thresholds_ok c /\ RecoverySamples c <= int64_max.

Lemma DefaultSBConfig_ok : config_ok DefaultSBConfig.
Proof.
  split; [cbn; lia|]. split; [|cbn; unfold int64_max; lia].
  fval (flit 65 100). fval (flit 45 100). destruct Hval as [F V], Hval0 as [F' V'].
  unfold thresholds_ok, in_unit. cbn [DefaultSBConfig DegradedThreshold FailingThreshold].
  rewrite V, V'. repeat split; auto; lra.
Qed.

Lemma NewSemanticBreakerWithCalibN_ok c n : config_ok c -> n <= 2 ^ 52 ->
  exists sb, NewSemanticBreakerWithCalibN c n = Some sb /\ sb_ok sb /\ state sb = SBHealthy /\
    cfg sb = c /\ calibN sb = n /\ idx sb = 0 /\ filled sb = false.
Proof.
  intros (Hw & Ht & Hr) Hn. unfold NewSemanticBreakerWithCalibN, NewSemanticBreaker, make_slice.
  rewrite (proj2 (Z.leb_le 0 _)) by lia. cbn [mbind option_bind]. eexists; split; [reflexivity|].
  split; [|done]. unfold sb_ok. cbn [cfg scores idx calibSamples calibN calibration].
  split; [split; [apply len_replicate; lia|unfold int64_max; lia]|]. split; [lia|].
  split; [apply Forall_replicate, in_unit_0|]. split; [exact Ht|]. split; [constructor|].
  split; [exact Hn|]. split; [unfold len; cbn [length]; lia|]. split; [exact Hr|]. cbn. auto.
Qed.

(** [learn] only touches the thresholds and the calibration record. *)
Lemma learn_frame sb score :
  let sb' := learn sb score in
  scores sb' = scores sb /\ idx sb' = idx sb /\ filled sb' = filled sb /\ state sb' = state sb /\
  openAt sb' = openAt sb /\ consecutiveGood sb' = consecutiveGood sb /\
  probeInFlight sb' = probeInFlight sb /\ TripReason sb' = TripReason sb /\
  calibN sb' = calibN sb /\ onStateChange sb' = onStateChange sb /\
  WindowSize (cfg sb') = WindowSize (cfg sb) /\ MinSamples (cfg sb') = MinSamples (cfg sb) /\
  OpenTimeout (cfg sb') = OpenTimeout (cfg sb) /\ RecoverySamples (cfg sb') = RecoverySamples (cfg sb).
Proof.
  cbv zeta. unfold learn. repeat (case_bool; [|]); try (repeat split; reflexivity).
  all: unfold calibrate; destruct (learned_thresholds _ _); repeat split; reflexivity.
Qed.

Lemma learn_ok sb score : sb_ok sb -> in_unit score -> sb_ok (learn sb score).
Proof.
  intros Hok Hs. destruct (learn_frame sb score) as (E1&E2&E3&E4&E5&E6&E7&E8&E9&E10&E11&E12&E13&E14).
  destruct Hok as (Hr & Hw & Hu & Ht & Hc & Hn & Hroom & Hrec & Hctl).
  unfold sb_ok. rewrite E1, E2, E9, E11, E14.
  split; [exact Hr|]. split; [exact Hw|]. split; [exact Hu|].
  assert (Hctl' : control_ok (learn sb score)).
  { unfold control_ok in *. rewrite E4, E6, E7, E8, E14. exact Hctl. }
  cut (thresholds_ok (cfg (learn sb score)) /\ Forall in_unit (calibSamples (learn sb score)) /\
       (Calibrated (calibration (learn sb score)) = false ->
        len (calibSamples (learn sb score)) < Z.max 1 (calibN sb))); [tauto|].
  clear E1 E2 E3 E4 E5 E6 E7 E8 E9 E10 E11 E12 E13 E14 Hctl'.
  unfold learn. destruct (Calibrated (calibration sb)) eqn:Ec; cbn [negb andb].
  { cbn. split; [exact Ht|]. split; [exact Hc|discriminate]. }
  destruct (0 <? calibN sb) eqn:En; [|auto]. zbool.
  destruct (fle QualityAcceptable score); [|auto].
  assert (Hf' : Forall in_unit (calibSamples sb ++ [score])) by (apply Forall_app; auto).
  specialize (Hroom eq_refl). pose proof (len_nonneg (calibSamples sb)).
  assert (Hl : len (calibSamples sb ++ [score]) = len (calibSamples sb) + 1) by (rewrite len_app; done).
  cbv zeta. set (sb1 := with_learning sb _ _ _). change (calibN sb1) with (calibN sb).
  destruct (calibN sb <=? len (calibSamples sb ++ [score])) eqn:Efull; zbool;
    [|split; [exact Ht|]; split; [exact Hf'|]; intros _;
      change (calibSamples sb1) with (calibSamples sb ++ [score]); lia].
  unfold calibrate. change (calibSamples sb1) with (calibSamples sb ++ [score]).
  set (l := calibSamples sb ++ [score]) in *.
  destruct (sample_std_bounds l Hf') as [Fs Vs]; [lia|].
  assert (Hstd : (0 <= B2R (sample_std l) <= 1)%R)
    by (fval (flit 5 100); destruct Hval as [F5 V5]; rewrite V5 in Vs; lra).
  pose proof (learned_thresholds_bounds (sample_mean l) (sample_std l)
    (sample_mean_unit l Hf' ltac:(lia)) Fs Hstd) as Hb.
  destruct (learned_thresholds (sample_mean l) (sample_std l)) as [d f].
  destruct Hb as (Fd & Ff & Hd & Hf10 & Hlt & Hf1).
  fval (flit 40 100). fval (flit 80 100). fval (flit 10 100).
  destruct Hval as [_ V40], Hval0 as [_ V80], Hval1 as [_ V10]. rewrite V40, V80, V10 in *.
  cbn. unfold thresholds_ok, in_unit. cbn. repeat split; auto; try lra; discriminate.
Qed.

Lemma updateState_ok now x sb :
  sb_ok sb -> samples_seen sb > 0 -> (state sb = SBFailing -> probeInFlight sb = false) ->
  exists sb', updateState now x sb = Some sb' /\ sb_ok sb' /\
    cfg sb' = cfg sb /\ scores sb' = scores sb /\ idx sb' = idx sb /\ filled sb' = filled sb /\
    onStateChange sb' = onStateChange sb /\ calibN sb' = calibN sb /\ calibration sb' = calibration sb /\
    calibSamples sb' = calibSamples sb /\
    probeInFlight sb' = false.
Proof.
  intros Hok Hpos Hprobe. pose proof Hok as ((Hl & Hi & Hmax) & Hw & Hu & Ht & Hc & Hn & Hroom & Hrec & Hctl).
  assert (Hpf : probeInFlight sb = false).
  { unfold control_ok in Hctl. destruct (state sb); [apply Hctl..|auto]. }
  unfold updateState. case_bool; [exists sb; auto 20|].
  assert (Hs : 0 < samples_seen sb <= len (scores sb)) by (unfold samples_seen in *; destruct (filled sb); lia).
  destruct (rollingAvg_unit sb (samples_seen sb) Hu Hs) as (avg & -> & _); [lia|].
  cbn [mbind option_bind]. eexists; split; [reflexivity|].
  unfold control_ok in Hctl.
  assert (Hkeep : forall st op good reason,
    control_ok (with_control sb st op good false reason) ->
    let sb' := with_control sb st op good false reason in
    sb_ok sb' /\ cfg sb' = cfg sb /\ scores sb' = scores sb /\ idx sb' = idx sb /\ filled sb' = filled sb /\
    onStateChange sb' = onStateChange sb /\ calibN sb' = calibN sb /\ calibration sb' = calibration sb /\
    calibSamples sb' = calibSamples sb /\ probeInFlight sb' = false).
  { intros st op good reason Hc'. cbv zeta. split; [|auto 20].
    unfold sb_ok. cbn [with_control cfg scores idx calibSamples calibN calibration]. unfold ring_ok. auto 20. }
  assert (Hself : let sb' := sb in
    sb_ok sb' /\ cfg sb' = cfg sb /\ scores sb' = scores sb /\ idx sb' = idx sb /\ filled sb' = filled sb /\
    onStateChange sb' = onStateChange sb /\ calibN sb' = calibN sb /\ calibration sb' = calibration sb /\
    calibSamples sb' = calibSamples sb /\ probeInFlight sb' = false) by (cbv zeta; auto 20).
  unfold with_probe. rewrite Hpf.
  destruct (state sb) eqn:Est; repeat case_bool; zbool; try exact Hself; apply Hkeep; unfold control_ok;
    cbn [with_control state TripReason consecutiveGood probeInFlight cfg];
    repeat split; try discriminate; try (intros _; tauto); try tauto; try lia.
  all: rewrite wrap64_id in *; unfold int64_min, int64_max in *; lia.
Qed.

Lemma Record_total now x res sb :
  sb_ok sb -> in_unit x ->
  exists sb' ev, Record_ now x res sb = Some (sb', ev) /\ sb_ok sb' /\ probeInFlight sb' = false.
Proof.
  intros Hok Hx. unfold Record_.
  assert (Hok0 : sb_ok (with_lastResult sb res)) by exact Hok.
  pose proof (learn_ok _ x Hok0 Hx) as Hok1. set (sb1 := learn (with_lastResult sb res) x) in *.
  pose proof Hok1 as (Hr & Hw & Hu & Ht & Hc & Hn & Hroom & Hrec & Hctl).
  destruct (ring_push_total (scores sb1) (idx sb1) (filled sb1) (WindowSize (cfg sb1)) x Hr)
    as (i & -> & Ei & Hr'). cbn [mbind option_bind].
  set (sb2 := with_ring sb1 _ i _).
  assert (Hok2 : sb_ok sb2).
  { unfold sb_ok, sb2. cbn [with_ring cfg scores idx calibSamples calibN calibration].
    repeat split; auto using Forall_insert; try apply Hr'; try apply Ht; exact Hctl. }
  assert (Hpos : samples_seen sb2 > 0).
  { unfold samples_seen, sb2. cbn [with_ring filled idx cfg]. destruct Hr as (_ & Hi & _).
    destruct (Z.eqb_spec i 0); [lia|]. destruct (filled sb1); [lia|]. destruct Hr'. lia. }
  set (sb3 := if decide (state sb2 = SBFailing) then clearProbe sb2 else sb2).
  assert (Hok3 : sb_ok sb3 /\ samples_seen sb3 > 0 /\ (state sb3 = SBFailing -> probeInFlight sb3 = false)).
  { unfold sb3. case_decide as Hd; [|tauto]. unfold clearProbe, with_probe. split; [|split; [exact Hpos|done]].
    destruct Hok2 as (?&?&?&?&?&?&?&?&Hc2). repeat (split; [assumption|]).
    unfold control_ok in *. cbn [with_control state]. rewrite Hd in *. exact Hc2. }
  destruct Hok3 as (Hok3 & Hpos3 & Hpf3).
  destruct (updateState_ok now x sb3 Hok3 Hpos3 Hpf3)
    as (sb4 & -> & Hok4 & Ecfg & Esc & Eidx & Efil & _ & _ & _ & _ & Hpf4). cbn [mbind option_bind].
  case_bool; [|eauto 10]. 
  assert (Hs4 : samples_seen sb4 = samples_seen sb3) by (unfold samples_seen; now rewrite Efil, Ecfg, Eidx).
  pose proof Hok4 as ((Hl4 & Hi4 & Hm4) & Hw4 & Hu4 & _).
  destruct (rollingAvg_unit sb4 (samples_seen sb4) Hu4) as (avg & Eavg & _);
    [unfold samples_seen in *; destruct (filled sb4); lia|unfold samples_seen in *; destruct (filled sb4); lia|].
  rewrite (proj2 (Z.ltb_lt 0 (samples_seen sb4))) by lia. rewrite Eavg. cbn [mbind option_bind].
  eexists _, _. split; [reflexivity|]. split; [|exact Hpf4]. exact Hok4.
Qed.

Lemma ShouldBlock_ok now sb : sb_ok sb -> sb_ok (ShouldBlock now sb).2.
Proof.
  intros Hok. unfold ShouldBlock. case_decide as Hd; [|exact Hok].
  case_bool; [|exact Hok]. case_bool; [exact Hok|].
  destruct Hok as (?&?&?&?&?&?&?&?&Hc). repeat (split; [assumption|]).
  unfold control_ok in *. cbn. rewrite Hd in *. exact Hc.
Qed.

(** ** The window of scores *)

Lemma rollingAvg_total sb n : 0 <= n <= len (scores sb) -> is_Some (rollingAvg sb n).
Proof. intros Hn. rewrite rollingAvg_spec by exact Hn. eauto. Qed.

Lemma samples_seen_range sb :
  ring_ok (scores sb) (idx sb) (WindowSize (cfg sb)) -> 0 <= samples_seen sb <= len (scores sb).
Proof. intros (Hl & Hi & _). unfold samples_seen. destruct (filled sb); lia. Qed.

Lemma Snapshot_total sb : sb_ok sb -> is_Some (Snapshot sb).
Proof.
  intros (Hr & _). pose proof (samples_seen_range sb Hr) as Hs. unfold Snapshot.
  destruct (rollingAvg_total sb (samples_seen sb) Hs) as [avg ->]. case_bool; cbn; eauto.
Qed.

Lemma updateState_frame now x sb sb' : updateState now x sb = Some sb' ->
  scores sb' = scores sb /\ idx sb' = idx sb /\ filled sb' = filled sb /\ cfg sb' = cfg sb.
Proof.
  unfold updateState. case_bool; [now intros [= <-]|].
  destruct (rollingAvg sb (samples_seen sb)) as [avg|]; [|done]. cbn [mbind option_bind].
  intros [= <-]. destruct (state sb); repeat case_bool; done.
Qed.

(** [Record] never panics on a well-formed window, whatever the score, and
    pushes the score. *)
Lemma Record_ring now x res sb :
  ring_ok (scores sb) (idx sb) (WindowSize (cfg sb)) ->
  exists sb' ev, Record_ now x res sb = Some (sb', ev) /\
    ring_push (scores sb) (idx sb) (filled sb) (WindowSize (cfg sb)) x
      = Some (scores sb', idx sb', filled sb') /\
    WindowSize (cfg sb') = WindowSize (cfg sb) /\ cfg sb' = cfg (learn (with_lastResult sb res) x) /\
    ring_ok (scores sb') (idx sb') (WindowSize (cfg sb')).
Proof.
  intros Hr. unfold Record_.
  destruct (learn_frame (with_lastResult sb res) x) as (E1&E2&E3&_&_&_&_&_&_&_&E11&_).
  set (sb1 := learn (with_lastResult sb res) x) in *. rewrite E1, E2, E3, E11.
  cbn [with_lastResult scores idx filled cfg] in *.
  destruct (ring_push_total (scores sb) (idx sb) (filled sb) (WindowSize (cfg sb)) x Hr) as (i & -> & _ & Hr').
  cbn [mbind option_bind]. set (sb2 := with_ring sb1 _ i _).
  set (sb3 := if decide (state sb2 = SBFailing) then clearProbe sb2 else sb2).
  assert (H3 : scores sb3 = <[Z.to_nat (idx sb) := x]> (scores sb) /\ idx sb3 = i /\
    filled sb3 = (if i =? 0 then true else filled sb) /\ cfg sb3 = cfg sb1)
    by (unfold sb3; case_decide; done).
  destruct H3 as (S1 & S2 & S3 & S4).
  assert (Htot : is_Some (updateState now x sb3)).
  { unfold updateState. case_bool; [eauto|].
    destruct (rollingAvg_total sb3 (samples_seen sb3)) as [avg ->];
      [apply samples_seen_range; rewrite S1, S2, S4, E11; exact Hr'|]. cbn [mbind option_bind]. eauto. }
  destruct Htot as [sb4 E4]. rewrite E4. cbn [mbind option_bind].
  destruct (updateState_frame now x sb3 sb4 E4) as (T1 & T2 & T3 & T4).
  assert (Hr4 : ring_ok (scores sb4) (idx sb4) (WindowSize (cfg sb4)))
    by (rewrite T1, T2, T4, S1, S2, S4, E11; exact Hr').
  assert (Hfin : exists ev, (if bool_decide (state sb4 <> state sb3) && onStateChange sb4
    then avg ← (if 0 <? samples_seen sb4 then rollingAvg sb4 (samples_seen sb4) else Some f1);
         Some (sb4, Some (mkStateChange (state sb3) (state sb4) (TripReason sb4) avg))
    else Some (sb4, None)) = Some (sb4, ev)).
  { case_bool; [|eauto]. destruct (0 <? samples_seen sb4); [|cbn; eauto].
    destruct (rollingAvg_total sb4 (samples_seen sb4)) as [avg ->]; [now apply samples_seen_range|].
    cbn [mbind option_bind]. eauto. }
  destruct Hfin as [ev Hev]. exists sb4, ev. split; [exact Hev|].
  rewrite T1, T2, T3, S1, S2, S3. split; [done|]. rewrite T4, S4, E11.
  split; [done|]. split; [done|]. now rewrite S1, S2 in *.
Qed.

(** One input of the window: the time, the score and its result. *)
Definition record_score (i : Z * f64 * QualityResult) (sb : SemanticBreaker) : option SemanticBreaker :=
  '(sb', _) ← Record_ i.1.1 i.1.2 i.2 sb; Some sb'.

#[export] Program Instance breaker_window : Window SemanticBreaker (Z * f64 * QualityResult) f64 := {
  win_ok := fun sb => ring_ok (scores sb) (idx sb) (WindowSize (cfg sb));
  win_cap := fun sb => WindowSize (cfg sb);
  win_contents := fun sb => ring_contents (scores sb) (idx sb) (filled sb);
  win_sample := fun i => i.1.2;
  win_push := record_score;
}.
Next Obligation.
  intros [[now x] res] sb Hok. destruct (Record_ring now x res sb Hok) as (sb' & ev & E & _ & _ & _ & Hok').
  exists sb'. unfold record_score. cbn [fst snd]. now rewrite E.
Qed.
Next Obligation.
  intros [[now x] res] sb sb' Hok. destruct (Record_ring now x res sb Hok) as (sb1 & ev & E & _ & Hw & _).
  unfold record_score. cbn [fst snd]. rewrite E. intros [= <-]. exact Hw.
Qed.
Next Obligation.
  intros [[now x] res] sb sb' Hok. destruct (Record_ring now x res sb Hok) as (sb1 & ev & E & Hp & _).
  unfold record_score. cbn [fst snd]. rewrite E. intros [= <-]. eapply ring_push_contents; eassumption.
Qed.

(** ** The abstract state machine

    [sb_step c now enough avg x] is one observation: [avg] the rolling average
    after it, [x] the score itself, compared as the numbers they are; [enough]
    whether the window holds [MinSamples].  The abstract state is the state,
    the good probes counted so far and the instant it opened. *)

Definition Control : Type := SBState * Z * Z.
Definition control (sb : SemanticBreaker) : Control := (state sb, consecutiveGood sb, openAt sb).

Inductive sb_step (c : SemanticBreakerConfig) (now : Z) (enough : Prop) (avg x : R) : Control -> Control -> Prop :=
| step_warmup s : ~ enough -> sb_step c now enough avg x s s
| step_healthy g o : enough -> (B2R (FailingThreshold c) <= avg)%R -> (B2R (DegradedThreshold c) <= avg)%R ->
    sb_step c now enough avg x (SBHealthy, g, o) (SBHealthy, g, o)
| step_degrade g o : enough -> (B2R (FailingThreshold c) <= avg < B2R (DegradedThreshold c))%R ->
    sb_step c now enough avg x (SBHealthy, g, o) (SBDegraded, g, o)
| step_heal g o : enough -> (B2R (FailingThreshold c) <= avg)%R -> (B2R (DegradedThreshold c) <= avg)%R ->
    sb_step c now enough avg x (SBDegraded, g, o) (SBHealthy, g, o)
| step_degraded g o : enough -> (B2R (FailingThreshold c) <= avg < B2R (DegradedThreshold c))%R ->
    sb_step c now enough avg x (SBDegraded, g, o) (SBDegraded, g, o)
| step_trip st g o : st <> SBFailing -> enough -> (avg < B2R (FailingThreshold c))%R ->
    sb_step c now enough avg x (st, g, o) (SBFailing, 0, now)
| step_probe_good g o : enough -> (B2R (DegradedThreshold c) <= x)%R -> g + 1 < RecoverySamples c ->
    sb_step c now enough avg x (SBFailing, g, o) (SBFailing, g + 1, o)
| step_recover g o : enough -> (B2R (DegradedThreshold c) <= x)%R -> RecoverySamples c <= g + 1 ->
    sb_step c now enough avg x (SBFailing, g, o) (SBHealthy, 0, o)
| step_probe_mediocre g o : enough -> (B2R (FailingThreshold c) <= x < B2R (DegradedThreshold c))%R ->
    sb_step c now enough avg x (SBFailing, g, o) (SBFailing, g, o)
| step_probe_bad g o : enough -> (x < B2R (FailingThreshold c))%R ->
    sb_step c now enough avg x (SBFailing, g, o) (SBFailing, 0, now).

Lemma updateState_step now x sb sb' avg :
  sb_ok sb -> in_unit x -> in_unit avg -> rollingAvg sb (samples_seen sb) = Some avg ->
  updateState now x sb = Some sb' ->
  sb_step (cfg sb) now (MinSamples (cfg sb) <= samples_seen sb) (B2R avg) (B2R x) (control sb) (control sb').
Proof.
  intros (_ & _ & _ & ([Fd Hd] & [Ff Hf] & Hlt) & _ & _ & _ & Hrec & Hctl) [Fx _] [Fa _] Eavg.
  unfold updateState. rewrite Eavg. case_bool; zbool.
  { intros [= <-]. apply step_warmup. lia. }
  cbn [mbind option_bind]. intros [= <-]. unfold control, control_ok in *.
  destruct (state sb) eqn:Est; repeat case_bool; rewrite ?Est;
    cbn [with_control with_probe state consecutiveGood openAt]; rewrite ?Est;
    repeat match goal with
    | H : flt _ _ = true |- _ => apply flt_spec in H; [|assumption..]
    | H : flt _ _ = false |- _ => apply flt_false in H; [|assumption..]
    | H : fle _ _ = true |- _ => apply fle_spec in H; [|assumption..]
    | H : fle _ _ = false |- _ => apply fle_false in H; [|assumption..]
    end.
  all: try rewrite wrap64_id in * by (unfold int64_min, int64_max in *; lia); zbool.
  all: (constructor; (discriminate || assumption || lra || (split; lra))).
Qed.

(** ** Sequences of observations *)

(** [Record] moves the control by one step of the abstract machine, under the
    configuration it has learned and the rolling average it then reports. *)
Lemma Record_step now x res sb : sb_ok sb -> in_unit x ->
  exists sb' ev avg, Record_ now x res sb = Some (sb', ev) /\ sb_ok sb' /\ probeInFlight sb' = false /\
    cfg sb' = cfg (learn (with_lastResult sb res) x) /\
    RollingAvg sb' = Some avg /\ in_unit avg /\ 0 < samples_seen sb' /\
    sb_step (cfg sb') now (MinSamples (cfg sb') <= samples_seen sb') (B2R avg) (B2R x) (control sb) (control sb') /\
    ev = (if bool_decide (state sb' <> state sb) && onStateChange sb
          then Some (mkStateChange (state sb) (state sb') (TripReason sb') avg) else None).
Proof.
  intros Hok Hx. destruct (Record_total now x res sb Hok Hx) as (sb' & ev & E & Hok' & Hpf).
  exists sb', ev.
  destruct (Record_ring now x res sb (proj1 Hok)) as (sb'' & ev' & E' & _ & _ & Ecfg & _).
  rewrite E in E'. injection E' as <- <-.
  assert (Hok0 : sb_ok (with_lastResult sb res)) by exact Hok.
  pose proof (learn_ok _ x Hok0 Hx) as Hok1.
  destruct (learn_frame (with_lastResult sb res) x) as (_&_&_&E4&E5&E6&_&_&_&E10&_).
  cbn [with_lastResult state openAt consecutiveGood onStateChange] in E4, E5, E6, E10.
  revert E. unfold Record_. set (sb1 := learn (with_lastResult sb res) x) in *.
  pose proof Hok1 as (Hr & Hw & Hu & Ht & Hc & Hn & Hroom & Hrec & Hctl).
  destruct (ring_push_total (scores sb1) (idx sb1) (filled sb1) (WindowSize (cfg sb1)) x Hr)
    as (i & -> & Ei & Hr'). cbn [mbind option_bind]. set (sb2 := with_ring sb1 _ i _).
  set (sb3 := if decide (state sb2 = SBFailing) then clearProbe sb2 else sb2).
  assert (Hf3 : scores sb3 = scores sb2 /\ idx sb3 = idx sb2 /\ filled sb3 = filled sb2 /\ cfg sb3 = cfg sb1 /\
    control sb3 = control sb /\ state sb3 = state sb /\ onStateChange sb3 = onStateChange sb).
  { unfold control. rewrite <- E4, <- E5, <- E6, <- E10. unfold sb3. case_decide; done. }
  destruct Hf3 as (F1 & F2 & F3 & F4 & F5 & F6 & F7).
  assert (Hok3 : sb_ok sb3).
  { assert (Hok2 : sb_ok sb2).
    { unfold sb_ok, sb2. cbn [with_ring cfg scores idx calibSamples calibN calibration].
      repeat split; auto using Forall_insert; try apply Hr'; try apply Ht; exact Hctl. }
    unfold sb3. case_decide as Hd; [|exact Hok2].
    destruct Hok2 as (?&?&?&?&?&?&?&?&Hc2). unfold clearProbe, with_probe. repeat (split; [assumption|]).
    unfold control_ok in *. cbn [with_control state]. rewrite Hd in *. exact Hc2. }
  assert (Hs3 : 0 < samples_seen sb3 <= len (scores sb3)).
  { split; [|apply samples_seen_range, Hok3]. unfold samples_seen. rewrite F2, F3, F4.
    cbn [sb2 with_ring idx filled]. destruct Hr as (_ & Hi & _). destruct Hr' as (_ & Hi' & _).
    destruct (Z.eqb_spec i 0); [lia|]. destruct (filled sb1); lia. }
  destruct (rollingAvg_unit sb3 (samples_seen sb3)) as (avg & Eavg & Havg);
    [apply Hok3|lia|destruct Hok3 as ((?&_)&?&_); lia|].
  destruct (updateState now x sb3) as [sb4|] eqn:E3; [|done]. cbn [mbind option_bind].
  destruct (updateState_frame now x sb3 sb4 E3) as (T1 & T2 & T3 & T4).
  assert (Hss : samples_seen sb4 = samples_seen sb3) by (unfold samples_seen; now rewrite T2, T3, T4).
  assert (Hra : rollingAvg sb4 (samples_seen sb4) = Some avg)
    by (rewrite Hss; unfold rollingAvg in *; now rewrite T1).
  rewrite (proj2 (Z.ltb_lt 0 (samples_seen sb4))) by lia. rewrite Hra, F6. cbn [mbind option_bind].
  assert (Hon : onStateChange sb4 = onStateChange sb).
  { destruct (updateState_ok now x sb3 Hok3 ltac:(lia)) as (sb5 & E5' & _ & _ & _ & _ & _ & Ho & _).
    - intros Hst. unfold sb3 in *. case_decide as Hd; [done|]. now destruct Hd.
    - congruence. }
  rewrite Hon. intros E. exists avg.
  assert (Esb : sb4 = sb') by (case_bool; now injection E). subst sb4.
  split; [rewrite E; done|]. split; [exact Hok'|]. split; [exact Hpf|]. split; [exact Ecfg|].
  split; [unfold RollingAvg; rewrite (proj2 (Z.eqb_neq _ 0)) by lia; exact Hra|].
  split; [exact Havg|]. split; [lia|]. split.
  - rewrite <- F5, T4, Hss. now apply updateState_step.
  - case_bool; now injection E.
Qed.

(** Recording a sequence of scores at the given instants. *)
Fixpoint record_all (l : list (Z * f64 * QualityResult)) (sb : SemanticBreaker) : option SemanticBreaker :=
  match l with
  | [] => Some sb
  | i :: l => sb ← record_score i sb; record_all l sb
  end.
Definition scores_of (l : list (Z * f64 * QualityResult)) : list f64 := map (fun i => i.1.2) l.

(** How many full-quality scores there are since the last one under the
    failing threshold; [g] carries the count over. *)
Definition good_since_bad (c : SemanticBreakerConfig) (g : Z) (xs : list f64) : Z :=
  foldl (fun g x => if fle (DegradedThreshold c) x then g + 1
                    else if fle (FailingThreshold c) x then g else 0) g xs.

(** The breaker's thresholds no longer move. *)
Definition settled (sb : SemanticBreaker) : Prop := Calibrated (calibration sb) = true \/ calibN sb <= 0.

Lemma learn_settled sb x : settled sb ->
  cfg (learn sb x) = cfg sb /\ settled (learn sb x) /\
  Calibrated (calibration (learn sb x)) = Calibrated (calibration sb).
Proof.
  unfold settled, learn. intros Hs.
  destruct (Calibrated (calibration sb)) eqn:Ec; cbn [negb andb].
  - split; [done|]. split; [left|]; reflexivity.
  - destruct Hs as [|Hs]; [done|]. rewrite (proj2 (Z.ltb_ge 0 (calibN sb))) by lia. auto.
Qed.

(** ** Probing *)

(** Concurrent callers, in the order they take the mutex. *)
Fixpoint ask_all (nows : list Z) (sb : SemanticBreaker) : list bool * SemanticBreaker :=
  match nows with
  | [] => ([], sb)
  | now :: nows => let '(b, sb) := ShouldBlock now sb in
                   let '(bs, sb) := ask_all nows sb in (b :: bs, sb)
  end.
Definition admitted (bs : list bool) : Z := len (filter (fun b => b = false) bs).

Lemma ask_all_held nows : forall sb, state sb = SBFailing -> probeInFlight sb = true ->
  admitted (ask_all nows sb).1 = 0 /\ (ask_all nows sb).2 = sb.
Proof.
  induction nows as [|now nows IH]; intros sb Hst Hp; [done|]. cbn [ask_all].
  assert (E : ShouldBlock now sb = (true, sb)).
  { unfold ShouldBlock. rewrite decide_True by exact Hst. rewrite Hp. now case_bool. }
  rewrite E. destruct (IH sb Hst Hp) as [H1 H2]. destruct (ask_all nows sb) as [bs sb']. auto.
Qed.

Lemma Record_samples now x res sb sb' ev :
  ring_ok (scores sb) (idx sb) (WindowSize (cfg sb)) -> Record_ now x res sb = Some (sb', ev) ->
  samples_seen sb' = Z.min (WindowSize (cfg sb)) (samples_seen sb + 1).
Proof.
  intros Hok E. destruct (Record_ring now x res sb Hok) as (sb1 & ev1 & E1 & Hp & Hw & _).
  rewrite E in E1. injection E1 as <- <-.
  pose proof (ring_push_count _ _ _ _ _ _ _ _ Hok Hp) as Hc. unfold ring_count in Hc.
  unfold samples_seen. now rewrite Hw.
Qed.

(** What [Record] learns is what [learn] computes; the rest of it leaves the
    calibration alone. *)
Lemma Record_learns now x res sb sb' ev : Record_ now x res sb = Some (sb', ev) ->
  let sb1 := learn (with_lastResult sb res) x in
  calibration sb' = calibration sb1 /\ calibN sb' = calibN sb1 /\ cfg sb' = cfg sb1 /\
  calibSamples sb' = calibSamples sb1.
Proof.
  unfold Record_. cbv zeta. set (sb1 := learn _ x).
  destruct (ring_push _ _ _ _ _) as [[[s i] f]|]; [|done]. cbn [mbind option_bind].
  set (sb3 := if decide _ then _ else _).
  assert (H3 : calibration sb3 = calibration sb1 /\ calibN sb3 = calibN sb1 /\ cfg sb3 = cfg sb1 /\
               calibSamples sb3 = calibSamples sb1) by (unfold sb3; case_decide; done).
  destruct (updateState now x sb3) as [sb4|] eqn:E3; [|done]. cbn [mbind option_bind].
  assert (H4 : calibration sb4 = calibration sb3 /\ calibN sb4 = calibN sb3 /\ cfg sb4 = cfg sb3 /\
               calibSamples sb4 = calibSamples sb3).
  { revert E3. unfold updateState. case_bool; [now intros [= <-]|].
    destruct (rollingAvg sb3 (samples_seen sb3)); [|done]. cbn [mbind option_bind]. intros [= <-].
    destruct (state sb3); repeat case_bool; done. }
  case_bool; [destruct (if 0 <? samples_seen sb4 then _ else _); [|done]; cbn [mbind option_bind]|];
    intros [= <- _]; destruct H3 as (?&?&?&?), H4 as (?&?&?&?); repeat split; congruence.
Qed.

Lemma settled_record now x res sb sb' ev : settled sb ->
  Record_ now x res sb = Some (sb', ev) -> cfg sb' = cfg sb /\ settled sb' /\
  Calibrated (calibration sb') = Calibrated (calibration sb).
Proof.
  intros Hs E. assert (Hs0 : settled (with_lastResult sb res)) by exact Hs.
  destruct (learn_settled _ x Hs0) as (Hc & Hs1 & Hb).
  destruct (Record_learns now x res sb sb' ev E) as (E1 & E2 & E3 & _).
  unfold settled in *. rewrite E1, E2, E3. auto.
Qed.

Lemma record_all_settled l : forall sb sb', settled sb -> record_all l sb = Some sb' ->
  cfg sb' = cfg sb /\ Calibrated (calibration sb') = Calibrated (calibration sb).
Proof.
  induction l as [|[[now x] res] l IH]; intros sb sb' Hs; cbn [record_all].
  - now intros [= <-].
  - unfold record_score. cbn [fst snd].
    destruct (Record_ now x res sb) as [[sb1 ev]|] eqn:E; [|done]. cbn [mbind option_bind].
    intros E'. destruct (settled_record now x res sb sb1 ev Hs E) as (H1 & H2 & H3).
    destruct (IH sb1 sb' H2 E') as [H4 H5]. split; congruence.
Qed.

Lemma record_all_total l : forall sb, sb_ok sb -> Forall in_unit (scores_of l) ->
  exists sb', record_all l sb = Some sb' /\ sb_ok sb'.
Proof.
  induction l as [|[[now x] res] l IH]; intros sb Hok Hl; [exists sb; auto|].
  cbn [scores_of map fst snd] in Hl. apply Forall_cons in Hl as [Hx Hl].
  destruct (Record_total now x res sb Hok Hx) as (sb1 & ev & E & Hok1 & _).
  cbn [record_all]. unfold record_score. cbn [fst snd]. rewrite E. cbn [mbind option_bind]. auto.
Qed.

(** The scores that count toward calibration. *)
Definition acceptable (xs : list f64) : list f64 := filter (fun x => fle QualityAcceptable x = true) xs.

(** One observation before calibration. *)
Lemma learn_collects sb x :
  Calibrated (calibration sb) = false -> 0 < calibN sb ->
  let samples := calibSamples sb ++ acceptable [x] in
  let sb' := learn sb x in
  calibSamples sb' = samples /\ calibN sb' = calibN sb /\
  (len (calibSamples sb) < calibN sb ->
   if len samples <? calibN sb then Calibrated (calibration sb') = false /\ cfg sb' = cfg sb
   else Calibrated (calibration sb') = true /\
        (DegradedThreshold (cfg sb'), FailingThreshold (cfg sb'))
          = learned_thresholds (sample_mean samples) (sample_std samples)).
Proof.
  intros Hc Hn. unfold acceptable, learn. rewrite Hc, (proj2 (Z.ltb_lt 0 _)) by exact Hn. cbn [negb andb].
  destruct (fle QualityAcceptable x) eqn:E.
  - rewrite filter_cons_True, filter_nil by exact E. cbv zeta.
    set (sb1 := with_learning _ _ _ _). change (calibN sb1) with (calibN sb).
    set (samples := calibSamples sb ++ [x]).
    destruct (calibN sb <=? len samples) eqn:Ef; zbool.
    + unfold calibrate. change (calibSamples sb1) with samples.
      destruct (learned_thresholds _ _) as [d f] eqn:El. rewrite (proj2 (Z.ltb_ge _ _)) by lia. auto.
    + rewrite (proj2 (Z.ltb_lt _ _)) by lia. auto.
  - rewrite filter_cons_False, filter_nil, app_nil_r by congruence. cbv zeta.
    split; [done|]. split; [done|]. intros Hl. rewrite (proj2 (Z.ltb_lt _ _)) by lia. auto.
Qed.

Lemma record_all_calibrates l : forall sb, sb_ok sb -> Forall in_unit (scores_of l) ->
  Calibrated (calibration sb) = false -> 0 < calibN sb ->
  exists sb', record_all l sb = Some sb' /\
    let samples := calibSamples sb ++ acceptable (scores_of l) in
    if len samples <? calibN sb then Calibrated (calibration sb') = false /\ cfg sb' = cfg sb
    else let samples := take (Z.to_nat (calibN sb)) samples in
         Calibrated (calibration sb') = true /\
         (DegradedThreshold (cfg sb'), FailingThreshold (cfg sb'))
           = learned_thresholds (sample_mean samples) (sample_std samples).
Proof.
  induction l as [|[[now x] res] l IH]; intros sb Hok Hl Hc Hn; cbn [record_all scores_of map fst snd].
  - exists sb. split; [done|]. cbv zeta. change (acceptable []) with (@nil f64). rewrite app_nil_r.
    pose proof Hok as (_&_&_&_&_&_&Hroom&_). specialize (Hroom Hc).
    rewrite (proj2 (Z.ltb_lt _ _)) by lia. auto.
  - cbn [scores_of map fst snd] in Hl. apply Forall_cons in Hl as [Hx Hl].
    destruct (Record_total now x res sb Hok Hx) as (sb1 & ev & E & Hok1 & _).
    unfold record_score. cbn [fst snd]. rewrite E. cbn [mbind option_bind].
    destruct (Record_learns now x res sb sb1 ev E) as (L1 & L2 & L3 & L4).
    destruct (learn_collects (with_lastResult sb res) x Hc Hn) as (C1 & C2 & C3).
    cbn [with_lastResult calibSamples calibN cfg] in C1, C2, C3.
    pose proof Hok as (_&_&_&_&_&_&Hroom&_). specialize (Hroom Hc). specialize (C3 ltac:(lia)).
    cbv zeta. assert (Happ : calibSamples sb ++ acceptable (x :: scores_of l)
        = (calibSamples sb ++ acceptable [x]) ++ acceptable (scores_of l)).
    { rewrite <- app_assoc. f_equal. unfold acceptable. now rewrite <- filter_app. }
    fold (scores_of l). rewrite Happ. set (s1 := calibSamples sb ++ acceptable [x]) in *.
    destruct (len s1 <? calibN sb) eqn:E1; zbool.
    + destruct C3 as [C3 C3']. destruct (IH sb1 Hok1 Hl) as (sb' & E' & Hres); [congruence|congruence|].
      exists sb'. split; [exact E'|]. rewrite L4, L2, L3, C1, C2, C3' in Hres. exact Hres.
    + destruct C3 as [C3 C3'].
      destruct (record_all_total l sb1 Hok1 Hl) as (sb' & E' & _).
      exists sb'. split; [exact E'|].
      destruct (record_all_settled l sb1 sb') as [R1 R2]; [left; congruence|exact E'|].
      rewrite len_app, (proj2 (Z.ltb_ge _ _)) by (pose proof (len_nonneg (acceptable (scores_of l))); lia).
      assert (Htake : take (Z.to_nat (calibN sb)) (s1 ++ acceptable (scores_of l)) = s1).
      { assert (len s1 <= calibN sb).
        { unfold s1. rewrite len_app. assert (len (acceptable [x]) <= 1); [|lia].
          unfold acceptable, len. pose proof (length_filter (fun x => fle QualityAcceptable x = true) [x]).
          cbn [length] in *. lia. }
        apply take_app_length'. unfold len in *. lia. }
      rewrite Htake, R1, R2, L1, L3. auto.
Qed.

(** The scores [xs], observed while Failing with [g] good probes, do not
    complete a recovery. *)
Fixpoint no_recovery (c : SemanticBreakerConfig) (g : Z) (xs : list f64) : bool :=
  match xs with
  | [] => true
  | x :: xs => negb (fle (DegradedThreshold c) x && (RecoverySamples c <=? g + 1)) &&
               no_recovery c (good_since_bad c g [x]) xs
  end.

(** One observation of a settled, Failing breaker. *)
Lemma record_failing now x res sb :
  sb_ok sb -> settled sb -> state sb = SBFailing -> MinSamples (cfg sb) <= samples_seen sb -> in_unit x ->
  exists sb', record_score (now, x, res) sb = Some sb' /\ sb_ok sb' /\ settled sb' /\ cfg sb' = cfg sb /\
    MinSamples (cfg sb') <= samples_seen sb' /\
    if fle (DegradedThreshold (cfg sb)) x && (RecoverySamples (cfg sb) <=? consecutiveGood sb + 1)
    then state sb' = SBHealthy
    else state sb' = SBFailing /\ consecutiveGood sb' = good_since_bad (cfg sb) (consecutiveGood sb) [x].
Proof.
  intros Hok Hs Hst Hmin Hx.
  destruct (Record_step now x res sb Hok Hx) as (sb' & ev & avg & E & Hok' & _ & _ & _ & _ & _ & Hstep & _).
  destruct (settled_record now x res sb sb' ev Hs E) as (Hc & Hs' & _).
  pose proof (Record_samples now x res sb sb' ev (proj1 Hok) E) as Hn.
  pose proof (samples_seen_range sb (proj1 Hok)) as Hsr. destruct (proj1 Hok) as (Hl & _).
  exists sb'. unfold record_score. cbn [fst snd]. rewrite E. cbn [mbind option_bind].
  split; [done|]. split; [exact Hok'|]. split; [exact Hs'|]. split; [exact Hc|].
  assert (Hmin' : MinSamples (cfg sb') <= samples_seen sb') by (rewrite Hc; lia).
  split; [exact Hmin'|].
  destruct Hok as (_ & _ & _ & ([Fd _] & [Ff _] & Hlt) & _). destruct Hx as [Fx _].
  rewrite Hc in Hstep. unfold control in Hstep. rewrite Hst in Hstep.
  unfold good_since_bad. cbn [foldl].
  destruct (fle (DegradedThreshold (cfg sb)) x) eqn:E1;
    [apply fle_spec in E1; [|assumption..]|apply fle_false in E1; [|assumption..]];
  (destruct (fle (FailingThreshold (cfg sb)) x) eqn:E2;
    [apply fle_spec in E2; [|assumption..]|apply fle_false in E2; [|assumption..]]);
  cbn [andb]; try case_bool; zbool; inversion Hstep; subst; (exfalso; (tauto || lia || lra)) || auto.
Qed.

Lemma record_all_failing l : forall sb,
  sb_ok sb -> settled sb -> state sb = SBFailing -> MinSamples (cfg sb) <= samples_seen sb ->
  Forall in_unit (scores_of l) -> no_recovery (cfg sb) (consecutiveGood sb) (scores_of l) = true ->
  exists sb', record_all l sb = Some sb' /\ sb_ok sb' /\ settled sb' /\ cfg sb' = cfg sb /\
    MinSamples (cfg sb') <= samples_seen sb' /\ state sb' = SBFailing /\
    consecutiveGood sb' = good_since_bad (cfg sb) (consecutiveGood sb) (scores_of l).
Proof.
  induction l as [|[[now x] res] l IH]; intros sb Hok Hs Hst Hmin Hl Hno; [exists sb; auto 10|].
  cbn [scores_of map fst snd no_recovery] in *. apply Forall_cons in Hl as [Hx Hl].
  apply andb_prop in Hno as [Hno Hno']. apply negb_true_iff in Hno.
  destruct (record_failing now x res sb Hok Hs Hst Hmin Hx) as (sb1 & E & Hok1 & Hs1 & Hc1 & Hmin1 & Hcase).
  rewrite Hno in Hcase. destruct Hcase as [Hst1 Hg1].
  destruct (IH sb1 Hok1 Hs1 Hst1 Hmin1 Hl) as (sb' & E' & Hok' & Hs' & Hc' & Hmin' & Hst' & Hg').
  { rewrite Hc1, Hg1. exact Hno'. }
  exists sb'. cbn [record_all]. rewrite E. cbn [mbind option_bind].
  rewrite Hc1, Hg1 in *. auto 10.
Qed.

Lemma record_all_win_run l sb : record_all l sb = win_run l sb.
Proof. revert sb. induction l as [|i l IH]; intros sb; [done|]. cbn. destruct (record_score i sb); cbn; auto. Qed.

(** ** Properties of the breaker *)

(** C4.  [Record] implements the documented state machine: on a well-formed
    breaker and a score in [0, 1] it never panics, keeps the breaker
    well-formed, releases the probe, moves state, good-probe count and opening
    time by one rule of [sb_step] (comparing the exact values of the rolling
    average and of the score with the thresholds in force), and starts the
    state-change callback, with the average it reports, exactly when the state
    changed. *)
Theorem Record_refines now x res sb : sb_ok sb -> in_unit x ->
  exists sb' ev avg, Record_ now x res sb = Some (sb', ev) /\ sb_ok sb' /\ probeInFlight sb' = false /\
    RollingAvg sb' = Some avg /\ in_unit avg /\
    sb_step (cfg sb') now (MinSamples (cfg sb') <= samples_seen sb') (B2R avg) (B2R x) (control sb) (control sb') /\
    ev = (if bool_decide (state sb' <> state sb) && onStateChange sb
          then Some (mkStateChange (state sb) (state sb') (TripReason sb') avg) else None).
Proof.
  intros Hok Hx.
  destruct (Record_step now x res sb Hok Hx) as (sb' & ev & avg & ? & ? & ? & _ & ? & ? & _ & ? & ?).
  exists sb', ev, avg. auto 10.
Qed.

Definition fresh_breaker : SemanticBreaker :=
  default (mkBreaker DefaultSBConfig [] 0 false SBHealthy 0 0 false [] 0 (no_calibration 0) (mkResult f0 []) EmptyString false)
    (NewSemanticBreaker DefaultSBConfig).

Lemma fresh_breaker_ok : sb_ok fresh_breaker.
Proof.
  destruct (NewSemanticBreakerWithCalibN_ok DefaultSBConfig 20 DefaultSBConfig_ok) as (sb & E & Hok & _); [lia|].
  vm_compute in E. injection E as <-. exact Hok.
Qed.

Lemma Record_refines_witness : sb_ok fresh_breaker /\ in_unit f1 /\
  exists sb' ev avg, Record_ 0 f1 (mkResult f1 []) fresh_breaker = Some (sb', ev) /\ sb_ok sb' /\
    probeInFlight sb' = false /\ RollingAvg sb' = Some avg /\ in_unit avg /\
    sb_step (cfg sb') 0 (MinSamples (cfg sb') <= samples_seen sb') (B2R avg) (B2R f1)
      (control fresh_breaker) (control sb') /\
    ev = (if bool_decide (state sb' <> state fresh_breaker) && onStateChange fresh_breaker
          then Some (mkStateChange (state fresh_breaker) (state sb') (TripReason sb') avg) else None).
Proof.
  split; [apply fresh_breaker_ok|]. split; [apply in_unit_1|].
  apply (Record_refines 0 f1 (mkResult f1 []) fresh_breaker); [apply fresh_breaker_ok|apply in_unit_1].
Defined.

(** The rolling average is the average of the last [WindowSize] scores:
    after any history the breaker holds exactly that window, and [RollingAvg]
    divides the sum of its scores (in slot order) by their number. *)
Theorem RollingAvg_window l sb : win_ok sb -> len (win_contents sb) <= win_cap sb ->
  let window := lastn (Z.to_nat (win_cap sb)) (win_contents sb ++ scores_of l) in
  exists sb', record_all l sb = Some sb' /\ win_contents sb' = window /\
    (window <> [] ->
     exists slots, slots ≡ₚ window /\ RollingAvg sb' = Some (fdiv (fsum_from f0 slots) (f64_of_Z (len window)))).
Proof.
  intros Hok Hlen. rewrite record_all_win_run.
  destruct (win_run_contents l sb Hok) as (sb' & E & Hok' & Hc & Hct); [unfold len in Hlen; lia|].
  exists sb'. split; [exact E|]. split; [exact Hct|]. intros Hne.
  change (scores_of l) with (map win_sample l) in *. rewrite <- Hct in *. clear Hct E Hok Hlen Hc.
  exists (take (Z.to_nat (samples_seen sb')) (scores sb')).
  pose proof (ring_prefix_perm (scores sb') (idx sb') (filled sb') _ Hok') as Hperm.
  pose proof (ring_contents_length (scores sb') (idx sb') (filled sb') _ Hok') as Hlen.
  split; [symmetry; exact Hperm|].
  change (len (win_contents sb') = samples_seen sb') in Hlen. rewrite Hlen.
  pose proof (samples_seen_range sb' Hok').
  unfold RollingAvg. rewrite (proj2 (Z.eqb_neq _ 0)); [now apply rollingAvg_spec|].
  intros H0. rewrite H0 in Hlen. now apply Hne, len_zero_nil.
Qed.

Lemma RollingAvg_window_witness :
  exists sb', record_all (repeat (0, f1, mkResult f1 []) 9) fresh_breaker = Some sb' /\
    win_contents sb' = repeat f1 8.
Proof.
  destruct (RollingAvg_window (repeat (0, f1, mkResult f1 []) 9) fresh_breaker) as (sb' & E & Hc & _).
  - apply fresh_breaker_ok.
  - vm_compute. discriminate.
  - exists sb'. split; [exact E|]. rewrite Hc. vm_compute. reflexivity.
Defined.

(** Calibration: a fresh breaker keeps its configured thresholds until it
    has seen [calibN] acceptable scores; from then on its thresholds are
    those learned from the first [calibN] acceptable scores, within the
    documented bands 0.40..0.80 for degraded, at least 0.10 for failing, and
    failing strictly under degraded. *)
Theorem calibration_thresholds c n l : config_ok c -> 0 < n <= 2 ^ 52 -> Forall in_unit (scores_of l) ->
  exists sb0 sb, NewSemanticBreakerWithCalibN c n = Some sb0 /\ record_all l sb0 = Some sb /\
    let good := acceptable (scores_of l) in
    if len good <? n then Calibrated (calibration sb) = false /\ cfg sb = c
    else let first := take (Z.to_nat n) good in
      let D := DegradedThreshold (cfg sb) in let F := FailingThreshold (cfg sb) in
      Calibrated (calibration sb) = true /\
      (D, F) = learned_thresholds (sample_mean first) (sample_std first) /\
      (B2R (flit 40 100) <= B2R D <= B2R (flit 80 100))%R /\
      (B2R (flit 10 100) <= B2R F < B2R D)%R.
Proof.
  intros Hc Hn Hl.
  destruct (NewSemanticBreakerWithCalibN_ok c n Hc) as (sb0 & E0 & Hok & _ & Ec & En & _); [lia|].
  assert (Hs0 : calibSamples sb0 = [] /\ Calibrated (calibration sb0) = false).
  { revert E0. unfold NewSemanticBreakerWithCalibN, NewSemanticBreaker.
    destruct (make_slice _ _); [|done]. cbn [mbind option_bind]. now intros [= <-]. }
  destruct Hs0 as [Hs0 Hs0'].
  destruct (record_all_calibrates l sb0 Hok Hl Hs0') as (sb & E & Hres); [lia|].
  exists sb0, sb. split; [exact E0|]. split; [exact E|]. cbv zeta in *. rewrite Hs0, En, Ec in Hres.
  cbn [app] in Hres. case_bool; [exact Hres|]. zbool. destruct Hres as [H1 H2].
  split; [exact H1|]. split; [exact H2|].
  set (first := take (Z.to_nat n) (acceptable (scores_of l))) in *.
  assert (Hu : Forall in_unit first).
  { apply Forall_take. unfold acceptable. apply Forall_forall. intros x Hx.
    apply list_elem_of_filter in Hx as [_ Hx]. rewrite Forall_forall in Hl. auto. }
  assert (Hf : len first = n) by (unfold first, len in *; rewrite length_take; lia).
  destruct (sample_std_bounds first Hu) as [Fs Vs]; [lia|].
  assert (Hstd : (0 <= B2R (sample_std first) <= 1)%R)
    by (fval (flit 5 100); destruct Hval as [F5 V5]; rewrite V5 in Vs; lra).
  pose proof (learned_thresholds_bounds _ _ (sample_mean_unit first Hu ltac:(lia)) Fs Hstd) as Hb.
  destruct (learned_thresholds (sample_mean first) (sample_std first)) as [d f].
  injection H2 as -> ->. tauto.
Qed.

Lemma calibration_thresholds_witness :
  config_ok DefaultSBConfig /\
  exists sb0 sb, NewSemanticBreakerWithCalibN DefaultSBConfig 2 = Some sb0 /\
    record_all [(0, f1, mkResult f1 []); (0, f0, mkResult f1 []); (0, f1, mkResult f1 [])] sb0 = Some sb /\
    DegradedThreshold (cfg sb) = flit 80 100 /\ FailingThreshold (cfg sb) = flit 60 100.
Proof.
  split; [exact DefaultSBConfig_ok|].
  destruct (calibration_thresholds DefaultSBConfig 2
    [(0, f1, mkResult f1 []); (0, f0, mkResult f1 []); (0, f1, mkResult f1 [])]) as (sb0 & sb & E0 & E & H).
  - exact DefaultSBConfig_ok.
  - lia.
  - repeat (constructor; [apply in_unit_1 || apply in_unit_0|]). constructor.
  - exists sb0, sb. split; [exact E0|]. split; [exact E|].
    cbv zeta in H. destruct (len _ <? 2) eqn:El; [vm_compute in El; discriminate|].
    destruct H as (_ & H & _).
    replace (learned_thresholds _ _) with (flit 80 100, flit 60 100) in H by (vm_compute; reflexivity).
    injection H as H1 H2. exact (conj H1 H2).
Defined.

(** C5.  Recovery: a settled breaker that is Failing stays Failing as long as
    no full-quality score completes the [RecoverySamples] counted since the
    last score under the failing threshold, and the next score makes it
    Healthy exactly when it completes them. *)
Theorem recovery_exact sb l now x res :
  sb_ok sb -> settled sb -> state sb = SBFailing -> MinSamples (cfg sb) <= samples_seen sb ->
  Forall in_unit (scores_of l) -> in_unit x ->
  no_recovery (cfg sb) (consecutiveGood sb) (scores_of l) = true ->
  exists sb1 sb2, record_all l sb = Some sb1 /\ state sb1 = SBFailing /\
    record_score (now, x, res) sb1 = Some sb2 /\
    (state sb2 = SBHealthy <->
      fle (DegradedThreshold (cfg sb)) x = true /\
      RecoverySamples (cfg sb) <= good_since_bad (cfg sb) (consecutiveGood sb) (scores_of l) + 1) /\
    (state sb2 <> SBHealthy -> state sb2 = SBFailing).
Proof.
  intros Hok Hs Hst Hmin Hl Hx Hno.
  destruct (record_all_failing l sb Hok Hs Hst Hmin Hl Hno) as (sb1 & E1 & Hok1 & Hs1 & Hc1 & Hmin1 & Hst1 & Hg1).
  destruct (record_failing now x res sb1 Hok1 Hs1 Hst1 Hmin1 Hx) as (sb2 & E2 & _ & _ & _ & _ & Hcase).
  exists sb1, sb2. split; [exact E1|]. split; [exact Hst1|]. split; [exact E2|].
  rewrite Hc1, Hg1 in Hcase.
  destruct (fle (DegradedThreshold (cfg sb)) x); cbn [andb] in Hcase.
  - case_bool; zbool.
    + split; [tauto|]. intros Hne. contradiction.
    + destruct Hcase as [Hf _]. rewrite Hf. split; [|done]. split; [discriminate|]. intros [_ ?]. lia.
  - destruct Hcase as [Hf _]. rewrite Hf. split; [|done]. split; [discriminate|]. now intros [? _].
Qed.

(** A Failing breaker whose [openAt] is the epoch, with no probe in flight. *)
Definition failing_breaker : SemanticBreaker :=
  with_control fresh_breaker SBFailing 0 0 false "tripped".

Lemma failing_breaker_ok n : sb_ok (with_control
  (default fresh_breaker (record_all (repeat (0, f1, mkResult f1 []) n) fresh_breaker)) SBFailing 0 0 false "tripped").
Proof.
  assert (H : exists sb', record_all (repeat (0, f1, mkResult f1 []) n) fresh_breaker = Some sb' /\ sb_ok sb').
  { apply record_all_total; [apply fresh_breaker_ok|].
    induction n as [|n IH]; constructor; [apply in_unit_1|exact IH]. }
  destruct H as (sb' & -> & (?&?&?&?&?&?&?&Hr&_)). cbn [default]. repeat (split; [assumption|]).
  unfold control_ok. cbn [with_control state TripReason consecutiveGood cfg]. split; [discriminate|]. lia.
Qed.

Lemma recovery_exact_witness :
  let sb := with_control (with_learning
     (default fresh_breaker (record_all (repeat (0, f1, mkResult f1 []) 3) fresh_breaker))
     DefaultSBConfig [] (mkCalibration true 20 20 f1 f0 (flit 65 100) (flit 45 100) f1 0 false))
     SBFailing 0 0 false "tripped" in
  exists sb1 sb2, record_all [(1, f1, mkResult f1 []); (2, flit 1 2, mkResult f1 [])] sb = Some sb1 /\
    state sb1 = SBFailing /\ record_score (3, f1, mkResult f1 []) sb1 = Some sb2 /\ state sb2 = SBHealthy.
Proof.
  intros sb.
  destruct (recovery_exact sb [(1, f1, mkResult f1 []); (2, flit 1 2, mkResult f1 [])] 3 f1 (mkResult f1 []))
    as (sb1 & sb2 & E1 & H1 & E2 & Hiff & _).
  - destruct (failing_breaker_ok 3) as (H1 & H2 & H3 & _ & _ & H6 & _ & _ & _).
    split; [exact H1|]. split; [exact H2|]. split; [exact H3|]. split; [apply DefaultSBConfig_ok|].
    split; [constructor|]. split; [exact H6|]. split; [discriminate|].
    split; [vm_compute; discriminate|]. split; [discriminate|]. vm_compute. split; [discriminate|reflexivity].
  - left. reflexivity.
  - reflexivity.
  - vm_compute. discriminate.
  - constructor; [apply in_unit_1|]. constructor; [|constructor].
    fval (flit 1 2). destruct Hval as [F V]. split; [exact F|]. cbn [fst snd]. rewrite V. lra.
  - apply in_unit_1.
  - vm_compute. reflexivity.
  - exists sb1, sb2. split; [exact E1|]. split; [exact H1|]. split; [exact E2|]. apply Hiff.
    split; [vm_compute; reflexivity|]. vm_compute. discriminate.
Defined.

(** C6.  One probe at a time: whatever the number of concurrent callers and
    the times at which they ask, between two [Record]s an open breaker admits
    at most one of them, none while a probe is in flight, and none that asks
    before [OpenTimeout] has passed; a breaker that is not Failing admits all. *)
Theorem probe_exclusive nows sb :
  let '(answers, sb') := ask_all nows sb in
  (state sb <> SBFailing -> admitted answers = len nows /\ sb' = sb) /\
  (state sb = SBFailing ->
     admitted answers <= 1 /\
     (probeInFlight sb = true -> admitted answers = 0) /\
     (Forall (fun now => time_sub now (openAt sb) < OpenTimeout (cfg sb)) nows -> admitted answers = 0) /\
     (probeInFlight sb = false -> Exists (fun now => OpenTimeout (cfg sb) <= time_sub now (openAt sb)) nows ->
        admitted answers = 1 /\ probeInFlight sb' = true)).
Proof.
  destruct (ask_all nows sb) as [answers sb'] eqn:E. split.
  - intros Hst. revert sb answers sb' E Hst.
    induction nows as [|now nows IH]; intros sb answers sb' E Hst; cbn [ask_all] in E.
    { now injection E as <- <-. }
    unfold ShouldBlock in E. rewrite decide_False in E by exact Hst.
    destruct (ask_all nows sb) as [bs s1] eqn:E1. injection E as <- <-.
    destruct (IH sb bs s1 E1 Hst) as [H1 ->]. split; [|done].
    unfold admitted in *. rewrite filter_cons_True by done. rewrite !len_cons. lia.
  - intros Hst. revert answers sb' E. induction nows as [|now nows IH]; intros answers sb' E; cbn [ask_all] in E.
    { injection E as <- <-. change (admitted []) with 0.
      split; [lia|]. split; [done|]. split; [done|]. intros _ Hx. inversion Hx. }
    assert (Hskip : ShouldBlock now sb = (true, sb) \/
      (OpenTimeout (cfg sb) <= time_sub now (openAt sb) /\ probeInFlight sb = false /\
       ShouldBlock now sb = (false, with_probe sb true))).
    { unfold ShouldBlock. rewrite decide_True by exact Hst. case_bool; zbool; [|now left].
      destruct (probeInFlight sb); auto. }
    destruct Hskip as [Hb|(Ht & Hp & Hb)]; rewrite Hb in E.
    + destruct (ask_all nows sb) as [bs s1] eqn:E1. injection E as <- <-.
      destruct (IH bs s1 eq_refl) as (H1 & H2 & H3 & H4).
      assert (Ha : admitted (true :: bs) = admitted bs) by (unfold admitted; now rewrite filter_cons_False by done).
      rewrite Ha. split; [exact H1|]. split; [exact H2|]. split.
      { intros [_ Hf]%Forall_cons. auto. }
      intros Hp [Hnow|Hex]%Exists_cons; [|auto]. exfalso. revert Hb. unfold ShouldBlock.
      rewrite decide_True by exact Hst. rewrite (proj2 (Z.leb_le _ _)) by exact Hnow. rewrite Hp. discriminate.
    + destruct (ask_all_held nows (with_probe sb true) Hst eq_refl) as [Ha Hs].
      destruct (ask_all nows (with_probe sb true)) as [bs s1]. cbn [fst snd] in Ha, Hs. subst s1.
      injection E as <- <-.
      assert (Ha1 : admitted (false :: bs) = 1)
        by (unfold admitted in *; rewrite filter_cons_True by done; rewrite len_cons; lia).
      rewrite Ha1. split; [lia|]. split; [congruence|]. split; [|auto].
      intros [Hlt _]%Forall_cons. lia.
Qed.

Lemma probe_exclusive_witness :
  let '(answers, sb') := ask_all [5; 30 * second; 31 * second] failing_breaker in
  admitted answers = 1 /\ probeInFlight sb' = true.
Proof.
  pose proof (probe_exclusive [5; 30 * second; 31 * second] failing_breaker) as H.
  destruct (ask_all _ _) as [answers sb']. apply (proj2 H); [reflexivity|reflexivity|].
  right. left. vm_compute. discriminate.
Defined.

Lemma sb_step_warmup c now enough avg x s s' : sb_step c now enough avg x s s' -> ~ enough -> s' = s.
Proof. destruct 1; tauto. Qed.

(** No trip on too little evidence: a fresh breaker that has recorded
    fewer than [MinSamples] scores (in a window that can hold them) is Healthy
    and blocks nobody, however bad the scores are. *)
Theorem no_trip_before_MinSamples c n l now : config_ok c -> n <= 2 ^ 52 -> Forall in_unit (scores_of l) ->
  len l < MinSamples c <= WindowSize c ->
  exists sb0 sb, NewSemanticBreakerWithCalibN c n = Some sb0 /\ record_all l sb0 = Some sb /\
    state sb = SBHealthy /\ ShouldBlock now sb = (false, sb).
Proof.
  intros Hc Hn Hl Hmin.
  destruct (NewSemanticBreakerWithCalibN_ok c n Hc Hn) as (sb0 & E0 & Hok & Hst & Ec & _ & Hi & Hf).
  exists sb0.
  assert (Hseen : samples_seen sb0 + len l < MinSamples (cfg sb0))
    by (unfold samples_seen; rewrite Hf, Hi, Ec; lia).
  assert (Hw : MinSamples (cfg sb0) <= WindowSize (cfg sb0)) by (rewrite Ec; lia).
  cut (exists sb, record_all l sb0 = Some sb /\ state sb = SBHealthy).
  { intros (sb & E & Hs). exists sb. split; [exact E0|]. split; [exact E|]. split; [exact Hs|].
    unfold ShouldBlock. now rewrite decide_False by congruence. }
  clear Ec Hi Hf Hmin Hc E0. revert sb0 Hok Hst Hseen Hw.
  induction l as [|[[t x] res] l IH]; intros sb0 Hok Hst Hseen Hw; [exists sb0; auto|].
  cbn [scores_of map fst snd] in Hl. apply Forall_cons in Hl as [Hx Hl]. rewrite len_cons in Hseen.
  destruct (Record_step t x res sb0 Hok Hx) as (sb1 & ev & avg & E & Hok1 & _ & Ecfg & _ & _ & _ & Hstep & _).
  pose proof (Record_samples t x res sb0 sb1 ev (proj1 Hok) E) as Hs1.
  destruct (learn_frame (with_lastResult sb0 res) x) as (_&_&_&_&_&_&_&_&_&_&W1&M1&_).
  cbn [with_lastResult cfg] in W1, M1. pose proof (len_nonneg l).
  assert (Hctl : control sb1 = control sb0).
  { eapply sb_step_warmup; [exact Hstep|]. rewrite Ecfg, M1. lia. }
  cbn [record_all]. unfold record_score. cbn [fst snd]. rewrite E. cbn [mbind option_bind].
  apply IH; auto.
  - unfold control in Hctl. congruence.
  - rewrite Ecfg, M1. lia.
  - rewrite Ecfg, M1, W1. lia.
Qed.

Lemma no_trip_before_MinSamples_witness :
  exists sb0 sb, NewSemanticBreakerWithCalibN DefaultSBConfig 20 = Some sb0 /\
    record_all [(0, f0, mkResult f0 []); (1, f0, mkResult f0 [])] sb0 = Some sb /\
    state sb = SBHealthy /\ ShouldBlock 2 sb = (false, sb).
Proof.
  apply (no_trip_before_MinSamples DefaultSBConfig 20 [(0, f0, mkResult f0 []); (1, f0, mkResult f0 [])] 2).
  - exact DefaultSBConfig_ok.
  - lia.
  - repeat (constructor; [apply in_unit_0|]). constructor.
  - vm_compute. split; [reflexivity|discriminate].
Defined.

(** ** What the model shows of the code *)

(** The scores that tripped the breaker stay in the window through a recovery:
    after two perfect probes the breaker is Healthy, and a third perfect score
    re-opens it, because the average of the window is still under the failing
    threshold. *)
Example recovered_breaker_retrips :
  let r := mkResult f1 [] in
  let bad := (0, flit 10 100, r) in let good := (30 * second, flit 90 100, r) in
  option_map state (record_all [bad; bad; bad; bad; good; good] fresh_breaker) = Some SBHealthy /\
  option_map state (record_all [bad; bad; bad; bad; good; good; good] fresh_breaker) = Some SBFailing.
Proof. vm_compute. auto. Qed.
