(* ===== verification/Calculator.v ===== *)
(** * The calculator tool's evaluator (agent/tool.go, exprParser)

    A recursive-descent evaluator over the runes of the expression.  The Go
    functions recurse without a structural argument: here they take fuel, one
    unit per call, and [parse_fuel] (ten units per rune left and ten more) is
    proved enough for every input.  [pos] never leaves the input, so no index
    is out of range.

    [math.Pow], [math.Log10] and [math.Log] are not correctly rounded and
    differ between processors: they are the type class [MathFun], with the
    special values their documentation fixes.  Every other function is exact. *)
From S2P Require Import Prelude Float64 GoStrings.
From Stdlib Require Import ZArith Lia Reals Lra String Ascii SpecFloat.
From stdpp Require Import base tactics list strings.
#[local] Open Scope Z_scope.

(** ** The functions of package math and strconv *)

Class MathFun := {
  fpow : f64 -> f64 -> f64;
  flog10 : f64 -> f64;
  flog : f64 -> f64;
  fpow_zero : forall x s, fpow x (S754_zero s) = f1;
  flog_one : flog f1 = f0;
  flog10_one : flog10 f1 = f0;
}.

Definition fabs (x : f64) : f64 := if signbit x then fopp x else x.

(** [math.Floor]: a finite number with a fraction is below 2^53. *)
Definition ffloor (x : f64) : f64 :=
  match x with
  | S754_finite s m e =>
      if 0 <=? e then x
      else let n := f_num x / f_den x in if n =? 0 then S754_zero false else f64_of_Z n
  | _ => x
  end.
Definition fceil (x : f64) : f64 := fopp (ffloor (fopp x)).
Definition ftrunc (x : f64) : f64 := if signbit x then fceil x else ffloor x.

(** [strconv.ParseFloat] on the tokens [parseNumber] cuts: digits and dots,
    possibly digits of other scripts.  The result and whether it is an error:
    no digit, two dots or a digit that is not ASCII are a syntax error with
    value 0, a number beyond the floats is a range error with value +Inf. *)
Fixpoint decimal (l : list Z) (mant : Z) (ndigits : Z) (frac : option Z) : option (Z * Z * Z) :=
  match l with
  | [] => if ndigits =? 0 then None else Some (mant, ndigits, default 0 frac)
  | c :: l =>
      if c =? 46 then match frac with None => decimal l mant ndigits (Some 0) | Some _ => None end
      else if ascii_digit c
      then decimal l (10 * mant + (c - 48)) (ndigits + 1) (option_map (fun k => k + 1) frac)
      else None
  end.
Definition ParseFloat (l : list Z) : f64 * bool :=
  match decimal l 0 0 None with
  | None => (f0, true)
  | Some (mant, _, k) =>
      match mant with
      | Zpos n =>
          let v := fratio n (Z.to_pos (10 ^ k)) in
          (v, match v with S754_infinity _ => true | _ => false end)
      | _ => (f0, false)
      end
  end.

(** ** The parser *)

(** The error messages. *)
Inductive ExprError :=
| ErrEnd | ErrParen | ErrDivision | ErrNumber (token : list Z) | ErrChar (c : Z) (position : Z) | ErrTrailing (rest : list Z).

Record exprParser := mkParser { input : list Z; pos : nat; err : option ExprError }.

Definition cur (p : exprParser) : option Z := input p !! pos p.
Definition at_char (p : exprParser) (c : Z) : bool :=
  match cur p with Some d => d =? c | None => false end.
Definition advance (p : exprParser) : exprParser := mkParser (input p) (S (pos p)) (err p).
Definition set_err (e : ExprError) (p : exprParser) : exprParser := mkParser (input p) (pos p) (Some e).

(** Loops of the form [for p.pos < len(p.input) && f(p.input[p.pos]) { p.pos++ }]. *)
Fixpoint skip_while (f : Z -> bool) (l : list Z) : nat :=
  match l with c :: l => if f c then S (skip_while f l) else O | [] => O end.
Definition skip (f : Z -> bool) (p : exprParser) : exprParser :=
  mkParser (input p) (pos p + skip_while f (drop (pos p) (input p))) (err p).
Definition skipWS (p : exprParser) : exprParser := skip (fun c => c =? 32) p.
(** [p.pos++; p.skipWS()]. *)
Definition next (p : exprParser) : exprParser := skipWS (advance p).

Section Parser.
Context `{Unicode} `{MathFun}.

Definition number_char (c : Z) : bool := is_digit c || (c =? 46).

Definition parseNumber (p : exprParser) : f64 * exprParser :=
  let q := skip number_char p in
  let token := take (pos q - pos p) (drop (pos p) (input p)) in
  let '(v, bad) := ParseFloat token in
  (v, skipWS (if bad : bool then set_err (ErrNumber token) q else q)).

(** [parseName]: the empty name when the rune is not a letter. *)
Definition parseName (p : exprParser) : list Z * exprParser :=
  let q := skip is_letter p in (take (pos q - pos p) (drop (pos p) (input p)), q).

Definition runes_of (s : string) : list Z := rune_values s.
Definition call_fun (name : list Z) : option (f64 -> f64) :=
  if decide (name = runes_of "sqrt") then Some fsqrt
  else if decide (name = runes_of "abs") then Some fabs
  else if decide (name = runes_of "floor") then Some ffloor
  else if decide (name = runes_of "ceil") then Some fceil
  else if decide (name = runes_of "log") then Some flog10
  else if decide (name = runes_of "ln") then Some flog
  else None.

Fixpoint parseExpr (n : nat) (p : exprParser) : option (f64 * exprParser) :=
  match n with
  | O => None
  | S n => '(v, p) ← parseTerm n p; expr_loop n v p
  end
with expr_loop (n : nat) (v : f64) (p : exprParser) : option (f64 * exprParser) :=
  match n with
  | O => None
  | S n =>
      if at_char p 43 then '(t, p) ← parseTerm n (next p); expr_loop n (fadd v t) p
      else if at_char p 45 then '(t, p) ← parseTerm n (next p); expr_loop n (fsub v t) p
      else Some (v, p)
  end
with parseTerm (n : nat) (p : exprParser) : option (f64 * exprParser) :=
  match n with
  | O => None
  | S n => '(v, p) ← parsePower n p; term_loop n v p
  end
with term_loop (n : nat) (v : f64) (p : exprParser) : option (f64 * exprParser) :=
  match n with
  | O => None
  | S n =>
      if at_char p 42 then '(t, p) ← parsePower n (next p); term_loop n (fmul v t) p
      else if at_char p 47 then
        '(d, p) ← parsePower n (next p);
        if feq d f0 then Some (f0, set_err ErrDivision p) else term_loop n (fdiv v d) p
      else Some (v, p)
  end
with parsePower (n : nat) (p : exprParser) : option (f64 * exprParser) :=
  match n with
  | O => None
  | S n =>
      '(base, p) ← parseUnary n p;
      if at_char p 94 then '(exp, p) ← parsePower n (next p); Some (fpow base exp, p)
      else Some (base, p)
  end
with parseUnary (n : nat) (p : exprParser) : option (f64 * exprParser) :=
  match n with
  | O => None
  | S n =>
      if at_char p 45 then '(v, p) ← parsePrimary n (next p); Some (fopp v, p)
      else parsePrimary n p
  end
with parsePrimary (n : nat) (p : exprParser) : option (f64 * exprParser) :=
  match n with
  | O => None
  | S n =>
      match cur p with
      | None => Some (f0, set_err ErrEnd p)
      | Some c =>
          if c =? 40 then
            '(v, p) ← parseExpr n (next p);
            if at_char p 41 then Some (v, next p) else Some (v, set_err ErrParen p)
          else if number_char c then Some (parseNumber p)
          else
            let bad := fun p => Some (f0, set_err (ErrChar c (Z.of_nat (pos p))) p) in
            let '(name, p) := parseName p in
            match name with
            | [] => bad p
            | _ =>
                let p := skipWS p in
                if at_char p 40 then
                  '(arg, p) ← parseExpr n (next p);
                  let p := if at_char p 41 then next p else p in
                  match call_fun name with
                  | Some f => Some (f arg, p)
                  | None => bad p
                  end
                else bad p
            end
      end
  end.

Definition parse_fuel (p : exprParser) : nat := 10 * (length (input p) - pos p) + 10.

(** [strings.ReplaceAll(s, "**", "^")]. *)
Fixpoint replace_pow (s : string) : string :=
  match s with
  | String a s' =>
      match s' with
      | String b s'' =>
          if Ascii.eqb a "*" && Ascii.eqb b "*" then String "^" (replace_pow s'') else String a (replace_pow s')
      | EmptyString => s
      end
  | EmptyString => EmptyString
  end.

Definition evalExpr (s : string) : option (ExprError + f64) :=
  let p := skipWS (mkParser (rune_values (replace_pow s)) 0 None) in
  '(v, p) ← parseExpr (parse_fuel p) p;
  match err p with
  | Some e => Some (inl e)
  | None =>
      let p := skipWS p in
      if (pos p <? length (input p))%nat then Some (inl (ErrTrailing (drop (pos p) (input p)))) else Some (inr v)
  end.

(** [CalculateTool.Execute] on the argument's text. *)
Definition Calculate (expr : string) : option (option ExprError + string) :=
  if String.eqb expr EmptyString then Some (inl None)
  else
    r ← evalExpr expr;
    match r with
    | inl e => Some (inl (Some e))
    | inr v => Some (inr (if feq v (ftrunc v) then fmt_fixed 0 v else fmt_fixed 6 v))
    end.
End Parser.

(** A total instance for examples: exact powers of small integers, and the
    documented special values. *)
Definition sample_pow (x y : f64) : f64 :=
  match y with
  | S754_zero _ => f1
  | _ => match f64_to_int y with
         | Some n => foldr (fun _ acc => fmul x acc) f1 (replicate (Z.to_nat n) tt)
         | None => S754_nan
         end
  end.
Definition sample_log (x : f64) : f64 := if feq x f1 then f0 else S754_nan.
#[export] Instance sample_math : MathFun.
Proof. refine {| fpow := sample_pow; flog10 := sample_log; flog := sample_log |}; intros; vm_compute; reflexivity. Defined.

Example calc_examples :
  Calculate "2^10 + 5 * 3" = Some (inr "1039"%string) /\
  Calculate "2 ** 3 ** 2" = Some (inr "512"%string) /\
  Calculate "-2^2" = Some (inr "4"%string) /\
  Calculate "(1 + 2) / 4" = Some (inr "0.750000"%string) /\
  Calculate "sqrt(16) + abs(-3)" = Some (inr "7"%string) /\
  Calculate "1/0" = Some (inl (Some ErrDivision)) /\
  Calculate "2+3 BOGUS" = Some (inl (Some (ErrTrailing (runes_of "BOGUS")))) /\
  Calculate "(1 + 2" = Some (inl (Some ErrParen)) /\
  Calculate "sqrt(16" = Some (inr "4"%string) /\
  Calculate "1.2.3" = Some (inl (Some (ErrNumber (runes_of "1.2.3")))) /\ Calculate ".5" = Some (inr "0.500000"%string).
Proof. vm_compute. repeat split. Qed.

(** ** Termination *)

Section Termination.
Context `{Unicode} `{MathFun}.

Definition in_range (p : exprParser) : Prop := (pos p <= length (input p))%nat.
Definition left_of (p : exprParser) : nat := length (input p) - pos p.
(** [p'] is a later state of the same parser; an error stays. *)
Definition later (p p' : exprParser) : Prop :=
  input p' = input p /\ (pos p <= pos p' <= length (input p))%nat /\ (err p <> None -> err p' <> None).

Lemma later_refl p : in_range p -> later p p.
Proof. unfold later, in_range. auto with lia. Qed.
Lemma later_trans p q r : later p q -> later q r -> later p r.
Proof. intros (E1 & H1 & K1) (E2 & H2 & K2). rewrite E1 in *. unfold later. rewrite E2. split; [done|]. split; [lia|auto]. Qed.
Lemma later_range p q : later p q -> in_range q.
Proof. intros (E & Hp & _). unfold in_range. rewrite E. lia. Qed.
Lemma later_left p q : later p q -> (left_of q <= left_of p)%nat.
Proof. intros (E & Hp & _). unfold left_of. rewrite E. lia. Qed.
Lemma later_err e p : in_range p -> later p (set_err e p).
Proof. intros Hp. unfold later, in_range in *. cbn. split; [done|]. split; [lia|done]. Qed.

Lemma skip_while_le f l : (skip_while f l <= length l)%nat.
Proof. induction l as [|c l IH]; cbn; [lia|]. case_bool; lia. Qed.
Lemma skip_later f p : in_range p -> later p (skip f p).
Proof.
  intros Hp. unfold later, in_range in *. cbn. split; [done|]. split; [|done].
  pose proof (skip_while_le f (drop (pos p) (input p))) as Hs. rewrite length_drop in Hs. lia.
Qed.
Lemma at_char_range p c : at_char p c = true -> (pos p < length (input p))%nat.
Proof. unfold at_char, cur. destruct (input p !! pos p) eqn:E; [|done]. intros _. eapply lookup_lt_Some; exact E. Qed.
Lemma next_later p : (pos p < length (input p))%nat -> later p (next p) /\ (left_of (next p) < left_of p)%nat.
Proof.
  intros Hp. assert (Ha : later p (advance p)) by (unfold later; cbn; auto with lia).
  assert (Hs : later (advance p) (next p)) by (apply skip_later; eapply later_range; exact Ha).
  split; [eapply later_trans; eassumption|]. apply later_left in Hs. unfold left_of in *. cbn in *. lia.
Qed.
Lemma parseNumber_later p : in_range p -> later p (parseNumber p).2.
Proof.
  intros Hp. unfold parseNumber. destruct (ParseFloat _) as [v bad]. cbn [snd].
  pose proof (skip_later number_char p Hp) as Hq. eapply later_trans; [exact Hq|].
  pose proof (later_range _ _ Hq) as Hqr. destruct bad; [|now apply skip_later].
  eapply later_trans; [eapply later_err; exact Hqr|]. apply skip_later. exact Hqr.
Qed.

(** [m] returns, in a later state. *)
Definition returns (m : option (f64 * exprParser)) (p : exprParser) : Prop :=
  exists v p', m = Some (v, p') /\ later p p'.

Lemma returns_ret v p p' : later p p' -> returns (Some (v, p')) p.
Proof. intros Hl. exists v, p'. auto. Qed.
Lemma returns_bind m k p : returns m p ->
  (forall v p', later p p' -> returns (k (v, p')) p') -> returns (m ≫= k) p.
Proof.
  intros (v & p1 & -> & H1) Hk. destruct (Hk v p1 H1) as (v' & p2 & E & H2). exists v', p2.
  split; [exact E|]. eapply later_trans; eassumption.
Qed.
Lemma returns_later m p q : later p q -> returns m q -> returns m p.
Proof. intros Hl (v & p' & E & Hq). exists v, p'. split; [exact E|]. eapply later_trans; eassumption. Qed.

(** Fuel that suffices, per function, when [r] runes are left. *)
Definition enough (n : nat) : Prop := forall p, in_range p -> let r := left_of p in
  (10 * r + 5 <= n -> returns (parseExpr n p) p)%nat /\
  (forall v, 10 * r + 1 <= n -> returns (expr_loop n v p) p)%nat /\
  (10 * r + 4 <= n -> returns (parseTerm n p) p)%nat /\
  (forall v, 10 * r + 1 <= n -> returns (term_loop n v p) p)%nat /\
  (10 * r + 3 <= n -> returns (parsePower n p) p)%nat /\
  (10 * r + 2 <= n -> returns (parseUnary n p) p)%nat /\
  (10 * r + 1 <= n -> returns (parsePrimary n p) p)%nat.

Lemma parsePrimary_enough n : enough n -> forall p, in_range p -> (10 * left_of p + 1 <= S n)%nat ->
  returns (parsePrimary (S n) p) p.
Proof.
  intros IH p Hp Hn. cbn [parsePrimary]. destruct (cur p) as [c|] eqn:Ec; [|now apply returns_ret, later_err].
  assert (Hlt : (pos p < length (input p))%nat) by (eapply lookup_lt_Some; exact Ec).
  destruct (next_later p Hlt) as [Hnx Hl]. destruct (c =? 40).
  { eapply returns_later; [exact Hnx|]. apply returns_bind.
    - apply (IH _ (later_range _ _ Hnx)). lia.
    - intros v p1 H1. destruct (at_char p1 41) eqn:E1.
      + apply returns_ret. now apply next_later, (at_char_range _ 41).
      + apply returns_ret, later_err. eapply later_range; exact H1. }
  destruct (number_char c).
  { pose proof (parseNumber_later p Hp) as Hnum. destruct (parseNumber p). now apply returns_ret. }
  unfold parseName. pose proof (skip_later is_letter p Hp) as Hq. set (q := skip is_letter p) in *. cbv zeta.
  assert (Hbad : forall e q', later p q' -> returns (Some (f0, set_err e q')) p).
  { intros e q' Hq'. apply returns_ret. eapply later_trans; [exact Hq'|]. apply later_err. eapply later_range; exact Hq'. }
  destruct (take _ _) as [|a name] eqn:En; [now apply Hbad|].
  assert (Hq2 : later p (skipWS q)) by (eapply later_trans; [exact Hq|]; apply skip_later; eapply later_range; exact Hq).
  destruct (at_char (skipWS q) 40) eqn:E40; [|now apply Hbad].
  destruct (next_later _ (at_char_range _ _ E40)) as [Hn2 Hl2].
  eapply returns_later; [eapply later_trans; [exact Hq2|exact Hn2]|]. apply returns_bind.
  - apply (IH _ (later_range _ _ Hn2)). apply later_left in Hq2. lia.
  - intros arg p1 H1. set (p2 := if at_char p1 41 then next p1 else p1).
    assert (H2 : later p1 p2).
    { unfold p2. destruct (at_char p1 41) eqn:E1; [now apply next_later, (at_char_range _ 41)|].
      apply later_refl. eapply later_range; exact H1. }
    destruct (call_fun (a :: name)); [now apply returns_ret|].
    apply returns_ret. eapply later_trans; [exact H2|]. apply later_err. eapply later_range; exact H2.
Qed.

Lemma enough_S n : enough n -> enough (S n).
Proof.
  intros IH p Hp r.
  assert (Hstep : forall c, at_char p c = true -> later p (next p) /\ (left_of (next p) < left_of p)%nat)
    by (intros c Hc; eapply next_later, at_char_range; exact Hc).
  split; [|split; [|split; [|split; [|split; [|split]]]]].
  - intros Hn. cbn [parseExpr]. apply returns_bind; [apply (IH p Hp); lia|].
    intros v p1 H1. apply (IH p1 (later_range _ _ H1)). apply later_left in H1. lia.
  - intros v Hn. cbn [expr_loop].
    destruct (at_char p 43) eqn:E1; [|destruct (at_char p 45) eqn:E2; [|now apply returns_ret, later_refl]].
    all: destruct (Hstep _ ltac:(eassumption)) as [Hnx Hl]; eapply returns_later; [exact Hnx|].
    all: apply returns_bind; [apply (IH _ (later_range _ _ Hnx)); lia|].
    all: intros t p1 H1; apply (IH p1 (later_range _ _ H1)); apply later_left in H1; lia.
  - intros Hn. cbn [parseTerm]. apply returns_bind; [apply (IH p Hp); lia|].
    intros v p1 H1. apply (IH p1 (later_range _ _ H1)). apply later_left in H1. lia.
  - intros v Hn. cbn [term_loop].
    destruct (at_char p 42) eqn:E1; [|destruct (at_char p 47) eqn:E2; [|now apply returns_ret, later_refl]].
    all: destruct (Hstep _ ltac:(eassumption)) as [Hnx Hl]; eapply returns_later; [exact Hnx|].
    all: apply returns_bind; [apply (IH _ (later_range _ _ Hnx)); lia|].
    + intros t p1 H1; apply (IH p1 (later_range _ _ H1)); apply later_left in H1; lia.
    + intros d p1 H1. destruct (feq d f0); [apply returns_ret, later_err; eapply later_range; exact H1|].
      apply (IH p1 (later_range _ _ H1)); apply later_left in H1; lia.
  - intros Hn. cbn [parsePower]. apply returns_bind; [apply (IH p Hp); lia|].
    intros base p1 H1. pose proof (later_range _ _ H1) as Hp1.
    destruct (at_char p1 94) eqn:E; [|now apply returns_ret, later_refl].
    destruct (next_later _ (at_char_range _ _ E)) as [Hnx Hl]. eapply returns_later; [exact Hnx|].
    apply returns_bind; [apply (IH _ (later_range _ _ Hnx)); apply later_left in H1; lia|].
    intros e p2 H2. apply returns_ret, later_refl. eapply later_range; exact H2.
  - intros Hn. cbn [parseUnary]. destruct (at_char p 45) eqn:E; [|apply (IH p Hp); lia].
    destruct (Hstep _ E) as [Hnx Hl]. eapply returns_later; [exact Hnx|].
    apply returns_bind; [apply (IH _ (later_range _ _ Hnx)); lia|].
    intros v p1 H1. apply returns_ret, later_refl. eapply later_range; exact H1.
  - intros Hn. now apply parsePrimary_enough.
Qed.
Lemma fuel_enough n : enough n.
Proof. induction n as [|n IH]; [|now apply enough_S]. intros p _ r. repeat split; intros; lia. Qed.

Lemma parseExpr_returns p : in_range p -> returns (parseExpr (parse_fuel p) p) p.
Proof. intros Hp. apply (fuel_enough _ p Hp). unfold parse_fuel, left_of. lia. Qed.
End Termination.

(** ** What is left of the input *)

Section Remaining.
Context `{Unicode} `{MathFun}.

Definition rem (p : exprParser) : list Z := drop (pos p) (input p).
Definition spaces (m : nat) : list Z := replicate m 32.
Definition bytes (s : string) : list Z := map byte_val (list_ascii_of_string s).

Lemma left_rem p : left_of p = length (rem p).
Proof. unfold left_of, rem. now rewrite length_drop. Qed.
Lemma rem_cur p : cur p = head (rem p).
Proof.
  unfold cur, rem. rewrite <- (Nat.add_0_r (pos p)), <- lookup_drop, Nat.add_0_r. now destruct (drop _ _).
Qed.
Lemma at_char_rem p c : at_char p c = match head (rem p) with Some d => d =? c | None => false end.
Proof. unfold at_char. now rewrite rem_cur. Qed.
Lemma rem_cons_range p c l : rem p = c :: l -> in_range p /\ (pos p < length (input p))%nat.
Proof. intros E. pose proof (left_rem p) as Hl. rewrite E in Hl. unfold left_of, in_range in *. cbn in Hl. lia. Qed.

Lemma skip_while_app f a b : Forall (fun c => f c = true) a ->
  match head b with Some c => f c = false | None => True end -> skip_while f (a ++ b) = length a.
Proof.
  intros Ha Hb. induction Ha as [|c a Hc _ IH]; cbn [app skip_while].
  - destruct b as [|c b]; cbn in *; [done|]. now rewrite Hb.
  - rewrite Hc, IH. done.
Qed.
Lemma rem_skip f p a b : rem p = a ++ b -> Forall (fun c => f c = true) a ->
  match head b with Some c => f c = false | None => True end ->
  rem (skip f p) = b /\ err (skip f p) = err p /\ pos (skip f p) = (pos p + length a)%nat.
Proof.
  intros E Ha Hb. unfold rem in *. unfold skip. cbn [pos input err]. rewrite E, (skip_while_app f a b Ha Hb).
  split; [|auto]. rewrite <- drop_drop, E. apply drop_app_length.
Qed.
Definition no_space (l : list Z) : Prop := head l <> Some 32.
Lemma rem_skipWS p m l : rem p = spaces m ++ l -> no_space l -> rem (skipWS p) = l /\ err (skipWS p) = err p.
Proof.
  intros E Hl. unfold skipWS. destruct (rem_skip (fun c => c =? 32) p (spaces m) l E) as (H1 & H2 & _).
  - apply Forall_replicate. reflexivity.
  - unfold no_space in Hl. destruct (head l) as [c|]; [|done]. apply Z.eqb_neq. congruence.
  - auto.
Qed.
Lemma rem_next p c m l : rem p = c :: spaces m ++ l -> no_space l ->
  rem (next p) = l /\ err (next p) = err p /\ later p (next p) /\ (S (left_of (next p)) <= left_of p)%nat.
Proof.
  intros E Hl. destruct (rem_cons_range p _ _ E) as [Hr Hlt]. destruct (next_later p Hlt) as [Hn Hs].
  destruct (rem_skipWS (advance p) m l) as [H1 H2]; [|exact Hl|].
  - unfold rem in *. cbn. change (S (pos p)) with (1 + pos p)%nat. rewrite Nat.add_comm, <- drop_drop, E. reflexivity.
  - unfold next. auto with lia.
Qed.

(** [m] returns with an error recorded. *)
Definition fails (m : option (f64 * exprParser)) : Prop := exists v p', m = Some (v, p') /\ err p' <> None.
Lemma fails_bind m (k : f64 * exprParser -> option (f64 * exprParser)) p : fails m -> returns m p ->
  (forall v p', later p p' -> returns (k (v, p')) p') -> fails (m ≫= k).
Proof.
  intros (v & p1 & E & He) (v' & p1' & E' & Hl) Hk. rewrite E in E'. injection E' as <- <-.
  destruct (Hk v p1 Hl) as (v2 & p2 & E2 & Hl2). exists v2, p2. rewrite E. split; [exact E2|]. now apply Hl2.
Qed.
Lemma fails_later m (k : f64 * exprParser -> option (f64 * exprParser)) v p1 : m = Some (v, p1) -> err p1 <> None -> returns (k (v, p1)) p1 -> fails (m ≫= k).
Proof.
  intros -> He (v2 & p2 & E2 & Hl2). exists v2, p2. split; [exact E2|]. now apply Hl2.
Qed.
End Remaining.

(** ** Phrases

    [phrase k s v]: where the text [s] stands in the input, followed by spaces
    and by a rune of the follow set, the function of level [k] (0 sum, 1
    product, 2 power, 3 sign, 4 primary) consumes exactly [s] and the spaces
    and computes [v]; with [None] it records an error. *)

Section Phrases.
Context `{Unicode} `{MathFun}.

Definition follow (k : nat) (l : list Z) : bool :=
  match head l with
  | None => true
  | Some c => (c =? 41) || (c =? 43) || (c =? 45) || ((1 <=? k)%nat && ((c =? 42) || (c =? 47))) || ((3 <=? k)%nat && (c =? 94))
  end.
Definition starts (k : nat) (s : string) : Prop :=
  match bytes s with c :: _ => c <> 32 /\ ((4 <= k)%nat -> c <> 45) | [] => False end.

Definition parse_at (k : nat) : nat -> exprParser -> option (f64 * exprParser) :=
  match k with 0%nat => parseExpr | 1%nat => parseTerm | 2%nat => parsePower | 3%nat => parseUnary | _ => parsePrimary end.
Definition fuel_at (k : nat) : nat := 5 - k.

Lemma parse_at_0 n p : parse_at 0 (S n) p = '(v, p) ← parseTerm n p; expr_loop n v p.
Proof. reflexivity. Qed.
Lemma parse_at_1 n p : parse_at 1 (S n) p = '(v, p) ← parsePower n p; term_loop n v p.
Proof. reflexivity. Qed.
Lemma parse_at_2 n p : parse_at 2 (S n) p =
  '(base, p) ← parseUnary n p;
  if at_char p 94 then '(exp, p) ← parsePower n (next p); Some (fpow base exp, p) else Some (base, p).
Proof. reflexivity. Qed.
Lemma parse_at_3 n p : parse_at 3 (S n) p =
  if at_char p 45 then '(v, p) ← parsePrimary n (next p); Some (fopp v, p) else parsePrimary n p.
Proof. reflexivity. Qed.

(** What a level leaves to its caller: the two loops go on from the value. *)
Definition continue (k : nat) (m : nat) (x : f64) (p : exprParser) : option (f64 * exprParser) :=
  match k with 0%nat => expr_loop m x p | 1%nat => term_loop m x p | _ => Some (x, p) end.

Definition phrase (k : nat) (s : string) (v : option f64) : Prop :=
  starts k s /\
  forall n p m rest, rem p = bytes s ++ spaces m ++ rest -> follow k rest = true -> err p = None ->
    (10 * left_of p + fuel_at k <= n)%nat ->
    match v with
    | Some x => exists j p', (10 * left_of p' + 1 <= j)%nat /\ rem p' = rest /\ err p' = None /\
                  later p p' /\ parse_at k n p = continue k j x p'
    | None => fails (parse_at k n p)
    end.

Lemma follow_no_space k l : follow k l = true -> no_space l.
Proof. unfold follow, no_space. destruct (head l) as [c|]; [|done]. intros Hf [= ->]. destruct k as [|[|[|[]]]]; discriminate. Qed.
Lemma follow_mono k k' l : (k <= k')%nat -> follow k l = true -> follow k' l = true.
Proof.
  unfold follow. destruct (head l) as [c|]; [|done]. intros Hk.
  destruct (c =? 41), (c =? 43), (c =? 45), (c =? 42), (c =? 47), (c =? 94); cbn; try done;
    destruct k as [|[|[|k]]], k' as [|[|[|k']]]; cbn; (done || lia).
Qed.
Lemma starts_no_space k s l : starts k s -> no_space (bytes s ++ l).
Proof. unfold starts, no_space. destruct (bytes s) as [|c b]; [done|]. intros [Hc _] [= ->]. done. Qed.
Lemma starts_weaken k k' s : (k' <= k)%nat -> starts k s -> starts k' s.
Proof. unfold starts. destruct (bytes s) as [|c b]; [done|]. intros Hk [Hc Hd]. split; [exact Hc|]. intros. apply Hd. lia. Qed.

Lemma not_at p c rest : rem p = rest -> match head rest with Some d => d <> c | None => True end -> at_char p c = false.
Proof. intros E Hd. rewrite at_char_rem, E. destruct (head rest) as [d|]; [|done]. now apply Z.eqb_neq. Qed.
Lemma follow_not k c l : follow k l = true ->
  (c =? 41) || (c =? 43) || (c =? 45) || ((1 <=? k)%nat && ((c =? 42) || (c =? 47))) || ((3 <=? k)%nat && (c =? 94)) = false ->
  match head l with Some d => d <> c | None => True end.
Proof. unfold follow. destruct (head l) as [d|]; [|done]. intros Hf Hc ->. congruence. Qed.

Lemma loops_return n x p p' : later p p' -> (10 * left_of p + 1 <= n)%nat ->
  returns (expr_loop n x p') p' /\ returns (term_loop n x p') p'.
Proof.
  intros Hl Hn. pose proof (later_left _ _ Hl). destruct (fuel_enough n p' (later_range _ _ Hl)) as (_ & He & _ & Ht & _).
  split; [apply He|apply Ht]; lia.
Qed.

(** A level contains the next one. *)
Lemma phrase_up k s v : (k < 4)%nat -> phrase (S k) s v -> phrase k s v.
Proof.
  intros Hk [Hst Hp]. split; [apply (starts_weaken (S k)); [lia|exact Hst]|].
  intros n p m rest E Hf He Hn. destruct n as [|n]; [unfold fuel_at in Hn; lia|].
  assert (Hf' : follow (S k) rest = true) by (apply (follow_mono k); [lia|exact Hf]).
  specialize (Hp n p m rest E Hf' He). unfold fuel_at in *.
  assert (Hr : in_range p).
  { unfold starts in Hst. destruct (bytes s) as [|c b] eqn:Eb; [done|]. now apply (rem_cons_range p c (b ++ spaces m ++ rest)). }
  pose proof (fuel_enough n p Hr) as Hen. cbv zeta in Hen. specialize (Hp ltac:(lia)).
  destruct Hen as (_ & Hexpr & Hterm & Htl & Hpow & Hun & Hprim).
  destruct k as [|[|[|[|k]]]]; [| | | |lia]; cbn [parse_at continue] in Hp;
    [rewrite parse_at_0|rewrite parse_at_1|rewrite parse_at_2|rewrite parse_at_3]; cbn [continue].
  - destruct v as [x|]; [|apply (fails_bind _ _ p); [exact Hp|apply Hterm; lia|intros; eapply loops_return; [eassumption|lia]]].
    destruct Hp as (j & p' & Hj & Er & Ee & Hl & ->). destruct j as [|j]; [lia|]. cbn [term_loop].
    rewrite !(not_at p' _ rest Er) by (eapply follow_not; [exact Hf|reflexivity]).
    exists n, p'. apply later_left in Hl as Hll. split; [lia|]. auto.
  - destruct v as [x|]; [|apply (fails_bind _ _ p); [exact Hp|apply Hpow; lia|intros; eapply loops_return; [eassumption|lia]]].
    destruct Hp as (j & p' & Hj & Er & Ee & Hl & ->).
    exists n, p'. apply later_left in Hl as Hll. split; [lia|]. auto.
  - destruct v as [x|].
    + destruct Hp as (j & p' & Hj & Er & Ee & Hl & ->). cbn [mbind option_bind].
      rewrite (not_at p' 94 rest Er) by (eapply follow_not; [exact Hf|reflexivity]). exists j, p'. auto.
    + apply (fails_bind _ _ p); [exact Hp|apply Hun; lia|]. intros x p1 H1.
      pose proof (later_range _ _ H1) as Hr1. destruct (at_char p1 94) eqn:E94; [|now apply returns_ret, later_refl].
      destruct (next_later _ (at_char_range _ _ E94)) as [Hnx Hl1]. eapply returns_later; [exact Hnx|].
      apply later_left in H1. apply returns_bind; [apply (fuel_enough n _ (later_range _ _ Hnx)); lia|].
      intros e p2 H2. apply returns_ret, later_refl. eapply later_range; exact H2.
  - assert (Hm : at_char p 45 = false).
    { eapply not_at; [exact E|]. unfold starts in Hst. destruct (bytes s) as [|c b]; [done|]. apply Hst. lia. }
    rewrite Hm. exact Hp.
Qed.
Lemma phrase_le k k' s v : (k <= k' <= 4)%nat -> phrase k' s v -> phrase k s v.
Proof.
  intros [Hk H4]. induction Hk as [|k' Hk IH]; [done|]. intros Hp. apply IH; [lia|]. apply phrase_up; [lia|exact Hp].
Qed.
End Phrases.

Section Grammar.
Context `{Unicode} `{MathFun}.

Lemma parse_at_returns k n p : in_range p -> (10 * left_of p + fuel_at k <= n)%nat -> (k <= 4)%nat ->
  returns (parse_at k n p) p.
Proof.
  intros Hp Hn Hk. destruct (fuel_enough n p Hp) as (He & _ & Ht & _ & Hw & Hu & Hi). unfold fuel_at in Hn.
  destruct k as [|[|[|[|[|k]]]]]; [apply He|apply Ht|apply Hw|apply Hu|apply Hi|]; lia.
Qed.
Lemma continue_returns k n x p : in_range p -> (10 * left_of p + 1 <= n)%nat -> returns (continue k n x p) p.
Proof.
  intros Hp Hn. destruct (loops_return n x p p (later_refl p Hp) Hn) as [He Ht].
  destruct k as [|[|k]]; [exact He|exact Ht|now apply returns_ret, later_refl].
Qed.

Lemma phrase_range k s v p l : phrase k s v -> rem p = bytes s ++ l -> in_range p.
Proof.
  intros [Hst _] E. unfold starts in Hst. destruct (bytes s) as [|c b]; [done|].
  now apply (rem_cons_range p c (b ++ l)).
Qed.

(** A phrase whose loop cannot go on. *)
Lemma phrase_exact k s v n p m rest : (k < 4)%nat -> phrase (S k) s v ->
  rem p = bytes s ++ spaces m ++ rest -> follow k rest = true -> err p = None ->
  (10 * left_of p + fuel_at (S k) <= n)%nat ->
  match v with
  | Some x => exists p', rem p' = rest /\ err p' = None /\ later p p' /\ parse_at (S k) n p = Some (x, p')
  | None => fails (parse_at (S k) n p)
  end.
Proof.
  intros Hk [_ Hp] E Hf He Hn. specialize (Hp n p m rest E (follow_mono k (S k) rest ltac:(lia) Hf) He Hn).
  destruct v as [x|]; [|exact Hp]. destruct Hp as (j & p' & Hj & Er & Ee & Hl & ->).
  exists p'. split; [exact Er|]. split; [exact Ee|]. split; [exact Hl|].
  destruct k as [|k]; [|reflexivity]. cbn [continue]. destruct j as [|j]; [lia|]. cbn [term_loop].
  now rewrite !(not_at p' _ rest Er) by (eapply follow_not; [exact Hf|reflexivity]).
Qed.
Lemma phrase_closed s v n p m rest : phrase 0 s v ->
  rem p = bytes s ++ spaces m ++ rest -> match head rest with Some c => c = 41 | None => True end -> err p = None ->
  (10 * left_of p + 5 <= n)%nat ->
  match v with
  | Some x => exists p', rem p' = rest /\ err p' = None /\ later p p' /\ parseExpr n p = Some (x, p')
  | None => fails (parseExpr n p)
  end.
Proof.
  intros [_ Hp] E Hc He Hn.
  assert (Hf : follow 0 rest = true) by (unfold follow; destruct (head rest); [subst; reflexivity|done]).
  specialize (Hp n p m rest E Hf He Hn). destruct v as [x|]; [|exact Hp].
  destruct Hp as (j & p' & Hj & Er & Ee & Hl & Ep). cbn [parse_at continue] in Ep.
  exists p'. split; [exact Er|]. split; [exact Ee|]. split; [exact Hl|]. rewrite Ep.
  destruct j as [|j]; [lia|]. cbn [expr_loop].
  rewrite !(not_at p' _ rest Er); [done| |]; destruct (head rest); subst; done.
Qed.

(** Binary operators of the two loops. *)
Definition loop_op (k : nat) (c : Z) (op : f64 -> f64 -> option f64) : Prop :=
  follow k [c] = true /\ c <> 32 /\
  forall j x p, at_char p c = true -> continue k (S j) x p =
    '(t, p) ← parse_at (S k) j (next p);
    match op x t with Some y => continue k j y p | None => Some (f0, set_err ErrDivision p) end.

Lemma phrase_loop k c op a va b vb w w' l : (k < 2)%nat -> loop_op k c op ->
  phrase k a va -> phrase (S k) b vb -> bytes l = bytes a ++ spaces w ++ [c] ++ spaces w' ++ bytes b ->
  phrase k l (x ← va; t ← vb; op x t).
Proof.
  intros Hk (Hfc & Hc32 & Hop) Ha Hb Hl. split.
  { destruct Ha as [Hst _]. unfold starts in *. rewrite Hl. now destruct (bytes a). }
  intros n p m rest E Hf He Hn. rewrite Hl in E. rewrite <- !app_assoc in E. cbn [app] in E.
  assert (Hfr : forall r, follow k (c :: r) = true) by (intros r; exact Hfc).
  pose proof (proj2 Ha n p w _ E (Hfr _) He Hn) as HA. destruct va as [x|]; [|exact HA].
  destruct HA as (j & p1 & Hj & E1 & He1 & Hl1 & ->). destruct j as [|j]; [lia|].
  assert (Hat : at_char p1 c = true) by (rewrite at_char_rem, E1; apply Z.eqb_refl).
  rewrite (Hop j x p1 Hat).
  destruct (rem_next p1 c w' _ E1 (starts_no_space _ b _ (proj1 Hb))) as (E2 & He2 & Hl2 & Hs2).
  rewrite He1 in He2. assert (Hfuel : (10 * left_of (next p1) + fuel_at (S k) <= j)%nat) by (unfold fuel_at; lia).
  pose proof (phrase_exact k b vb j (next p1) m rest ltac:(lia) Hb E2 Hf He2 Hfuel) as HB.
  assert (Hr2 : in_range (next p1)) by (eapply later_range; exact Hl2).
  destruct vb as [t|]; cbn [mbind option_bind].
  - destruct HB as (p2 & E3 & He3 & Hl3 & ->). cbn [mbind option_bind].
    pose proof (later_left _ _ Hl3). destruct (op x t) as [y|].
    + exists j, p2. split; [lia|]. split; [exact E3|]. split; [exact He3|]. split; [|done].
      eapply later_trans; [exact Hl1|]. eapply later_trans; [exact Hl2|exact Hl3].
    + exists f0, (set_err ErrDivision p2). split; [done|]. cbn. done.
  - apply (fails_bind _ _ (next p1)); [exact HB|apply parse_at_returns; [exact Hr2|exact Hfuel|lia]|].
    intros t p2 H2. pose proof (later_left _ _ H2). pose proof (later_range _ _ H2).
    destruct (op x t); [apply continue_returns; [assumption|lia]|apply returns_ret, later_err; assumption].
Qed.

Lemma op_add : loop_op 0 43 (fun x t => Some (fadd x t)).
Proof. split; [reflexivity|]. split; [done|]. intros j x p E. cbn [continue expr_loop]. now rewrite E. Qed.
Lemma at_char_unique p c d : at_char p c = true -> c <> d -> at_char p d = false.
Proof.
  unfold at_char. destruct (cur p) as [a|]; [|done]. intros E Hcd. apply Z.eqb_eq in E. apply Z.eqb_neq. congruence.
Qed.
Lemma op_sub : loop_op 0 45 (fun x t => Some (fsub x t)).
Proof.
  split; [reflexivity|]. split; [done|]. intros j x p E. cbn [continue expr_loop].
  now rewrite (at_char_unique p 45 43 E) by done; rewrite E.
Qed.
Lemma op_mul : loop_op 1 42 (fun x t => Some (fmul x t)).
Proof. split; [reflexivity|]. split; [done|]. intros j x p E. cbn [continue term_loop]. now rewrite E. Qed.
Definition checked_div (x d : f64) : option f64 := if feq d f0 then None else Some (fdiv x d).
Lemma term_loop_S n v p : term_loop (S n) v p =
  if at_char p 42 then '(t, p) ← parsePower n (next p); term_loop n (fmul v t) p
  else if at_char p 47 then
    '(d, p) ← parsePower n (next p);
    if feq d f0 then Some (f0, set_err ErrDivision p) else term_loop n (fdiv v d) p
  else Some (v, p).
Proof. reflexivity. Qed.
Lemma op_div : loop_op 1 47 checked_div.
Proof.
  split; [reflexivity|]. split; [done|]. intros j x p E.
  change (continue 1 (S j) x p) with (term_loop (S j) x p). change (parse_at 2 j (next p)) with (parsePower j (next p)).
  rewrite term_loop_S, (at_char_unique p 47 42 E), E by done.
  destruct (parsePower j (next p)) as [[d p1]|]; [|done]. cbn [mbind option_bind]. unfold checked_div. now case_bool.
Qed.

Lemma phrase_pow a va b vb w w' l : phrase 3 a va -> phrase 2 b vb ->
  bytes l = bytes a ++ spaces w ++ [94] ++ spaces w' ++ bytes b ->
  phrase 2 l (x ← va; t ← vb; Some (fpow x t)).
Proof.
  intros Ha Hb Hl. split.
  { destruct Ha as [Hst _]. unfold starts in *. rewrite Hl. destruct (bytes a); [done|]. split; [apply Hst|lia]. }
  intros n p m rest E Hf He Hn. rewrite Hl in E. rewrite <- !app_assoc in E. cbn [app] in E.
  assert (Hr : in_range p) by (eapply phrase_range; [exact Ha|exact E]).
  destruct n as [|n]; [unfold fuel_at in Hn; lia|]. unfold fuel_at in Hn. rewrite parse_at_2.
  assert (Hna : (10 * left_of p + fuel_at 3 <= n)%nat) by (unfold fuel_at; lia).
  pose proof (proj2 Ha n p w _ E ltac:(reflexivity) He Hna) as HA.
  destruct va as [x|].
  - destruct HA as (j & p1 & Hj & E1 & He1 & Hl1 & HA). cbn [parse_at continue] in HA. rewrite HA. cbn [mbind option_bind].
    assert (Hat : at_char p1 94 = true) by (rewrite at_char_rem, E1; reflexivity). rewrite Hat.
    destruct (rem_next p1 94 w' _ E1 (starts_no_space _ b _ (proj1 Hb))) as (E2 & He2 & Hl2 & Hs2).
    rewrite He1 in He2. pose proof (later_left _ _ Hl1).
    pose proof (proj2 Hb n (next p1) m rest E2 Hf He2 ltac:(unfold fuel_at; lia)) as HB. cbn [parse_at continue] in HB.
    destruct vb as [t|]; cbn [mbind option_bind].
    + destruct HB as (j2 & p2 & Hj2 & E3 & He3 & Hl3 & ->). exists j2, p2. split; [exact Hj2|].
      split; [exact E3|]. split; [exact He3|]. split; [|done].
      eapply later_trans; [exact Hl1|]. eapply later_trans; [exact Hl2|exact Hl3].
    + destruct HB as (v & p2 & -> & He3). exists (fpow x v), p2. auto.
  - apply (fails_bind _ _ p); [exact HA|apply (parse_at_returns 3); [exact Hr|unfold fuel_at; lia|lia]|].
    intros x p1 H1. pose proof (later_range _ _ H1) as Hr1. pose proof (later_left _ _ H1).
    destruct (at_char p1 94) eqn:E94; [|now apply returns_ret, later_refl].
    destruct (next_later _ (at_char_range _ _ E94)) as [Hnx Hl2]. eapply returns_later; [exact Hnx|].
    apply returns_bind; [apply (parse_at_returns 2); [eapply later_range; exact Hnx|unfold fuel_at; lia|lia]|].
    intros t p2 Hp2. apply returns_ret, later_refl. eapply later_range; exact Hp2.
Qed.
End Grammar.

(** ** Primaries and signs *)

Section Primaries.
Context `{Unicode} `{MathFun}.

Lemma fails_map m (g : f64 -> f64) p : fails m -> returns m p ->
  fails ('(v, p) ← m; Some (g v, p)).
Proof.
  intros Hf Hr. apply (fails_bind _ _ p); [exact Hf|exact Hr|]. intros v p' Hl.
  apply returns_ret, later_refl. eapply later_range; exact Hl.
Qed.

Lemma phrase_neg a va w l : phrase 4 a va -> bytes l = 45 :: spaces w ++ bytes a -> phrase 3 l (option_map fopp va).
Proof.
  intros Ha Hl. split; [unfold starts; rewrite Hl; split; [done|lia]|].
  intros n p m rest E Hf He Hn. rewrite Hl in E. cbn [app] in E. rewrite <- app_assoc in E.
  destruct n as [|n]; [unfold fuel_at in Hn; lia|]. unfold fuel_at in Hn. rewrite parse_at_3.
  assert (Hat : at_char p 45 = true) by (rewrite at_char_rem, E; reflexivity). rewrite Hat.
  destruct (rem_next p 45 w _ E (starts_no_space _ a _ (proj1 Ha))) as (E2 & He2 & Hl2 & Hs2). rewrite He in He2.
  pose proof (proj2 Ha n (next p) m rest E2 (follow_mono 3 4 rest ltac:(lia) Hf) He2 ltac:(unfold fuel_at; lia)) as HA.
  change (parse_at 4 n (next p)) with (parsePrimary n (next p)) in HA. destruct va as [x|]; cbn [option_map].
  - destruct HA as (j & p2 & Hj & E3 & He3 & Hl3 & ->). exists j, p2. split; [exact Hj|]. split; [exact E3|].
    split; [exact He3|]. split; [eapply later_trans; eassumption|reflexivity].
  - apply (fails_map _ fopp (next p)); [exact HA|].
    apply (parse_at_returns 4); [eapply later_range; exact Hl2|unfold fuel_at; lia|lia].
Qed.

(** The closing of a parenthesis, after the inner sum. *)
Lemma closing p1 m rest : rem p1 = 41 :: spaces m ++ rest -> no_space rest ->
  at_char p1 41 = true /\ rem (next p1) = rest /\ err (next p1) = err p1 /\ later p1 (next p1).
Proof.
  intros E Hr. destruct (rem_next p1 41 m rest E Hr) as (E2 & He2 & Hl2 & _).
  split; [rewrite at_char_rem, E; reflexivity|auto].
Qed.

Lemma parsePrimary_S n p : parsePrimary (S n) p =
  match cur p with
  | None => Some (f0, set_err ErrEnd p)
  | Some c =>
      if c =? 40 then
        '(v, p) ← parseExpr n (next p);
        if at_char p 41 then Some (v, next p) else Some (v, set_err ErrParen p)
      else if number_char c then Some (parseNumber p)
      else
        let bad := fun p => Some (f0, set_err (ErrChar c (Z.of_nat (pos p))) p) in
        let '(name, p) := parseName p in
        match name with
        | [] => bad p
        | _ =>
            let p := skipWS p in
            if at_char p 40 then
              '(arg, p) ← parseExpr n (next p);
              let p := if at_char p 41 then next p else p in
              match call_fun name with
              | Some f => Some (f arg, p)
              | None => bad p
              end
            else bad p
        end
  end.
Proof. reflexivity. Qed.

Lemma phrase_paren a va w w' l : phrase 0 a va ->
  bytes l = 40 :: spaces w ++ bytes a ++ spaces w' ++ [41] -> phrase 4 l va.
Proof.
  intros Ha Hl. split; [unfold starts; now rewrite Hl|].
  intros n p m rest E Hf He Hn. rewrite Hl in E. cbn [app] in E. rewrite <- !app_assoc in E. cbn [app] in E.
  destruct n as [|n]; [unfold fuel_at in Hn; lia|]. unfold fuel_at in Hn.
  change (parse_at 4 (S n) p) with (parsePrimary (S n) p). rewrite parsePrimary_S, rem_cur, E. cbn [head].
  rewrite Z.eqb_refl.
  destruct (rem_next p 40 w _ E (starts_no_space _ a _ (proj1 Ha))) as (E2 & He2 & Hl2 & Hs2). rewrite He in He2.
  pose proof (phrase_closed a va n (next p) w' _ Ha E2 ltac:(reflexivity) He2 ltac:(lia)) as HA.
  assert (Hr2 : in_range (next p)) by (eapply later_range; exact Hl2).
  destruct va as [x|].
  - destruct HA as (p1 & E3 & He3 & Hl3 & ->). cbn [mbind option_bind].
    destruct (closing p1 m rest E3 (follow_no_space _ _ Hf)) as (-> & E4 & He4 & Hl4).
    exists (10 * left_of (next p1) + 1)%nat, (next p1). split; [lia|]. split; [exact E4|]. split; [congruence|].
    split; [|done]. eapply later_trans; [exact Hl2|]. eapply later_trans; eassumption.
  - apply (fails_bind _ _ (next p)); [exact HA|apply (parse_at_returns 0); [exact Hr2|unfold fuel_at; lia|lia]|].
    intros v p1 H1. pose proof (later_range _ _ H1). destruct (at_char p1 41) eqn:E1.
    + apply returns_ret. now apply next_later, (at_char_range _ 41).
    + now apply returns_ret, later_err.
Qed.

(** Number tokens: ASCII digits and dots that [ParseFloat] accepts. *)
Definition digit_or_dot (c : Z) : bool := ascii_digit c || (c =? 46).
Definition numeral (s : string) : Prop :=
  s <> EmptyString /\ Forall (fun c => digit_or_dot c = true) (bytes s) /\ (ParseFloat (bytes s)).2 = false.

Lemma number_char_ascii c : 0 <= c < 128 -> number_char c = digit_or_dot c.
Proof. intros Hc. unfold number_char, digit_or_dot. now rewrite is_digit_ascii. Qed.
Lemma digit_or_dot_range c : digit_or_dot c = true -> 0 <= c < 128 /\ c <> 32 /\ c <> 40 /\ c <> 45.
Proof. unfold digit_or_dot, ascii_digit. intros Hc. apply orb_prop in Hc as [Hc|Hc]; zbool; lia. Qed.
Lemma follow_head k l : follow k l = true ->
  match head l with Some c => c = 41 \/ c = 43 \/ c = 45 \/ c = 42 \/ c = 47 \/ c = 94 | None => True end.
Proof.
  unfold follow. destruct (head l) as [c|]; [|done]. rewrite !orb_true_iff, !andb_true_iff, !orb_true_iff, !Z.eqb_eq. tauto.
Qed.
(** After a token come spaces or a rune of the follow set. *)
Lemma after_token (f : Z -> bool) k m rest : follow k rest = true ->
  Forall (fun c => f c = false) [32; 41; 43; 45; 42; 47; 94] ->
  match head (spaces m ++ rest) with Some c => f c = false | None => True end.
Proof.
  intros Hf Hall. rewrite Forall_forall in Hall. destruct m as [|m]; [|apply Hall; now left].
  cbn [spaces replicate app]. apply follow_head in Hf. destruct (head rest) as [c|]; [|done].
  apply Hall. rewrite !elem_of_cons. tauto.
Qed.

Lemma take_token p a b : rem p = a ++ b -> take (pos p + length a - pos p) (drop (pos p) (input p)) = a.
Proof. intros E. fold (rem p). rewrite E. replace (pos p + length a - pos p)%nat with (length a) by lia. apply take_app_length. Qed.

Lemma phrase_num s : numeral s -> phrase 4 s (Some (ParseFloat (bytes s)).1).
Proof.
  intros (Hne & Hd & Hok). destruct (bytes s) as [|c b] eqn:Eb; [destruct s; [done|discriminate]|].
  pose proof (Forall_inv Hd) as Hc. destruct (digit_or_dot_range c Hc) as (Hr & H32 & H40 & H45).
  split; [unfold starts; rewrite Eb; auto|]. intros n p m rest E Hf He Hn. rewrite Eb in E.
  destruct n as [|n]; [unfold fuel_at in Hn; lia|]. change (parse_at 4 (S n) p) with (parsePrimary (S n) p).
  assert (Ecur : cur p = Some c) by (rewrite rem_cur, E; reflexivity).
  rewrite parsePrimary_S, Ecur, (proj2 (Z.eqb_neq c 40) H40), number_char_ascii, Hc by exact Hr. cbv zeta.
  destruct (rem_skip number_char p (c :: b) (spaces m ++ rest)) as (E1 & He1 & Hp1).
  - exact E.
  - eapply Forall_impl; [exact Hd|]. intros d Hdd. rewrite number_char_ascii by (now apply digit_or_dot_range). exact Hdd.
  - eapply after_token; [exact Hf|]. repeat (constructor; [rewrite number_char_ascii by lia; reflexivity|]). constructor.
  - assert (Hr0 : in_range p) by (eapply rem_cons_range; exact E).
    pose proof (parseNumber_later p Hr0) as Hlat. unfold parseNumber in *. rewrite Hp1, (take_token p _ _ E) in *.
    destruct (ParseFloat (c :: b)) as [v bad]. cbn [fst snd] in *. subst bad.
    destruct (rem_skipWS (skip number_char p) m rest E1 (follow_no_space _ _ Hf)) as [E2 He2].
    exists (10 * left_of (skipWS (skip number_char p)) + 1)%nat, (skipWS (skip number_char p)).
    split; [lia|]. split; [exact E2|]. split; [congruence|]. split; [exact Hlat|]. reflexivity.
Qed.

(** Function calls. *)
Inductive fn := Fsqrt | Fabs | Ffloor | Fceil | Flog | Fln.
Definition fn_name (f : fn) : string :=
  match f with Fsqrt => "sqrt" | Fabs => "abs" | Ffloor => "floor" | Fceil => "ceil" | Flog => "log" | Fln => "ln" end.
Definition fn_sem (f : fn) : f64 -> f64 :=
  match f with Fsqrt => fsqrt | Fabs => fabs | Ffloor => ffloor | Fceil => fceil | Flog => flog10 | Fln => flog end.

Lemma fn_name_facts f : exists c b, bytes (fn_name f) = c :: b /\
  Forall (fun c => 97 <= c <= 122) (c :: b) /\ call_fun (c :: b) = Some (fn_sem f).
Proof.
  destruct f; [exists 115, [113; 114; 116] |exists 97, [98; 115] |exists 102, [108; 111; 111; 114] |exists 99, [101; 105; 108] |exists 108, [111; 103] |exists 108, [110]];
    (split; [reflexivity|]); (split; [|reflexivity]); rewrite !Forall_cons; repeat apply conj; first [lia|constructor].
Qed.

Lemma phrase_call f a va w w1 w2 l : phrase 0 a va ->
  bytes l = bytes (fn_name f) ++ spaces w ++ [40] ++ spaces w1 ++ bytes a ++ spaces w2 ++ [41] ->
  phrase 4 l (option_map (fn_sem f) va).
Proof.
  intros Ha Hl. destruct (fn_name_facts f) as (c & b & Eb & Hlet & Hcall). rewrite Eb in Hl.
  assert (Hletter : forall d, 97 <= d <= 122 -> is_letter d = true).
  { intros d Hd. rewrite is_letter_ascii by lia. unfold ascii_letter.
    rewrite (proj2 (Z.leb_le 97 d)), (proj2 (Z.leb_le d 122)) by lia. apply orb_true_r. }
  pose proof (Forall_inv Hlet) as Hc. cbn beta in Hc. split; [unfold starts; rewrite Hl; split; [lia|lia]|].
  intros n p m rest E Hf He Hn. rewrite Hl in E. rewrite <- !app_assoc in E.
  destruct n as [|n]; [unfold fuel_at in Hn; lia|]. unfold fuel_at in Hn.
  change (parse_at 4 (S n) p) with (parsePrimary (S n) p).
  assert (Ecur : cur p = Some c) by (rewrite rem_cur, E; reflexivity).
  assert (Hnum : number_char c = false).
  { rewrite number_char_ascii by lia. unfold digit_or_dot, ascii_digit. rewrite (proj2 (Z.leb_gt c 57)), andb_false_r by lia.
    now apply Z.eqb_neq; lia. }
  rewrite parsePrimary_S, Ecur, (proj2 (Z.eqb_neq c 40)), Hnum by lia. cbv zeta. unfold parseName.
  destruct (rem_skip is_letter p (c :: b) (spaces w ++ 40 :: spaces w1 ++ bytes a ++ spaces w2 ++ 41 :: spaces m ++ rest))
    as (E1 & He1 & Hp1).
  { exact E. } { eapply Forall_impl; [exact Hlet|]. exact Hletter. }
  { destruct w; cbn; rewrite is_letter_ascii by lia; reflexivity. }
  assert (Hr0 : in_range p) by (eapply rem_cons_range; exact E).
  pose proof (skip_later is_letter p Hr0) as Hlq. set (q := skip is_letter p) in *.
  rewrite Hp1, (take_token p _ _ E).
  destruct (rem_skipWS q w _ E1 ltac:(done)) as [E2 He2].
  assert (Hlq2 : later p (skipWS q)) by (eapply later_trans; [exact Hlq|]; apply skip_later; eapply later_range; exact Hlq).
  set (q2 := skipWS q) in *.
  assert (Hat : at_char q2 40 = true) by (rewrite at_char_rem, E2; reflexivity). rewrite Hat.
  destruct (rem_next q2 40 w1 _ E2 (starts_no_space _ a _ (proj1 Ha))) as (E3 & He3 & Hl3 & Hs3).
  pose proof (later_left _ _ Hlq2) as Hfl. assert (Hrn : in_range (next q2)) by (eapply later_range; exact Hl3).
  pose proof (phrase_closed a va n (next q2) w2 _ Ha E3 ltac:(reflexivity) ltac:(congruence) ltac:(lia)) as HA.
  rewrite Hcall. destruct va as [x|]; cbn [option_map].
  - destruct HA as (p1 & E4 & He4 & Hl4 & ->). cbn [mbind option_bind]. cbv zeta.
    destruct (closing p1 m rest E4 (follow_no_space _ _ Hf)) as (-> & E5 & He5 & Hl5).
    exists (10 * left_of (next p1) + 1)%nat, (next p1). split; [lia|]. split; [exact E5|]. split; [congruence|].
    split; [|done]. eapply later_trans; [exact Hlq2|]. eapply later_trans; [exact Hl3|]. eapply later_trans; eassumption.
  - apply (fails_bind _ _ (next q2)); [exact HA|apply (parse_at_returns 0); [exact Hrn|unfold fuel_at; lia|lia]|].
    intros v p1 H1. cbv zeta. apply returns_ret. pose proof (later_range _ _ H1).
    destruct (at_char p1 41) eqn:E41; [now apply next_later, (at_char_range _ 41)|now apply later_refl].
Qed.
End Primaries.

(** ** Expressions and their text *)

Inductive binop := Add | Sub | Mul | Div | Pow.
Inductive expr :=
| ENum (s : string)
| ENeg (a : expr)
| EBin (o : binop) (a b : expr)
| ECall (f : fn) (a : expr).

Definition blank (n : nat) : string := string_of_list_ascii (replicate n " "%char).
Definition op_text (pow : string) (o : binop) : string :=
  match o with Add => "+" | Sub => "-" | Mul => "*" | Div => "/" | Pow => pow end.
Definition prec (e : expr) : nat :=
  match e with
  | EBin (Add | Sub) _ _ => 0 | EBin (Mul | Div) _ _ => 1 | EBin Pow _ _ => 2 | ENeg _ => 3 | ENum _ | ECall _ _ => 4
  end.
(** The levels of the operands: the loops associate to the left, the power to
    the right. *)
Definition left_level (o : binop) : nat := match o with Add | Sub => 0 | Mul | Div => 1 | Pow => 3 end.
Definition right_level (o : binop) : nat := match o with Add | Sub => 1 | Mul | Div => 2 | Pow => 2 end.

(** The text of an expression where level [k] is expected, with [sp] spaces
    around operators and inside parentheses, and [pow] ("^" or "**") as power. *)
Fixpoint show (pow : string) (sp : nat) (k : nat) (e : expr) : string :=
  let s := match e with
           | ENum s => s
           | ENeg a => "-" +:+ blank sp +:+ show pow sp 4 a
           | EBin o a b => show pow sp (left_level o) a +:+ blank sp +:+ op_text pow o +:+ blank sp +:+ show pow sp (right_level o) b
           | ECall f a => fn_name f +:+ blank sp +:+ "(" +:+ blank sp +:+ show pow sp 0 a +:+ blank sp +:+ ")"
           end in
  if (prec e <? k)%nat then "(" +:+ blank sp +:+ s +:+ blank sp +:+ ")" else s.

(** Its value; no value when a divisor is zero. *)
Definition apply_op `{MathFun} (o : binop) (x y : f64) : option f64 :=
  match o with
  | Add => Some (fadd x y) | Sub => Some (fsub x y) | Mul => Some (fmul x y)
  | Div => checked_div x y | Pow => Some (fpow x y)
  end.
Fixpoint value `{MathFun} (e : expr) : option f64 :=
  match e with
  | ENum s => Some (ParseFloat (bytes s)).1
  | ENeg a => option_map fopp (value a)
  | EBin o a b => x ← value a; y ← value b; apply_op o x y
  | ECall f a => option_map (fn_sem f) (value a)
  end.
(** Its numbers are well formed. *)
Fixpoint numerals (e : expr) : Prop :=
  match e with
  | ENum s => numeral s
  | ENeg a | ECall _ a => numerals a
  | EBin _ a b => numerals a /\ numerals b
  end.

Lemma bytes_app a b : bytes (a +:+ b) = bytes a ++ bytes b.
Proof.
  unfold bytes. induction a as [|c a IH]; [done|]. change (String c a +:+ b) with (String c (a +:+ b)). cbn. now f_equal.
Qed.
Lemma bytes_blank n : bytes (blank n) = spaces n.
Proof.
  unfold bytes, blank. rewrite list_ascii_of_string_of_list_ascii. induction n; [done|]. cbn [replicate map]. now rewrite IHn.
Qed.

Section Show.
Context `{Unicode} `{MathFun}.

Lemma phrase_wrap sp d raw v k : (d <= 4)%nat -> (k <= 4)%nat -> phrase d raw v ->
  phrase k (if (d <? k)%nat then "(" +:+ blank sp +:+ raw +:+ blank sp +:+ ")" else raw) v.
Proof.
  intros Hd Hk Hp. destruct (Nat.ltb_spec d k).
  - apply (phrase_le k 4); [lia|]. apply (phrase_paren raw v sp sp); [apply (phrase_le 0 d); [lia|exact Hp]|].
    rewrite !bytes_app, bytes_blank. reflexivity.
  - apply (phrase_le k d); [lia|exact Hp].
Qed.

Lemma show_phrase sp e : numerals e -> forall k, (k <= 4)%nat -> phrase k (show "^" sp k e) (value e).
Proof.
  induction e as [s|a IHa|o a IHa b IHb|f a IHa]; intros He k Hk; cbn [numerals] in He; cbn [show value].
  - apply phrase_wrap; [cbn; lia|exact Hk|]. now apply phrase_num.
  - apply phrase_wrap; [cbn; lia|exact Hk|].
    apply (phrase_neg (show "^" sp 4 a) _ sp); [now apply IHa|]. now rewrite !bytes_app, bytes_blank.
  - destruct He as [Ha Hb]. specialize (IHa Ha). specialize (IHb Hb).
    assert (Hbytes : forall c s1 s2, bytes (s1 +:+ blank sp +:+ str1 c +:+ blank sp +:+ s2)
              = bytes s1 ++ spaces sp ++ bytes (str1 c) ++ spaces sp ++ bytes s2)
      by (intros; now rewrite !bytes_app, bytes_blank).
    apply phrase_wrap; [destruct o; cbn; lia|exact Hk|]. destruct o; cbn [prec op_text left_level right_level apply_op].
    + eapply (phrase_loop 0 43 (fun x t => Some (fadd x t))); [lia|exact op_add|apply IHa; lia|apply IHb; lia|apply (Hbytes 43)].
    + eapply (phrase_loop 0 45 (fun x t => Some (fsub x t))); [lia|exact op_sub|apply IHa; lia|apply IHb; lia|apply (Hbytes 45)].
    + eapply (phrase_loop 1 42 (fun x t => Some (fmul x t))); [lia|exact op_mul|apply IHa; lia|apply IHb; lia|apply (Hbytes 42)].
    + eapply (phrase_loop 1 47 checked_div); [lia|exact op_div|apply IHa; lia|apply IHb; lia|apply (Hbytes 47)].
    + eapply phrase_pow; [apply IHa; lia|apply IHb; lia|apply (Hbytes 94)].
  - apply phrase_wrap; [cbn; lia|exact Hk|].
    apply (phrase_call f (show "^" sp 0 a) _ sp sp sp); [apply IHa; [exact He|lia]|].
    rewrite !bytes_app, bytes_blank. reflexivity.
Qed.
End Show.

(** ** The text as the evaluator reads it *)

(** [replace_pow] on bytes. *)
Fixpoint rp (l : list Z) : list Z :=
  match l with
  | a :: l' =>
      match l' with
      | b :: l'' => if (a =? 42) && (b =? 42) then 94 :: rp l'' else a :: rp l'
      | [] => l
      end
  | [] => []
  end.

Lemma byte_val_star c : (byte_val c =? 42) = Ascii.eqb c "*".
Proof. destruct c as [[] [] [] [] [] [] [] []]; reflexivity. Qed.

Lemma bytes_cons c s : bytes (String c s) = byte_val c :: bytes s.
Proof. reflexivity. Qed.
Lemma replace_pow_2 a b s : replace_pow (String a (String b s)) =
  if Ascii.eqb a "*" && Ascii.eqb b "*" then String "^" (replace_pow s) else String a (replace_pow (String b s)).
Proof. reflexivity. Qed.
Lemma rp_2 a b l : rp (a :: b :: l) = if (a =? 42) && (b =? 42) then 94 :: rp l else a :: rp (b :: l).
Proof. reflexivity. Qed.

Lemma replace_pow_bytes s : bytes (replace_pow s) = rp (bytes s).
Proof.
  assert (Hlen : forall n s, (String.length s <= n)%nat -> bytes (replace_pow s) = rp (bytes s)).
  { induction n as [|n IH]; intros [|a [|b t]] Hn; try reflexivity; cbn [String.length] in Hn; try lia.
    rewrite replace_pow_2, !bytes_cons, rp_2, !byte_val_star.
    destruct (Ascii.eqb a "*" && Ascii.eqb b "*"); rewrite bytes_cons; f_equal.
    - apply IH. lia.
    - rewrite <- bytes_cons. apply IH. cbn. lia. }
  now apply (Hlen (String.length s)).
Qed.

Lemma rune_values_ascii s : Forall (fun b => b < 128) (bytes s) -> rune_values s = bytes s.
Proof.
  unfold rune_values, runes. generalize 0%nat. induction s as [|c s IH]; intros off Hs; [done|].
  apply Forall_cons in Hs as [Hc Hs]. cbn [String.length runes_from].
  unfold decode_rune, byte_at. cbn [String.get option_map]. rewrite (proj2 (Z.ltb_lt _ _)) by exact Hc.
  cbn [map snd str_drop]. unfold bytes. cbn [list_ascii_of_string map]. f_equal. now apply IH.
Qed.

(** [b] is [a] with every "**" replaced; [a] does not begin or end with a star. *)
Definition replaced (a b : list Z) : Prop :=
  a <> [] /\ head a <> Some 42 /\ List.last a 0 <> 42 /\ rp a = b.

Lemma rp_app a b : List.last a 0 <> 42 -> rp (a ++ b) = rp a ++ rp b.
Proof.
  assert (Hlen : forall n a, (length a <= n)%nat -> List.last a 0 <> 42 -> rp (a ++ b) = rp a ++ rp b).
  { induction n as [|n IH]; intros [|x [|y l]] Hn Hl; try reflexivity; cbn [length] in Hn; try lia.
    - cbn in Hl. cbn [app rp]. destruct b as [|z b]; [done|]. now rewrite (proj2 (Z.eqb_neq x 42) Hl).
    - cbn [app rp]. destruct ((x =? 42) && (y =? 42)) eqn:E.
      + cbn [app]. f_equal. apply IH; [lia|]. destruct l; [|exact Hl]. cbn in Hl. zbool. lia.
      + change (x :: rp ((y :: l) ++ b) = x :: rp (y :: l) ++ rp b). f_equal. apply (IH (y :: l)); [cbn; lia|exact Hl]. }
  now apply (Hlen (length a)).
Qed.
Lemma rp_spaces n l : rp (spaces n ++ l) = spaces n ++ rp l.
Proof.
  destruct n as [|n]; [done|]. rewrite rp_app.
  - f_equal. clear. induction n as [|n IH]; [done|]. change (spaces (S (S n))) with (32 :: spaces (S n)).
    cbn [spaces replicate rp] in *. cbn [Z.eqb andb]. now f_equal.
  - unfold spaces. clear. induction n as [|n IH]; [done|]. exact IH.
Qed.
Lemma last_app_ne (a b : list Z) : b <> [] -> List.last (a ++ b) 0 = List.last b 0.
Proof.
  intros Hb. induction a as [|x a IH]; [done|]. cbn [app]. destruct (a ++ b) eqn:E; [now apply app_eq_nil in E as [_ ->]|].
  now rewrite <- IH.
Qed.

Lemma rp_cons c l : head l <> Some 42 -> rp (c :: l) = c :: rp l.
Proof.
  intros Hl. destruct l as [|b l]; [done|]. rewrite rp_2. rewrite (proj2 (Z.eqb_neq b 42)), andb_false_r; [done|].
  intros ->. now apply Hl.
Qed.
Lemma rp_calm l : Forall (fun c => c <> 42) l -> rp l = l.
Proof.
  induction 1 as [|c l Hc Hl IH]; [done|]. rewrite rp_cons; [now rewrite IH|].
  destruct Hl as [|d l Hd _]; [done|]. intros [= ->]. done.
Qed.
Lemma last_ne l : l <> [] -> Forall (fun c => c <> 42) l -> List.last l 0 <> 42.
Proof.
  intros Hne Hl. induction Hl as [|c l Hc Hl IH]; [done|]. destruct l as [|d l]; [exact Hc|]. now apply IH.
Qed.
(** A text without stars. *)
Definition calm (l : list Z) : Prop := l <> [] /\ Forall (fun c => c <> 42) l.
Lemma replaced_calm l : calm l -> replaced l l.
Proof.
  intros [Hne Hl]. split; [exact Hne|]. split; [|split; [now apply last_ne|now apply rp_calm]].
  destruct Hl as [|c l Hc _]; [done|]. intros [= ->]. done.
Qed.
Lemma replaced_app a a' b b' : replaced a a' -> replaced b b' -> replaced (a ++ b) (a' ++ b').
Proof.
  intros (Ha & Hha & Hla & <-) (Hb & _ & Hlb & <-). split; [destruct a; done|]. split; [destruct a; done|].
  split; [now rewrite last_app_ne|now apply rp_app].
Qed.
Lemma head_spaces sp b : head b <> Some 42 -> head (spaces sp ++ b) <> Some 42.
Proof. destruct sp; [done|]. intros _ [=]. Qed.
(** An operator between two texts. *)
Lemma replaced_op a a' b b' sp op op' : replaced a a' -> replaced b b' ->
  (exists c, op = [c] /\ op' = [c]) \/ (op = [42; 42] /\ op' = [94]) ->
  replaced (a ++ spaces sp ++ op ++ spaces sp ++ b) (a' ++ spaces sp ++ op' ++ spaces sp ++ b').
Proof.
  intros (Ha & Hha & Hla & <-) (Hb & Hhb & Hlb & <-) Hop.
  assert (Hne : op ++ spaces sp ++ b <> []) by (destruct Hop as [(c & -> & _)|[-> _]]; done).
  split; [destruct a; done|]. split; [destruct a; done|]. split.
  { rewrite !last_app_ne; try assumption; try (now destruct sp); destruct op; try done; now destruct sp. }
  rewrite rp_app by exact Hla. f_equal. rewrite rp_spaces. f_equal.
  destruct Hop as [(c & -> & ->)|[-> ->]]; cbn [app].
  - rewrite rp_cons by (now apply head_spaces). now rewrite rp_spaces.
  - rewrite rp_2. cbn [Z.eqb Pos.eqb andb]. now rewrite rp_spaces.
Qed.

Lemma calm_spaces l sp : calm l -> calm (l ++ spaces sp).
Proof.
  intros [Hne Hl]. split; [now destruct l|]. apply Forall_app. split; [exact Hl|]. apply Forall_replicate. lia.
Qed.

Lemma replaced_wrap sp a a' (c : bool) : replaced a a' ->
  replaced (if c then 40 :: spaces sp ++ a ++ spaces sp ++ [41] else a)
           (if c then 40 :: spaces sp ++ a' ++ spaces sp ++ [41] else a').
Proof.
  intros Hr. destruct c; [|exact Hr].
  change (40 :: spaces sp ++ ?x) with (([40] ++ spaces sp) ++ x).
  assert (Hpre : calm ([40] ++ spaces sp)) by (apply calm_spaces; split; [done|constructor; [vm_compute; lia|constructor]]).
  assert (Hpost : calm (spaces sp ++ [41])).
  { split; [now destruct sp|]. apply Forall_app. split; [apply Forall_replicate; lia|constructor; [vm_compute; lia|constructor]]. }
  change (40 :: spaces sp ++ a ++ spaces sp ++ [41]) with (([40] ++ spaces sp) ++ a ++ (spaces sp ++ [41])).
  change (40 :: spaces sp ++ a' ++ spaces sp ++ [41]) with (([40] ++ spaces sp) ++ a' ++ (spaces sp ++ [41])).
  apply replaced_app; [now apply replaced_calm|]. apply replaced_app; [exact Hr|now apply replaced_calm].
Qed.

Section ShowText.
Context `{Unicode}.

Lemma numeral_calm s : numeral s -> calm (bytes s) /\ Forall (fun b => b < 128) (bytes s).
Proof.
  intros (Hne & Hd & _). split; [split|].
  - destruct s; [done|]. now rewrite bytes_cons.
  - eapply Forall_impl; [exact Hd|]. cbn. intros c Hc ->. discriminate.
  - eapply Forall_impl; [exact Hd|]. cbn. intros c Hc. destruct (digit_or_dot_range c Hc). lia.
Qed.

Lemma bytes_wrap sp s (c : bool) :
  bytes (if c then "(" +:+ blank sp +:+ s +:+ blank sp +:+ ")" else s)
  = if c then 40 :: spaces sp ++ bytes s ++ spaces sp ++ [41] else bytes s.
Proof. destruct c; [|done]. now rewrite !bytes_app, bytes_blank. Qed.

Lemma show_replaced pow sp e : pow = "^"%string \/ pow = "**"%string -> numerals e ->
  forall k, replaced (bytes (show pow sp k e)) (bytes (show "^" sp k e)).
Proof.
  intros Hpow. induction e as [s|a IHa|o a IHa b IHb|f a IHa]; intros He k; cbn [numerals] in He; cbn [show];
    rewrite !bytes_wrap; apply replaced_wrap.
  - apply replaced_calm. now apply numeral_calm.
  - rewrite !bytes_app, bytes_blank, !app_assoc. apply replaced_app; [|now apply IHa].
    apply replaced_calm, calm_spaces. split; [done|]. constructor; [vm_compute; lia|constructor].
  - destruct He as [Ha Hb]. rewrite !bytes_app, !bytes_blank. apply replaced_op; [now apply IHa|now apply IHb|].
    destruct o; cbn [op_text]; [left; eexists; split; reflexivity..|].
    destruct Hpow as [->| ->]; [left; eexists; split; reflexivity|right; split; reflexivity].
  - rewrite !bytes_app, !bytes_blank.
    assert (Hpre : calm ((bytes (fn_name f) ++ spaces sp) ++ bytes "(" ++ spaces sp)).
    { destruct (fn_name_facts f) as (c & b & -> & Hl & _). rewrite app_assoc. apply calm_spaces. split; [done|].
      rewrite !Forall_app. split; [split; [|apply Forall_replicate; lia]|constructor; [vm_compute; lia|constructor]].
      eapply Forall_impl; [exact Hl|]. cbn. lia. }
    assert (Hpost : calm (spaces sp ++ bytes ")")).
    { split; [now destruct sp|]. apply Forall_app. split; [apply Forall_replicate; lia|constructor; [vm_compute; lia|constructor]]. }
    rewrite !(app_assoc (bytes "(")), !(app_assoc (spaces sp) (bytes "(" ++ spaces sp)), !(app_assoc (bytes (fn_name f))).
    apply replaced_app; [now apply replaced_calm|]. apply replaced_app; [now apply IHa|].
    now apply replaced_calm.
Qed.

Lemma show_ascii sp e : numerals e -> forall k, Forall (fun b => b < 128) (bytes (show "^" sp k e)).
Proof.
  assert (Hsp : Forall (fun b => b < 128) (spaces sp)) by (apply Forall_replicate; lia).
  induction e as [s|a IHa|o a IHa b IHb|f a IHa]; intros He k; cbn [numerals] in He; cbn [show]; rewrite bytes_wrap.
  all: match goal with |- Forall _ (if ?c then _ else ?raw) => assert (Hr : Forall (fun b => b < 128) raw) end.
  1: now apply numeral_calm.
  2: rewrite !bytes_app, !bytes_blank, !Forall_app; repeat split; [now constructor|exact Hsp|now apply IHa].
  3: destruct He; rewrite !bytes_app, !bytes_blank, !Forall_app; repeat split;
       [now apply IHa|exact Hsp|destruct o; now constructor|exact Hsp|now apply IHb].
  4: rewrite !bytes_app, !bytes_blank, !Forall_app; repeat split;
       [destruct f; now repeat constructor|exact Hsp|now constructor|exact Hsp|now apply IHa|exact Hsp|now constructor].
  all: case_bool; [|exact Hr]; constructor; [lia|]; rewrite !Forall_app; repeat split;
    [exact Hsp|exact Hr|exact Hsp|now constructor].
Qed.
End ShowText.

(** ** Decimal numerals *)


(** The number a list of digits writes. *)
Definition dec (l : list Z) : Z := foldl (fun n c => 10 * n + (c - 48)) 0 l.
Definition all_digits (l : list Z) : Prop := Forall (fun c => ascii_digit c = true) l.

Lemma decimal_digits l : all_digits l -> forall rest mant nd frac,
  decimal (l ++ rest) mant nd frac =
    decimal rest (foldl (fun n c => 10 * n + (c - 48)) mant l) (nd + len l) (option_map (fun k => k + len l) frac).
Proof.
  induction 1 as [|c l Hc _ IH]; intros rest mant nd frac.
  - cbn. rewrite Z.add_0_r. destruct frac as [k|]; cbn; [now rewrite Z.add_0_r|done].
  - cbn [app decimal]. assert (c <> 46) by (intros ->; discriminate).
    rewrite (proj2 (Z.eqb_neq c 46)), Hc, IH by done. cbn [foldl]. rewrite len_cons.
    f_equal; [lia|]. destruct frac as [k|]; cbn; [f_equal; lia|done].
Qed.
Lemma dec_nonneg l : all_digits l -> forall acc, 0 <= acc -> 0 <= foldl (fun n c => 10 * n + (c - 48)) acc l.
Proof.
  induction 1 as [|c l Hc _ IH]; intros acc Ha; [done|]. cbn [foldl]. apply IH.
  unfold ascii_digit in Hc. zbool. lia.
Qed.
Lemma decimal_numeral a b (dot : bool) : all_digits a -> all_digits b -> a ++ b <> [] -> (dot = false -> b = []) ->
  decimal (a ++ (if dot then 46 :: b else b)) 0 0 None = Some (dec (a ++ b), len (a ++ b), len b).
Proof.
  intros Ha Hb Hne Hdot. rewrite decimal_digits by exact Ha. unfold dec. rewrite foldl_app.
  assert (Hl : len (a ++ b) <> 0) by (intros Hz; apply Hne; now apply len_zero_nil). rewrite len_app in *.
  destruct dot.
  - cbn [decimal]. cbn [Z.eqb Pos.eqb option_map]. rewrite <- (app_nil_r b) at 1. rewrite decimal_digits by exact Hb.
    cbn [decimal option_map default]. now rewrite (proj2 (Z.eqb_neq _ 0)) by lia.
  - rewrite (Hdot eq_refl) in *. change (len (@nil Z)) with 0 in *. cbn [decimal option_map default].
    now rewrite (proj2 (Z.eqb_neq _ 0)), Z.add_0_r by lia.
Qed.

(** A numeral is the rounding of the number it writes. *)
Lemma ParseFloat_numeral a b (dot : bool) : all_digits a -> all_digits b -> a ++ b <> [] -> (dot = false -> b = []) ->
  exists v, ParseFloat (a ++ (if dot then 46 :: b else b)) = (v, is_inf v false) /\
    rounds v (IZR (dec (a ++ b)) / IZR (10 ^ len b)).
Proof.
  intros Ha Hb Hne Hdot. unfold ParseFloat. rewrite decimal_numeral by assumption.
  assert (Hab : all_digits (a ++ b)) by (now apply Forall_app). pose proof (dec_nonneg _ Hab 0 ltac:(lia)) as Hpos.
  pose proof (len_nonneg b). assert (H10 : 0 < 10 ^ len b) by (apply Z.pow_pos_nonneg; lia).
  change (foldl _ 0 (a ++ b)) with (dec (a ++ b)) in Hpos. destruct (dec (a ++ b)) as [|n|n]; [| |lia].
  - exists f0. split; [done|]. rewrite Rdiv_0_l. now apply rounds_exact.
  - exists (fratio n (Z.to_pos (10 ^ len b))).
    assert (Hr : rounds (fratio n (Z.to_pos (10 ^ len b))) (IZR (Zpos n) / IZR (10 ^ len b))).
    { pose proof (fratio_rounds n (Z.to_pos (10 ^ len b))) as Hf. now rewrite Z2Pos.id in Hf by exact H10. }
    split; [|exact Hr]. f_equal. destruct (fratio n _) as [s|[]| |s m e] eqn:Ef; try done.
    exfalso. destruct Hr as [[Hfin _]|[[Hi _]|[_ Hlt]]]; [discriminate|discriminate|].
    specialize (Hlt 0%R representable_0).
    assert (0 < IZR (Zpos n) / IZR (10 ^ len b))%R by (apply Rdiv_lt_0_compat; apply IZR_lt; lia). lra.
Qed.

(** ** Properties of the calculator *)

Lemma digits_number `{Unicode} l : all_digits l -> Forall (fun c => number_char c = true) l.
Proof.
  intros Hl. eapply Forall_impl; [exact Hl|]. intros c Hc. unfold number_char.
  rewrite is_digit_ascii; [now rewrite Hc|]. unfold ascii_digit in Hc. zbool. lia.
Qed.

Section Whole.
Context `{Unicode} `{MathFun}.

Lemma evalExpr_show pow sp i j e : pow = "^"%string \/ pow = "**"%string -> numerals e ->
  rune_values (replace_pow (blank i +:+ show pow sp 0 e +:+ blank j))
  = spaces i ++ bytes (show "^" sp 0 e) ++ spaces j.
Proof.
  intros Hpow He. destruct (show_replaced pow sp e Hpow He 0) as (Hne & _ & Hl & Hrp).
  assert (Hb : bytes (replace_pow (blank i +:+ show pow sp 0 e +:+ blank j)) = spaces i ++ bytes (show "^" sp 0 e) ++ spaces j).
  { rewrite replace_pow_bytes, !bytes_app, !bytes_blank, rp_spaces, rp_app by exact Hl. rewrite Hrp. do 2 f_equal.
    apply rp_calm, Forall_replicate. lia. }
  rewrite rune_values_ascii; [exact Hb|]. rewrite Hb, !Forall_app.
  split; [apply Forall_replicate; lia|]. split; [now apply show_ascii|apply Forall_replicate; lia].
Qed.
End Whole.

Lemma evalExpr_returns `{Unicode} `{MathFun} s : exists r, evalExpr s = Some r.
Proof.
  unfold evalExpr. set (p := skipWS _).
  assert (Hp : in_range p) by (eapply later_range, skip_later; unfold in_range; cbn; lia).
  destruct (parseExpr_returns p Hp) as (v & p' & -> & _). cbn [mbind option_bind].
  destruct (err p'); [eauto|]. case_bool; eauto.
Qed.
(** C18.  The calculator always answers: on every string, whatever its bytes,
    the evaluator terminates within the given fuel, without an index out of
    range, with a value or with an error. *)
Theorem evalExpr_total `{Unicode} `{MathFun} s : exists r, evalExpr s = Some r.
Proof. apply evalExpr_returns. Qed.

(** C19.  The calculator computes: the text of an expression (with any number
    of spaces around its operators, "^" or "**" for the power, parentheses
    where the precedences ask for them) evaluates to the IEEE value of the
    expression, operators of a level grouping to the left, powers to the
    right, and to an error exactly when a divisor is zero. *)
Theorem evalExpr_correct `{Unicode} `{MathFun} pow sp i j e :
  pow = "^"%string \/ pow = "**"%string -> numerals e ->
  match value e with
  | Some v => evalExpr (blank i +:+ show pow sp 0 e +:+ blank j) = Some (inr v)
  | None => exists er, evalExpr (blank i +:+ show pow sp 0 e +:+ blank j) = Some (inl er)
  end.
Proof.
  intros Hpow He. pose proof (show_phrase sp e He 0 ltac:(lia)) as Hph.
  unfold evalExpr. rewrite evalExpr_show by assumption.
  set (p0 := mkParser _ 0 None). assert (E0 : rem p0 = spaces i ++ bytes (show "^" sp 0 e) ++ spaces j) by reflexivity.
  destruct (rem_skipWS p0 i _ E0 (starts_no_space 0 _ _ (proj1 Hph))) as [E1 He1]. set (p := skipWS p0) in *.
  assert (Hr : in_range p) by (eapply phrase_range; [exact Hph|exact E1]).
  assert (E2 : rem p = bytes (show "^" sp 0 e) ++ spaces j ++ []) by (now rewrite app_nil_r).
  pose proof (phrase_closed _ _ (parse_fuel p) p j [] Hph E2 I He1) as HP.
  destruct (value e) as [x|].
  - destruct HP as (p' & E3 & He3 & Hl & ->); [unfold parse_fuel, left_of; lia|].
    cbn [mbind option_bind]. rewrite He3.
    assert (Hend : (pos (skipWS p') <? length (input (skipWS p')))%nat = false).
    { apply Nat.ltb_ge. pose proof (left_rem p') as Hlr. rewrite E3 in Hlr. unfold left_of in Hlr. cbn in *. lia. }
    now rewrite Hend.
  - destruct HP as (v & p' & -> & He3); [unfold parse_fuel, left_of; lia|].
    cbn [mbind option_bind]. destruct (err p') as [er|]; [eauto|done].
Qed.

Definition sample_expr : expr :=
  EBin Sub (EBin Sub (ENum "10") (EBin Div (ENum "9") (ENum "4"))) (EBin Pow (ENum "2") (EBin Pow (ENum "3") (ENum "2"))).

Lemma evalExpr_correct_witness :
  show "**" 1 0 sample_expr = "10 - 9 / 4 - 2 ** 3 ** 2"%string /\
  evalExpr "10 - 9 / 4 - 2 ** 3 ** 2" = Some (inr (flit (-50425) 100)).
Proof.
  split; [vm_compute; reflexivity|].
  pose proof (evalExpr_correct "**" 1 0 0 sample_expr) as Hc.
  assert (Ev : value sample_expr = Some (flit (-50425) 100)) by (vm_compute; reflexivity).
  assert (Es : blank 0 +:+ show "**" 1 0 sample_expr +:+ blank 0 = "10 - 9 / 4 - 2 ** 3 ** 2"%string) by (vm_compute; reflexivity).
  rewrite Ev, Es in Hc. apply Hc; [right; reflexivity|].
  assert (Hn : forall s, s <> EmptyString -> forallb digit_or_dot (bytes s) = true -> (ParseFloat (bytes s)).2 = false -> numeral s).
  { intros s H1 H2 H3. split; [exact H1|]. split; [|exact H3]. rewrite Forall_forall. intros c Hc'.
    rewrite forallb_forall in H2. now apply H2, list_elem_of_In. }
  cbn [sample_expr numerals]. repeat apply conj; (apply Hn; [discriminate|vm_compute; reflexivity|vm_compute; reflexivity]).
Defined.

(** Numbers are read correctly: on a numeral with the digits [a] before
    and [b] after an optional dot, followed by any spaces, [parseNumber]
    consumes exactly the numeral and the spaces, returns the binary64 rounding
    of the exact number it writes, and records an error exactly when that
    number overflows. *)
Theorem parseNumber_rounds `{Unicode} a b (dot : bool) k rest p :
  all_digits a -> all_digits b -> a ++ b <> [] -> (dot = false -> b = []) ->
  (forall c, head rest = Some c -> number_char c = false /\ c <> 32) ->
  rem p = (a ++ (if dot then 46 :: b else b)) ++ spaces k ++ rest ->
  exists v p', parseNumber p = (v, p') /\ rem p' = rest /\
    err p' = (if is_inf v false then Some (ErrNumber (a ++ (if dot then 46 :: b else b))) else err p) /\
    rounds v (IZR (dec (a ++ b)) / IZR (10 ^ len b)).
Proof.
  intros Ha Hb Hne Hdot Hrest E. set (num := a ++ (if dot then 46 :: b else b)) in *.
  destruct (ParseFloat_numeral a b dot Ha Hb Hne Hdot) as (v & Ev & Hv). fold num in Ev.
  destruct (rem_skip number_char p num (spaces k ++ rest) E) as (E1 & He1 & Hp1).
  - apply Forall_app. split; [now apply digits_number|].
    destruct dot; [constructor; [now apply orb_true_r|]|]; now apply digits_number.
  - destruct k as [|k]; [|change (number_char 32 = false); now rewrite number_char_ascii by lia].
    cbn. destruct (head rest) as [c|]; [|done]. now apply Hrest.
  - unfold parseNumber. rewrite Hp1, (take_token p _ _ E), Ev.
    assert (Hs : forall e, rem (skipWS (mkParser (input p) (pos (skip number_char p)) e)) = rest).
    { intros e. apply (rem_skipWS _ k); [exact E1|]. intros Hh. now destruct (Hrest 32 Hh). }
    destruct (is_inf v false) eqn:Ei; exists v; eexists; rewrite Ei;
      (split; [reflexivity|]); (split; [apply Hs|]); (split; [|exact Hv]); [reflexivity|exact He1].
Qed.

Lemma parseNumber_rounds_witness :
  exists v p', parseNumber (mkParser (bytes "3.25  *2") 0 None) = (v, p') /\ rem p' = bytes "*2" /\
    err p' = None /\ rounds v (325 / 100).
Proof.
  destruct (parseNumber_rounds [51] [50; 53] true 2 (bytes "*2") (mkParser (bytes "3.25  *2") 0 None)) as (v & p' & E & Hr & He & Hv).
  - repeat constructor.
  - repeat constructor.
  - discriminate.
  - discriminate.
  - intros c Hc. injection Hc as <-. split; [reflexivity|discriminate].
  - reflexivity.
  - exists v, p'. split; [exact E|]. split; [exact Hr|]. split; [|exact Hv]. rewrite He.
    replace v with (parseNumber (mkParser (bytes "3.25  *2") 0 None)).1 by (now rewrite E). vm_compute. reflexivity.
Defined.
