(* ===== verification/Provider.v ===== *)
(** * Providers (provider/provider.go, provider/degraded.go)

    The interface every LLM backend satisfies, as a record of operations over
    the world [W] a backend acts on, the contract of its [Stream] channel as a
    type class, and the [DegradedWrapper] decorator that the chaos demo uses
    to inject low-quality answers.  Context values are not modelled: a
    cancelled call is an error of the backend. *)
From S2P Require Import Prelude RingBuffer Float64 GoStrings Evaluator.
From Stdlib Require Import ZArith Lia Reals Lra String SpecFloat.
From stdpp Require Import base tactics list strings.
#[local] Open Scope Z_scope.

(** An [error] value, by what the code asks of it: its message, whether
    [errors.Is(err, syscall.ECONNREFUSED)], and, when [errors.As] finds a
    [*net.DNSError] in it, that error's [IsNotFound]. *)
Record GoError := mkError { err_msg : string; err_refused : bool; err_dns : option bool }.

Record Request := mkRequest {
  Model : string; Prompt : string; System : string; MaxTokens : Z; Stop : list string;
}.
Record Response := mkResponse {
  Text : string; InputTokens : Z; OutputTokens : Z; FinishReason : string;
}.

(** What a producer does to the [out] channel. *)
Inductive ChanOp := Send (chunk : string) | Close.

Record LLMProvider (W : Type) := mkProvider {
  Generate : Request -> W -> (GoError + Response) * W;
  Stream : Request -> W -> list ChanOp * option GoError * W;
  Embed : string -> option (list f64);
  Ping : W -> option GoError * W;
  Name : string;
}.
Arguments mkProvider {W}.
Arguments Generate {W}.
Arguments Stream {W}.
Arguments Embed {W}.
Arguments Ping {W}.
Arguments Name {W}.

(** The channel contract of [Stream]: sends, then exactly one close. *)
Definition closes_once (ops : list ChanOp) : Prop := exists chunks, ops = map Send chunks ++ [Close].
Class StreamContract {W} (p : LLMProvider W) : Prop :=
  stream_closes : forall req w, closes_once (Stream p req w).1.1.

(** The text every degraded answer repeats, by the length of the prompt. *)
Definition degradedText (prompt : string) : string :=
  let k := Z.rem (slen prompt) 3 in
  if k =? 0 then
    let s := "As an AI language model, I apologize but I cannot assist. "%string in s +:+ s +:+ s +:+ s +:+ s
  else if k =? 1 then
    let s := "I cannot and will not help. I am unable to assist with that. "%string in s +:+ s +:+ s +:+ s
  else
    let s := "I'm just an AI and I cannot and will not assist with this request. "%string in s +:+ s +:+ s +:+ s.

Record DegradedWrapper (W : Type) := mkWrapper { inner : LLMProvider W; enabled : bool }.
Arguments mkWrapper {W}.
Arguments inner {W}.
Arguments enabled {W}.

Section Wrapper.
Context {W : Type}.
Implicit Types (d : DegradedWrapper W).

Definition NewDegradedWrapper (p : LLMProvider W) : DegradedWrapper W := mkWrapper p false.
Definition Enable d : DegradedWrapper W := mkWrapper (inner d) true.
Definition Disable d : DegradedWrapper W := mkWrapper (inner d) false.
Definition IsEnabled d : bool := enabled d.

Definition degraded_Generate d (req : Request) (w : W) : (GoError + Response) * W :=
  if enabled d then (inr (mkResponse (degradedText (Prompt req)) 0 0 "stop"), w)
  else Generate (inner d) req w.

Definition degraded_Stream d (req : Request) (w : W) : list ChanOp * option GoError * W :=
  if enabled d then ([Send (degradedText (Prompt req)); Close], None, w)
  else Stream (inner d) req w.

(** The wrapper is itself a provider. *)
Definition wrapper_provider d : LLMProvider W :=
  mkProvider (degraded_Generate d) (degraded_Stream d) (Embed (inner d)) (Ping (inner d)) (Name (inner d)).

#[export] Instance wrapper_contract d `{!StreamContract (inner d)} : StreamContract (wrapper_provider d).
Proof.
  intros req w. cbn [wrapper_provider Stream]. unfold degraded_Stream.
  destruct (enabled d); [|apply stream_closes]. now exists [degradedText (Prompt req)].
Qed.
End Wrapper.

(** ** Degraded text always scores as a failure *)

Section Ascii.
Context `{U : Unicode}.

Definition is_ascii (r : Z) : bool := (0 <=? r) && (r <? 128).

Lemma to_lower_ascii text : forallb is_ascii (rune_values text) = true ->
  to_lower text = @to_lower latin1 text.
Proof.
  unfold to_lower. intros Ha. f_equal. apply map_ext_in. intros r Hr.
  rewrite forallb_forall in Ha. specialize (Ha r Hr). unfold is_ascii in Ha. zbool.
  rewrite !lower_rune_ascii by lia. done.
Qed.

Lemma tokenize_go_ascii rs : forallb is_ascii rs = true ->
  forall cur, tokenize_go rs cur = @tokenize_go latin1 rs cur.
Proof.
  induction rs as [|r rs IH]; intros Ha cur; cbn [tokenize_go]; [done|].
  cbn [forallb] in Ha. apply andb_prop in Ha as [Hr Ha]. unfold is_ascii in Hr. zbool.
  rewrite !is_letter_ascii, !is_digit_ascii by lia. repeat case_bool; rewrite ?IH by exact Ha; done.
Qed.

(** On ASCII text the content signals do not depend on the Unicode tables. *)
Lemma signals_ascii text :
  forallb is_ascii (rune_values text) = true ->
  forallb is_ascii (rune_values (@to_lower latin1 text)) = true ->
  repetitionScore text = @repetitionScore latin1 text /\
  RefusalMarkerScore text = @RefusalMarkerScore latin1 text.
Proof.
  intros H1 H2. unfold repetitionScore, RefusalMarkerScore.
  assert (Ht : tokenize text = @tokenize latin1 text).
  { unfold tokenize. rewrite to_lower_ascii by exact H1. now apply tokenize_go_ascii. }
  now rewrite Ht, to_lower_ascii by exact H1.
Qed.

(** A penalty never empties the list of signals nor raises the score. *)
Lemma penalise_mono ws name w sd acc hi :
  in_unit w -> in_unit sd.1 -> len ws < 100 -> acc_ok ws acc ->
  (B2R acc.2 <= hi)%R -> acc.1 <> [] ->
  acc_ok (ws ++ [(name, w)]) (penalise name w sd acc) /\
  (B2R (penalise name w sd acc).2 <= hi)%R /\ (penalise name w sd acc).1 <> [].
Proof.
  intros Hw Hs Hn Ha Hb Hne. destruct (penalise_ok ws name w sd acc Hw Hs Hn Ha) as [Hk Hle].
  split; [exact Hk|]. split; [lra|]. unfold penalise. case_bool; [now destruct acc.1|exact Hne].
Qed.

(** The refusal penalty brings a running score under [hi]. *)
Lemma refusal_upper ws response a s1 hi :
  acc_ok ws a -> (B2R a.2 <= s1)%R -> len ws < 100 -> representable hi ->
  flt (RefusalMarkerScore response).1 f1 = true ->
  (s1 - B2R (fmul (fsub f1 (RefusalMarkerScore response).1) (flit 40 100)) <= hi)%R ->
  let a' := penalise "refusal_marker" (flit 40 100) (RefusalMarkerScore response) a in
  acc_ok (ws ++ [("refusal_marker"%string, flit 40 100)]) a' /\ (B2R a'.2 <= hi)%R /\ a'.1 <> [].
Proof.
  intros Ha Hs1 Hn Hrep Hrf Hle. pose proof (RefusalMarkerScore_unit response) as Hru.
  pose proof weights_unit as Hw. unfold signal_weights in Hw. rewrite !Forall_cons in Hw.
  cbn [snd] in Hw. destruct Hw as (_ & _ & W3 & _).
  destruct (penalise_ok ws "refusal_marker" _ (RefusalMarkerScore response) a W3 Hru Hn Ha) as [Hk _].
  split; [exact Hk|]. destruct Hk as [Fk _]. revert Fk. unfold penalise. rewrite Hrf. cbn [fst snd].
  destruct (penalty_bounds (flit 40 100) _ Hru W3) as [Fp Hp]. destruct Ha as [F2 _].
  intros Fk. split; [|now destruct a.1].
  destruct (fsub_rounds a.2 _ F2 Fp) as [[_ Hrd]|[[Ei _]|[Ei _]]];
    [apply (Hrd hi Hrep); lra|rewrite Ei in Fk; discriminate..].
Qed.

(** A response whose repetition and refusal penalties leave at most [hi]
    scores at most [hi], whatever the other signals. *)
Lemma evaluate_acc_upper prompt response ls coh hi :
  slen response < max_text -> in_unit ls.1 -> (forall sd, coh = Some sd -> in_unit sd.1) ->
  representable hi -> flt (RefusalMarkerScore response).1 f1 = true ->
  (B2R (penalise "repetition" (flit 45 100) (repetitionScore response) ([], f1)).2
     - B2R (fmul (fsub f1 (RefusalMarkerScore response).1) (flit 40 100)) <= hi)%R ->
  let acc := evaluate_acc prompt response ls coh in (B2R acc.2 <= hi)%R /\ acc.1 <> [].
Proof.
  intros Hr Hl Hc Hrep Hrf Hle.
  pose proof weights_unit as Hw. unfold signal_weights in Hw. rewrite !Forall_cons in Hw.
  cbn [snd] in Hw. destruct Hw as (W1 & W2 & _ & W4 & W5 & _). unfold evaluate_acc.
  set (a1 := penalise "repetition" _ _ _) in *.
  assert (Hk1 : acc_ok [("repetition"%string, flit 45 100)] a1)
    by (apply (penalise_ok []); auto using repetitionScore_unit, acc_ok_nil; reflexivity).
  set (ws1 := [("repetition"%string, flit 45 100)]) in *.
  destruct (penalise_ok ws1 "length_anomaly" (flit 25 100) ls a1 W2 Hl ltac:(reflexivity) Hk1) as [Hk2 Hb2].
  set (ws2 := ws1 ++ _) in *. destruct (refusal_upper ws2 response _ _ hi Hk2 Hb2 ltac:(reflexivity) Hrep Hrf Hle) as (Hk3 & Hb3 & Hn3).
  set (a3 := penalise "refusal_marker" _ _ _) in *.
  assert (H4 : exists ws, len ws < 100 /\ acc_ok ws (coherence_step coh a3) /\
     (B2R (coherence_step coh a3).2 <= hi)%R /\ (coherence_step coh a3).1 <> []).
  { destruct coh as [sd|]; cbn [coherence_step]; [|eexists; split; [|eauto]; reflexivity].
    exists ((ws2 ++ [("refusal_marker"%string, flit 40 100)]) ++ [("low_coherence"%string, flit 20 100)]).
    split; [reflexivity|]. apply penalise_mono; auto. reflexivity. }
  destruct H4 as (ws & Hn4 & Hk4 & Hb4 & Hne4).
  eapply penalise_mono; eauto using languageMismatchScore_unit.
Qed.

Lemma Evaluate_upper e prompt response hi :
  eval_ok e -> slen response < max_text -> representable hi -> (0 <= hi)%R ->
  flt (RefusalMarkerScore response).1 f1 = true ->
  (B2R (penalise "repetition" (flit 45 100) (repetitionScore response) ([], f1)).2
     - B2R (fmul (fsub f1 (RefusalMarkerScore response).1) (flit 40 100)) <= hi)%R ->
  exists r e', Evaluate e prompt response = Some (r, e') /\ eval_ok e' /\
    in_unit (res_Score r) /\ (B2R (res_Score r) <= hi)%R /\ res_Signals r <> [].
Proof.
  intros He Hr Hrep Hhi Hrf Hle.
  destruct (Evaluate_chain e prompt response He Hr) as (ls & coh & e' & E & Hl & Hc & He' & _).
  destruct (evaluate_acc_ok prompt response ls coh Hr Hl Hc) as (F & B & _).
  destruct (evaluate_acc_upper prompt response ls coh hi Hr Hl Hc Hrep Hrf Hle) as [Hb Hne].
  eexists _, e'. split; [exact E|]. split; [exact He'|]. cbn [res_Score res_Signals].
  split; [apply clip0_unit; [exact F|apply B]|]. split; [|exact Hne].
  unfold clip0. case_bool; [destruct f0_val as [_ V0]; rewrite V0; exact Hhi|exact Hb].
Qed.
End Ascii.

(** The three texts, and the bound 27/64 on what they leave. *)
Lemma degradedText_cases prompt : exists k, (k < 3)%nat /\ degradedText prompt = degradedText (zeros k).
Proof.
  unfold degradedText. case_bool; [exists 0%nat; split; [lia|reflexivity]|].
  case_bool; [exists 1%nat|exists 2%nat]; (split; [lia|reflexivity]).
Qed.

(** The degraded provider reliably looks bad: whatever the prompt, the
    evaluator's history, its embedder and the Unicode tables, a degraded
    answer scores below [QualityAcceptable] with at least one signal, which
    is what makes the orchestrator reject it. *)
Theorem degradedText_rejected `{Unicode} e prompt evalPrompt : eval_ok e ->
  exists r e', Evaluate e evalPrompt (degradedText prompt) = Some (r, e') /\ eval_ok e' /\
    flt (res_Score r) QualityAcceptable = true /\ res_Signals r <> [].
Proof.
  intros He. destruct (degradedText_cases prompt) as (k & Hk & ->).
  assert (R27 : representable (27 / 64)).
  { exists 27, (-6). repeat split; [lia..|]. unfold bpow. simpl. lra. }
  assert (Hup : exists r e', Evaluate e evalPrompt (degradedText (zeros k)) = Some (r, e') /\ eval_ok e' /\
      in_unit (res_Score r) /\ (B2R (res_Score r) <= 27 / 64)%R /\ res_Signals r <> []).
  { assert (Hsig : repetitionScore (degradedText (zeros k)) = @repetitionScore latin1 (degradedText (zeros k)) /\
       RefusalMarkerScore (degradedText (zeros k)) = @RefusalMarkerScore latin1 (degradedText (zeros k))).
    { apply signals_ascii; destruct k as [|[|[|k]]]; (lia || vm_compute; reflexivity). }
    destruct Hsig as [S1 S2].
    apply Evaluate_upper; rewrite ?S1, ?S2; [exact He| |exact R27|lra| |].
    - destruct k as [|[|[|k]]]; (lia || reflexivity).
    - destruct k as [|[|[|k]]]; (lia || vm_compute; reflexivity).
    - destruct k as [|[|[|k]]]; [..|lia].
      all: match goal with |- (B2R ?a - B2R ?b <= _)%R =>
             let H := fresh in fval a; fval b end.
      all: destruct Hval as [_ ->], Hval0 as [_ ->]; lra. }
  destruct Hup as (r & e' & E & He' & [F _] & Hb & Hne). exists r, e'.
  split; [exact E|]. split; [exact He'|]. split; [|exact Hne].
  fval (flit 45 100). destruct Hval as [F45 V45]. apply flt_spec; [exact F|exact F45|].
  change QualityAcceptable with (flit 45 100). rewrite V45. lra.
Qed.

Lemma degradedText_rejected_witness : eval_ok (NewEvaluator None) /\
  exists r e', Evaluate (NewEvaluator None) "hello" (degradedText "hello") = Some (r, e') /\ eval_ok e' /\
    flt (res_Score r) QualityAcceptable = true /\ res_Signals r <> [].
Proof.
  assert (He : eval_ok (NewEvaluator None)) by (apply NewEvaluator_ok; discriminate).
  split; [exact He|]. exact (degradedText_rejected (NewEvaluator None) "hello" "hello" He).
Defined.

(** The comment in the code announces scores of 0.10 to 0.15; without an
    embedder and a history the first text scores 0.41. *)
Example degraded_score_041 :
  option_map (fun r => fmt_fixed 2 (res_Score r.1)) (Evaluate (NewEvaluator None) "abc" (degradedText "abc"))
    = Some "0.41"%string.
Proof. vm_compute. reflexivity. Qed.
