(* ===== verification/Chaos.v ===== *)
(** * Chaos flags with auto-restore (orchestrator/chaos.go)

    Each of the three chaos switches (primary killed, fallback killed,
    degraded primary) is an atomic flag with one timer slot and a generation
    counter under a mutex.  A method call is two atomic steps, the store to
    the flag and the section under the mutex; a timer callback is the locked
    check of its generation followed by the store.  [Slot] is the shared state
    of one switch, [do_action] its steps one by one for any interleaving of
    callers and callbacks; the methods of [Chaos] are their sequential
    composition. *)
From S2P Require Import Prelude Provider.
From Stdlib Require Import ZArith Lia String.
From stdpp Require Import base tactics list.
#[local] Open Scope Z_scope.

Definition chaosAutoRestoreTimeout : Z := 5 * minute.

(** A timer: its deadline, the generation its callback captured, and whether
    the runtime has started the callback. *)
Record Timer := mkTimer { t_deadline : Z; t_gen : Z; t_fired : bool }.

(** A flag, the slot [*time.Timer] and the generation counter (uint64). *)
Record Slot := mkSlot { flag : bool; slot : option Timer; gen : Z }.

Definition new_slot : Slot := mkSlot false None 0.

(** ** The atomic steps *)

Definition store (b : bool) (s : Slot) : Slot := mkSlot b (slot s) (gen s).

(** [scheduleAutoRestore]: a no-op while a timer is pending. *)
Definition scheduleAutoRestore (now : Z) (s : Slot) : Slot :=
  match slot s with
  | Some _ => s
  | None => mkSlot (flag s) (Some (mkTimer (now + chaosAutoRestoreTimeout) (gen s) false)) (gen s)
  end.

(** [cancelTimer]: stop and clear the timer, invalidate queued callbacks. *)
Definition cancelTimer (s : Slot) : Slot := mkSlot (flag s) None (wrapu64 (gen s + 1)).

(** The runtime starts the callback of a due timer, which captured [t_gen];
    the slot still points at the timer. *)
Definition fire (now : Z) (s : Slot) : option (Slot * Z) :=
  match slot s with
  | Some t => if negb (t_fired t) && (t_deadline t <=? now)
              then Some (mkSlot (flag s) (Some (mkTimer (t_deadline t) (t_gen t) true)) (gen s), t_gen t)
              else None
  | None => None
  end.

(** The locked part of the callback: whether it goes on to restore. *)
Definition callback_check (myGen : Z) (s : Slot) : Slot * bool :=
  if gen s =? myGen then (mkSlot (flag s) None (gen s), true) else (s, false).

(** ** The methods, run without interruption *)

Definition slot_kill (now : Z) (s : Slot) : Slot := scheduleAutoRestore now (store true s).
Definition slot_restore (s : Slot) : Slot := cancelTimer (store false s).
(** A due timer fires and its callback runs to the end. *)
Definition slot_fire (now : Z) (s : Slot) : Slot :=
  match fire now s with
  | None => s
  | Some (s, g) => let '(s, go) := callback_check g s in if go then store false s else s
  end.

(** [degradedPrimary] may be nil; its enabled flag is the degrade slot's. *)
Record Chaos := mkChaos {
  prim : Slot; fall : Slot; degrade : Slot;
  chaosRunning : bool; has_degradedPrimary : bool;
}.

Definition NewChaos (has_degraded : bool) : Chaos := mkChaos new_slot new_slot new_slot false has_degraded.

Definition KillPrimary (now : Z) (c : Chaos) : Chaos :=
  mkChaos (slot_kill now (prim c)) (fall c) (degrade c) (chaosRunning c) (has_degradedPrimary c).
Definition RestorePrimary (c : Chaos) : Chaos :=
  mkChaos (slot_restore (prim c)) (fall c) (degrade c) (chaosRunning c) (has_degradedPrimary c).
Definition IsPrimaryKilled (c : Chaos) : bool := flag (prim c).

Definition KillFallback (now : Z) (c : Chaos) : Chaos :=
  mkChaos (prim c) (slot_kill now (fall c)) (degrade c) (chaosRunning c) (has_degradedPrimary c).
Definition RestoreFallback (c : Chaos) : Chaos :=
  mkChaos (prim c) (slot_restore (fall c)) (degrade c) (chaosRunning c) (has_degradedPrimary c).
Definition IsFallbackKilled (c : Chaos) : bool := flag (fall c).

Definition EnableDegrade (now : Z) (c : Chaos) : Chaos :=
  if has_degradedPrimary c
  then mkChaos (prim c) (fall c) (slot_kill now (degrade c)) (chaosRunning c) (has_degradedPrimary c)
  else c.
Definition DisableDegrade (c : Chaos) : Chaos :=
  let s := if has_degradedPrimary c then store false (degrade c) else degrade c in
  mkChaos (prim c) (fall c) (cancelTimer s) (chaosRunning c) (has_degradedPrimary c).
Definition IsDegradeEnabled (c : Chaos) : bool := has_degradedPrimary c && flag (degrade c).

Definition TryStart (c : Chaos) : bool * Chaos :=
  if chaosRunning c then (false, c)
  else (true, mkChaos (prim c) (fall c) (degrade c) true (has_degradedPrimary c)).
Definition Done (c : Chaos) : Chaos := mkChaos (prim c) (fall c) (degrade c) false (has_degradedPrimary c).
Definition IsRunning (c : Chaos) : bool := chaosRunning c.

Inductive Switch := PrimarySwitch | FallbackSwitch | DegradeSwitch.
(** The auto-restore timer of a switch is checked against the clock. *)
Definition restore_due (sw : Switch) (now : Z) (c : Chaos) : Chaos :=
  match sw with
  | PrimarySwitch => mkChaos (slot_fire now (prim c)) (fall c) (degrade c) (chaosRunning c) (has_degradedPrimary c)
  | FallbackSwitch => mkChaos (prim c) (slot_fire now (fall c)) (degrade c) (chaosRunning c) (has_degradedPrimary c)
  | DegradeSwitch => mkChaos (prim c) (fall c) (slot_fire now (degrade c)) (chaosRunning c) (has_degradedPrimary c)
  end.

(** The wrapper the degrade switch controls. *)
Definition degraded_wrapper {W} (p : LLMProvider W) (c : Chaos) : DegradedWrapper W :=
  mkWrapper p (flag (degrade c)).

(** ** Sequential histories *)

Inductive ChaosEvent := EKill (now : Z) | ERestore | EFire (now : Z).

Definition slot_event (s : Slot) (e : ChaosEvent) : Slot :=
  match e with EKill now => slot_kill now s | ERestore => slot_restore s | EFire now => slot_fire now s end.

(** What a switch promises: [Some t0] is "on since [t0]". *)
Definition spec_event (on : option Z) (e : ChaosEvent) : option Z :=
  match e, on with
  | EKill now, None => Some now
  | EKill _, Some t0 => Some t0
  | ERestore, _ => None
  | EFire now, Some t0 => if t0 + chaosAutoRestoreTimeout <=? now then None else Some t0
  | EFire _, None => None
  end.

(** The slot refines the promise: on exactly with a timer due five minutes
    after the first kill. *)
Definition slot_refines (on : option Z) (s : Slot) : Prop :=
  flag s = bool_decide (is_Some on) /\
  match on with
  | Some t0 => slot s = Some (mkTimer (t0 + chaosAutoRestoreTimeout) (gen s) false)
  | None => slot s = None
  end.

Lemma slot_event_refines on s e : slot_refines on s -> slot_refines (spec_event on e) (slot_event s e).
Proof.
  intros [Hf Hs]. destruct e as [now| |now]; cbn [slot_event spec_event].
  - unfold slot_kill, scheduleAutoRestore, store. cbn [slot flag gen].
    destruct on as [t0|]; rewrite Hs; split; reflexivity || assumption.
  - split; reflexivity.
  - unfold slot_fire, fire. destruct on as [t0|]; rewrite Hs; [|split; assumption].
    cbn [t_fired t_deadline t_gen negb andb]. case_bool; [|split; assumption].
    unfold callback_check. cbn [gen]. rewrite Z.eqb_refl. split; reflexivity.
Qed.

(** ** Interleavings

    A thread between its atomic steps. *)
Inductive Thread :=
| KillPending              (** stored true, about to schedule *)
| RestorePending           (** stored false, about to cancel *)
| CallbackPending (g : Z)  (** started by the runtime, about to lock *)
| CallbackStore.           (** passed the check, about to store false *)

Record Conc := mkConc { sh : Slot; threads : list Thread; clock : Z }.

Inductive Action :=
| AKill | ARestore | AFire (** a call begins; a due timer starts *)
| AStep (i : nat)          (** thread [i] takes its next step *)
| ATick (d : Z).

Definition remove_nth {A} (i : nat) (l : list A) : list A := take i l ++ drop (S i) l.

Definition do_action (a : Action) (c : Conc) : option Conc :=
  match a with
  | AKill => Some (mkConc (store true (sh c)) (threads c ++ [KillPending]) (clock c))
  | ARestore => Some (mkConc (store false (sh c)) (threads c ++ [RestorePending]) (clock c))
  | AFire => '(s, g) ← fire (clock c) (sh c); Some (mkConc s (threads c ++ [CallbackPending g]) (clock c))
  | ATick d => if 0 <=? d then Some (mkConc (sh c) (threads c) (clock c + d)) else None
  | AStep i =>
      th ← threads c !! i;
      let rest := remove_nth i (threads c) in
      Some match th with
           | KillPending => mkConc (scheduleAutoRestore (clock c) (sh c)) rest (clock c)
           | RestorePending => mkConc (cancelTimer (sh c)) rest (clock c)
           | CallbackPending g =>
               let '(s, go) := callback_check g (sh c) in
               mkConc s (if go then rest ++ [CallbackStore] else rest) (clock c)
           | CallbackStore => mkConc (store false (sh c)) rest (clock c)
           end
  end.

Fixpoint do_actions (l : list Action) (c : Conc) : option Conc :=
  match l with [] => Some c | a :: l => c ← do_action a c; do_actions l c end.

Definition conc_init (now : Z) : Conc := mkConc new_slot [] now.

(** A step of the program, and reachability in [n] of them. *)
Definition conc_step (c c' : Conc) : Prop := exists a, do_action a c = Some c'.
Inductive reach (t0 : Z) : Z -> Conc -> Prop :=
| reach_init : reach t0 0 (conc_init t0)
| reach_step n c c' : reach t0 n c -> conc_step c c' -> reach t0 (n + 1) c'.

(** How many queued callbacks captured generation [g]. *)
#[export] Instance Thread_eq_dec : EqDecision Thread.
Proof. solve_decision. Defined.
Definition queued (g : Z) (ths : list Thread) : Z := len (filter (fun th => th = CallbackPending g) ths).

(** The timer invariant after [n < 2^64] steps: a slot's timer carries the
    current generation, was armed at most five minutes ahead, and has exactly
    one queued callback once fired, none before; an empty slot has none. *)
Definition timers_ok (n : Z) (c : Conc) : Prop :=
  0 <= gen (sh c) <= n /\
  (forall g, CallbackPending g ∈ threads c -> 0 <= g <= gen (sh c)) /\
  match slot (sh c) with
  | None => queued (gen (sh c)) (threads c) = 0
  | Some t => t_gen t = gen (sh c) /\ t_deadline t <= clock c + chaosAutoRestoreTimeout /\
  queued (gen (sh c)) (threads c) = (if t_fired t then 1 else 0)
  end.

Lemma queued_app g a b : queued g (a ++ b) = queued g a + queued g b.
Proof. unfold queued. rewrite filter_app. apply len_app. Qed.

Lemma queued_1 g th : queued g [th] = if decide (th = CallbackPending g) then 1 else 0.
Proof. unfold queued. rewrite filter_cons. now case_decide. Qed.

Lemma remove_nth_perm {A} i (l : list A) x : l !! i = Some x -> l ≡ₚ x :: remove_nth i l.
Proof.
  intros H. unfold remove_nth. rewrite <- (take_drop_middle l i x H) at 1.
  symmetry. apply Permutation_middle.
Qed.

Lemma queued_remove g i ths th : ths !! i = Some th ->
  queued g (remove_nth i ths) = queued g ths - queued g [th].
Proof.
  intros H. pose proof (remove_nth_perm i ths th H) as Hp. unfold queued, len.
  rewrite (Permutation_length (filter_Permutation _ _ _ Hp)).
  change (th :: remove_nth i ths) with ([th] ++ remove_nth i ths). rewrite filter_app, length_app. lia.
Qed.

Lemma remove_nth_in {A} i (l : list A) x y : l !! i = Some x -> y ∈ remove_nth i l -> y ∈ l.
Proof. intros H Hy. rewrite (remove_nth_perm i l x H). now right. Qed.

Lemma queued_zero g ths : (forall g', CallbackPending g' ∈ ths -> g' <> g) -> queued g ths = 0.
Proof.
  intros H. unfold queued. replace (filter _ ths) with (@nil Thread); [done|]. symmetry.
  apply elem_of_nil_inv. intros th Hth. apply list_elem_of_filter in Hth as [-> Hth]. now apply (H g).
Qed.

Lemma timers_ok_step n c c' : n < 2 ^ 64 - 1 -> timers_ok n c -> conc_step c c' -> timers_ok (n + 1) c'.
Proof.
  intros Hn (Hg & Hq & Hs) [a E]. unfold timers_ok.
  destruct a as [| | |i|d]; cbn [do_action] in E.
  - injection E as <-. cbn [sh threads clock store gen slot]. split; [lia|]. split.
    { intros g [?|Hin]%elem_of_app; [auto|]. apply list_elem_of_singleton in Hin. discriminate. }
    rewrite queued_app, queued_1, decide_False by discriminate.
    destruct (slot (sh c)) as [t|]; [rewrite Z.add_0_r|]; (exact Hs || lia).
  - injection E as <-. cbn [sh threads clock store gen slot]. split; [lia|]. split.
    { intros g [?|Hin]%elem_of_app; [auto|]. apply list_elem_of_singleton in Hin. discriminate. }
    rewrite queued_app, queued_1, decide_False by discriminate.
    destruct (slot (sh c)) as [t|]; [rewrite Z.add_0_r|]; (exact Hs || lia).
  - unfold fire in E. destruct (slot (sh c)) as [t|] eqn:Et; [|done].
    destruct (t_fired t) eqn:Ef; [done|]. cbn [negb andb] in E. case_bool; [|done].
    cbn [mbind option_bind] in E. injection E as <-. cbn [sh threads clock gen slot t_gen t_deadline t_fired].
    destruct Hs as (Htg & Hd & Hc). split; [lia|]. split.
    { intros g [?|Hin]%elem_of_app; [auto|]. apply list_elem_of_singleton in Hin. injection Hin as ->. lia. }
    split; [exact Htg|]. split; [exact Hd|].
    rewrite queued_app, queued_1, Htg, decide_True, Hc by done. reflexivity.
  - destruct (threads c !! i) as [th|] eqn:Eth; [|done]. cbn [mbind option_bind] in E.
    pose proof (fun g => queued_remove g i _ th Eth) as Hrem.
    pose proof (fun y => remove_nth_in i _ th y Eth) as Hin.
    destruct th as [| |g|]; injection E as <-; cbn [sh threads clock store cancelTimer gen slot].
    + unfold scheduleAutoRestore. destruct (slot (sh c)) as [t|] eqn:Et; cbn [gen slot].
      * rewrite Et, Hrem, queued_1, decide_False, Z.sub_0_r by discriminate. split; [lia|]. auto.
      * rewrite Hrem, queued_1, decide_False, Z.sub_0_r by discriminate. split; [lia|].
        split; [auto|]. cbn [t_gen t_deadline t_fired]. split; [done|]. split; [lia|done].
    + unfold wrapu64. rewrite Z.mod_small by lia. split; [lia|]. split.
      * intros g Hin'. specialize (Hq g (Hin _ Hin')). lia.
      * apply queued_zero. intros g Hin' ->. specialize (Hq _ (Hin _ Hin')). lia.
    + unfold callback_check. destruct (Z.eqb_spec (gen (sh c)) g) as [Eg|Eg]; cbn [sh threads clock gen slot].
      * split; [lia|]. split.
        { intros g' [?|Hin']%elem_of_app; [auto|]. apply list_elem_of_singleton in Hin'. discriminate. }
        rewrite queued_app, queued_1, decide_False, Hrem, queued_1, decide_True by (discriminate || congruence).
        assert (1 <= queued (gen (sh c)) (threads c)).
        { pose proof (Hrem (gen (sh c))) as Hr. rewrite queued_1, decide_True in Hr by congruence.
          unfold queued in *. pose proof (len_nonneg (filter (fun th => th = CallbackPending (gen (sh c)))
            (remove_nth i (threads c)))). lia. }
        destruct (slot (sh c)) as [t|]; [destruct Hs as (_ & _ & Hc); destruct (t_fired t)|]; lia.
      * split; [lia|]. split; [auto|]. rewrite Hrem, queued_1, decide_False, Z.sub_0_r by congruence. exact Hs.
    + rewrite Hrem, queued_1, decide_False, Z.sub_0_r by discriminate. split; [lia|]. auto.
  - case_bool; [|done]. injection E as <-. cbn [sh threads clock]. zbool. split; [lia|]. split; [auto|].
    destruct (slot (sh c)) as [t|]; [|exact Hs]. destruct Hs as (? & ? & ?). repeat split; auto; lia.
Qed.

Lemma reach_nonneg t0 n c : reach t0 n c -> 0 <= n.
Proof. induction 1; lia. Qed.

Lemma reach_timers_ok t0 n c : reach t0 n c -> n < 2 ^ 64 - 1 -> timers_ok n c.
Proof.
  induction 1 as [|n c c' Hr IH Hs]; intros Hn.
  - split; [cbn; lia|]. split; [|reflexivity]. intros g Hin. cbn in Hin. now apply not_elem_of_nil in Hin.
  - apply (timers_ok_step n c); [lia| |exact Hs]. apply IH. lia.
Qed.

(** ** Serialised restores

    The steps of a program whose explicit restores do not overlap other calls:
    kills, timers and callbacks interleave freely, a restore runs whole. *)
Inductive serial_reach (t0 : Z) : Z -> Conc -> Prop :=
| sreach_init : serial_reach t0 0 (conc_init t0)
| sreach_step n c a c' : serial_reach t0 n c -> a <> ARestore -> do_action a c = Some c' ->
    serial_reach t0 (n + 1) c'
| sreach_restore n c : serial_reach t0 n c ->
    serial_reach t0 (n + 2) (mkConc (slot_restore (sh c)) (threads c) (clock c)).

Lemma serial_no_restore t0 n c : serial_reach t0 n c -> RestorePending ∉ threads c.
Proof.
  induction 1 as [|n c a c' _ IH Hne E|n c _ IH]; [apply not_elem_of_nil| |exact IH].
  destruct a as [| | |i|d]; cbn [do_action] in E; try done.
  - injection E as <-. cbn. intros [?|Hin]%elem_of_app; [auto|].
    apply list_elem_of_singleton in Hin. discriminate.
  - destruct (fire (clock c) (sh c)) as [[s g]|]; [|done]. cbn [mbind option_bind] in E. injection E as <-.
    cbn. intros [?|Hin]%elem_of_app; [auto|]. apply list_elem_of_singleton in Hin. discriminate.
  - destruct (threads c !! i) as [th|] eqn:Eth; [|done]. cbn [mbind option_bind] in E.
    pose proof (fun y => remove_nth_in i _ th y Eth) as Hin.
    destruct th as [| |g|]; injection E as <-; cbn [threads]; auto.
    destruct (callback_check g (sh c)) as [s []]; cbn [threads]; auto.
    intros [?|Hin']%elem_of_app; [auto|]. apply list_elem_of_singleton in Hin'. discriminate.
  - case_bool; [|done]. injection E as <-. exact IH.
Qed.

Lemma serial_reach_reach t0 n c : serial_reach t0 n c -> reach t0 n c.
Proof.
  induction 1 as [|n c a c' _ IH Hne E|n c Hs IH]; [constructor|econstructor; [exact IH|now exists a]|].
  replace (n + 2) with (n + 1 + 1) by lia.
  eapply reach_step; [eapply reach_step; [exact IH|exists ARestore; reflexivity]|].
  exists (AStep (length (threads c))). cbn [do_action threads sh clock].
  rewrite lookup_app_r, Nat.sub_diag by lia. cbn [lookup list_lookup mbind option_bind].
  unfold remove_nth. rewrite take_app_length, drop_ge by (rewrite length_app; cbn; lia).
  now rewrite app_nil_r.
Qed.

(** Who will take the switch off: an armed timer, a caller about to arm one,
    or a callback about to store. *)
Definition covered (c : Conc) : Prop :=
  flag (sh c) = true ->
  is_Some (slot (sh c)) \/ KillPending ∈ threads c \/ CallbackStore ∈ threads c.

Lemma serial_covered t0 n c : serial_reach t0 n c -> covered c.
Proof.
  induction 1 as [|n c a c' Hs IH Hne E|n c _ IH]; [discriminate| |discriminate].
  pose proof (serial_no_restore t0 n c Hs) as Hnr. unfold covered in *.
  destruct a as [| | |i|d]; cbn [do_action] in E; try done.
  - injection E as <-. cbn. intros _. right. left. apply elem_of_app. right. now apply list_elem_of_singleton.
  - unfold fire in E. destruct (slot (sh c)) as [t|]; [|done]. case_bool; [|done].
    cbn [mbind option_bind] in E. injection E as <-. cbn. eauto.
  - destruct (threads c !! i) as [th|] eqn:Eth; [|done]. cbn [mbind option_bind] in E.
    pose proof (remove_nth_perm i _ th Eth) as Hp.
    destruct th as [| |g|]; injection E as <-; cbn [threads sh].
    + unfold scheduleAutoRestore. destruct (slot (sh c)) eqn:Es; [rewrite Es|]; cbn; eauto.
    + destruct Hnr. eapply list_elem_of_lookup_2; exact Eth.
    + unfold callback_check. case_bool; cbn [sh threads flag slot].
      * intros _. right. right. apply elem_of_app. right. now apply list_elem_of_singleton.
      * intros Hf. destruct (IH Hf) as [?|Hc]; [auto|right].
        rewrite Hp, !elem_of_cons in Hc. destruct Hc as [[?|?]|[?|?]]; (discriminate || auto).
    + discriminate.
  - case_bool; [|done]. injection E as <-. exact IH.
Qed.

(** ** Properties of the chaos switches *)

(** C7.  A switch with auto-restore, called sequentially: whatever the kills,
    restores and timer expirations, the flag is on exactly when the history
    says so, the deadline stays five minutes after the FIRST kill however
    often kill is repeated, and the switch goes off when it passes. *)
Theorem slot_history_refines events :
  slot_refines (foldl spec_event None events) (foldl slot_event new_slot events).
Proof.
  assert (H0 : slot_refines None new_slot) by (split; reflexivity).
  revert H0. generalize (@None Z) new_slot.
  induction events as [|e l IH]; intros on s H; cbn [foldl]; [exact H|].
  apply IH. now apply slot_event_refines.
Qed.

(** The generation handshake: in every interleaving of kills, restores
    and timer callbacks (of fewer than 2^64 - 1 steps), an empty slot has no
    callback left that could act, a timer in the slot was armed at most five
    minutes ahead and has one acting callback if it fired and none before, and
    a callback superseded by a restore finds another generation and changes
    nothing. *)
Theorem generation_handshake t0 n c : reach t0 n c -> n < 2 ^ 64 - 1 ->
  (slot (sh c) = None -> forall g, CallbackPending g ∈ threads c -> callback_check g (sh c) = (sh c, false)) /\
  (forall t, slot (sh c) = Some t ->
     t_deadline t <= clock c + chaosAutoRestoreTimeout /\
     queued (gen (sh c)) (threads c) = (if t_fired t then 1 else 0)) /\
  (forall g, CallbackPending g ∈ threads c ->
     g < gen (sh c) -> callback_check g (sh c) = (sh c, false)).
Proof.
  intros Hr Hn. destruct (reach_timers_ok t0 n c Hr Hn) as (Hg & Hq & Hs).
  assert (Hstale : forall g, g <> gen (sh c) -> callback_check g (sh c) = (sh c, false)).
  { intros g Hne. unfold callback_check. now rewrite (proj2 (Z.eqb_neq _ _)) by auto. }
  split; [|split].
  - intros E g Hin. apply Hstale. intros ->. rewrite E in Hs. unfold queued in Hs.
    apply len_zero_nil in Hs. eapply not_elem_of_nil. rewrite <- Hs.
    apply list_elem_of_filter. eauto.
  - intros t E. rewrite E in Hs. tauto.
  - intros g _ Hlt. apply Hstale. lia.
Qed.

Lemma do_actions_reach l : forall t0 n c c', reach t0 n c -> do_actions l c = Some c' -> reach t0 (n + len l) c'.
Proof.
  induction l as [|a l IH]; intros t0 n c c' Hr E; cbn [do_actions] in E.
  - injection E as <-. now rewrite Z.add_0_r.
  - destruct (do_action a c) as [c1|] eqn:E1; [|done]. cbn [mbind option_bind] in E.
    rewrite len_cons. replace (n + (len l + 1)) with (n + 1 + len l) by lia.
    eapply IH; [|exact E]. eapply reach_step; [exact Hr|now exists a].
Qed.

Lemma generation_handshake_witness :
  exists c, reach 0 6 c /\ slot (sh c) = None /\ CallbackPending 0 ∈ threads c /\
    callback_check 0 (sh c) = (sh c, false).
Proof.
  set (l := [AKill; AStep 0; ATick chaosAutoRestoreTimeout; AFire; ARestore; AStep 1]).
  destruct (do_actions l (conc_init 0)) as [c|] eqn:E; [|vm_compute in E; discriminate].
  pose proof (do_actions_reach l 0 0 _ _ (reach_init 0) E) as Hr. exists c.
  vm_compute in E. injection E as <-.
  split; [exact Hr|]. split; [reflexivity|]. assert (Hin : CallbackPending 0 ∈ [CallbackPending 0]) by left.
  split; [exact Hin|]. apply (proj1 (generation_handshake 0 6 _ Hr ltac:(lia))); [reflexivity|exact Hin].
Defined.

(** C8.  Self-healing: as long as explicit restores do not overlap other
    calls, in any interleaving of kills, timers and callbacks a switch that is
    on with no call in progress has a timer due within five minutes, and
    waiting that long and letting the callback run turns it off. *)
Theorem auto_restore t0 n c : serial_reach t0 n c -> n < 2 ^ 64 - 1 ->
  threads c = [] -> flag (sh c) = true ->
  (exists t, slot (sh c) = Some t /\ t_fired t = false /\ t_deadline t <= clock c + chaosAutoRestoreTimeout) /\
  exists c', do_actions [ATick chaosAutoRestoreTimeout; AFire; AStep 0; AStep 0] c = Some c' /\
    flag (sh c') = false /\ slot (sh c') = None /\ threads c' = [].
Proof.
  intros Hs Hn Hth Hf. destruct (serial_covered t0 n c Hs Hf) as [[t Et]|[Hin|Hin]];
    [|rewrite Hth in Hin; now apply not_elem_of_nil in Hin..].
  destruct (reach_timers_ok t0 n c (serial_reach_reach t0 n c Hs) Hn) as (Hg & _ & Hs').
  rewrite Et, Hth in Hs'. destruct Hs' as (Hgen & Hd & Hq). unfold queued, len in Hq. cbn in Hq.
  destruct (t_fired t) eqn:Ef; [discriminate|]. split; [eauto|].
  destruct c as [[fl sl g] ths now], t as [dl tg fd]. cbn in *. subst.
  cbn -[Z.leb Z.add Z.eqb]. change (0 <=? chaosAutoRestoreTimeout) with true. cbn -[Z.leb Z.add Z.eqb].
  unfold fire. cbn -[Z.leb Z.add Z.eqb]. rewrite (proj2 (Z.leb_le _ _)) by lia.
  cbn -[Z.leb Z.add Z.eqb]. unfold callback_check. cbn -[Z.leb Z.add Z.eqb]. rewrite Z.eqb_refl. cbn. eauto.
Qed.

Lemma auto_restore_witness :
  exists c c', serial_reach 0 2 c /\ flag (sh c) = true /\
    do_actions [ATick chaosAutoRestoreTimeout; AFire; AStep 0; AStep 0] c = Some c' /\ flag (sh c') = false.
Proof.
  set (c := mkConc (slot_kill 0 new_slot) [] 0).
  assert (Hs : serial_reach 0 2 c).
  { apply (sreach_step 0 1 (mkConc (store true new_slot) [KillPending] 0) (AStep 0)); [|done|reflexivity].
    apply (sreach_step 0 0 (conc_init 0) AKill); [constructor|done|reflexivity]. }
  destruct (auto_restore 0 2 c Hs) as (_ & c' & E & Hf & _); [lia|reflexivity|reflexivity|].
  exists c, c'. auto.
Defined.

(** ** What the model shows of the code

    A restore that overlaps a kill: the restore stores false, the whole kill
    runs (its schedule is a no-op, the old timer is still in the slot), then
    the restore cancels that timer.  The switch is on, nothing is armed, no
    call is in progress: nothing turns it off. *)
Example restore_overlapping_kill :
  match do_actions [AKill; AStep 0; ARestore; AKill; AStep 1; AStep 0] (conc_init 0) with
  | Some c => flag (sh c) = true /\ slot (sh c) = None /\ threads c = []
  | None => False
  end.
Proof. vm_compute. auto. Qed.

(** And it stays so: only a new call can change a state like that. *)
Theorem stranded_switch_stays_on c a c' :
  flag (sh c) = true -> slot (sh c) = None -> threads c = [] ->
  do_action a c = Some c' -> a <> AKill -> a <> ARestore ->
  flag (sh c') = true /\ slot (sh c') = None /\ threads c' = [].
Proof.
  intros Hf Hs Ht E H1 H2. destruct a as [| | |i|d]; cbn [do_action] in E; try done.
  - unfold fire in E. rewrite Hs in E. discriminate.
  - rewrite Ht in E. discriminate.
  - case_bool; [|done]. injection E as <-. auto.
Qed.

(** A callback that passed its check before a restore and a new kill still
    undoes the new kill, whose timer stays armed. *)
Example late_callback_undoes_kill :
  match do_actions [AKill; AStep 0; ATick chaosAutoRestoreTimeout; AFire; AStep 0;
                    ARestore; AStep 1; AKill; AStep 1; AStep 0] (conc_init 0) with
  | Some c => flag (sh c) = false /\ is_Some (slot (sh c)) /\ threads c = []
  | None => False
  end.
Proof. vm_compute. eauto. Qed.
