(* ===== verification/Sha256.v ===== *)
(** * SHA-256 (crypto/sha256, fmt %x)

    The hash the semantic cache and the tool results use as keys: FIPS 180-4
    on byte strings, with 32-bit words as [Z] modulo 2^32. *)
From S2P Require Import Prelude GoStrings.
From Stdlib Require Import ZArith Lia String Ascii.
From stdpp Require Import base tactics list strings.
#[local] Open Scope Z_scope.

Definition w32 (x : Z) : Z := x mod 2 ^ 32.
Definition rotr (n x : Z) : Z := Z.lor (Z.shiftr x n) (w32 (Z.shiftl x (32 - n))).
Definition ch (x y z : Z) : Z := Z.lxor (Z.land x y) (Z.land (Z.lxor x (2 ^ 32 - 1)) z).
Definition maj (x y z : Z) : Z := Z.lxor (Z.lxor (Z.land x y) (Z.land x z)) (Z.land y z).
Definition bsig0 (x : Z) : Z := Z.lxor (Z.lxor (rotr 2 x) (rotr 13 x)) (rotr 22 x).
Definition bsig1 (x : Z) : Z := Z.lxor (Z.lxor (rotr 6 x) (rotr 11 x)) (rotr 25 x).
Definition ssig0 (x : Z) : Z := Z.lxor (Z.lxor (rotr 7 x) (rotr 18 x)) (Z.shiftr x 3).
Definition ssig1 (x : Z) : Z := Z.lxor (Z.lxor (rotr 17 x) (rotr 19 x)) (Z.shiftr x 10).

(** The constants, as the standard defines them: the first 32 bits of the
    fractional parts of the square roots of the first 8 primes and of the cube
    roots of the first 64. *)
Definition is_prime (p : Z) : bool := forallb (fun d => negb (p mod d =? 0)) (seqZ 2 (p - 2)).
Definition primes (bound : Z) : list Z := List.filter is_prime (seqZ 2 (bound - 2)).
(** The integer cube root of [n], bit by bit from [2^bits]. *)
Fixpoint cube_root (bits : nat) (n r : Z) : Z :=
  match bits with
  | O => r
  | S b => let r' := r + 2 ^ Z.of_nat b in cube_root b n (if r' ^ 3 <=? n then r' else r)
  end.
Definition sha_k : list Z := Eval vm_compute in
  map (fun p => w32 (cube_root 40 (Z.shiftl p 96) 0)) (take 64 (primes 312)).
Definition sha_init : list Z := Eval vm_compute in
  map (fun p => w32 (Z.sqrt (Z.shiftl p 64))) (take 8 (primes 312)).

(** The next word of the schedule, from the sixteen before it, newest first. *)
Definition sha_next (w : list Z) : Z :=
  w32 (ssig1 (nth 1 w 0) + nth 6 w 0 + ssig0 (nth 14 w 0) + nth 15 w 0).
Fixpoint sha_schedule (n : nat) (w : list Z) : list Z :=
  match n with O => rev w | S n => sha_schedule n (sha_next w :: w) end.

Definition sha_round (s : list Z) (kw : Z * Z) : list Z :=
  match s with
  | [a; b; c; d; e; f; g; h] =>
      let t1 := h + bsig1 e + ch e f g + kw.1 + kw.2 in
      let t2 := bsig0 a + maj a b c in
      [w32 (t1 + t2); a; b; c; w32 (d + t1); e; f; g]
  | _ => s
  end.
Definition sha_block (h : list Z) (words : list Z) : list Z :=
  let w := sha_schedule 48 (rev words) in
  zip_with (fun x y => w32 (x + y)) h (foldl sha_round h (zip sha_k w)).

Fixpoint sha_words (bs : list Z) : list Z :=
  match bs with
  | a :: b :: c :: d :: bs => (a * 2 ^ 24 + b * 2 ^ 16 + c * 2 ^ 8 + d) :: sha_words bs
  | _ => []
  end.
Definition be_bytes (n : nat) (x : Z) : list Z :=
  map (fun i => Z.land (Z.shiftr x (8 * Z.of_nat (n - 1 - i))) 255) (seq 0 n).

Definition bytes_of (s : string) : list Z := map byte_val (list_ascii_of_string s).

Definition sha_pad (bs : list Z) : list Z :=
  let n := len bs in
  bs ++ [128] ++ replicate (Z.to_nat ((55 - n) mod 64)) 0 ++ be_bytes 8 (8 * n).

(** The padded message is a whole number of 16-word blocks. *)
Fixpoint sha_blocks (fuel : nat) (h words : list Z) : list Z :=
  match fuel with
  | O => h
  | S fuel => match words with
              | [] => h
              | _ => sha_blocks fuel (sha_block h (take 16 words)) (drop 16 words)
              end
  end.
Definition sha256 (s : string) : list Z :=
  let words := sha_words (sha_pad (bytes_of s)) in
  concat (map (be_bytes 4) (sha_blocks (length words) sha_init words)).

Definition hex_digit (n : Z) : string := str1 (if n <? 10 then 48 + n else 87 + n).
(** [fmt.Sprintf("%x", h)]. *)
Definition hex (bs : list Z) : string :=
  String.concat EmptyString (map (fun b => hex_digit (Z.shiftr b 4) +:+ hex_digit (Z.land b 15)) bs).

Lemma sha_schedule_length n w : length (sha_schedule n w) = (n + length w)%nat.
Proof.
  revert w. induction n as [|n IH]; intros w; cbn [sha_schedule]; [apply length_rev|].
  rewrite IH. cbn [length]. lia.
Qed.

(** Test vectors of FIPS 180-4. *)
Example sha_empty : hex (sha256 "") = "e3b0c44298fc1c149afbf4c8996fb92427ae41e4649b934ca495991b7852b855"%string.
Proof. vm_compute. reflexivity. Qed.
Example sha_abc : hex (sha256 "abc") = "ba7816bf8f01cfea414140de5dae2223b00361a396177a9cb410ff61f20015ad"%string.
Proof. vm_compute. reflexivity. Qed.
Example sha_two_blocks : hex (sha256 "abcdbcdecdefdefgefghfghighijhijkijkljklmklmnlmnomnopnopq")
  = "248d6a61d20638b8e5c026930c3e6039a33ce45964ff2167f6ecedd419db06c1"%string.
Proof. vm_compute. reflexivity. Qed.
