(* ===== verification/SemanticCache.v ===== *)
(** * The semantic cache (cache/semantic.go)

    Responses keyed by the embedding of their prompt, with an exact SHA-256
    match as fallback.  [Set] appends the entry at once and computes its
    embedding in a goroutine: a [Job] of the state, completed by a later step
    in any order with the other calls.  [prune] filters and cuts the slice in
    place, on the backing array that the old and the new slice share, as the
    code does. *)
From S2P Require Import Prelude Float64 GoStrings Evaluator Sha256.
From Stdlib Require Import ZArith Lia Reals Lra String SpecFloat.
From stdpp Require Import base tactics list strings.
#[local] Open Scope Z_scope.

Record cacheEntry := mkEntry {
  prompt : string; response : string; embedding : list f64; expiresAt : Z;
}.
(** [cacheEntry{}]: its [expiresAt] is the zero time. *)
Definition zero_entry : cacheEntry := mkEntry EmptyString EmptyString [] time_zero.

(** A goroutine of [Set] waiting for the embedder. *)
Record Job := mkJob { job_idx : Z; job_prompt : string; job_createdAt : Z }.

Record SemanticCache := mkCache {
  entries : list cacheEntry;
  ttl : Z;
  embedder : option Embedder;
  threshold : f64;
  maxEntries : Z;
  jobs : list Job;
}.

Definition defaultSimilarityThreshold : f64 := flit 92 100.
Definition defaultMaxEntries : Z := 1024.

Definition New (t : Z) (em : option Embedder) (th : f64) (mx : Z) : SemanticCache :=
  mkCache [] t em th mx [].

Definition with_entries (c : SemanticCache) (l : list cacheEntry) : SemanticCache :=
  mkCache l (ttl c) (embedder c) (threshold c) (maxEntries c) (jobs c).
Definition with_jobs (c : SemanticCache) (l : list Job) : SemanticCache :=
  mkCache (entries c) (ttl c) (embedder c) (threshold c) (maxEntries c) l.

Definition exactKey (p : string) : string := hex (sha256 p).
Definition expired (now : Z) (e : cacheEntry) : bool := time_after now (expiresAt e).

(** ** Get *)

(** The package's own cosine; that of package quality is the same function. *)
Definition cosineSimilarity (a b : list f64) : f64 :=
  if negb (len a =? len b) || (len a =? 0) then f0
  else
    let step := fun '(dot, normA, normB) '(x, y) => (fadd dot (fmul x y), fadd normA (fmul x x), fadd normB (fmul y y)) in
    let '(dot, normA, normB) := foldl step (f0, f0, f0) (zip a b) in
    let denom := fmul (fsqrt normA) (fsqrt normB) in
    if feq denom f0 then f0 else fdiv dot denom.
Lemma cosineSimilarity_eq a b : cosineSimilarity a b = Evaluator.cosineSimilarity a b.
Proof. reflexivity. Qed.
(** The loop over the entries: the first of the most similar ones. *)
Definition better (now : Z) (vec : list f64) (acc : string * f64) (e : cacheEntry) : string * f64 :=
  if expired now e || (len (embedding e) =? 0) then acc
  else
    let sim := cosineSimilarity vec (embedding e) in
    if flt acc.2 sim then (response e, sim) else acc.

Definition exact_match (now : Z) (k : string) (l : list cacheEntry) : option string :=
  option_map response
    (List.find (fun e => negb (expired now e) && String.eqb (exactKey (prompt e)) k) l).

Definition semantic_match (now : Z) (c : SemanticCache) (p : string) : option string :=
  embed ← embedder c;
  vec ← embed p;
  let '(best, bestSim) := foldl (better now vec) (EmptyString, f0) (entries c) in
  if fle (threshold c) bestSim then Some best else None.

(** [Get]: [Some] text for [(text, true)], [None] for [("", false)]. *)
Definition Get (now : Z) (c : SemanticCache) (p : string) : option string :=
  match semantic_match now c p with
  | Some r => Some r
  | None => exact_match now (exactKey p) (entries c)
  end.

Definition Size (c : SemanticCache) : Z := len (entries c).

(** ** Set *)

(** [prune]: the live entries are compacted in place ([live] is a prefix of
    the array, the tail still holds the old entries), the slice is cut by
    [excess] at the front, and the array is zeroed from index [len(live)] of
    the OLD slice on. *)
Definition prune (now : Z) (c : SemanticCache) : SemanticCache :=
  let live := filter (fun e => expired now e = false) (entries c) in
  let array := live ++ drop (length live) (entries c) in
  let '(off, n) :=
    if (0 <? maxEntries c) && (maxEntries c <=? len live) then
      let excess := len live - maxEntries c + 1 in
      if (0 <? excess) && (excess <=? len live) then (excess, len live - excess) else (0, len live)
    else (0, len live) in
  let array := take (Z.to_nat n) array ++ replicate (length array - Z.to_nat n) zero_entry in
  with_entries c (take (Z.to_nat n) (drop (Z.to_nat off) array)).

(** [Set] up to the return of the caller; the goroutine is left in [jobs].
    [now] is read by [Set], [now'] by [prune]. *)
Definition Set_ (now now' : Z) (p r : string) (c : SemanticCache) : SemanticCache :=
  let entry := mkEntry p r [] (now + ttl c) in
  let c := prune now' c in
  let c := with_entries c (entries c ++ [entry]) in
  let idx := len (entries c) - 1 in
  match embedder c with
  | None => c
  | Some _ => with_jobs c (jobs c ++ [mkJob idx p now])
  end.

(** The entry a job wrote: same prompt and same expiry. *)
Definition job_matches (c : SemanticCache) (j : Job) (e : cacheEntry) : bool :=
  String.eqb (prompt e) (job_prompt j) && (expiresAt e =? job_createdAt j + ttl c).

Definition set_embedding (vec : list f64) (e : cacheEntry) : cacheEntry :=
  mkEntry (prompt e) (response e) vec (expiresAt e).

(** The first entry a job matches, by index. *)
Fixpoint find_index (f : cacheEntry -> bool) (l : list cacheEntry) (i : nat) : option nat :=
  match l with
  | [] => None
  | e :: l => if f e then Some i else find_index f l (S i)
  end.

Definition job_target (c : SemanticCache) (j : Job) : option nat :=
  match (if job_idx j <? len (entries c) then slice_get (entries c) (job_idx j) else None) with
  | Some e => if job_matches c j e then Some (Z.to_nat (job_idx j))
              else find_index (job_matches c j) (entries c) 0
  | None => find_index (job_matches c j) (entries c) 0
  end.

(** The rest of the goroutine: embed, then store the vector. *)
Definition finish_job (j : Job) (c : SemanticCache) : SemanticCache :=
  match embedder c with
  | None => c
  | Some embed =>
      match embed (job_prompt j) with
      | None => c
      | Some vec =>
          match job_target c j with
          | Some i => with_entries c (alter (set_embedding vec) i (entries c))
          | None => c
          end
      end
  end.

(** ** Interleavings *)

Inductive cache_step (c : SemanticCache) : SemanticCache -> Prop :=
| step_set now now' p r : cache_step c (Set_ now now' p r c)
| step_finish i j : jobs c !! i = Some j ->
    cache_step c (finish_job j (with_jobs c (delete i (jobs c)))).
Inductive cache_reach (c0 : SemanticCache) : SemanticCache -> Prop :=
| cache_init : cache_reach c0 c0
| cache_trans c c' : cache_reach c0 c -> cache_step c c' -> cache_reach c0 c'.

(** ** The invariant: an entry's embedding is its own prompt's *)

Definition entry_ok (em : option Embedder) (e : cacheEntry) : Prop :=
  embedding e = [] \/ exists embed, em = Some embed /\ embed (prompt e) = Some (embedding e).

Definition cache_ok (c : SemanticCache) : Prop :=
  Forall (entry_ok (embedder c)) (entries c) /\
  (0 < maxEntries c -> len (entries c) <= maxEntries c).

Lemma prune_frame now c :
  ttl (prune now c) = ttl c /\ embedder (prune now c) = embedder c /\ threshold (prune now c) = threshold c /\
  maxEntries (prune now c) = maxEntries c /\ jobs (prune now c) = jobs c.
Proof. unfold prune. repeat case_match; auto. Qed.

(** What [prune] leaves: every entry is a live one of before, or blank. *)
Lemma prune_entries now c e : e ∈ entries (prune now c) ->
  e = zero_entry \/ (e ∈ entries c /\ expired now e = false).
Proof.
  unfold prune. set (live := filter _ _).
  assert (Hlive : forall e, e ∈ live -> e ∈ entries c /\ expired now e = false).
  { intros e' H. apply list_elem_of_filter in H. tauto. }
  set (arr := live ++ _).
  assert (Hgen : forall off n, n <= len live ->
     e ∈ take (Z.to_nat n) (drop off (take (Z.to_nat n) arr ++ replicate (length arr - Z.to_nat n) zero_entry)) ->
     e = zero_entry \/ (e ∈ entries c /\ expired now e = false)).
  { intros off n Hn Hin. eapply elem_of_take in Hin as (i & Hi & _).
    rewrite lookup_drop in Hi. apply list_elem_of_lookup_2, elem_of_app in Hi as [Hi|Hi].
    - right. apply Hlive. unfold arr in Hi. rewrite take_app_le in Hi by (unfold len in Hn; lia).
      apply elem_of_take in Hi as (k & Hk & _). eapply list_elem_of_lookup_2; exact Hk.
    - left. now apply elem_of_replicate in Hi as [? _]. }
  pose proof (len_nonneg live). repeat case_match; zbool; simplify_eq; cbn [with_entries entries]; intros Hin.
  all: eapply Hgen in Hin; [exact Hin|lia].
Qed.

Lemma prune_len now c : 0 < maxEntries c -> len (entries (prune now c)) <= maxEntries c - 1.
Proof.
  intros Hm. unfold prune. set (live := filter _ _). pose proof (len_nonneg live).
  set (arr := live ++ _).
  assert (Hgen : forall off n (l : list cacheEntry), 0 <= n -> len (take (Z.to_nat n) (drop off l)) <= n).
  { intros off n l Hn. unfold len. rewrite length_take. lia. }
  repeat case_match; zbool; simplify_eq; cbn [with_entries entries].
  all: try (etransitivity; [apply Hgen; lia|lia]).
  all: repeat match goal with H : _ && _ = false |- _ => apply andb_false_iff in H as [?|?] end; zbool; try lia.
  all: etransitivity; [apply Hgen; lia|lia].
Qed.

(** [prune] exactly: the live entries when they are under the cap; otherwise
    the first [maxEntries - 1] live ones less the [excess] oldest, followed by
    as many blank entries. *)
Lemma prune_exact now c :
  let live := filter (fun e => expired now e = false) (entries c) in
  let excess := len live - maxEntries c + 1 in
  entries (prune now c) =
    if (0 <? maxEntries c) && (maxEntries c <=? len live)
    then drop (Z.to_nat excess) (take (Z.to_nat (maxEntries c - 1)) live)
         ++ replicate (Z.to_nat (Z.min excess (maxEntries c - 1))) zero_entry
    else live.
Proof.
  cbv zeta. unfold prune. set (live := filter _ _).
  assert (Hle : (length live <= length (entries c))%nat) by apply length_filter.
  assert (Harr : length (live ++ drop (length live) (entries c)) = length (entries c))
    by (rewrite length_app, length_drop; lia).
  destruct ((0 <? maxEntries c) && (maxEntries c <=? len live)) eqn:E; zbool.
  - rewrite (proj2 (Z.ltb_lt 0 _)), (proj2 (Z.leb_le _ (len live))) by lia. cbn [andb with_entries entries].
    rewrite Harr. unfold len in *.
    replace (Z.of_nat (length live) - (Z.of_nat (length live) - maxEntries c + 1)) with (maxEntries c - 1) by lia.
    set (n := Z.to_nat (maxEntries c - 1)).
    set (off := Z.to_nat (Z.of_nat (length live) - maxEntries c + 1)).
    assert (Hlen : length live = (n + off)%nat) by lia.
    rewrite take_app_le by lia. set (a := take n live). assert (Ha : length a = n) by (unfold a; rewrite length_take; lia).
    replace (Z.to_nat (Z.min _ _)) with (off `min` n)%nat by lia.
    destruct (decide (off <= n)%nat).
    + rewrite drop_app_le by lia. rewrite take_app. rewrite length_drop, Ha.
      rewrite (take_ge (drop off a)) by (rewrite length_drop; lia). f_equal.
      rewrite take_replicate. f_equal. lia.
    + rewrite drop_app_ge by lia. rewrite Ha, drop_replicate, take_replicate.
      rewrite (drop_ge a) by lia. cbn [app]. f_equal. lia.
  - cbn [with_entries entries]. rewrite Harr. unfold len. rewrite Nat2Z.id, drop_0, take_app_length.
    rewrite take_app_le by lia. now rewrite take_ge.
Qed.

Lemma find_index_spec f l : forall i k, find_index f l i = Some k ->
  exists e, (i <= k)%nat /\ l !! (k - i)%nat = Some e /\ f e = true.
Proof.
  induction l as [|e l IH]; intros i k; cbn [find_index]; [done|]. case_bool.
  - intros [= ->]. exists e. rewrite Nat.sub_diag. auto.
  - intros Hk. destruct (IH _ _ Hk) as (e' & Hle & Hl & Hf). exists e'. split; [lia|].
    replace (k - i)%nat with (S (k - S i)) by lia. auto.
Qed.

Lemma job_target_spec c j i : job_target c j = Some i ->
  exists e, entries c !! i = Some e /\ job_matches c j e = true.
Proof.
  assert (Hfind : find_index (job_matches c j) (entries c) 0 = Some i ->
    exists e, entries c !! i = Some e /\ job_matches c j e = true).
  { intros H. destruct (find_index_spec _ _ _ _ H) as (e & _ & Hl & Hf). rewrite Nat.sub_0_r in Hl. eauto. }
  unfold job_target. destruct (if _ <? _ then _ else _) as [e|] eqn:E; [|exact Hfind].
  destruct (job_matches c j e) eqn:Em; [|exact Hfind]. intros [= <-]. exists e. split; [|exact Em].
  revert E. case_bool; [|done]. unfold slice_get. now case_bool.
Qed.

(** Filling in an embedding changes nothing but the embedding of an entry with
    the job's prompt. *)
Lemma finish_job_entries c j :
  entries (finish_job j c) = entries c \/
  exists i e embed vec, entries c !! i = Some e /\ prompt e = job_prompt j /\
    embedder c = Some embed /\ embed (prompt e) = Some vec /\
    entries (finish_job j c) = <[i := set_embedding vec e]> (entries c).
Proof.
  unfold finish_job. destruct (embedder c) as [embed|] eqn:Em; [|auto].
  destruct (embed (job_prompt j)) as [vec|] eqn:Ev; [|auto].
  destruct (job_target c j) as [i|] eqn:Et; [|auto]. right.
  destruct (job_target_spec c j i Et) as (e & He & Hmj). unfold job_matches in Hmj.
  apply andb_prop in Hmj as [Hp _]. apply String.eqb_eq in Hp.
  exists i, e, embed, vec. rewrite Hp. split; [exact He|]. split; [done|]. split; [done|]. split; [exact Ev|].
  cbn [with_entries entries]. rewrite list_insert_alter. apply list_alter_ext; [|done]. intros x Hx. congruence.
Qed.

Lemma finish_job_frame c j :
  ttl (finish_job j c) = ttl c /\ embedder (finish_job j c) = embedder c /\
  threshold (finish_job j c) = threshold c /\ maxEntries (finish_job j c) = maxEntries c.
Proof. unfold finish_job. repeat case_match; auto. Qed.

Lemma Set_frame now now' p r c :
  ttl (Set_ now now' p r c) = ttl c /\ embedder (Set_ now now' p r c) = embedder c /\
  threshold (Set_ now now' p r c) = threshold c /\ maxEntries (Set_ now now' p r c) = maxEntries c /\
  entries (Set_ now now' p r c) = entries (prune now' c) ++ [mkEntry p r [] (now + ttl c)].
Proof.
  destruct (prune_frame now' c) as (E1 & E2 & E3 & E4 & _).
  unfold Set_. cbn [with_entries embedder]. destruct (embedder (prune now' c)) eqn:E; cbn; rewrite ?E1, <- ?E2, ?E; auto 10.
Qed.

Lemma Set_ok now now' p r c : cache_ok c -> cache_ok (Set_ now now' p r c).
Proof.
  intros [He Hm]. destruct (Set_frame now now' p r c) as (_ & E2 & _ & E4 & E5).
  unfold cache_ok. rewrite E2, E4, E5. split.
  - apply Forall_app. split; [|constructor; [left; done|constructor]].
    apply Forall_forall. intros e Hin. rewrite Forall_forall in He.
    destruct (prune_entries now' c e Hin) as [->|[? _]]; [left; done|auto].
  - intros Hpos. rewrite len_app. pose proof (prune_len now' c Hpos). unfold len at 2. cbn. lia.
Qed.

Lemma finish_job_ok j c : cache_ok c -> cache_ok (finish_job j c).
Proof.
  intros [He Hm]. destruct (finish_job_frame c j) as (_ & E2 & _ & E4). unfold cache_ok. rewrite E2, E4.
  destruct (finish_job_entries c j) as [->|(i & e & embed & vec & Hi & Hp & Hem & Hv & ->)]; [auto|].
  split; [|now rewrite len_insert]. apply Forall_insert; [exact He|].
  right. exists embed. auto.
Qed.

(** ** The texts are short enough to be evaluated again *)

Definition texts_ok (c : SemanticCache) : Prop := Forall (fun e => slen (response e) < max_text) (entries c).
Lemma Set_texts now now' p r c : slen r < max_text -> texts_ok c -> texts_ok (Set_ now now' p r c).
Proof.
  intros Hr Hc. destruct (Set_frame now now' p r c) as (_ & _ & _ & _ & E). unfold texts_ok in *. rewrite E.
  apply Forall_app. split; [|now repeat constructor]. apply Forall_forall. intros e Hin. rewrite Forall_forall in Hc.
  destruct (prune_entries now' c e Hin) as [->|[? _]]; [reflexivity|auto].
Qed.
Lemma finish_job_texts j c : texts_ok c -> texts_ok (finish_job j c).
Proof.
  intros Hc. unfold texts_ok in *. destruct (finish_job_entries c j) as [->|(i & e & embed & vec & Hi & _ & _ & _ & ->)]; [exact Hc|].
  apply Forall_insert; [exact Hc|]. rewrite Forall_lookup in Hc. exact (Hc i e Hi).
Qed.
Lemma Get_texts now c p r : texts_ok c -> Get now c p = Some r -> slen r < max_text.
Proof.
  intros Hc E. unfold Get in E.
  assert (Hbest : forall vec l acc, Forall (fun e => slen (response e) < max_text) l -> slen acc.1 < max_text -> slen (foldl (better now vec) acc l).1 < max_text).
  { intros vec l. induction l as [|e l IH]; intros acc Hl Ha; [exact Ha|]. apply Forall_cons in Hl as [He Hl]. cbn [foldl]. apply IH; [exact Hl|].
    unfold better. now repeat case_bool. }
  destruct (semantic_match now c p) as [t|] eqn:Em.
  - injection E as <-. unfold semantic_match in Em. destruct (embedder c) as [em|]; [|discriminate]. cbn [mbind option_bind] in Em.
    destruct (em p) as [vec|]; [|discriminate]. cbn [mbind option_bind] in Em. specialize (Hbest vec (entries c) (EmptyString, f0) Hc eq_refl).
    destruct (foldl _ _ _) as [best sim]. destruct (fle _ _); [now injection Em as <-|discriminate].
  - unfold exact_match in E. destruct (List.find _ _) as [e|] eqn:Ef; [|discriminate]. injection E as <-.
    apply List.find_some in Ef as [Hin _]. apply list_elem_of_In in Hin. unfold texts_ok in Hc. rewrite Forall_forall in Hc. now apply Hc.
Qed.

Lemma cache_reach_ok t em th mx c : cache_reach (New t em th mx) c -> cache_ok c.
Proof.
  induction 1 as [|c c' _ IH Hs]; [split; [constructor|change (len (entries (New t em th mx))) with 0; lia]|].
  destruct Hs as [now now' p r|i j Hj]; [now apply Set_ok|]. now apply finish_job_ok.
Qed.

(** ** The semantic search *)

Definition eligible (now : Z) (e : cacheEntry) : Prop := expired now e = false /\ embedding e <> [].
Definition sim (vec : list f64) (e : cacheEntry) : f64 := cosineSimilarity vec (embedding e).

Section Search.
Context (now : Z) (vec : list f64).

Definition entry_valid (e : cacheEntry) : Prop := Forall (fun x => valid x = true) (embedding e).
Context (Hvec : Forall (fun x => valid x = true) vec).

Lemma sim_valid e : entry_valid e -> valid (sim vec e) = true.
Proof. intros He. unfold sim. rewrite cosineSimilarity_eq. now apply cosineSimilarity_valid. Qed.

(** The loop keeps the best of the eligible entries seen. *)
Lemma better_spec l : forall acc,
  Forall entry_valid l -> valid acc.2 = true -> is_nan acc.2 = false ->
  let res := foldl (better now vec) acc l in
  valid res.2 = true /\ is_nan res.2 = false /\
  (res = acc \/ exists e, e ∈ l /\ eligible now e /\ res = (response e, sim vec e)) /\
  (forall x, valid x = true -> flt acc.2 x = false -> flt res.2 x = false) /\
  (forall e, e ∈ l -> eligible now e -> flt res.2 (sim vec e) = false).
Proof.
  induction l as [|e l IH]; intros acc Hl Hv Hn; cbn [foldl].
  { repeat split; auto. intros e He. now apply not_elem_of_nil in He. }
  apply Forall_cons in Hl as [He Hl].
  assert (Hstep : let acc' := better now vec acc e in
    valid acc'.2 = true /\ is_nan acc'.2 = false /\
    (acc' = acc \/ eligible now e /\ acc' = (response e, sim vec e)) /\
    (forall x, valid x = true -> flt acc.2 x = false -> flt acc'.2 x = false) /\
    (eligible now e -> flt acc'.2 (sim vec e) = false)).
  { unfold better. destruct (expired now e || (len (embedding e) =? 0)) eqn:Ex.
    - repeat split; auto. intros [Hx Hne]. rewrite Hx in Ex. cbn [orb] in Ex. zbool.
      exfalso. now apply Hne, len_zero_nil.
    - apply orb_false_elim in Ex as [Hx Hne]. zbool. pose proof (sim_valid e He) as Hs.
      cbv zeta. fold (sim vec e). destruct (flt acc.2 (sim vec e)) eqn:Ef; [|repeat split; auto].
      assert (Hel : eligible now e).
      { split; [exact Hx|]. intros E. rewrite E in Hne. now apply Hne. }
      cbn [snd]. repeat split; auto.
      + destruct (sim vec e); try reflexivity. destruct acc.2 as [[]|[]| |[]]; discriminate.
      + intros x Hvx Hax. eapply flt_trans_false; [exact Hv|exact Hs|exact Hvx|exact Ef|exact Hax].
      + intros _. unfold flt, SFltb. destruct (sim vec e) as [s|s| |s m ex]; try reflexivity; cbn.
        * destruct s; reflexivity.
        * destruct s; rewrite Z.compare_refl, Pos.compare_cont_refl; reflexivity. }
  cbv zeta in Hstep. destruct Hstep as (Hv' & Hn' & Hc & Hm & Hf).
  destruct (IH _ Hl Hv' Hn') as (Hv2 & Hn2 & Hc2 & Hm2 & Hf2).
  split; [exact Hv2|]. split; [exact Hn2|]. split; [|split].
  - destruct Hc2 as [->|(e' & Hin & Hel & ->)]; [|right; exists e'; split; [now right|auto]].
    destruct Hc as [->|[Hel ->]]; [auto|]. right. exists e. split; [now left|auto].
  - intros x Hvx Hx. auto.
  - intros e' [->|Hin]%elem_of_cons Hel; [|auto]. apply Hm2; [now apply sim_valid|auto].
Qed.
End Search.

Lemma semantic_match_spec now c p r : cache_ok c -> (forall f, embedder c = Some f -> embed_valid f) ->
  is_fin (threshold c) = true -> semantic_match now c p = Some r ->
  exists embed vec, embedder c = Some embed /\ embed p = Some vec /\
    ((fle (threshold c) f0 = true /\ r = EmptyString) \/
     exists e, e ∈ entries c /\ eligible now e /\ r = response e /\
       fle (threshold c) (sim vec e) = true /\
       forall e', e' ∈ entries c -> eligible now e' -> flt (sim vec e) (sim vec e') = false).
Proof.
  intros [He _] Hv Ht. unfold semantic_match. destruct (embedder c) as [embed|] eqn:Em; [|done].
  cbn [mbind option_bind]. destruct (embed p) as [vec|] eqn:Ep; [|done]. cbn [mbind option_bind].
  assert (Hvec : Forall (fun x => valid x = true) vec) by (eapply (Hv embed); eauto).
  assert (Hents : Forall entry_valid (entries c)).
  { eapply Forall_impl; [exact He|]. intros e [Hn|(f & Hf & He')]; [unfold entry_valid; rewrite Hn; constructor|].
    eapply (Hv f); [exact Hf|exact He']. }
  destruct (better_spec now vec Hvec (entries c) (EmptyString, f0) Hents eq_refl eq_refl)
    as (_ & _ & Hres & _ & Hmax).
  destruct (foldl (better now vec) (EmptyString, f0) (entries c)) as [best bs]. cbn [snd] in *.
  destruct (fle (threshold c) bs) eqn:Ef; [|done]. intros [= <-].
  exists embed, vec. split; [done|]. split; [done|].
  destruct Hres as [[= -> ->]|(e & Hin & Hel & [= -> ->])]; [left; auto|right; exists e; auto 10].
Qed.

Lemma semantic_match_none now c p embed vec : cache_ok c -> embedder c = Some embed -> embed_valid embed ->
  is_fin (threshold c) = true -> embed p = Some vec -> semantic_match now c p = None ->
  forall e, e ∈ entries c -> eligible now e -> fle (threshold c) (sim vec e) = false.
Proof.
  intros [He _] Em Hv Ht Ep. unfold semantic_match. rewrite Em. cbn [mbind option_bind].
  rewrite Ep. cbn [mbind option_bind].
  assert (Hvec : Forall (fun x => valid x = true) vec) by (eapply Hv; eauto).
  assert (Hents : Forall entry_valid (entries c)).
  { eapply Forall_impl; [exact He|]. intros e [Hn|(f & Hf & He')]; [unfold entry_valid; rewrite Hn; constructor|].
    rewrite Em in Hf. injection Hf as <-. eapply Hv; exact He'. }
  destruct (better_spec now vec Hvec (entries c) (EmptyString, f0) Hents eq_refl eq_refl)
    as (Hvb & Hnb & _ & _ & Hmax).
  destruct (foldl (better now vec) (EmptyString, f0) (entries c)) as [best bs]. cbn [snd] in *.
  destruct (fle (threshold c) bs) eqn:Ef; [done|]. intros _ e Hin Hel.
  destruct (fle (threshold c) (sim vec e)) eqn:Es; [|done]. exfalso.
  rewrite Forall_forall in Hents.
  pose proof (fle_flt_false (threshold c) bs (sim vec e) Hvb (sim_valid vec Hvec e (Hents e Hin)) Ht Ef Es Hnb) as Hlt.
  specialize (Hmax e Hin Hel). congruence.
Qed.

(** The exact match is the oldest unexpired entry under the key. *)
Lemma exact_match_spec now k l :
  match exact_match now k l with
  | Some r => exists l1 e l2, l = l1 ++ e :: l2 /\ response e = r /\ expired now e = false /\
      exactKey (prompt e) = k /\ Forall (fun e => expired now e = true \/ exactKey (prompt e) <> k) l1
  | None => Forall (fun e => expired now e = true \/ exactKey (prompt e) <> k) l
  end.
Proof.
  unfold exact_match. induction l as [|e l IH]; cbn [List.find option_map]; [constructor|].
  destruct (negb (expired now e) && String.eqb (exactKey (prompt e)) k) eqn:E.
  - cbn [option_map]. apply andb_prop in E as [E1 E2]. apply negb_true_iff in E1. apply String.eqb_eq in E2.
    exists [], e, l. split; [done|]. auto.
  - assert (He : expired now e = true \/ exactKey (prompt e) <> k).
    { destruct (expired now e); [now left|right]. cbn in E. now apply String.eqb_neq in E. }
    destruct (option_map response _) as [r|].
    + destruct IH as (l1 & e1 & l2 & -> & Hr & Hx & Hk & Hf). exists (e :: l1), e1, l2.
      split; [done|]. split; [exact Hr|]. split; [exact Hx|]. split; [exact Hk|]. now constructor.
    + now constructor.
Qed.

(** ** Properties of the cache *)

(** C9.  In every interleaving of [Set] calls and of the goroutines that
    complete their embeddings (in any order, after any pruning), an entry that
    has an embedding has the embedding of its own prompt, and the cache never
    holds more than [maxEntries] entries. *)
Theorem cache_reachable_ok t em th mx c : cache_reach (New t em th mx) c ->
  embedder c = em /\ threshold c = th /\ maxEntries c = mx /\
  (forall e, e ∈ entries c -> embedding e = [] \/ exists f, em = Some f /\ f (prompt e) = Some (embedding e)) /\
  (0 < mx -> Size c <= mx).
Proof.
  intros Hr. pose proof (cache_reach_ok t em th mx c Hr) as [He Hm].
  assert (Hf : embedder c = em /\ threshold c = th /\ maxEntries c = mx).
  { clear He Hm. induction Hr as [|c c' _ IH Hs]; [done|]. destruct Hs as [now now' p r|i j Hj].
    - destruct (Set_frame now now' p r c) as (_ & -> & -> & -> & _). exact IH.
    - destruct (finish_job_frame (with_jobs c (delete i (jobs c))) j) as (_ & -> & -> & ->). exact IH. }
  destruct Hf as (E1 & E2 & E3). rewrite E1 in He. rewrite E3 in Hm.
  repeat (split; [assumption|]). split; [|exact Hm]. now rewrite Forall_forall in He.
Qed.

Definition const_embedder : Embedder := fun t => Some [f64_of_Z (slen t); f1].

Lemma cache_reachable_ok_witness :
  exists c e, cache_reach (New 10 (Some const_embedder) defaultSimilarityThreshold 2) c /\ e ∈ entries c /\
    embedding e <> [] /\ (embedding e = [] \/ exists f, Some const_embedder = Some f /\ f (prompt e) = Some (embedding e)) /\
    (0 < 2 -> Size c <= 2).
Proof.
  set (c0 := New 10 (Some const_embedder) defaultSimilarityThreshold 2).
  set (c1 := Set_ 0 0 "question" "answer" c0).
  assert (Hj : jobs c1 !! 0%nat = Some (mkJob 0 "question" 0)) by reflexivity.
  set (c2 := finish_job (mkJob 0 "question" 0) (with_jobs c1 (delete 0%nat (jobs c1)))).
  assert (Hr : cache_reach c0 c2).
  { eapply cache_trans; [eapply cache_trans; [apply cache_init|]|].
    - apply (step_set c0 0 0 "question" "answer").
    - apply (step_finish c1 0 (mkJob 0 "question" 0) Hj). }
  destruct (cache_reachable_ok 10 (Some const_embedder) defaultSimilarityThreshold 2 c2 Hr)
    as (_ & _ & _ & He & Hs).
  set (e := mkEntry "question" "answer" [f64_of_Z 8; f1] 10).
  assert (Hin : e ∈ entries c2) by (vm_compute; left).
  exists c2, e. split; [exact Hr|]. split; [exact Hin|]. split; [discriminate|]. split; [now apply He|exact Hs].
Defined.

(** C10.  [Get] on a well-formed cache: a hit is the response of an unexpired
    entry that is either the most similar embedded one, at or above the
    threshold, or the oldest entry stored under the same SHA-256 key (or the
    empty text, only if the threshold is not positive); a miss means that no
    unexpired entry has the key and none reaches the threshold. *)
Theorem Get_correct now c p : cache_ok c -> (forall f, embedder c = Some f -> embed_valid f) ->
  is_fin (threshold c) = true ->
  match Get now c p with
  | Some r =>
      (exists embed vec e, embedder c = Some embed /\ embed p = Some vec /\ e ∈ entries c /\ eligible now e /\
         r = response e /\ fle (threshold c) (sim vec e) = true /\
         forall e', e' ∈ entries c -> eligible now e' -> flt (sim vec e) (sim vec e') = false) \/
      (exists l1 e l2, entries c = l1 ++ e :: l2 /\ r = response e /\ expired now e = false /\
         exactKey (prompt e) = exactKey p /\
         Forall (fun e => expired now e = true \/ exactKey (prompt e) <> exactKey p) l1) \/
      (fle (threshold c) f0 = true /\ r = EmptyString)
  | None =>
      Forall (fun e => expired now e = true \/ exactKey (prompt e) <> exactKey p) (entries c) /\
      (forall embed vec e, embedder c = Some embed -> embed p = Some vec -> e ∈ entries c -> eligible now e ->
         fle (threshold c) (sim vec e) = false)
  end.
Proof.
  intros Hok Hv Ht. unfold Get. destruct (semantic_match now c p) as [r|] eqn:Es.
  - destruct (semantic_match_spec now c p r Hok Hv Ht Es) as (embed & vec & Em & Ep & [[Hz ->]|(e & ? & ? & -> & ?)]);
      [auto|left; exists embed, vec, e; tauto].
  - pose proof (exact_match_spec now (exactKey p) (entries c)) as Hx.
    destruct (exact_match now (exactKey p) (entries c)) as [r|].
    + right. left. destruct Hx as (l1 & e & l2 & Hl & Hr & Hrest). exists l1, e, l2. auto.
    + split; [exact Hx|]. intros embed vec e Em Ep Hin Hel.
      eapply semantic_match_none; eauto.
Qed.

Lemma Get_correct_witness :
  let c := mkCache [mkEntry "p" "first" [] 10; mkEntry "p" "second" [] 20] 10 None defaultSimilarityThreshold 4 [] in
  Get 15 c "p" = Some "second"%string /\
  exists l1 e l2, entries c = l1 ++ e :: l2 /\ "second"%string = response e /\ expired 15 e = false /\
     exactKey (prompt e) = exactKey "p".
Proof.
  intros c. assert (Hg : Get 15 c "p" = Some "second"%string) by (vm_compute; reflexivity).
  split; [exact Hg|]. pose proof (Get_correct 15 c "p") as H. rewrite Hg in H.
  destruct H as [(embed & vec & e & Em & _)|[(l1 & e & l2 & Hl & Hr & Hx & Hk & _)|[Hz _]]].
  - split; [repeat constructor|intros _; vm_compute; discriminate].
  - discriminate.
  - vm_compute. reflexivity.
  - discriminate.
  - exists l1, e, l2. auto.
  - vm_compute in Hz. discriminate.
Defined.

(** Storing: [Set] appends exactly the new entry to what [prune] leaves,
    [prune] leaves the live entries when they are under the cap and otherwise
    the list [prune_exact] gives, and the prompt just stored is a hit of [Get]
    until its expiry, whatever the embedder. *)
Theorem Set_spec now now' now2 p r c :
  entries (Set_ now now' p r c) = entries (prune now' c) ++ [mkEntry p r [] (now + ttl c)] /\
  entries (prune now' c) =
    (let live := filter (fun e => expired now' e = false) (entries c) in
     let excess := len live - maxEntries c + 1 in
     if (0 <? maxEntries c) && (maxEntries c <=? len live)
     then drop (Z.to_nat excess) (take (Z.to_nat (maxEntries c - 1)) live)
          ++ replicate (Z.to_nat (Z.min excess (maxEntries c - 1))) zero_entry
     else live) /\
  (now2 <= now + ttl c -> is_Some (Get now2 (Set_ now now' p r c) p)).
Proof.
  destruct (Set_frame now now' p r c) as (_ & _ & _ & _ & E5).
  split; [exact E5|]. split; [apply prune_exact|]. intros Hn.
  unfold Get. destruct (semantic_match now2 _ p); [eauto|].
  pose proof (exact_match_spec now2 (exactKey p) (entries (Set_ now now' p r c))) as Hx.
  destruct (exact_match now2 (exactKey p) _); [eauto|]. exfalso.
  rewrite E5, Forall_app, Forall_singleton in Hx. destruct Hx as [_ [Hx|Hx]]; [|now apply Hx].
  unfold expired, time_after in Hx. cbn in Hx. zbool. lia.
Qed.

(** ** What the model shows of the code *)

(** At capacity the prune zeroes, by the indices of the old slice, an
    array the new slice starts inside of: with a full cache of live entries the
    NEWEST entry is blanked together with the oldest one evicted. *)
Theorem full_prune_blanks_newest now c :
  2 <= maxEntries c -> len (entries c) = maxEntries c -> Forall (fun e => expired now e = false) (entries c) ->
  entries (prune now c) = drop 1 (take (Z.to_nat (maxEntries c - 1)) (entries c)) ++ [zero_entry].
Proof.
  intros Hm Hl Hf. rewrite prune_exact. cbv zeta.
  assert (Hlive : filter (fun e => expired now e = false) (entries c) = entries c).
  { now apply filter_Forall_id. }
  rewrite Hlive, Hl, (proj2 (Z.ltb_lt 0 _)), Z.leb_refl by lia. cbn [andb].
  replace (maxEntries c - maxEntries c + 1) with 1 by lia. now rewrite Z.min_l by lia.
Qed.

Lemma full_prune_blanks_newest_witness :
  let c := Set_ 1 1 "b" "2" (Set_ 0 0 "a" "1" (New 100 None defaultSimilarityThreshold 2)) in
  map prompt (entries c) = ["a"; "b"]%string /\ entries (prune 2 c) = [zero_entry].
Proof.
  intros c. split; [vm_compute; reflexivity|].
  rewrite (full_prune_blanks_newest 2 c); [vm_compute; reflexivity|vm_compute; discriminate|vm_compute; reflexivity|].
  repeat constructor.
Defined.

(** Three prompts stored in a cache of two: the second one is lost. *)
Example second_prompt_lost :
  let c := Set_ 2 2 "c" "3" (Set_ 1 1 "b" "2" (Set_ 0 0 "a" "1" (New 100 None defaultSimilarityThreshold 2))) in
  Get 3 c "c" = Some "3"%string /\ Get 3 c "b" = None /\ Get 3 c "a" = None.
Proof. vm_compute. auto. Qed.
