(* ===== verification/ToolCache.v ===== *)
(** * The per-session tool cache (agent/toolcache.go)

    An LRU cache: a map from normalised keys to elements of a doubly linked
    list in recency order.  The elements are pointers the map and the list
    share, so the model keeps them in a store ([elems], by element identity):
    [order] lists identities, front first, and [items] maps keys to identities.
    The abstract cache [lru] is a plain list of key/value pairs, most recently
    used first; the refinement theorem relates every sequence of calls. *)
From S2P Require Import Prelude GoStrings.
From Stdlib Require Import ZArith Lia String.
From stdpp Require Import base tactics list gmap strings.
#[local] Open Scope Z_scope.

Record toolCache := mkToolCache {
  max : Z;
  items : gmap string nat;
  order : list nat;
  elems : gmap nat (string * string);
  next : nat;  (** identity of the next element allocated *)
  enabled : bool;
}.

Definition newToolCache (maxEntries : Z) (en : bool) : toolCache := mkToolCache maxEntries ∅ [] ∅ 0 en.

Section Keys.
Context `{Unicode}.

(** Lower case, trimmed, runs of white space collapsed, a NUL between. *)
Definition normKey (tool input : string) : string :=
  let tool := to_lower (trim_space tool) in
  let input := to_lower (trim_space input) in
  let input := str_join " " (fields input) in
  tool +:+ str1 0 +:+ input.
End Keys.

(** [order.MoveToFront(el)]. *)
Definition move_to_front (id : nat) (l : list nat) : list nat := id :: filter (fun i => i <> id) l.

(** [Get] and [Set] on a normalised key. *)
Definition get_key (k : string) (c : toolCache) : option string * toolCache :=
  match items c !! k with
  | None => (None, c)
  | Some id =>
      (option_map snd (elems c !! id),
       mkToolCache (max c) (items c) (move_to_front id (order c)) (elems c) (next c) (enabled c))
  end.

Definition set_key (k result : string) (c : toolCache) : toolCache :=
  match items c !! k with
  | Some id =>
      mkToolCache (max c) (items c) (move_to_front id (order c))
        (alter (fun e => (e.1, result)) id (elems c)) (next c) (enabled c)
  | None =>
      let '(items, order) :=
        if max c <=? len (order c) then
          match last (order c) with
          | Some lru =>
              (match elems c !! lru with
               | Some e => delete e.1 (items c)
               | None => items c
               end, filter (fun i => i <> lru) (order c))
          | None => (items c, order c)
          end
        else (items c, order c) in
      mkToolCache (max c) (<[k := next c]> items) (next c :: order)
        (<[next c := (k, result)]> (elems c)) (S (next c)) (enabled c)
  end.

Section Calls.
Context `{Unicode}.

Definition Get (tool input : string) (c : toolCache) : option string * toolCache :=
  if negb (enabled c) then (None, c) else get_key (normKey tool input) c.
Definition Set_ (tool input result : string) (c : toolCache) : toolCache :=
  if negb (enabled c) then c else set_key (normKey tool input) result c.
End Calls.

(** ** The abstract LRU cache *)

Definition lru_get (k : string) (l : list (string * string)) : option string * list (string * string) :=
  match List.find (fun e => String.eqb e.1 k) l with
  | None => (None, l)
  | Some e => (Some e.2, e :: filter (fun e => e.1 <> k) l)
  end.

Definition lru_set (cap : Z) (k v : string) (l : list (string * string)) : list (string * string) :=
  match List.find (fun e => String.eqb e.1 k) l with
  | Some _ => (k, v) :: filter (fun e => e.1 <> k) l
  | None => (k, v) :: (if cap <=? len l then removelast l else l)
  end.

(** ** Representation *)

Record rep (c : toolCache) (l : list (string * string)) : Prop := {
  rep_order : Forall2 (fun id e => elems c !! id = Some e) (order c) l;
  rep_nodup : NoDup (order c);
  rep_keys : NoDup (map fst l);
  rep_items : forall k id, items c !! k = Some id <-> id ∈ order c /\ exists v, elems c !! id = Some (k, v);
  rep_fresh : forall id, id ∈ order c -> (id < next c)%nat;
}.

Lemma rep_new mx en : rep (newToolCache mx en) [].
Proof.
  split; cbn; [constructor..| |].
  - intros k id. rewrite lookup_empty. split; [done|]. intros [Hin _]. now apply not_elem_of_nil in Hin.
  - intros id Hin. now apply not_elem_of_nil in Hin.
Qed.

Lemma rep_find c l k : rep c l ->
  match items c !! k with
  | Some id => exists v, id ∈ order c /\ elems c !! id = Some (k, v) /\
                 List.find (fun e => String.eqb e.1 k) l = Some (k, v)
  | None => List.find (fun e => String.eqb e.1 k) l = None
  end.
Proof.
  intros [Ho Hnd Hk Hi Hf]. destruct (items c !! k) as [id|] eqn:E.
  - apply Hi in E as [Hin [v Hv]]. exists v. split; [exact Hin|]. split; [exact Hv|].
    clear Hi Hf Hnd. induction Ho as [|i e os l He Ho IH]; [now apply not_elem_of_nil in Hin|].
    cbn [map] in Hk. apply NoDup_cons in Hk as [Hk1 Hk2]. cbn [List.find].
    apply elem_of_cons in Hin as [->|Hin].
    + rewrite Hv in He. injection He as <-. cbn [fst]. now rewrite String.eqb_refl.
    + destruct (String.eqb_spec e.1 k) as [Ee|]; [|auto]. exfalso. apply Hk1. rewrite Ee.
      destruct (Forall2_in_l _ _ _ id Ho Hin) as (e' & He' & H'). rewrite Hv in H'. injection H' as <-.
      apply list_elem_of_fmap. now exists (k, v).
  - destruct (List.find _ l) as [e|] eqn:F; [|done]. exfalso.
    apply List.find_some in F as [Fin Fe]. apply String.eqb_eq in Fe.
    apply list_elem_of_In in Fin.
    destruct (Forall2_in_r _ _ _ e Ho Fin) as (id & Hid & He).
    assert (Hs : items c !! k = Some id).
    { apply Hi. split; [exact Hid|]. exists e.2. rewrite He. destruct e; cbn in *; congruence. }
    congruence.
Qed.

(** Moving an element to the front, in both representations. *)
Lemma rep_remove (E : gmap nat (string * string)) os l id k v :
  Forall2 (fun i e => E !! i = Some e) os l -> NoDup os -> NoDup (map fst l) ->
  id ∈ os -> E !! id = Some (k, v) ->
  Forall2 (fun i e => E !! i = Some e) (filter (fun i => i <> id) os) (filter (fun e => e.1 <> k) l).
Proof.
  intros Ho. induction Ho as [|i e os l He Ho IH]; intros Hnd Hk Hin Hv; [constructor|].
  apply NoDup_cons in Hnd as [Hni Hnd]. cbn [map] in Hk. apply NoDup_cons in Hk as [Hk1 Hk2].
  assert (Hall : forall i e, i ∈ os -> E !! i = Some e -> e.1 ∈ map fst l).
  { intros i' e' Hi' He'. destruct (Forall2_in_l _ _ _ i' Ho Hi') as (e2 & H2 & H3).
    apply list_elem_of_fmap. exists e2. split; [congruence|exact H2]. }
  apply elem_of_cons in Hin as [->|Hin].
  - rewrite Hv in He. injection He as <-. rewrite !filter_cons_False by (cbn; tauto).
    rewrite !filter_Forall_id; [exact Ho| |].
    + apply Forall_forall. intros e Hin' Ek. apply Hk1. cbn [fst]. rewrite <- Ek.
      apply list_elem_of_fmap. eauto.
    + apply Forall_forall. intros j Hin' ->. contradiction.
  - assert (Hne : e.1 <> k).
    { intros Ek. apply Hk1. rewrite Ek. apply (Hall id (k, v) Hin Hv). }
    assert (Hid : i <> id) by (intros ->; contradiction).
    rewrite !filter_cons_True by assumption. constructor; [exact He|auto].
Qed.

Lemma move_to_front_nodup id l : NoDup l -> NoDup (move_to_front id l).
Proof.
  intros H. apply NoDup_cons. split; [|now apply NoDup_filter].
  intros Hin. apply list_elem_of_filter in Hin. tauto.
Qed.

Lemma keys_filter_nodup (l : list (string * string)) P `{forall e, Decision (P e)} :
  NoDup (map fst l) -> NoDup (map fst (filter P l)).
Proof.
  induction l as [|e l IH]; intros Hnd; [done|]. cbn [map] in Hnd. apply NoDup_cons in Hnd as [H1 H2].
  rewrite filter_cons. case_decide; [|auto]. cbn [map]. apply NoDup_cons. split; [|auto].
  intros Hin. apply H1. apply list_elem_of_fmap in Hin as (e' & -> & He').
  apply list_elem_of_filter in He'. apply list_elem_of_fmap. exists e'. tauto.
Qed.

Lemma moved_keys (l : list (string * string)) k v : NoDup (map fst l) ->
  NoDup (map fst ((k, v) :: filter (fun e => e.1 <> k) l)).
Proof.
  intros H. cbn [map fst]. apply NoDup_cons. split; [|now apply keys_filter_nodup].
  intros Hin. apply list_elem_of_fmap in Hin as (e & E & He). apply list_elem_of_filter in He as [He _]. congruence.
Qed.

Lemma elem_of_move id i l : id ∈ l -> i ∈ move_to_front id l <-> i ∈ l.
Proof.
  intros Hid. unfold move_to_front. rewrite elem_of_cons, list_elem_of_filter.
  destruct (decide (i = id)) as [Ei|]; [subst i|]; intuition congruence.
Qed.

Lemma get_key_refines k c l : rep c l ->
  let '(r, c') := get_key k c in
  r = (lru_get k l).1 /\ rep c' (lru_get k l).2 /\ max c' = max c /\ enabled c' = enabled c.
Proof.
  intros Hr. pose proof (rep_find c l k Hr) as Hf. unfold get_key, lru_get.
  destruct (items c !! k) as [id|] eqn:E; [|rewrite Hf; auto].
  destruct Hf as (v & Hin & Hv & ->). rewrite Hv. cbn [option_map fst snd].
  destruct Hr as [Ho Hnd Hk Hi Hfr]. split; [done|]. split; [|done].
  split; cbn [order elems items next].
  - constructor; [exact Hv|]. now apply rep_remove with (v := v).
  - now apply move_to_front_nodup.
  - now apply moved_keys.
  - intros k' id'. now rewrite elem_of_move.
  - intros id'. rewrite elem_of_move by exact Hin. auto.
Qed.

(** Overwriting the value of an element that stays at the front. *)
Lemma rep_update c l k v v' id : rep c l -> id ∈ order c -> elems c !! id = Some (k, v) ->
  rep (mkToolCache (max c) (items c) (move_to_front id (order c))
         (alter (fun e => (e.1, v')) id (elems c)) (next c) (enabled c))
      ((k, v') :: filter (fun e => e.1 <> k) l).
Proof.
  intros [Ho Hnd Hk Hi Hfr] Hin Hv.
  assert (Hv' : alter (fun e : string * string => (e.1, v')) id (elems c) !! id = Some (k, v'))
    by (rewrite lookup_alter_eq, Hv; done).
  split; cbn [order elems items next].
  - constructor; [exact Hv'|].
    pose proof (rep_remove (elems c) (order c) l id k v Ho Hnd Hk Hin Hv) as H2.
    assert (Hne : Forall (fun i => i <> id) (filter (fun i => i <> id) (order c)))
      by (apply Forall_forall; intros i Hi'; apply list_elem_of_filter in Hi'; tauto).
    clear -H2 Hne. induction H2 as [|i e os l' He _ IH]; [constructor|].
    apply Forall_cons in Hne as [Hi Hne]. constructor; [|auto]. now rewrite lookup_alter_ne by auto.
  - now apply move_to_front_nodup.
  - now apply moved_keys.
  - intros k' id'. rewrite elem_of_move by exact Hin. rewrite Hi. split; intros [Hin' [w Hw]]; (split; [exact Hin'|]).
    + destruct (decide (id' = id)) as [->|]; [|exists w; now rewrite lookup_alter_ne by auto].
      exists v'. rewrite Hv'. congruence.
    + destruct (decide (id' = id)) as [->|]; [|rewrite lookup_alter_ne in Hw by auto; eauto].
      exists v. rewrite Hv' in Hw. congruence.
  - intros id'. rewrite elem_of_move by exact Hin. auto.
Qed.

(** A new element in front of a representation without its key. *)
Lemma rep_push c l k v : rep c l -> k ∉ map fst l ->
  rep (mkToolCache (max c) (<[k := next c]> (items c)) (next c :: order c)
         (<[next c := (k, v)]> (elems c)) (S (next c)) (enabled c)) ((k, v) :: l).
Proof.
  intros [Ho Hnd Hk Hi Hfr] Hnew.
  assert (Hne : forall id, id ∈ order c -> id <> next c) by (intros id Hin ->; specialize (Hfr _ Hin); lia).
  assert (Hitem : forall id w, id ∈ order c -> elems c !! id = Some (k, w) -> False).
  { intros id w Hin Hw. apply Hnew. destruct (Forall2_in_l _ _ _ id Ho Hin) as (e & He & H').
    rewrite Hw in H'. injection H' as <-. apply list_elem_of_fmap. now exists (k, w). }
  split; cbn [order elems items next].
  - constructor; [now rewrite lookup_insert_eq|].
    clear -Ho Hne. induction Ho as [|i e os l He _ IH]; [constructor|]. constructor.
    + rewrite lookup_insert_ne; [exact He|]. intros E. apply (Hne i); [left|done].
    + apply IH. intros id Hin. apply Hne. now right.
  - apply NoDup_cons. split; [|exact Hnd]. intros Hin. now apply (Hne (next c)).
  - cbn [map fst]. apply NoDup_cons. auto.
  - intros k' id'. destruct (decide (k' = k)) as [->|Hk'].
    + rewrite lookup_insert_eq. split.
      * intros [= <-]. split; [left|]. exists v. now rewrite lookup_insert_eq.
      * intros [Hin [w Hw]]. apply elem_of_cons in Hin as [->|Hin]; [done|].
        rewrite lookup_insert_ne in Hw by (intros E; now apply (Hne id')). destruct (Hitem id' w Hin Hw).
    + rewrite lookup_insert_ne by auto. rewrite Hi. split.
      * intros [Hin [w Hw]]. split; [now right|]. exists w.
        rewrite lookup_insert_ne; [exact Hw|]. intros E. now apply (Hne id').
      * intros [Hin [w Hw]]. apply elem_of_cons in Hin as [->|Hin];
          [rewrite lookup_insert_eq in Hw; congruence|].
        split; [exact Hin|]. exists w. rewrite lookup_insert_ne in Hw; [exact Hw|].
        intros E. now apply (Hne id').
  - intros id' [->|Hin]%elem_of_cons; [lia|]. specialize (Hfr _ Hin). lia.
Qed.

(** Dropping the last element of the list. *)
Lemma rep_evict c l lru e : rep c l -> last (order c) = Some lru -> elems c !! lru = Some e ->
  rep (mkToolCache (max c) (delete e.1 (items c)) (filter (fun i => i <> lru) (order c)) (elems c) (next c) (enabled c))
      (removelast l) /\ removelast l = filter (fun x => x.1 <> e.1) l.
Proof.
  intros [Ho Hnd Hk Hi Hfr] Hlast He.
  assert (Hin : lru ∈ order c) by (apply last_Some in Hlast as [l' ->]; apply elem_of_app; right; now left).
  assert (Hrm : removelast l = filter (fun x => x.1 <> e.1) l).
  { apply last_Some in Hlast as [os' Eo]. rewrite Eo in Ho.
    apply Forall2_app_inv_l in Ho as (l1 & l2 & _ & H2 & ->).
    inversion H2 as [|? e' ? ? He' Hnil]; subst. inversion Hnil; subst.
    rewrite He in He'. injection He' as <-. rewrite removelast_last.
    rewrite filter_app, filter_cons_False, filter_nil, app_nil_r by tauto.
    symmetry. apply filter_Forall_id, Forall_forall. intros x Hx Ex.
    rewrite map_app in Hk. apply NoDup_app in Hk as (_ & Hd & _). apply (Hd e.1).
    - apply list_elem_of_fmap. eauto.
    - now left. }
  split; [|exact Hrm]. rewrite Hrm. destruct e as [k v]. cbn [fst].
  split; cbn [order elems items next].
  - now apply rep_remove with (v := v).
  - now apply NoDup_filter.
  - now apply keys_filter_nodup.
  - intros k' id'. rewrite list_elem_of_filter. destruct (decide (k' = k)) as [->|Hne].
    + rewrite lookup_delete_eq. split; [done|]. intros [[Hid Hin'] [w Hw]]. exfalso. apply Hid.
      assert (H1 : items c !! k = Some lru) by (apply Hi; eauto).
      assert (H2 : items c !! k = Some id') by (apply Hi; eauto). congruence.
    + rewrite lookup_delete_ne by auto. rewrite Hi. split.
      * intros [Hin' [w Hw]]. split; [|eauto]. split; [|exact Hin']. intros ->. congruence.
      * intros [[_ Hin'] Hw]. auto.
  - intros id' Hin'. apply list_elem_of_filter in Hin' as [_ Hin']. auto.
Qed.

Lemma find_none_notin k (l : list (string * string)) :
  List.find (fun e => String.eqb e.1 k) l = None -> k ∉ map fst l.
Proof.
  intros Hf Hin. apply list_elem_of_fmap in Hin as (e & Ee & He). apply list_elem_of_In in He.
  pose proof (List.find_none _ _ Hf e He) as Hx. cbn in Hx. rewrite <- Ee, String.eqb_refl in Hx. discriminate.
Qed.

Lemma set_key_refines k v c l : rep c l -> rep (set_key k v c) (lru_set (max c) k v l).
Proof.
  intros Hr. pose proof (rep_find c l k Hr) as Hf. unfold set_key, lru_set.
  destruct (items c !! k) as [id|] eqn:E.
  { destruct Hf as (w & Hin & Hw & ->). now apply rep_update with (v := w). }
  rewrite Hf.
  assert (Hnew : k ∉ map fst l) by now apply find_none_notin.
  assert (Hlen : len (order c) = len l) by (unfold len; f_equal; eapply Forall2_length, Hr).
  rewrite Hlen. destruct (max c <=? len l) eqn:Em; [|now apply rep_push].
  destruct (last (order c)) as [lru|] eqn:El.
  - assert (Hin : lru ∈ order c) by (apply last_Some in El as [l' ->]; apply elem_of_app; right; now left).
    destruct (Forall2_in_l _ _ _ lru (rep_order c l Hr) Hin) as (e & _ & He). rewrite He.
    destruct (rep_evict c l lru e Hr El He) as [Hr' Hrm].
    apply (rep_push _ _ k v Hr'). intros Hin'. apply Hnew.
    rewrite Hrm in Hin'. apply list_elem_of_fmap in Hin' as (x & -> & Hx).
    apply list_elem_of_filter in Hx as [_ Hx]. apply list_elem_of_fmap. eauto.
  - apply last_None in El. assert (l = []) as ->.
    { apply len_zero_nil. rewrite <- Hlen, El. done. }
    now apply rep_push.
Qed.

(** ** Sequences of calls *)

Inductive Call := CGet (tool input : string) | CSet (tool input result : string).

Section Runs.
Context `{Unicode}.

(** The answers of the [Get]s and the final cache. *)
Fixpoint run (l : list Call) (c : toolCache) : list (option string) * toolCache :=
  match l with
  | [] => ([], c)
  | CGet t i :: l => let '(r, c) := Get t i c in let '(rs, c) := run l c in (r :: rs, c)
  | CSet t i r :: l => run l (Set_ t i r c)
  end.

Fixpoint lru_run (cap : Z) (l : list Call) (a : list (string * string)) :
    list (option string) * list (string * string) :=
  match l with
  | [] => ([], a)
  | CGet t i :: l => let '(r, a) := lru_get (normKey t i) a in
                     let '(rs, a) := lru_run cap l a in (r :: rs, a)
  | CSet t i r :: l => lru_run cap l (lru_set cap (normKey t i) r a)
  end.

Lemma run_refines l : forall c a, rep c a -> enabled c = true ->
  (run l c).1 = (lru_run (max c) l a).1 /\ rep (run l c).2 (lru_run (max c) l a).2.
Proof.
  induction l as [|[t i|t i r] l IH]; intros c a Hr He; cbn [run lru_run]; [auto|..].
  - unfold Get. rewrite He. cbn [negb]. pose proof (get_key_refines (normKey t i) c a Hr) as Hg.
    destruct (get_key (normKey t i) c) as [r c']. destruct Hg as (-> & Hr' & Hm & He').
    destruct (lru_get (normKey t i) a) as [r' a']. cbn [fst snd] in *.
    destruct (IH c' a' Hr') as [H1 H2]; [congruence|]. rewrite Hm in H1, H2.
    destruct (run l c'), (lru_run (max c) l a'). cbn [fst snd] in *. split; [congruence|exact H2].
  - unfold Set_. rewrite He. cbn [negb].
    pose proof (set_key_refines (normKey t i) r c a Hr) as Hs.
    assert (Hf : max (set_key (normKey t i) r c) = max c /\ enabled (set_key (normKey t i) r c) = enabled c)
      by (unfold set_key; repeat case_match; auto).
    destruct Hf as [Hm He']. destruct (IH _ _ Hs) as [H1 H2]; [congruence|]. now rewrite Hm in H1, H2.
Qed.
End Runs.

Lemma lru_get_len k l : NoDup (map fst l) -> len (lru_get k l).2 = len l /\ NoDup (map fst (lru_get k l).2).
Proof.
  intros Hnd. unfold lru_get. destruct (List.find _ l) as [e|] eqn:E; cbn [snd]; [|auto].
  apply List.find_some in E as [Hin Hk]. apply String.eqb_eq in Hk. apply list_elem_of_In in Hin.
  apply list_elem_of_split in Hin as (l1 & l2 & ->).
  rewrite map_app in Hnd. cbn [map] in Hnd.
  assert (Hf : filter (fun x => x.1 <> k) (l1 ++ e :: l2) = l1 ++ l2).
  { apply NoDup_app in Hnd as (H1 & Hd & H2). apply NoDup_cons in H2 as [Hn2 H2].
    rewrite filter_app, filter_cons_False by tauto. rewrite !filter_Forall_id; [done|..];
      apply Forall_forall; intros x Hx Ex.
    - apply Hn2. apply list_elem_of_fmap. exists x. split; [congruence|exact Hx].
    - apply (Hd x.1); [apply list_elem_of_fmap; eauto|]. rewrite Ex, <- Hk. left. }
  rewrite Hf. split; [rewrite len_cons, !len_app, len_cons; lia|].
  change (NoDup (map fst ([e] ++ (l1 ++ l2)))). rewrite !map_app in *.
  cbn [map]. cbn [app]. rewrite <- Permutation_middle in Hnd. exact Hnd.
Qed.

Lemma lru_set_len cap k v l : len l <= Z.max 1 cap -> len (lru_set cap k v l) <= Z.max 1 cap.
Proof.
  intros Hl. unfold lru_set. destruct (List.find _ l) as [e|] eqn:E.
  - apply List.find_some in E as [Hin Hk]. apply String.eqb_eq in Hk. apply list_elem_of_In in Hin.
    rewrite len_cons. unfold len in *.
    assert (length (filter (fun e => e.1 <> k) l) < length l)%nat; [|lia].
    apply list_elem_of_split in Hin as (l1 & l2 & ->).
    rewrite filter_app, filter_cons_False by tauto. rewrite !length_app. cbn [length].
    pose proof (length_filter (fun e => e.1 <> k) l1). pose proof (length_filter (fun e => e.1 <> k) l2). lia.
  - rewrite len_cons. case_bool; zbool; [|lia]. unfold len in *.
    destruct l as [|x l _] using rev_ind; [cbn; lia|]. rewrite removelast_last, length_app in *. cbn in *. lia.
Qed.

Lemma lru_set_nodup cap k v l : NoDup (map fst l) -> NoDup (map fst (lru_set cap k v l)).
Proof.
  intros Hnd. unfold lru_set. destruct (List.find _ l) as [e|] eqn:E; [now apply moved_keys|].
  apply find_none_notin in E. cbn [map fst]. case_bool; [|now apply NoDup_cons].
  destruct l as [|x l _] using rev_ind; [now apply NoDup_cons|]. rewrite removelast_last.
  rewrite map_app, elem_of_app in E. rewrite map_app in Hnd. apply NoDup_app in Hnd as (Hnd & _ & _).
  apply NoDup_cons. tauto.
Qed.

Section RunFacts.
Context `{Unicode}.

Lemma lru_run_len cap calls : forall a, len a <= Z.max 1 cap -> NoDup (map fst a) ->
  len (lru_run cap calls a).2 <= Z.max 1 cap.
Proof.
  induction calls as [|[t i|t i r] calls IH]; intros a Ha Hnd; cbn [lru_run]; [exact Ha|..].
  - destruct (lru_get_len (normKey t i) a Hnd) as [E Hnd'].
    destruct (lru_get (normKey t i) a) as [r a']. cbn [snd] in *.
    specialize (IH a'). destruct (lru_run cap calls a'). cbn [snd] in *. apply IH; auto; lia.
  - apply IH; [now apply lru_set_len|now apply lru_set_nodup].
Qed.

Lemma lru_run_app cap l1 l2 : forall a,
  (lru_run cap (l1 ++ l2) a).1 = (lru_run cap l1 a).1 ++ (lru_run cap l2 (lru_run cap l1 a).2).1.
Proof.
  induction l1 as [|[t i|t i r] l1 IH]; intros a; cbn [app lru_run]; [done| |apply IH].
  destruct (lru_get (normKey t i) a) as [r a']. specialize (IH a').
  destruct (lru_run cap (l1 ++ l2) a'), (lru_run cap l1 a'). cbn [fst snd] in *. now rewrite IH.
Qed.

Lemma lru_run_nodup cap calls : forall a, NoDup (map fst a) -> NoDup (map fst (lru_run cap calls a).2).
Proof.
  induction calls as [|[t i|t i r] calls IH]; intros a Hnd; cbn [lru_run]; [exact Hnd|..].
  - destruct (lru_get_len (normKey t i) a Hnd) as [_ Hnd'].
    destruct (lru_get (normKey t i) a) as [r a']. cbn [snd] in *.
    specialize (IH a' Hnd'). now destruct (lru_run cap calls a').
  - now apply IH, lru_set_nodup.
Qed.
End RunFacts.

(** ** Retention

    Keys other than [k] that the calls touch. *)
Definition lru_key `{Unicode} (c : Call) : string :=
  match c with CGet t i | CSet t i _ => normKey t i end.

(** Touching [k] in a list that holds [(k', v)] keeps what precedes [k']
    among the touched keys. *)
Lemma lru_touch (k k' v w : string) (l1 l2 : list (string * string)) (used : list string) : k <> k' -> k ∈ used ->
  Forall (fun e => e.1 ∈ used) l1 -> NoDup (map fst (l1 ++ (k', v) :: l2)) ->
  exists l1' l2', (k, w) :: filter (fun e => e.1 <> k) (l1 ++ (k', v) :: l2) = l1' ++ (k', v) :: l2' /\
    Forall (fun e => e.1 ∈ used) l1' /\ NoDup (map fst (l1' ++ (k', v) :: l2')).
Proof.
  intros Hne Hu Hf Hnd. exists ((k, w) :: filter (fun e => e.1 <> k) l1), (filter (fun e => e.1 <> k) l2).
  assert (E : (k, w) :: filter (fun e => e.1 <> k) (l1 ++ (k', v) :: l2)
    = ((k, w) :: filter (fun e => e.1 <> k) l1) ++ (k', v) :: filter (fun e => e.1 <> k) l2)
    by (rewrite filter_app, filter_cons_True by (cbn; congruence); done).
  split; [exact E|]. split.
  - constructor; [exact Hu|]. apply Forall_forall. intros e He. apply list_elem_of_filter in He as [_ He].
    rewrite Forall_forall in Hf. auto.
  - rewrite <- E. now apply moved_keys.
Qed.

Lemma keys_in_used (l : list (string * string)) (used : list string) : NoDup (map fst l) -> Forall (fun e : string * string => e.1 ∈ used) l ->
  len l <= len (remove_dups used).
Proof.
  intros Hnd Hf. unfold len. rewrite <- (length_map fst l).
  assert (length (map fst l) <= length (remove_dups used))%nat; [|lia].
  apply submseteq_length, NoDup_submseteq; [exact Hnd|].
  intros x Hx. apply elem_of_remove_dups. apply list_elem_of_fmap in Hx as (e & -> & He).
  rewrite Forall_forall in Hf. auto.
Qed.

Section Retention.
Context `{Unicode}.

Lemma lru_run_keeps cap k v used calls : forall l1 l2,
  Forall (fun c => lru_key c <> k /\ lru_key c ∈ used) calls ->
  len (remove_dups used) < cap -> k ∉ used ->
  Forall (fun e => e.1 ∈ used) l1 -> NoDup (map fst (l1 ++ (k, v) :: l2)) ->
  exists l1' l2', (lru_run cap calls (l1 ++ (k, v) :: l2)).2 = l1' ++ (k, v) :: l2' /\
    Forall (fun e => e.1 ∈ used) l1'.
Proof.
  induction calls as [|c calls IH]; intros l1 l2 Hc Hcap Hk Hf Hnd; [exists l1, l2; auto|].
  apply Forall_cons in Hc as [[Hne Hu] Hc].
  destruct c as [t i|t i r]; cbn [lru_run lru_key] in *.
  - unfold lru_get. destruct (List.find _ (l1 ++ (k, v) :: l2)) as [e|] eqn:E.
    + apply List.find_some in E as [_ Ek]. apply String.eqb_eq in Ek.
      destruct e as [k0 w]. cbn in Ek. subst k0. cbn [snd].
      destruct (lru_touch (normKey t i) k v w l1 l2 used Hne Hu Hf Hnd) as (l1' & l2' & E' & Hf' & Hnd').
      rewrite E'. destruct (lru_run cap calls (l1' ++ (k, v) :: l2')) as [rs a'] eqn:Er. cbn [snd].
      destruct (IH l1' l2' Hc Hcap Hk Hf' Hnd') as (m1 & m2 & Hm & Hmf). rewrite Er in Hm. eauto.
    + destruct (lru_run cap calls (l1 ++ (k, v) :: l2)) as [rs a'] eqn:Er. cbn [snd].
      destruct (IH l1 l2 Hc Hcap Hk Hf Hnd) as (m1 & m2 & Hm & Hmf). rewrite Er in Hm. eauto.
  - unfold lru_set. destruct (List.find _ (l1 ++ (k, v) :: l2)) as [e|] eqn:E.
    + destruct (lru_touch (normKey t i) k v r l1 l2 used Hne Hu Hf Hnd) as (l1' & l2' & E' & Hf' & Hnd').
      rewrite E'. now apply IH.
    + assert (Hnew : normKey t i ∉ map fst (l1 ++ (k, v) :: l2)).
      { now apply find_none_notin. }
      assert (Hl1 : len ((normKey t i, r) :: l1) <= len (remove_dups used)).
      { apply keys_in_used; [|now constructor]. cbn [map fst]. rewrite map_app in Hnew, Hnd.
        apply NoDup_cons. rewrite elem_of_app in Hnew. apply NoDup_app in Hnd. tauto. }
      rewrite len_cons in Hl1.
      case_bool; [|apply (IH ((normKey t i, r) :: l1) l2); auto; cbn [app map fst]; apply NoDup_cons; auto].
      zbool. destruct l2 as [|x l2 _] using rev_ind.
      { rewrite len_app in Heqb. change (len [(k, v)]) with 1 in Heqb. lia. }
      assert (Erm : removelast (l1 ++ (k, v) :: l2 ++ [x]) = l1 ++ (k, v) :: l2)
        by (change (l1 ++ (k, v) :: l2 ++ [x]) with (l1 ++ ((k, v) :: l2) ++ [x]); rewrite app_assoc; apply removelast_last).
      rewrite Erm. apply (IH ((normKey t i, r) :: l1) l2); auto. cbn [app map fst].
      assert (Hsub : l1 ++ (k, v) :: l2 ++ [x] = (l1 ++ (k, v) :: l2) ++ [x])
        by (rewrite <- app_assoc; reflexivity).
      rewrite Hsub, map_app in Hnd, Hnew. apply NoDup_app in Hnd as (Hnd & _ & _).
      rewrite elem_of_app in Hnew. apply NoDup_cons. tauto.
Qed.
End Retention.

Lemma lru_find_kept (k v : string) (l1 l2 : list (string * string)) (used : list string) : k ∉ used -> Forall (fun e : string * string => e.1 ∈ used) l1 ->
  List.find (fun e => String.eqb e.1 k) (l1 ++ (k, v) :: l2) = Some (k, v).
Proof.
  intros Hk Hf. induction Hf as [|e l1 He Hf IH]; cbn [app List.find fst].
  - now rewrite String.eqb_refl.
  - rewrite (proj2 (String.eqb_neq e.1 k)); [exact IH|]. intros Ek. rewrite Ek in He. contradiction.
Qed.

(** ** Properties of the tool cache *)

(** C11.  The map and the linked list implement an LRU cache: every sequence
    of [Get]s and [Set]s on an enabled cache answers exactly as the abstract
    list of pairs in recency order does, the shared elements stay consistent
    ([rep]), and the cache never holds more than [max] results (one, if [max]
    is not positive). *)
Theorem toolCache_is_LRU `{Unicode} mx calls :
  (run calls (newToolCache mx true)).1 = (lru_run mx calls []).1 /\
  rep (run calls (newToolCache mx true)).2 (lru_run mx calls []).2 /\
  len (order (run calls (newToolCache mx true)).2) <= Z.max 1 mx.
Proof.
  destruct (run_refines calls (newToolCache mx true) [] (rep_new mx true) eq_refl) as [H1 H2].
  cbn [newToolCache max] in H1, H2. split; [exact H1|]. split; [exact H2|].
  assert (Hol : len (order (run calls (newToolCache mx true)).2) = len (lru_run mx calls []).2)
    by (unfold len; f_equal; eapply Forall2_length, H2).
  rewrite Hol. apply lru_run_len; [unfold len; cbn; lia|constructor].
Qed.

(** Retention: after a [Set], the next [Get] of the same tool and an
    input that normalises to the same key returns that result, whatever calls
    came in between, as long as they touched fewer than [max] other keys. *)
Theorem toolCache_retains `{Unicode} mx before between tool input result tool' input' :
  let k := normKey tool input in
  let others := map lru_key between in
  normKey tool' input' = k -> k ∉ others -> len (remove_dups others) < mx ->
  exists answers,
    (run (before ++ CSet tool input result :: between ++ [CGet tool' input']) (newToolCache mx true)).1
      = answers ++ [Some result].
Proof.
  intros k others Hk Hno Hlen.
  destruct (run_refines (before ++ CSet tool input result :: between ++ [CGet tool' input'])
    (newToolCache mx true) [] (rep_new mx true) eq_refl) as [-> _]. cbn [newToolCache max].
  rewrite lru_run_app. cbn [lru_run]. rewrite lru_run_app. fold k.
  set (a := (lru_run mx before []).2).
  assert (Hnd : NoDup (map fst (lru_set mx k result a)))
    by (apply lru_set_nodup, lru_run_nodup; constructor).
  assert (Hset : exists l2, lru_set mx k result a = [] ++ (k, result) :: l2) by (unfold lru_set; case_match; eauto).
  destruct Hset as [l2 Hset]. rewrite Hset in *.
  destruct (lru_run_keeps mx k result others between [] l2) as (m1 & m2 & -> & Hm).
  - apply Forall_forall. intros c Hc. assert (Hin : lru_key c ∈ others) by (apply list_elem_of_fmap; eauto).
    split; [|exact Hin]. intros E. apply Hno. now rewrite <- E.
  - exact Hlen.
  - exact Hno.
  - constructor.
  - exact Hnd.
  - cbn [lru_run]. rewrite Hk. unfold lru_get. rewrite (lru_find_kept k result m1 m2 others Hno Hm).
    cbn [fst snd]. eexists. rewrite app_assoc. reflexivity.
Qed.

Lemma toolCache_retains_witness :
  exists answers,
    (run ([] ++ CSet "Calc" "2 + 2" "4" :: [CGet "search" "x"; CSet "search" "x" "y"] ++ [CGet " calc" "2   +  2 "])
       (newToolCache 2 true)).1 = answers ++ [Some "4"%string].
Proof.
  apply (toolCache_retains 2 [] [CGet "search" "x"; CSet "search" "x" "y"] "Calc" "2 + 2" "4" " calc" "2   +  2 ").
  - vm_compute. reflexivity.
  - vm_compute. intros H. apply elem_of_cons in H as [H|H]; [discriminate|].
    apply elem_of_cons in H as [H|H]; [discriminate|]. now apply not_elem_of_nil in H.
  - vm_compute. reflexivity.
Defined.

(** The comment on [normKey] says that "Calc(2+2)" and "calc(2 + 2)" share a
    result; white space is collapsed, not removed, and the keys differ. *)
Example normKey_keeps_spaces : normKey "Calc" "2+2" <> normKey "calc" "2 + 2".
Proof. vm_compute. discriminate. Qed.
