(* ===== verification/Telemetry.v ===== *)
(** * Telemetry (telemetry/tier.go, latency.go, costs.go, score.go)

    Rolling latency windows per tier with percentiles, token and request
    counters with their cost estimates, and the composite Resilience Score.
    Counters are atomic 64-bit integers; each method is a function of the
    state. *)
From S2P Require Import Prelude RingBuffer Float64 GoStrings Breaker.
From Stdlib Require Import ZArith Lia Reals Lra String SpecFloat.
From stdpp Require Import base tactics list gmap strings countable sorting.
#[local] Open Scope Z_scope.

Inductive Tier := TierPrimary | TierFallback | TierCache | TierDegraded.
#[export] Instance Tier_eq_dec : EqDecision Tier.
Proof. solve_decision. Defined.
#[export] Instance Tier_countable : Countable Tier.
Proof.
  refine (inj_countable' (fun t => match t with TierPrimary => 0 | TierFallback => 1 | TierCache => 2
                                               | TierDegraded => 3 end)%nat
    (fun n => match n with 0 => TierPrimary | 1 => TierFallback | 2 => TierCache | _ => TierDegraded end)%nat _).
  now intros [].
Defined.
Definition tier_string (t : Tier) : string :=
  match t with TierPrimary => "primary" | TierFallback => "fallback" | TierCache => "cache"
             | TierDegraded => "degraded" end.

(** ** Latency *)

Definition latencyWindowSize : Z := 100.

Record LatencyTracker := mkLatency {
  windows : gmap Tier (list Z);
  lidx : gmap Tier Z;
  lfilled : gmap Tier bool;
}.
Definition NewLatencyTracker : LatencyTracker := mkLatency ∅ ∅ ∅.

(** A missing key of the maps reads as the zero value. *)
Definition idx_of (l : LatencyTracker) (t : Tier) : Z := default 0 (lidx l !! t).
Definition filled_of (l : LatencyTracker) (t : Tier) : bool := default false (lfilled l !! t).

Definition Record_latency (t : Tier) (d : Z) (l : LatencyTracker) : option LatencyTracker :=
  w ← (match windows l !! t with Some w => Some w | None => make_slice 0 latencyWindowSize end);
  '(w, i, f) ← ring_push w (idx_of l t) (filled_of l t) latencyWindowSize d;
  Some (mkLatency (<[t := w]> (windows l)) (<[t := i]> (lidx l))
          (if i =? 0 then <[t := true]> (lfilled l) else lfilled l)).

(** [sort.Slice] with [<] on integers: the sorted permutation. *)
Fixpoint insert_sorted (x : Z) (l : list Z) : list Z :=
  match l with [] => [x] | y :: l' => if x <=? y then x :: l else y :: insert_sorted x l' end.
Definition sort (l : list Z) : list Z := foldr insert_sorted [] l.

(** The rank-then-pick on a sorted copy of the occupied part. *)
Definition pick (sorted : list Z) (n p : Z) : option Z :=
  let rank := Z.quot (wrap64 (n * p)) 100 in
  let rank := if n <=? rank then n - 1 else rank in
  d ← slice_get sorted rank;
  Some (milliseconds d).

Definition percentile (l : LatencyTracker) (t : Tier) (p : Z) : option Z :=
  match windows l !! t with
  | None => Some 0
  | Some w =>
      let n := if filled_of l t then latencyWindowSize else idx_of l t in
      if n =? 0 then Some 0
      else
        cp ← slice w 0 n;
        pick (sort cp) n p
  end.
Definition P50 (l : LatencyTracker) (t : Tier) : option Z := percentile l t 50.
Definition P95 (l : LatencyTracker) (t : Tier) : option Z := percentile l t 95.
Definition P99 (l : LatencyTracker) (t : Tier) : option Z := percentile l t 99.

Record TierLatency := mkTierLatency { P50MS : Z; P95MS : Z; P99MS : Z; Samples : Z }.

Definition tierBreakdownLocked (l : LatencyTracker) (t : Tier) : option TierLatency :=
  match windows l !! t with
  | None => Some (mkTierLatency 0 0 0 0)
  | Some w =>
      let n := if filled_of l t then latencyWindowSize else idx_of l t in
      if n =? 0 then Some (mkTierLatency 0 0 0 0)
      else
        cp ← slice w 0 n;
        let sorted := sort cp in
        p50 ← pick sorted n 50; p95 ← pick sorted n 95; p99 ← pick sorted n 99;
        Some (mkTierLatency p50 p95 p99 n)
  end.

Record LatencySnapshot := mkLatencySnapshot {
  PrimaryP95MS : Z; FallbackP95MS : Z; CacheP95MS : Z; ByTier : list (string * TierLatency);
}.
Definition Snapshot_latency (l : LatencyTracker) : option LatencySnapshot :=
  primary ← tierBreakdownLocked l TierPrimary;
  fallback ← tierBreakdownLocked l TierFallback;
  cache ← tierBreakdownLocked l TierCache;
  Some (mkLatencySnapshot (P95MS primary) (P95MS fallback) (P95MS cache)
    [(tier_string TierPrimary, primary); (tier_string TierFallback, fallback); (tier_string TierCache, cache)]).

(** ** Costs *)

Record CostTracker := mkCosts {
  primaryInputTokens : Z; fallbackInputTokens : Z; cacheInputTokens : Z;
  primaryTokens : Z; fallbackTokens : Z; cacheTokens : Z;
  primaryReqs : Z; fallbackReqs : Z; cacheReqs : Z; deniedReqs : Z;
}.
Definition NewCostTracker : CostTracker := mkCosts 0 0 0 0 0 0 0 0 0 0.

Definition estimateTokens (text : string) : Z :=
  if slen text =? 0 then 0
  else let t := Z.quot (slen text) 4 in if t <? 1 then 1 else t.

Definition Record_cost (t : Tier) (inputText responseText : string) (c : CostTracker) : CostTracker :=
  let inTokens := estimateTokens inputText in
  let outTokens := estimateTokens responseText in
  let '(mkCosts pi fi ci po fo co pr fr cr dr) := c in
  match t with
  | TierPrimary => mkCosts (wrap64 (pi + inTokens)) fi ci (wrap64 (po + outTokens)) fo co (wrap64 (pr + 1)) fr cr dr
  | TierFallback => mkCosts pi (wrap64 (fi + inTokens)) ci po (wrap64 (fo + outTokens)) co pr (wrap64 (fr + 1)) cr dr
  | TierCache => mkCosts pi fi (wrap64 (ci + inTokens)) po fo (wrap64 (co + outTokens)) pr fr (wrap64 (cr + 1)) dr
  | TierDegraded => mkCosts pi fi ci po fo co pr fr cr (wrap64 (dr + 1))
  end.

Definition tokensToUSD (tokens : Z) (pricePerMillion : f64) : f64 :=
  fmul (fdiv (f64_of_Z tokens) (f64_of_Z 1000000)) pricePerMillion.

Definition costPrimaryInputPerMToken : f64 := flit 3 100.
Definition costPrimaryOutputPerMToken : f64 := flit 6 100.
Definition costFallbackInputPerMToken : f64 := flit 1 100.
Definition costFallbackOutputPerMToken : f64 := flit 2 100.

Record CostStats := mkCostStats {
  SpentPrimary : f64; SpentFallback : f64; SavedByCache : f64; SavedByFallback : f64;
  TotalSaved : f64; SavingsPercent : f64;
}.

(** The token fields of [CostStats] are the counters themselves; the
    differences of constants are constants. *)
Definition Snapshot_costs (c : CostTracker) : CostStats :=
  let spentPrimary := fadd (tokensToUSD (primaryInputTokens c) costPrimaryInputPerMToken)
                           (tokensToUSD (primaryTokens c) costPrimaryOutputPerMToken) in
  let spentFallback := fadd (tokensToUSD (fallbackInputTokens c) costFallbackInputPerMToken)
                            (tokensToUSD (fallbackTokens c) costFallbackOutputPerMToken) in
  let savedByCache := fadd (tokensToUSD (cacheInputTokens c) costPrimaryInputPerMToken)
                           (tokensToUSD (cacheTokens c) costPrimaryOutputPerMToken) in
  let savedByFallback := fadd (tokensToUSD (fallbackInputTokens c) (flit 2 100))
                              (tokensToUSD (fallbackTokens c) (flit 4 100)) in
  let totalSaved := fadd savedByCache savedByFallback in
  let totalWouldHaveSpent := fadd (fadd (fadd spentPrimary spentFallback) savedByCache) savedByFallback in
  let savingsPercent := if flt f0 totalWouldHaveSpent
                        then fmul (fdiv totalSaved totalWouldHaveSpent) (f64_of_Z 100) else f0 in
  mkCostStats spentPrimary spentFallback savedByCache savedByFallback totalSaved savingsPercent.

Definition TierCounts (c : CostTracker) : Z * Z * Z * Z :=
  (primaryReqs c, fallbackReqs c, cacheReqs c, deniedReqs c).

(** ** The Resilience Score *)

Record TierRequestCounts := mkCounts { Primary : Z; Fallback : Z; Cache : Z; Denied : Z }.

Record ScoreInput := mkScoreInput {
  PrimaryBreaker : string; FallbackBreaker : string;
  PrimaryKilled : bool; FallbackKilled : bool;
  PrimarySemanticCB : SBSnapshot; FallbackSemanticCB : SBSnapshot;
  DegradeMode : bool; CacheSize : Z; Counts : TierRequestCounts; Costs : CostStats; Latency : LatencySnapshot;
}.

Record ResilienceBreakdown := mkBreakdown {
  TransportHealth : Z; SemanticQuality : Z; CacheEfficiency : Z; Availability : Z; LatencyScore : Z;
}.
Record ResilienceScore := mkScore {
  Total : Z; Grade : string; Breakdown : ResilienceBreakdown; Recommendation : string;
}.

Definition scoreGrade (score : Z) : string :=
  if 90 <=? score then "A" else if 75 <=? score then "B" else if 60 <=? score then "C"
  else if 40 <=? score then "D" else "F".

Definition scoreRecommendation (b : ResilienceBreakdown) (s : ScoreInput) : string :=
  if TransportHealth b <? 16 then
    if PrimaryKilled s then "Primary model is killed — restore it to recover transport health"
    else "Transport circuit breaker is open — check model connectivity"
  else if SemanticQuality b <? 12 then
    if DegradeMode s then "Degrade mode is active — disable it to restore semantic quality"
    else "Primary quality " +:+ percent (snap_AvgQuality (PrimarySemanticCB s)) +:+ " — model may be degraded"
  else if LatencyScore b <? 12 then
    "Primary p95 latency " +:+ itoa (PrimaryP95MS (Latency s)) +:+ "ms — model is slow"
  else if CacheEfficiency b <? 8 then "Cache is cold — send repeated queries to build hit rate"
  else if Availability b <? 16 then "High graceful-denial rate — check model availability"
  else EmptyString.

Definition transport_health (s : ScoreInput) : Z :=
  let h := 20 in
  let h := if PrimaryKilled s || String.eqb (PrimaryBreaker s) "open" then h - 8
           else if String.eqb (PrimaryBreaker s) "half-open" then h - 3 else h in
  let h := if FallbackKilled s || String.eqb (FallbackBreaker s) "open" then h - 8
           else if String.eqb (FallbackBreaker s) "half-open" then h - 3 else h in
  if h <? 0 then 0 else h.

Definition semantic_quality (s : ScoreInput) : Z :=
  let pScore := match snap_State (PrimarySemanticCB s) with SBHealthy => 12 | SBDegraded => 6 | SBFailing => 0 end in
  let pScore := if DegradeMode s then 0 else pScore in
  let fScore := match snap_State (FallbackSemanticCB s) with SBHealthy => 8 | SBDegraded => 4 | SBFailing => 0 end in
  pScore + fScore.

Definition total_requests (s : ScoreInput) : Z :=
  wrap64 (wrap64 (wrap64 (Primary (Counts s) + Fallback (Counts s)) + Cache (Counts s)) + Denied (Counts s)).

(** [int(x)] of a float; [None] when the value does not fit. *)
Section Score.
Context `{FloatToInt}.
Definition cache_efficiency (s : ScoreInput) : Z :=
  if total_requests s =? 0 then 20
  else
    let size := if 40 <? CacheSize s then 40 else CacheSize s in
    let e := to_int (fadd (fdiv (fmul (f64_of_Z size) (f64_of_Z 20)) (f64_of_Z 40)) (flit 1 2)) in
    if flt f0 (SavingsPercent (Costs s)) then
      let e := wrap64 (e + to_int (fmul (fdiv (SavingsPercent (Costs s)) (f64_of_Z 100)) (f64_of_Z 4))) in
      if 20 <? e then 20 else e
    else e.

Definition availability (s : ScoreInput) : Z :=
  let totalReqs := total_requests s in
  if totalReqs =? 0 then 20
  else
    let served := wrap64 (totalReqs - Denied (Counts s)) in
    to_int (fmul (fdiv (f64_of_Z served) (f64_of_Z totalReqs)) (f64_of_Z 20)).

Definition latency_score (p95 : Z) : Z :=
  if p95 =? 0 then 20 else if p95 <? 1000 then 20 else if p95 <? 3000 then 16
  else if p95 <? 5000 then 12 else if p95 <? 10000 then 6 else 2.

Definition ComputeScore (s : ScoreInput) : ResilienceScore :=
  let b := mkBreakdown (transport_health s) (semantic_quality s) (cache_efficiency s) (availability s) (latency_score (PrimaryP95MS (Latency s))) in
  let total := wrap64 (TransportHealth b + SemanticQuality b + CacheEfficiency b + Availability b + LatencyScore b) in
  mkScore total (scoreGrade total) b (scoreRecommendation b s).
End Score.

(** ** Latency windows *)

Definition tracker_ok (t : Tier) (l : LatencyTracker) : Prop :=
  match windows l !! t with
  | None => idx_of l t = 0 /\ filled_of l t = false
  | Some w => ring_ok w (idx_of l t) latencyWindowSize
  end.

(** The samples of a tier, oldest first. *)
Definition samples (t : Tier) (l : LatencyTracker) : list Z :=
  match windows l !! t with
  | None => []
  | Some w => ring_contents w (idx_of l t) (filled_of l t)
  end.

Lemma tracker_ok_new t : tracker_ok t NewLatencyTracker.
Proof. unfold tracker_ok, idx_of, filled_of. cbn. now rewrite !lookup_empty. Qed.

Lemma Record_latency_spec t d l : tracker_ok t l ->
  exists l', Record_latency t d l = Some l' /\ tracker_ok t l' /\
    samples t l' = lastn (Z.to_nat latencyWindowSize) (samples t l ++ [d]) /\
    (forall t', t' <> t -> windows l' !! t' = windows l !! t' /\ idx_of l' t' = idx_of l t' /\
                           filled_of l' t' = filled_of l t').
Proof.
  intros Hok. unfold Record_latency, tracker_ok, samples in *.
  assert (Hw : exists w, (match windows l !! t with Some w => Some w | None => make_slice 0 latencyWindowSize end) = Some w /\
    ring_ok w (idx_of l t) latencyWindowSize /\
    ring_contents w (idx_of l t) (filled_of l t)
      = match windows l !! t with Some w => ring_contents w (idx_of l t) (filled_of l t) | None => [] end).
  { destruct (windows l !! t) as [w|]; [eauto|]. destruct Hok as [-> ->].
    exists (replicate 100 0). split; [reflexivity|]. split; [|reflexivity].
    split; [reflexivity|]. unfold latencyWindowSize, int64_max. lia. }
  destruct Hw as (w & -> & Hr & <-). cbn [mbind option_bind].
  destruct (ring_push_total w _ (filled_of l t) _ d Hr) as (i & Ep & _ & Hr').
  pose proof (ring_push_contents _ _ _ _ _ _ _ _ Hr Ep) as Hc.
  rewrite Ep. cbn [mbind option_bind]. eexists; split; [reflexivity|].
  cbn [windows]. rewrite lookup_insert_eq. set (l' := mkLatency _ _ _).
  assert (Hi' : idx_of l' t = i) by (unfold idx_of, l'; cbn; now rewrite lookup_insert_eq).
  assert (Hf : default false ((if i =? 0 then <[t := true]> (lfilled l) else lfilled l) !! t)
     = if i =? 0 then true else filled_of l t) by (case_bool; [now rewrite lookup_insert_eq|done]).
  change (filled_of l' t) with (default false ((if i =? 0 then <[t := true]> (lfilled l) else lfilled l) !! t)).
  rewrite Hi', Hf. split; [exact Hr'|]. split; [exact Hc|]. unfold l'.
  intros t' Hne. cbn [windows]. rewrite lookup_insert_ne by auto. unfold idx_of, filled_of. cbn [lidx lfilled].
  rewrite lookup_insert_ne by auto. split; [done|]. split; [done|].
  case_bool; [now rewrite lookup_insert_ne by auto|done].
Qed.

#[export] Program Instance latency_window (t : Tier) : Window LatencyTracker Z Z := {
  win_ok := tracker_ok t;
  win_cap := fun _ => latencyWindowSize;
  win_contents := samples t;
  win_sample := fun d => d;
  win_push := Record_latency t;
}.
Next Obligation. intros t d l Hok. destruct (Record_latency_spec t d l Hok) as (l' & E & Hok' & _). eauto. Qed.
Next Obligation. reflexivity. Qed.
Next Obligation.
  intros t d l l' Hok E. destruct (Record_latency_spec t d l Hok) as (l2 & E' & _ & Hs & _). congruence.
Qed.

(** ** Sorting and percentiles *)

Lemma insert_sorted_perm x l : insert_sorted x l ≡ₚ x :: l.
Proof.
  induction l as [|y l IH]; [done|]. cbn [insert_sorted]. case_bool; [done|].
  rewrite IH. apply Permutation_swap.
Qed.
Lemma sort_perm l : sort l ≡ₚ l.
Proof. induction l as [|x l IH]; [done|]. cbn [sort foldr]. rewrite insert_sorted_perm. fold (sort l). now rewrite IH. Qed.
Lemma insert_sorted_sorted x l : StronglySorted Z.le l -> StronglySorted Z.le (insert_sorted x l).
Proof.
  induction 1 as [|y l Hs IH Hf]; cbn [insert_sorted]; [repeat constructor|].
  case_bool; zbool.
  - constructor; [now constructor|]. constructor; [exact Heqb|].
    apply Forall_forall. intros z Hz. rewrite Forall_forall in Hf. specialize (Hf z Hz). lia.
  - constructor; [exact IH|]. rewrite insert_sorted_perm. constructor; [lia|exact Hf].
Qed.
Lemma sort_sorted l : StronglySorted Z.le (sort l).
Proof. induction l as [|x l IH]; [constructor|]. now apply insert_sorted_sorted. Qed.

Lemma sorted_split l r d : StronglySorted Z.le l -> l !! r = Some d ->
  Forall (fun x => x <= d) (take (S r) l) /\ Forall (fun x => d <= x) (drop r l).
Proof.
  revert r. induction l as [|x l IH]; intros r Hs Hr; [done|].
  apply StronglySorted_inv in Hs as [Hs Hf]. destruct r as [|r].
  - injection Hr as ->. cbn [take drop]. rewrite take_0. split; constructor; (lia || constructor || exact Hf).
  - destruct (IH r Hs Hr) as [H1 H2]. split; [|exact H2]. cbn [take]. constructor; [|exact H1].
    rewrite Forall_forall in Hf. apply Hf. eapply list_elem_of_lookup_2; exact Hr.
Qed.

(** [d] is at rank [r] (from 0) of [l]: at most [r] samples are smaller and
    more than [r] are not larger. *)
Definition at_rank (l : list Z) (r d : Z) : Prop :=
  d ∈ l /\ len (filter (fun x => x < d) l) <= r /\ r + 1 <= len (filter (fun x => x <= d) l).

Lemma sort_at_rank l r d : sort l !! r = Some d -> at_rank l (Z.of_nat r) d.
Proof.
  intros Hr. destruct (sorted_split (sort l) r d (sort_sorted l) Hr) as [H1 H2].
  assert (Hlen : (r < length (sort l))%nat) by (eapply lookup_lt_Some; exact Hr).
  assert (Hperm : forall P `{forall x, Decision (P x)}, len (filter P l) = len (filter P (sort l))).
  { intros P HP. unfold len. now rewrite (Permutation_length (filter_Permutation P _ _ (sort_perm l))). }
  split; [rewrite <- (sort_perm l); eapply list_elem_of_lookup_2; exact Hr|]. rewrite !Hperm. split.
  - rewrite <- (take_drop r (sort l)), filter_app, len_app.
    replace (filter (fun x => x < d) (drop r (sort l))) with (@nil Z).
    + unfold len. cbn [length]. pose proof (length_filter (fun x => x < d) (take r (sort l))) as Hl.
      rewrite length_take in Hl. lia.
    + symmetry. apply elem_of_nil_inv. intros x Hx. apply list_elem_of_filter in Hx as [Hx Hin].
      rewrite Forall_forall in H2. specialize (H2 x Hin). lia.
  - rewrite <- (take_drop (S r) (sort l)), filter_app, len_app.
    rewrite (filter_Forall_id _ _ H1). unfold len at 1. rewrite length_take.
    pose proof (len_nonneg (filter (fun x => x <= d) (drop (S r) (sort l)))). lia.
Qed.

(** The rank the code picks. *)
Definition rank (n p : Z) : Z := Z.min (n * p / 100) (n - 1).

Lemma rank_range n p : 0 < n -> 0 <= p -> 0 <= rank n p < n.
Proof. intros Hn Hp. unfold rank. assert (0 <= n * p / 100) by (apply Z.div_pos; nia). lia. Qed.

Lemma pick_spec l p : l <> [] -> len l <= latencyWindowSize -> 0 <= p <= 100 ->
  exists d, pick (sort l) (len l) p = Some (milliseconds d) /\ at_rank l (rank (len l) p) d.
Proof.
  intros Hne Hl Hp. unfold latencyWindowSize in Hl.
  assert (Hn : 0 < len l) by (destruct l; [done|unfold len; cbn; lia]).
  unfold pick. rewrite wrap64_id by (unfold int64_min, int64_max; nia).
  rewrite Z.quot_div_nonneg by nia.
  replace (if len l <=? len l * p / 100 then len l - 1 else len l * p / 100) with (rank (len l) p)
    by (unfold rank; case_bool; zbool; lia).
  pose proof (rank_range (len l) p Hn ltac:(lia)) as Hr.
  assert (Hsl : len (sort l) = len l) by (unfold len; now rewrite (Permutation_length (sort_perm l))).
  destruct (slice_get_in (sort l) (rank (len l) p)) as [d Hd]; [lia|].
  rewrite Hd. cbn [mbind option_bind]. exists d. split; [done|].
  unfold slice_get in Hd. rewrite (proj2 (Z.leb_le _ _)) in Hd by lia.
  apply sort_at_rank in Hd. now rewrite Z2Nat.id in Hd by lia.
Qed.

(** The part of the slice that is sorted is a permutation of the window. *)
Lemma samples_slice t l w : tracker_ok t l -> windows l !! t = Some w ->
  let n := if filled_of l t then latencyWindowSize else idx_of l t in
  exists cp, slice w 0 n = Some cp /\ cp ≡ₚ samples t l /\ len cp = n /\ len (samples t l) = n /\ 0 <= n <= latencyWindowSize.
Proof.
  intros Hok Hw. unfold tracker_ok, samples in *. rewrite Hw in *.
  pose proof (ring_prefix_perm w _ (filled_of l t) _ Hok) as Hp.
  pose proof (ring_contents_length w _ (filled_of l t) _ Hok) as Hc.
  destruct Hok as (Hl & Hi & _). cbv zeta. unfold ring_count in *.
  set (n := if filled_of l t then latencyWindowSize else idx_of l t) in *.
  assert (Hn : 0 <= n <= latencyWindowSize) by (unfold n, latencyWindowSize in *; destruct (filled_of l t); lia).
  exists (take (Z.to_nat n) w). split.
  - unfold slice. rewrite Z.leb_refl, !(proj2 (Z.leb_le _ _)) by lia. cbn [andb]. now rewrite drop_0, Z.sub_0_r.
  - split; [now symmetry|]. split; [|auto]. unfold len. rewrite length_take. unfold len in Hl. lia.
Qed.

Lemma at_rank_perm l k r d : l ≡ₚ k -> at_rank l r d -> at_rank k r d.
Proof.
  intros Hp (H1 & H2 & H3). unfold at_rank, len in *.
  rewrite <- !(Permutation_length (filter_Permutation _ _ _ Hp)), <- Hp. auto.
Qed.

Lemma percentile_spec t l p : tracker_ok t l -> 0 <= p <= 100 ->
  (samples t l = [] -> percentile l t p = Some 0) /\
  (samples t l <> [] -> exists d, percentile l t p = Some (milliseconds d) /\
     at_rank (samples t l) (rank (len (samples t l)) p) d).
Proof.
  intros Hok Hp. unfold percentile. destruct (windows l !! t) as [w|] eqn:Hw.
  2:{ unfold samples. rewrite Hw. split; [done|now intros []]. }
  destruct (samples_slice t l w Hok Hw) as (cp & Hs & Hperm & Hc & Hn & Hr).
  set (n := if filled_of l t then latencyWindowSize else idx_of l t) in *. split.
  - intros E. rewrite E in Hn. change (len []) with 0 in Hn. now rewrite <- Hn.
  - intros Hne. destruct (Z.eqb_spec n 0) as [E|E].
    { exfalso. apply Hne, len_zero_nil. lia. }
    rewrite Hs. cbn [mbind option_bind]. rewrite <- Hc.
    destruct (pick_spec cp p) as (d & Hd & Hat); [|lia|exact Hp|].
    { intros ->. change (len []) with 0 in Hc. lia. }
    exists d. split; [exact Hd|]. rewrite Hc in Hat. rewrite Hn. now apply (at_rank_perm cp).
Qed.
Lemma Snapshot_latency_total l : (forall t, tracker_ok t l) -> is_Some (Snapshot_latency l).
Proof.
  intros Hok. assert (Ht : forall t, is_Some (tierBreakdownLocked l t)).
  { intros t. unfold tierBreakdownLocked. destruct (windows l !! t) as [w|] eqn:Hw; [|eauto].
    destruct (samples_slice t l w (Hok t) Hw) as (cp & Hs & _ & Hc & _ & Hr). cbv zeta in Hr.
    set (n := if filled_of l t then latencyWindowSize else idx_of l t) in *.
    destruct (Z.eqb_spec n 0); [eauto|]. rewrite Hs. cbn [mbind option_bind]. assert (Hne : cp <> []).
    { intros ->. change (len []) with 0 in Hc. lia. }
    rewrite <- Hc. destruct (pick_spec cp 50 Hne) as (d & -> & _); [lia..|]. destruct (pick_spec cp 95 Hne) as (d' & -> & _); [lia..|].
    destruct (pick_spec cp 99 Hne) as (d2 & -> & _); [lia..|]. cbn. eauto. }
  unfold Snapshot_latency. destruct (Ht TierPrimary) as [p ->], (Ht TierFallback) as [q ->], (Ht TierCache) as [c ->]. cbn. eauto.
Qed.

Lemma at_rank_mono l r r' d d' : at_rank l r d -> at_rank l r' d' -> r <= r' -> d <= d'.
Proof.
  intros (_ & H1 & _) (_ & _ & H2) Hle. destruct (Z.le_gt_cases d d') as [|Hgt]; [assumption|exfalso].
  assert (H3 : len (filter (fun x => x <= d') l) <= len (filter (fun x => x < d) l)); [|lia].
  clear -Hgt. induction l as [|x l IH]; [done|]. rewrite !filter_cons.
  repeat case_decide; rewrite ?len_cons; lia.
Qed.

(** ** Cost counters *)

(** One call of [Record]: the tier, the input text and the response text. *)
Definition CostCall : Type := Tier * string * string.
Definition record_costs (l : list CostCall) (c : CostTracker) : CostTracker :=
  foldl (fun c '(t, i, o) => Record_cost t i o c) c l.

Definition calls_of (t : Tier) (l : list CostCall) : list CostCall := filter (fun c => c.1.1 = t) l.
Definition tokens (f : CostCall -> string) (l : list CostCall) : Z :=
  foldr (fun c n => estimateTokens (f c) + n) 0 l.
Definition call_in (c : CostCall) : string := c.1.2.
Definition call_out (c : CostCall) : string := c.2.

(** The total text recorded, which bounds every counter. *)
Definition text_size (l : list CostCall) : Z :=
  foldr (fun c n => slen (call_in c) + slen (call_out c) + 1 + n) 0 l.

Lemma estimateTokens_bounds s : 0 <= estimateTokens s <= slen s.
Proof.
  pose proof (slen_nonneg s). unfold estimateTokens. case_bool; zbool; [lia|].
  rewrite Z.quot_div_nonneg by lia. assert (slen s / 4 <= slen s) by (apply Z.div_le_upper_bound; lia).
  assert (0 <= slen s / 4) by (apply Z.div_pos; lia). case_bool; zbool; lia.
Qed.

(** Every counter of [c] with the rest of the texts stays below 2^62. *)
Definition counters (c : CostTracker) : list Z :=
  [primaryInputTokens c; fallbackInputTokens c; cacheInputTokens c; primaryTokens c; fallbackTokens c;
   cacheTokens c; primaryReqs c; fallbackReqs c; cacheReqs c; deniedReqs c].

Definition expected (l : list CostCall) : list Z :=
  [tokens call_in (calls_of TierPrimary l); tokens call_in (calls_of TierFallback l);
   tokens call_in (calls_of TierCache l); tokens call_out (calls_of TierPrimary l);
   tokens call_out (calls_of TierFallback l); tokens call_out (calls_of TierCache l);
   len (calls_of TierPrimary l); len (calls_of TierFallback l); len (calls_of TierCache l);
   len (calls_of TierDegraded l)].

Lemma calls_of_cons t c l : calls_of t (c :: l) = if decide (c.1.1 = t) then c :: calls_of t l else calls_of t l.
Proof. unfold calls_of. rewrite filter_cons. now case_decide. Qed.
Lemma tokens_cons f c l : tokens f (c :: l) = estimateTokens (f c) + tokens f l.
Proof. reflexivity. Qed.

Lemma record_costs_counters l : forall c, Forall (fun n => 0 <= n /\ n + text_size l < 2 ^ 62) (counters c) ->
  counters (record_costs l c) = zip_with Z.add (counters c) (expected l).
Proof.
  induction l as [|[[t i] o] l IH]; intros c Hc.
  - destruct c. cbn. now rewrite !Z.add_0_r.
  - cbn [record_costs foldl]. fold (record_costs l (Record_cost t i o c)).
    pose proof (estimateTokens_bounds i) as Hi. pose proof (estimateTokens_bounds o) as Ho.
    change (text_size ((t, i, o) :: l)) with (slen i + slen o + 1 + text_size l) in Hc.
    unfold counters in Hc. rewrite !Forall_cons in Hc.
    destruct c as [pi fi ci po fo co pr fr cr dr]. cbn in Hc.
    assert (Hw : forall n k, 0 <= n -> n < 2 ^ 62 -> 0 <= k < 2 ^ 62 -> wrap64 (n + k) = n + k)
      by (intros; apply wrap64_id; unfold int64_min, int64_max; lia).
    assert (Hrest : 0 <= text_size l).
    { clear. induction l as [|[[t i] o] l IH]; [cbn; lia|].
      change (text_size ((t, i, o) :: l)) with (slen i + slen o + 1 + text_size l).
      pose proof (slen_nonneg i). pose proof (slen_nonneg o). lia. }
    rewrite IH.
    + unfold expected. rewrite !calls_of_cons. cbn [fst snd].
      destruct t; cbn [Record_cost counters zip_with primaryInputTokens fallbackInputTokens cacheInputTokens
        primaryTokens fallbackTokens cacheTokens primaryReqs fallbackReqs cacheReqs deniedReqs];
        repeat (case_decide; [first [discriminate|idtac]|first [contradiction|congruence|idtac]]);
        rewrite ?Hw by lia; rewrite ?tokens_cons, ?len_cons; unfold call_in, call_out; cbn [fst snd];
        repeat (apply (f_equal2 (@cons Z)); [lia|]); reflexivity.
    + unfold counters. rewrite !Forall_cons. destruct t; cbn; rewrite ?Hw by lia;
        repeat (split; [lia|]); constructor.
Qed.

Lemma counter_nonneg_fin n p : 0 <= n < 2 ^ 53 -> in_unit p ->
  is_fin (tokensToUSD n p) = true /\ (0 <= B2R (tokensToUSD n p) <= IZR (2 ^ 53))%R.
Proof.
  intros Hn [Fp Hp]. unfold tokensToUSD.
  destruct (f64_of_Z_exact n) as [Fn Vn]; [lia|]. destruct (f64_of_Z_exact 1000000) as [Fm Vm]; [lia|].
  assert (Hnr : (0 <= IZR n <= IZR (2 ^ 53))%R) by (split; apply IZR_le; lia).
  assert (R53 : representable (IZR (2 ^ 53))) by (apply representable_Z; lia).
  destruct (fdiv_between (f64_of_Z n) (f64_of_Z 1000000) 0 (IZR (2 ^ 53)) Fn Fm representable_0 R53) as [Fd Vd].
  - rewrite Vm. lra.
  - rewrite Vn, Vm. unfold Rdiv. split; nra.
  - apply fmul_between; auto using representable_0. nra.
Qed.

Lemma fadd_nonneg x y k : is_fin x = true -> is_fin y = true ->
  (0 <= B2R x <= IZR (2 ^ k))%R -> (0 <= B2R y <= IZR (2 ^ k))%R -> 0 <= k < 100 ->
  is_fin (fadd x y) = true /\ (0 <= B2R (fadd x y) <= IZR (2 ^ (k + 1)))%R /\ (B2R y <= B2R (fadd x y))%R
    /\ (B2R x <= B2R (fadd x y))%R.
Proof.
  intros Fx Fy Hx Hy Hk.
  assert (E : IZR (2 ^ (k + 1)) = (2 * IZR (2 ^ k))%R) by (rewrite <- mult_IZR; f_equal; rewrite Z.pow_add_r by lia; lia).
  assert (Rk : representable (IZR (2 ^ (k + 1)))).
  { exists 1, (k + 1). split; [reflexivity|]. split; [lia|]. rewrite bpow_Z by lia. lra. }
  destruct (fadd_between x y 0 (IZR (2 ^ (k + 1))) Fx Fy representable_0 Rk) as [F V]; [lra|].
  split; [exact F|]. split; [exact V|].
  destruct (fadd_between x y (B2R y) (IZR (2 ^ (k + 1))) Fx Fy (is_fin_representable y Fy) Rk) as [_ V1]; [lra|].
  destruct (fadd_between x y (B2R x) (IZR (2 ^ (k + 1))) Fx Fy (is_fin_representable x Fx) Rk) as [_ V2]; [lra|].
  lra.
Qed.

(** A price per million tokens, on a counter. *)
Lemma price_pair a b p q : 0 <= a < 2 ^ 53 -> 0 <= b < 2 ^ 53 -> in_unit p -> in_unit q ->
  let x := fadd (tokensToUSD a p) (tokensToUSD b q) in is_fin x = true /\ (0 <= B2R x <= IZR (2 ^ 54))%R.
Proof.
  intros Ha Hb Hp Hq. destruct (counter_nonneg_fin a p Ha Hp) as [F1 V1]. destruct (counter_nonneg_fin b q Hb Hq) as [F2 V2].
  destruct (fadd_nonneg _ _ 53 F1 F2 V1 V2) as (F & V & _); [lia|]. now split.
Qed.

(** The savings are at most twice the whole: the sums are rounded. *)
Lemma savings_ratio x y c f : is_fin x = true -> is_fin y = true -> is_fin c = true -> is_fin f = true ->
  (0 <= B2R x <= IZR (2 ^ 54))%R -> (0 <= B2R y <= IZR (2 ^ 54))%R -> (0 <= B2R c <= IZR (2 ^ 54))%R -> (0 <= B2R f <= IZR (2 ^ 54))%R ->
  let saved := fadd c f in let whole := fadd (fadd (fadd x y) c) f in
  is_fin saved = true /\ is_fin whole = true /\ (0 <= B2R saved <= 2 * B2R whole)%R.
Proof.
  intros Fx Fy Fc Ff Vx Vy Vc Vf saved whole.
  assert (Hle : forall j k, 0 <= j <= k -> (IZR (2 ^ j) <= IZR (2 ^ k))%R) by (intros; apply IZR_le, Z.pow_le_mono_r; lia).
  destruct (fadd_nonneg x y 54 Fx Fy Vx Vy) as (F1 & V1 & _); [lia|].
  destruct (fadd_nonneg (fadd x y) c 55 F1 Fc V1) as (F2 & V2 & Hc & _); [specialize (Hle 54 55 ltac:(lia)); lra|lia|].
  destruct (fadd_nonneg (fadd (fadd x y) c) f 56 F2 Ff V2) as (F3 & V3 & Hf & Hb); [specialize (Hle 54 56 ltac:(lia)); lra|lia|].
  fold whole in F3, V3, Hf, Hb.
  assert (Hr : representable (2 * B2R whole)).
  { apply representable_double; [exact F3|]. specialize (Hle 57 100 ltac:(lia)). change (56 + 1) with 57 in V3. lra. }
  destruct (fadd_between c f 0 (2 * B2R whole) Fc Ff representable_0 Hr) as [F V]; [lra|]. auto.
Qed.

Lemma price_units :
  in_unit costPrimaryInputPerMToken /\ in_unit costPrimaryOutputPerMToken /\ in_unit costFallbackInputPerMToken /\
  in_unit costFallbackOutputPerMToken /\ in_unit (flit 2 100) /\ in_unit (flit 4 100).
Proof.
  unfold in_unit, costPrimaryInputPerMToken, costPrimaryOutputPerMToken, costFallbackInputPerMToken, costFallbackOutputPerMToken.
  fval (flit 3 100). fval (flit 6 100). fval (flit 1 100). fval (flit 2 100). fval (flit 4 100). intuition lra.
Qed.

Lemma SavingsPercent_bounds c : Forall (fun n => 0 <= n < 2 ^ 53) (counters c) ->
  is_fin (SavingsPercent (Snapshot_costs c)) = true /\ (0 <= B2R (SavingsPercent (Snapshot_costs c)) <= 200)%R.
Proof.
  intros Hc. unfold counters in Hc. repeat (apply Forall_cons in Hc as [? Hc]). unfold Snapshot_costs.
  destruct price_units as (U1 & U2 & U3 & U4 & U5 & U6).
  destruct (price_pair (primaryInputTokens c) (primaryTokens c) _ _ ltac:(lia) ltac:(lia) U1 U2) as [F1 V1].
  destruct (price_pair (fallbackInputTokens c) (fallbackTokens c) _ _ ltac:(lia) ltac:(lia) U3 U4) as [F2 V2].
  destruct (price_pair (cacheInputTokens c) (cacheTokens c) _ _ ltac:(lia) ltac:(lia) U1 U2) as [F3 V3].
  destruct (price_pair (fallbackInputTokens c) (fallbackTokens c) _ _ ltac:(lia) ltac:(lia) U5 U6) as [F4 V4].
  destruct (savings_ratio _ _ _ _ F1 F2 F3 F4 V1 V2 V3 V4) as (Fs & Fw & Hs). cbn [SavingsPercent].
  set (saved := fadd (fadd (tokensToUSD (cacheInputTokens c) _) _) (fadd _ _)) in *.
  set (whole := fadd (fadd (fadd _ _) _) _) in *. clearbody saved whole.
  destruct f0_val as [F0 V0]. case_bool; [|split; [exact F0|rewrite V0; lra]].
  apply flt_spec in Heqb; [|exact F0|exact Fw]. rewrite V0 in Heqb.
  destruct (f64_of_Z_exact 100) as [Fh Vh]; [lia|].
  destruct (fdiv_between saved whole 0 2 Fs Fw representable_0) as [Fd Vd]; [apply (representable_Z 2); lia|lra| |].
  - assert (Hi : (0 < / B2R whole)%R) by (apply Rinv_0_lt_compat; lra). unfold Rdiv. split; [nra|].
    apply (Rmult_le_reg_r (B2R whole)); [lra|]. rewrite Rmult_assoc, Rinv_l; lra.
  - apply (fmul_between _ (f64_of_Z 100) 0 200 Fd Fh representable_0); [apply (representable_Z 200); lia|rewrite Vh; lra].
Qed.

(** ** The score's components *)

Definition score_input_ok (s : ScoreInput) : Prop :=
  0 <= CacheSize s /\
  0 <= Primary (Counts s) /\ 0 <= Fallback (Counts s) /\ 0 <= Cache (Counts s) /\ 0 <= Denied (Counts s) /\
  Primary (Counts s) + Fallback (Counts s) + Cache (Counts s) + Denied (Counts s) <= 2 ^ 53 /\
  is_fin (SavingsPercent (Costs s)) = true /\ (0 <= B2R (SavingsPercent (Costs s)) <= 200)%R.

Lemma total_requests_sum s : score_input_ok s ->
  total_requests s = Primary (Counts s) + Fallback (Counts s) + Cache (Counts s) + Denied (Counts s).
Proof.
  intros (_ & H1 & H2 & H3 & H4 & H5 & _). unfold total_requests.
  rewrite (wrap64_id (Primary (Counts s) + Fallback (Counts s))) by (unfold int64_min, int64_max; lia).
  rewrite (wrap64_id (_ + Cache (Counts s))) by (unfold int64_min, int64_max; lia).
  rewrite wrap64_id by (unfold int64_min, int64_max; lia). lia.
Qed.

Lemma transport_health_bounds s : 0 <= transport_health s <= 20.
Proof. unfold transport_health. repeat case_bool; zbool; lia. Qed.

Lemma semantic_quality_bounds s : 0 <= semantic_quality s <= 20.
Proof.
  unfold semantic_quality.
  destruct (snap_State (PrimarySemanticCB s)), (snap_State (FallbackSemanticCB s)), (DegradeMode s); lia.
Qed.

Lemma latency_score_bounds p : 2 <= latency_score p <= 20.
Proof. unfold latency_score. repeat case_bool; lia. Qed.

Lemma cache_points size : 0 <= size <= 40 ->
  exists e, f64_to_int (fadd (fdiv (fmul (f64_of_Z size) (f64_of_Z 20)) (f64_of_Z 40)) (flit 1 2)) = Some e /\ 0 <= e <= 20.
Proof.
  intros Hs. destruct (f64_of_Z_exact size) as [F1 V1]; [lia|]. destruct (f64_of_Z_exact 20) as [F2 V2]; [lia|].
  destruct (f64_of_Z_exact 40) as [F4 V4]; [lia|]. fval (flit 1 2). destruct Hval as [Fh Vh].
  assert (Hr : (0 <= IZR size <= 40)%R) by (split; apply IZR_le; lia).
  destruct (fmul_between (f64_of_Z size) (f64_of_Z 20) 0 800 F1 F2 representable_0) as [Fm Vm];
    [apply (representable_Z 800); lia|rewrite V1, V2; lra|].
  destruct (fdiv_between (fmul (f64_of_Z size) (f64_of_Z 20)) (f64_of_Z 40) 0 20 Fm F4 representable_0) as [Fd Vd];
    [apply (representable_Z 20); lia|rewrite V4; lra|rewrite V4; lra|].
  destruct (fadd_between _ (flit 1 2) 0 (41 / 2) Fd Fh representable_0) as [Fa Va].
  - exists 41, (-1). repeat split; [lia..|]. unfold bpow. simpl. lra.
  - rewrite Vh. lra.
  - assert (Hf : f_num (fadd (fdiv (fmul (f64_of_Z size) (f64_of_Z 20)) (f64_of_Z 40)) (flit 1 2))
      / f_den (fadd (fdiv (fmul (f64_of_Z size) (f64_of_Z 20)) (f64_of_Z 40)) (flit 1 2)) <= 20).
    { set (x := fadd _ _) in *. rewrite (f_num_den x Fa) in Va. pose proof (f_den_pos x) as Hd.
      assert (0 < IZR (f_den x))%R by (apply IZR_lt; lia).
      assert (f_num x < 21 * f_den x).
      { apply lt_IZR. rewrite mult_IZR. replace (IZR (f_num x)) with (IZR (f_num x) / IZR (f_den x) * IZR (f_den x))%R
          by (field; lra). nra. }
      assert (f_num x / f_den x < 21) by (apply Z.div_lt_upper_bound; lia). lia. }
    destruct (f64_to_int_bounds _ 0 21 Fa) as (e & He & Hb); [lia|lia|lra|].
    exists e. split; [exact He|]. revert He. unfold f64_to_int. rewrite Fa. case_bool; [|done].
    intros [= <-]. split; [lia|]. set (x := fadd _ _) in *.
    assert (0 <= f_num x).
    { rewrite (f_num_den x Fa) in Va. pose proof (f_den_pos x). assert (0 < IZR (f_den x))%R by (apply IZR_lt; lia).
      apply le_IZR. replace (IZR (f_num x)) with (IZR (f_num x) / IZR (f_den x) * IZR (f_den x))%R by (field; lra). nra. }
    rewrite Z.quot_div_nonneg by (pose proof (f_den_pos x); lia). exact Hf.
Qed.

Lemma cache_efficiency_bounds `{FloatToInt} s : score_input_ok s -> 0 <= cache_efficiency s <= 20.
Proof.
  intros (Hc & _ & _ & _ & _ & _ & Fp & Vp). unfold cache_efficiency. case_bool; [lia|].
  set (size := if 40 <? CacheSize s then 40 else CacheSize s).
  assert (Hs : 0 <= size <= 40) by (unfold size; case_bool; zbool; lia).
  destruct (cache_points size Hs) as (e & Ee & He). rewrite (to_int_in _ _ Ee). case_bool; [|exact He].
  destruct (f64_of_Z_exact 100) as [F1 V1]; [lia|]. destruct (f64_of_Z_exact 4) as [F4 V4]; [lia|].
  destruct (fdiv_between (SavingsPercent (Costs s)) (f64_of_Z 100) 0 2 Fp F1 representable_0) as [Fd Vd];
    [apply (representable_Z 2); lia|rewrite V1; lra|rewrite V1; lra|].
  destruct (fmul_between _ (f64_of_Z 4) 0 8 Fd F4 representable_0) as [Fm Vm];
    [apply (representable_Z 8); lia|rewrite V4; lra|].
  destruct (f64_to_int_bounds _ 0 8 Fm) as (b & Eb & Hb); [lia|lia|exact Vm|]. rewrite (to_int_in _ _ Eb).
  rewrite wrap64_id by (unfold int64_min, int64_max; lia). case_bool; zbool; lia.
Qed.

Lemma availability_bounds `{FloatToInt} s : score_input_ok s -> 0 <= availability s <= 20.
Proof.
  intros Hok. pose proof (total_requests_sum s Hok) as Ht. destruct Hok as (_ & H1 & H2 & H3 & H4 & H5 & _).
  unfold availability. case_bool; zbool; [lia|].
  rewrite wrap64_id by (unfold int64_min, int64_max; lia).
  destruct (f64_of_Z_exact (total_requests s - Denied (Counts s))) as [Fs Vs]; [lia|].
  destruct (f64_of_Z_exact (total_requests s)) as [Ft Vt]; [lia|].
  destruct (f64_of_Z_exact 20) as [F2 V2]; [lia|].
  assert (Hr : (0 <= IZR (total_requests s - Denied (Counts s)) <= IZR (total_requests s))%R)
    by (split; apply IZR_le; lia).
  assert (Hp : (1 <= IZR (total_requests s))%R) by (apply IZR_le; lia).
  destruct (fdiv_between (f64_of_Z (total_requests s - Denied (Counts s))) (f64_of_Z (total_requests s)) 0 1
    Fs Ft representable_0 representable_1) as [Fd Vd].
  - rewrite Vt. lra.
  - rewrite Vs, Vt. split; [apply Rmult_le_pos; [lra|]; apply Rlt_le, Rinv_0_lt_compat; lra|].
    apply Rmult_le_reg_r with (IZR (total_requests s)); [lra|]. unfold Rdiv. rewrite Rmult_assoc, Rinv_l by lra. lra.
  - destruct (fmul_between _ (f64_of_Z 20) 0 20 Fd F2 representable_0) as [Fm Vm];
      [apply (representable_Z 20); lia|rewrite V2; lra|].
    destruct (f64_to_int_bounds _ 0 20 Fm) as (x & Ex & Hx); [lia|lia|exact Vm|]. now rewrite (to_int_in _ _ Ex).
Qed.

Lemma no_requests `{FloatToInt} s : total_requests s = 0 -> cache_efficiency s = 20 /\ availability s = 20.
Proof. intros H0. unfold cache_efficiency, availability. rewrite H0. auto. Qed.

(** ** Properties of telemetry *)

(** Latency percentiles: after any recorded history a tier's window
    holds its last [latencyWindowSize] samples, [percentile] never panics,
    returns 0 on an empty window and otherwise (in milliseconds) a sample at
    rank [n * p / 100] of that window: at most that many samples are smaller,
    more than that many are not larger; so P50 <= P95 <= P99 as durations, and
    recording one tier leaves the others alone. *)
Theorem latency_percentiles t history l : tracker_ok t l -> len (samples t l) <= latencyWindowSize ->
  let window := lastn (Z.to_nat latencyWindowSize) (samples t l ++ history) in
  exists l', win_run (H := latency_window t) history l = Some l' /\ samples t l' = window /\
    (window = [] -> forall p, 0 <= p <= 100 -> percentile l' t p = Some 0) /\
    (window <> [] -> exists d50 d95 d99,
       P50 l' t = Some (milliseconds d50) /\ P95 l' t = Some (milliseconds d95) /\ P99 l' t = Some (milliseconds d99) /\
       at_rank window (rank (len window) 50) d50 /\ at_rank window (rank (len window) 95) d95 /\
       at_rank window (rank (len window) 99) d99 /\ d50 <= d95 <= d99).
Proof.
  intros Hok Hlen. cbv zeta.
  destruct (win_run_contents (H := latency_window t) history l Hok) as (l' & E & Hok' & _ & Hs);
    [cbn [win_contents win_cap latency_window]; unfold len in Hlen; lia|].
  exists l'. split; [exact E|]. cbn [win_contents latency_window win_cap win_sample] in Hs.
  rewrite map_id in Hs. split; [exact Hs|]. rewrite <- Hs. split.
  - intros Hnil p Hp. now apply (percentile_spec t l' p Hok' Hp).
  - intros Hne. destruct (percentile_spec t l' 50 Hok') as [_ H50]; [lia|]. destruct (H50 Hne) as (d50 & E50 & R50).
    destruct (percentile_spec t l' 95 Hok') as [_ H95]; [lia|]. destruct (H95 Hne) as (d95 & E95 & R95).
    destruct (percentile_spec t l' 99 Hok') as [_ H99]; [lia|]. destruct (H99 Hne) as (d99 & E99 & R99).
    exists d50, d95, d99. repeat (split; [assumption|]).
    assert (Hn : 0 < len (samples t l')) by (destruct (samples t l'); [done|unfold len; cbn; lia]).
    split; (eapply at_rank_mono; [eassumption..|]); unfold rank;
      apply Z.min_le_compat_r, Z.div_le_mono; lia.
Qed.

Lemma latency_percentiles_witness : exists l',
  win_run (H := latency_window TierPrimary) [30 * millisecond; 10 * millisecond; 20 * millisecond] NewLatencyTracker = Some l' /\
  samples TierPrimary l' = [30 * millisecond; 10 * millisecond; 20 * millisecond].
Proof.
  destruct (latency_percentiles TierPrimary [30 * millisecond; 10 * millisecond; 20 * millisecond] NewLatencyTracker)
    as (l' & E & Hs & _); [apply tracker_ok_new|vm_compute; discriminate|].
  exists l'. split; [exact E|]. rewrite Hs. vm_compute. reflexivity.
Defined.

(** Cost accounting: after any sequence of calls (of less than 2^62
    bytes in all) every token counter is the sum of the estimates of its
    tier's texts and every request counter the number of its tier's calls, so
    that the four request counts add up to the number of calls. *)
Theorem costs_account l : text_size l < 2 ^ 62 ->
  counters (record_costs l NewCostTracker) = expected l /\
  let '(p, f, c, d) := TierCounts (record_costs l NewCostTracker) in p + f + c + d = len l.
Proof.
  intros Hl. assert (Hc : counters (record_costs l NewCostTracker) = expected l).
  { rewrite record_costs_counters; [reflexivity|]. unfold counters. rewrite !Forall_cons. cbn.
    repeat (split; [lia|]). constructor. }
  split; [exact Hc|]. unfold TierCounts, counters, expected in *. injection Hc as _ _ _ _ _ _ -> -> -> ->.
  clear. induction l as [|[[t i] o] l IH]; [done|]. rewrite !calls_of_cons, len_cons. cbn [fst snd].
  destruct t; repeat (case_decide; [first [discriminate|idtac]|first [contradiction|congruence|idtac]]);
    rewrite ?len_cons; lia.
Qed.

Lemma costs_account_witness :
  let l := [(TierPrimary, "hello world", "hi"); (TierCache, "hello world", "hi"); (TierDegraded, "x", "")]%string in
  counters (record_costs l NewCostTracker) = expected l /\ text_size l < 2 ^ 62.
Proof.
  intros l. assert (H : text_size l < 2 ^ 62) by (vm_compute; reflexivity).
  split; [exact (proj1 (costs_account l H))|exact H].
Defined.

Lemma ComputeScore_ok `{FloatToInt} s : score_input_ok s ->
  let r := ComputeScore s in
  let b := Breakdown r in
  0 <= TransportHealth b <= 20 /\ 0 <= SemanticQuality b <= 20 /\ 0 <= CacheEfficiency b <= 20 /\
  0 <= Availability b <= 20 /\ 0 <= LatencyScore b <= 20 /\
  Total r = TransportHealth b + SemanticQuality b + CacheEfficiency b + Availability b + LatencyScore b.
Proof.
  intros Hok. cbn.
  pose proof (cache_efficiency_bounds s Hok). pose proof (availability_bounds s Hok).
  pose proof (transport_health_bounds s). pose proof (semantic_quality_bounds s).
  pose proof (latency_score_bounds (PrimaryP95MS (Latency s))).
  rewrite wrap64_id by (unfold int64_min, int64_max; lia). repeat split; lia.
Qed.

(** C12.  The Resilience Score: on sensible inputs no conversion leaves the
    integers (whatever the processor does there), each of the five components
    is between 0 and 20, the total is their sum and between 0 and 100, and the
    grade is the one of the total's band: A from 90, B from 75, C from 60, D
    from 40, F below; before the first request the cache and the availability
    score in full. *)
Theorem ComputeScore_bounds `{FloatToInt} s : score_input_ok s ->
  let r := ComputeScore s in
  (let b := Breakdown r in
   0 <= TransportHealth b <= 20 /\ 0 <= SemanticQuality b <= 20 /\ 0 <= CacheEfficiency b <= 20 /\
   0 <= Availability b <= 20 /\ 0 <= LatencyScore b <= 20 /\
   Total r = TransportHealth b + SemanticQuality b + CacheEfficiency b + Availability b + LatencyScore b) /\
  0 <= Total r <= 100 /\
  (Grade r = "A"%string <-> 90 <= Total r) /\ (Grade r = "B"%string <-> 75 <= Total r < 90) /\
  (Grade r = "C"%string <-> 60 <= Total r < 75) /\ (Grade r = "D"%string <-> 40 <= Total r < 60) /\
  (Grade r = "F"%string <-> Total r < 40) /\
  (total_requests s = 0 -> CacheEfficiency (Breakdown r) = 20 /\ Availability (Breakdown r) = 20).
Proof.
  intros Hok r. pose proof (ComputeScore_ok s Hok) as (H1 & H2 & H3 & H4 & H5 & Ht). fold r in H1, H2, H3, H4, H5, Ht.
  split; [repeat split; lia|]. split; [lia|].
  assert (Hg : Grade r = scoreGrade (Total r)) by reflexivity. rewrite Hg. clear Hg. split; [|split; [|split; [|split; [|split; [|exact (no_requests s)]]]]].
  all: unfold scoreGrade; repeat case_bool; zbool; split; intros; (discriminate || reflexivity || lia).
Qed.

Definition idle_input : ScoreInput :=
  let snap := mkSnapshot SBHealthy f1 "" (no_calibration 20) in
  mkScoreInput "closed" "closed" false false snap snap false 0 (mkCounts 0 0 0 0)
    (Snapshot_costs NewCostTracker) (mkLatencySnapshot 0 0 0 []).

Lemma ComputeScore_bounds_witness : score_input_ok idle_input /\
  0 <= Total (ComputeScore idle_input) <= 100.
Proof.
  assert (Hok : score_input_ok idle_input).
  { unfold score_input_ok. cbn [idle_input CacheSize Counts Primary Fallback Cache Denied Costs].
    repeat (split; [lia|]). split; [vm_compute; reflexivity|].
    replace (SavingsPercent (Snapshot_costs NewCostTracker)) with f0 by (vm_compute; reflexivity).
    destruct f0_val as [_ ->]. lra. }
  split; [exact Hok|]. destruct (ComputeScore_bounds idle_input Hok) as (_ & Ht & _). exact Ht.
Defined.
