(* ===== verification/Memory.v ===== *)
(** * Memory (memory/sessions.go, traces.go, score_history.go, store.go)

    The session store (conversations with a bounded history and a TTL), the
    trace store (per-request records of the degradation chain) and the rolling
    history of Resilience Scores.  Each store works under its mutex, so its
    methods are functions of the state; [now] is the reading of [time.Now].
    A session is only reached through its store, so the map holds its value. *)
From S2P Require Import Prelude RingBuffer Float64 GoStrings Sha256 Telemetry.
From Stdlib Require Import ZArith Lia String SpecFloat.
From stdpp Require Import base tactics list gmap strings.
#[local] Open Scope Z_scope.

(** ** Sessions *)

Definition sessionTTL : Z := 30 * minute.
Definition maxHistory : Z := 20.
Definition sessionCleanup : Z := 5 * minute.

(** The tier of a user message is empty. *)
Record Message := mkMessage { Role : string; Content : string; MsgTier : option Tier; At : Z }.
Record Session := mkSession { ID : string; Messages : list Message; LastUsed : Z }.
Record SessionStore := mkSessionStore { sessions : gmap string Session; done : bool }.

Definition NewSessionStore : SessionStore := mkSessionStore ∅ false.
Definition Stop (s : SessionStore) : SessionStore := mkSessionStore (sessions s) true.

Definition GetOrCreate (now : Z) (id : string) (s : SessionStore) : Session * SessionStore :=
  let sess := match sessions s !! id with
              | Some sess => mkSession (ID sess) (Messages sess) now
              | None => mkSession id [] now
              end in
  (sess, mkSessionStore (<[id := sess]> (sessions s)) (done s)).

Definition Get_session (id : string) (s : SessionStore) : option Session := sessions s !! id.

(** [Messages]: a copy of the history; nil without session. *)
Definition Messages_of (id : string) (s : SessionStore) : list Message :=
  match sessions s !! id with Some sess => Messages sess | None => [] end.

Definition Add (now : Z) (id : string) (msg : Message) (s : SessionStore) : option SessionStore :=
  match sessions s !! id with
  | None => Some s
  | Some sess =>
      let msgs := Messages sess ++ [msg] in
      msgs ← (if maxHistory <? len msgs then slice msgs (len msgs - maxHistory) (len msgs) else Some msgs);
      Some (mkSessionStore (<[id := mkSession (ID sess) msgs now]> (sessions s)) (done s))
  end.

Definition List_sessions (s : SessionStore) : list Session := map snd (map_to_list (sessions s)).
Definition Delete (id : string) (s : SessionStore) : SessionStore :=
  mkSessionStore (delete id (sessions s)) (done s).
Definition Count (s : SessionStore) : Z := Z.of_nat (size (sessions s)).

(** One tick of the cleanup goroutine. *)
Definition cleanup_tick (now : Z) (s : SessionStore) : SessionStore :=
  let cutoff := now - sessionTTL in
  mkSessionStore (filter (fun e => time_before (LastUsed e.2) cutoff = false) (sessions s)) (done s).

(** ** Traces *)

Inductive TraceOutcome :=
| OutcomeSuccess | OutcomeTransportError | OutcomeTransportCBOpen | OutcomeSemanticCBOpen
| OutcomeSemanticFailure | OutcomeKilled | OutcomeCacheHit | OutcomeGracefulDenial.
#[export] Instance TraceOutcome_eq_dec : EqDecision TraceOutcome.
Proof. solve_decision. Defined.

Record TraceStep := mkStep {
  st_Tier : Tier; LatencyMS : Z; TransportCB : string; SemanticCB : string;
  QualityScore : option f64; QualitySignals : list string; st_Outcome : option TraceOutcome;
}.
Record Trace := mkTrace {
  tr_ID : string; tr_Prompt : string; TotalMS : Z; FinalTier : option Tier;
  Steps : list TraceStep; CreatedAt : Z; startAt : Z;
}.

(** "tr_" and the hexadecimal of eight random bytes. *)
Definition generateTraceID (random : list Z) : string := "tr_" +:+ hex random.

Definition newTrace (random : list Z) (now now' : Z) (prompt : string) : Trace :=
  mkTrace (generateTraceID random) prompt 0 None [] now now'.
Definition AddStep (step : TraceStep) (t : Trace) : Trace :=
  mkTrace (tr_ID t) (tr_Prompt t) (TotalMS t) (FinalTier t) (Steps t ++ [step]) (CreatedAt t) (startAt t).
(** The tier may be empty. *)
Definition Finalize (now : Z) (tier : option Tier) (t : Trace) : Trace :=
  mkTrace (tr_ID t) (tr_Prompt t) (milliseconds (time_sub now (startAt t))) tier (Steps t) (CreatedAt t) (startAt t).

Record TraceStore := mkTraceStore { traces : gmap string Trace; trace_ttl : Z; trace_done : bool }.
Definition NewTraceStore : TraceStore := mkTraceStore ∅ (30 * minute) false.
Definition Stop_traces (s : TraceStore) : TraceStore := mkTraceStore (traces s) (trace_ttl s) true.
Definition New_trace (random : list Z) (now now' : Z) (prompt : string) (s : TraceStore) : Trace * TraceStore :=
  let tr := newTrace random now now' prompt in
  (tr, mkTraceStore (<[tr_ID tr := tr]> (traces s)) (trace_ttl s) (trace_done s)).
Definition Get_trace (id : string) (s : TraceStore) : option Trace := traces s !! id.
Definition cleanup_traces (now : Z) (s : TraceStore) : TraceStore :=
  let cutoff := now - trace_ttl s in
  mkTraceStore (filter (fun e => time_before (CreatedAt e.2) cutoff = false) (traces s)) (trace_ttl s) (trace_done s).

(** ** Score history *)

Record ScorePoint := mkPoint { pt_Total : Z; pt_Timestamp : Z }.
Record ScoreHistory := mkHistory {
  points : list ScorePoint; h_idx : Z; h_filled : bool; capacity : Z; lastAt : Z; minGap : Z;
}.

Definition NewScoreHistory (cap : Z) : option ScoreHistory :=
  p ← make_slice (mkPoint 0 0) cap;
  Some (mkHistory p 0 false cap time_zero second).

(** For tests: as it is, and without the throttle. *)
Definition NewTestScoreHistory (cap : Z) : option ScoreHistory := NewScoreHistory cap.
Definition NewTestScoreHistoryFast (cap : Z) : option ScoreHistory :=
  h ← NewScoreHistory cap; Some (mkHistory (points h) (h_idx h) (h_filled h) (capacity h) (lastAt h) 0).

Definition unix_milli (t : Z) : Z := t / millisecond.

Definition Record_score (now score : Z) (h : ScoreHistory) : option ScoreHistory :=
  if negb (time_is_zero (lastAt h)) && (time_sub now (lastAt h) <? minGap h) then Some h
  else
    '(p, i, f) ← ring_push (points h) (h_idx h) (h_filled h) (capacity h) (mkPoint score (unix_milli now));
    Some (mkHistory p i f (capacity h) now (minGap h)).

(** [for i := 0; i < n; i++ { out = append(out, points[at(i)]) }]. *)
Fixpoint read_points (p : list ScorePoint) (at_ : Z -> option Z) (n : nat) (i : Z) : option (list ScorePoint) :=
  match n with
  | O => Some []
  | S n => pos ← at_ i; x ← slice_get p pos; rest ← read_points p at_ n (i + 1); Some (x :: rest)
  end.

Definition Snapshot_history (h : ScoreHistory) : option (list ScorePoint) :=
  let n := if h_filled h then capacity h else h_idx h in
  if n =? 0 then Some []
  else if h_filled h
  then read_points (points h) (fun i => go_rem (wrap64 (h_idx h + i)) (capacity h)) (Z.to_nat (capacity h)) 0
  else read_points (points h) (fun i => Some i) (Z.to_nat (h_idx h)) 0.

(** ** The bundle *)

Record Store := mkStore { Sessions : SessionStore; Traces : TraceStore; History : ScoreHistory }.
Definition NewStore (scoreHistorySize : Z) : option Store :=
  h ← NewScoreHistory scoreHistorySize; Some (mkStore NewSessionStore NewTraceStore h).
Definition Stop_store (s : Store) : Store := mkStore (Stop (Sessions s)) (Stop_traces (Traces s)) (History s).

(** ** The conversations a session store promises

    The unbounded history of each live session and its last use. *)

Inductive SessionOp :=
| OpGetOrCreate (now : Z) (id : string)
| OpAdd (now : Z) (id : string) (msg : Message)
| OpDelete (id : string)
| OpCleanup (now : Z).

Definition session_op (o : SessionOp) (s : SessionStore) : option SessionStore :=
  match o with
  | OpGetOrCreate now id => Some (GetOrCreate now id s).2
  | OpAdd now id msg => Add now id msg s
  | OpDelete id => Some (Delete id s)
  | OpCleanup now => Some (cleanup_tick now s)
  end.
Fixpoint session_ops (l : list SessionOp) (s : SessionStore) : option SessionStore :=
  match l with [] => Some s | o :: l => s ← session_op o s; session_ops l s end.

Definition Conversations : Type := string -> option (list Message * Z).
Definition spec_op (o : SessionOp) (c : Conversations) : Conversations := fun id =>
  match o with
  | OpGetOrCreate now id' =>
      if String.eqb id id' then Some (match c id with Some (h, _) => h | None => [] end, now) else c id
  | OpAdd now id' msg =>
      if String.eqb id id' then match c id with Some (h, _) => Some (h ++ [msg], now) | None => None end else c id
  | OpDelete id' => if String.eqb id id' then None else c id
  | OpCleanup now =>
      match c id with
      | Some (h, used) => if now - sessionTTL <=? used then Some (h, used) else None
      | None => None
      end
  end.

(** The store holds the last [maxHistory] messages of every conversation. *)
Definition sessions_refine (c : Conversations) (s : SessionStore) : Prop :=
  forall id, sessions s !! id =
    option_map (fun h => mkSession id (lastn (Z.to_nat maxHistory) h.1) h.2) (c id).

Lemma trim_last (h : list Message) msg :
  let msgs := lastn (Z.to_nat maxHistory) h ++ [msg] in
  (if maxHistory <? len msgs then slice msgs (len msgs - maxHistory) (len msgs) else Some msgs)
    = Some (lastn (Z.to_nat maxHistory) (h ++ [msg])).
Proof.
  cbv zeta. rewrite <- (lastn_lastn_app (Z.to_nat maxHistory) h [msg]).
  set (msgs := lastn _ h ++ [msg]). case_bool; zbool.
  - unfold slice. unfold maxHistory in *. rewrite !(proj2 (Z.leb_le _ _)) by lia. cbn [andb]. f_equal.
    unfold lastn, len in *. rewrite take_ge by (rewrite length_drop; lia). f_equal. lia.
  - rewrite lastn_all; [done|]. unfold len, maxHistory in *. lia.
Qed.

Lemma session_op_refines o c s : sessions_refine c s ->
  exists s', session_op o s = Some s' /\ sessions_refine (spec_op o c) s'.
Proof.
  intros Hs. destruct o as [now id'|now id' msg|id'|now]; cbn [session_op].
  - eexists; split; [reflexivity|]. intros id. unfold GetOrCreate. cbn [snd sessions spec_op].
    destruct (String.eqb_spec id id') as [->|Hne].
    + rewrite lookup_insert_eq, Hs. now destruct (c id') as [[h u]|].
    + rewrite lookup_insert_ne by auto. apply Hs.
  - unfold Add. pose proof (Hs id') as Hid. destruct (c id') as [[h u]|] eqn:Ec; cbn [option_map fst snd] in Hid; rewrite Hid.
    + cbv zeta. cbn [Messages ID]. rewrite trim_last. cbn [mbind option_bind]. eexists; split; [reflexivity|].
      intros id. cbn [sessions spec_op]. destruct (String.eqb_spec id id') as [->|Hne].
      * now rewrite lookup_insert_eq, Ec.
      * rewrite lookup_insert_ne by auto. apply Hs.
    + exists s. split; [done|]. intros id. cbn [spec_op].
      destruct (String.eqb_spec id id') as [->|]; [now rewrite Ec|apply Hs].
  - eexists; split; [reflexivity|]. intros id. cbn [Delete sessions spec_op].
    destruct (String.eqb_spec id id') as [->|Hne]; [apply lookup_delete_eq|].
    rewrite lookup_delete_ne by auto. apply Hs.
  - eexists; split; [reflexivity|]. intros id. cbn [cleanup_tick sessions spec_op].
    rewrite map_lookup_filter, Hs. destruct (c id) as [[h u]|]; [|done]. cbn.
    unfold time_before. destruct (Z.ltb_spec u (now - sessionTTL)).
    + rewrite (proj2 (Z.leb_gt _ _)) by lia. cbn. now case_guard.
    + rewrite (proj2 (Z.leb_le _ _)) by lia. cbn. now case_guard.
Qed.

(** What [Add] does to a session. *)
Lemma Add_session now id msg s sess : sessions s !! id = Some sess ->
  Add now id msg s = Some (mkSessionStore (<[id := mkSession (ID sess) (lastn (Z.to_nat maxHistory) (Messages sess ++ [msg])) now]> (sessions s)) (done s)).
Proof.
  intros E. unfold Add. rewrite E. set (msgs := Messages sess ++ [msg]).
  assert (Hm : (if maxHistory <? len msgs then slice msgs (len msgs - maxHistory) (len msgs) else Some msgs) = Some (lastn (Z.to_nat maxHistory) msgs)).
  { case_bool; zbool.
    - unfold slice. unfold maxHistory in *. rewrite !(proj2 (Z.leb_le _ _)) by lia. cbn [andb]. f_equal.
      unfold lastn, len in *. rewrite take_ge by (rewrite length_drop; lia). f_equal. lia.
    - rewrite lastn_all; [done|]. unfold len, maxHistory in *. lia. }
  now rewrite Hm.
Qed.

(** ** The score history *)

Definition history_ok (h : ScoreHistory) : Prop := ring_ok (points h) (h_idx h) (capacity h) /\ capacity h <= 2 ^ 32.
Definition history (h : ScoreHistory) : list ScorePoint := ring_contents (points h) (h_idx h) (h_filled h).

Lemma read_points_spec p at_ l : forall i,
  (forall j x, l !! j = Some x -> exists pos, at_ (i + Z.of_nat j) = Some pos /\ slice_get p pos = Some x) ->
  read_points p at_ (length l) i = Some l.
Proof.
  induction l as [|x l IH]; intros i H; cbn [length read_points]; [done|].
  destruct (H 0%nat x eq_refl) as (pos & Ha & Hg). rewrite Z.add_0_r in Ha. rewrite Ha. cbn [mbind option_bind].
  rewrite Hg. cbn [mbind option_bind]. rewrite IH; [done|].
  intros j y Hj. destruct (H (S j) y Hj) as (pos' & Ha' & Hg'). exists pos'.
  replace (i + 1 + Z.of_nat j) with (i + Z.of_nat (S j)) by lia. auto.
Qed.

(** The loop with wrap-around reads the window, oldest first. *)
Lemma Snapshot_history_spec h : history_ok h -> Snapshot_history h = Some (history h).
Proof.
  intros [(Hl & Hi & Hm) Hc]. unfold Snapshot_history, history, ring_contents. unfold len in Hl.
  assert (Hn : (Z.to_nat (h_idx h) < length (points h))%nat) by lia.
  destruct (h_filled h).
  - rewrite (proj2 (Z.eqb_neq _ 0)) by lia.
    set (l := drop (Z.to_nat (h_idx h)) (points h) ++ take (Z.to_nat (h_idx h)) (points h)).
    assert (Hlen : length l = Z.to_nat (capacity h))
      by (unfold l; rewrite length_app, length_drop, length_take; lia).
    rewrite <- Hlen. apply read_points_spec. intros j x Hj. rewrite Z.add_0_l.
    assert (Hjl : (j < length l)%nat) by (eapply lookup_lt_Some; exact Hj).
    unfold go_rem. rewrite (proj2 (Z.eqb_neq _ 0)) by lia.
    rewrite wrap64_id by (unfold int64_min, int64_max; lia).
    eexists; split; [reflexivity|]. rewrite Z.rem_mod_nonneg by lia. unfold l in Hj.
    destruct (Z.lt_ge_cases (h_idx h + Z.of_nat j) (capacity h)) as [Hlt|Hge].
    + rewrite Z.mod_small by lia. rewrite lookup_app_l in Hj by (rewrite length_drop; lia).
      rewrite lookup_drop in Hj. unfold slice_get. rewrite (proj2 (Z.leb_le _ _)) by lia.
      rewrite <- Hj. f_equal. lia.
    + replace ((h_idx h + Z.of_nat j) mod capacity h) with (h_idx h + Z.of_nat j - capacity h)
        by (apply Z.mod_unique with 1; lia).
      rewrite lookup_app_r in Hj by (rewrite length_drop; lia). rewrite length_drop in Hj.
      rewrite lookup_take_lt in Hj by lia. unfold slice_get. rewrite (proj2 (Z.leb_le _ _)) by lia.
      rewrite <- Hj. f_equal. lia.
  - destruct (Z.eqb_spec (h_idx h) 0) as [->|]; [now rewrite take_0|].
    set (l := take _ _). assert (Hlen : length l = Z.to_nat (h_idx h)) by (unfold l; rewrite length_take; lia).
    rewrite <- Hlen. apply read_points_spec. intros j x Hj.
    assert (Hjl : (j < length l)%nat) by (eapply lookup_lt_Some; exact Hj).
    eexists; split; [reflexivity|]. rewrite Z.add_0_l, slice_get_nat.
    unfold l in Hj. now rewrite lookup_take_lt in Hj by lia.
Qed.

Lemma Record_score_total now score h : history_ok h -> exists h', Record_score now score h = Some h' /\ history_ok h'.
Proof.
  intros Hok. unfold Record_score. case_bool; [eauto|]. destruct Hok as [Hr Hc].
  destruct (ring_push_total _ _ (h_filled h) _ (mkPoint score (unix_milli now)) Hr) as (i & E & _ & Hr').
  rewrite E. cbn [mbind option_bind]. eexists. split; [reflexivity|]. split; assumption.
Qed.

(** The samples the throttle lets through: at least [gap] after the last one. *)
Fixpoint accepted (gap : Z) (last : option Z) (l : list (Z * Z)) : list (Z * Z) :=
  match l with
  | [] => []
  | (now, score) :: l =>
      if match last with Some t => time_sub now t <? gap | None => false end then accepted gap last l
      else (now, score) :: accepted gap (Some now) l
  end.
Definition point (s : Z * Z) : ScorePoint := mkPoint s.2 (unix_milli s.1).

Fixpoint record_scores (l : list (Z * Z)) (h : ScoreHistory) : option ScoreHistory :=
  match l with
  | [] => Some h
  | (now, score) :: l => h ← Record_score now score h; record_scores l h
  end.

Definition last_accepted (h : ScoreHistory) : option Z :=
  if time_is_zero (lastAt h) then None else Some (lastAt h).

Lemma record_scores_spec l : forall h, history_ok h -> Forall (fun s => time_zero < s.1) l ->
  exists h', record_scores l h = Some h' /\ history_ok h' /\ capacity h' = capacity h /\
    history h' = lastn (Z.to_nat (capacity h)) (history h ++ map point (accepted (minGap h) (last_accepted h) l)).
Proof.
  induction l as [|[now score] l IH]; intros h Hok Hl.
  - exists h. cbn [accepted map]. rewrite app_nil_r, lastn_all; [done|].
    unfold history. pose proof (ring_contents_length _ _ (h_filled h) _ (proj1 Hok)) as Hlen.
    destruct Hok as [(_ & Hi & _) _]. unfold ring_count, len in Hlen. destruct (h_filled h); lia.
  - apply Forall_cons in Hl as [Ht Hl]. cbn [fst] in Ht. cbn [record_scores accepted]. unfold Record_score.
    assert (Hcond : negb (time_is_zero (lastAt h)) && (time_sub now (lastAt h) <? minGap h)
      = match last_accepted h with Some t => time_sub now t <? minGap h | None => false end)
      by (unfold last_accepted; now destruct (time_is_zero (lastAt h))).
    rewrite Hcond. case_bool; [cbn [mbind option_bind]; now apply IH|].
    destruct Hok as [Hr Hc].
    destruct (ring_push_total _ _ (h_filled h) _ (mkPoint score (unix_milli now)) Hr) as (i & E & _ & Hr').
    pose proof (ring_push_contents _ _ _ _ _ _ _ _ Hr E) as Hct.
    rewrite E. cbn [mbind option_bind].
    set (h1 := mkHistory _ i _ _ now _).
    destruct (IH h1) as (h' & -> & Hok' & Hcap & Hh'); [split; assumption|exact Hl|].
    exists h'. split; [done|]. split; [exact Hok'|]. split; [exact Hcap|].
    assert (Hla : last_accepted h1 = Some now).
    { unfold last_accepted, time_is_zero. cbn [h1 lastAt]. now rewrite (proj2 (Z.eqb_neq _ _)) by lia. }
    rewrite Hh', Hla. cbn [h1 capacity minGap]. change (history h1) with
      (ring_contents (<[Z.to_nat (h_idx h) := mkPoint score (unix_milli now)]> (points h)) i
         (if i =? 0 then true else h_filled h)).
    rewrite Hct, lastn_lastn_app, <- app_assoc. reflexivity.
Qed.

(** ** Properties of memory *)

(** C13.  Sessions: every sequence of creations, messages, deletions and
    cleanups runs without a panic and leaves exactly the promised
    conversations: each live session holds the last [maxHistory] messages
    added to it since it was created, and a session is dropped exactly by a
    deletion or by a cleanup that finds it unused for more than [sessionTTL]. *)
Theorem session_store_refines l :
  exists s, session_ops l NewSessionStore = Some s /\
    sessions_refine (foldl (fun c o => spec_op o c) (fun _ => None) l) s.
Proof.
  assert (H0 : sessions_refine (fun _ => None) NewSessionStore)
    by (intros id; cbn; now rewrite lookup_empty).
  revert H0. generalize NewSessionStore, (fun _ : string => @None (list Message * Z)).
  induction l as [|o l IH]; intros s c Hs; cbn [session_ops foldl]; [eauto|].
  destruct (session_op_refines o c s Hs) as (s1 & -> & Hs1). cbn [mbind option_bind]. now apply IH.
Qed.

(** Score history: recording any series of scores keeps, in
    chronological order, the last [capacity] of those the one-per-second
    throttle accepts, and [Snapshot] returns exactly that list. *)
Theorem score_history_snapshot cap l : 0 < cap <= 2 ^ 32 -> Forall (fun s => time_zero < s.1) l ->
  exists h0 h, NewScoreHistory cap = Some h0 /\ record_scores l h0 = Some h /\
    Snapshot_history h = Some (lastn (Z.to_nat cap) (map point (accepted second None l))).
Proof.
  intros Hc Hl. unfold NewScoreHistory, make_slice. rewrite (proj2 (Z.leb_le 0 cap)) by lia.
  cbn [mbind option_bind]. set (h0 := mkHistory _ 0 false cap time_zero second).
  assert (Hok : history_ok h0).
  { split; [|cbn; lia]. split; [cbn; apply len_replicate; lia|]. cbn. unfold int64_max. lia. }
  destruct (record_scores_spec l h0 Hok Hl) as (h & E & Hok' & _ & Hh).
  exists h0, h. split; [done|]. split; [exact E|]. rewrite Snapshot_history_spec, Hh by exact Hok'. reflexivity.
Qed.

Lemma score_history_snapshot_witness :
  exists h0 h, NewScoreHistory 2 = Some h0 /\
    record_scores [(1 * second, 90); (1 * second + 5, 80); (2 * second, 70); (4 * second, 60)] h0 = Some h /\
    Snapshot_history h = Some [mkPoint 70 2000; mkPoint 60 4000].
Proof.
  destruct (score_history_snapshot 2 [(1 * second, 90); (1 * second + 5, 80); (2 * second, 70); (4 * second, 60)])
    as (h0 & h & E0 & E & Hs).
  - lia.
  - repeat (constructor; [reflexivity|]). constructor.
  - exists h0, h. split; [exact E0|]. split; [exact E|]. rewrite Hs. vm_compute. reflexivity.
Defined.
