(* ===== verification/Orchestrator.v ===== *)
(** * The degradation chain (orchestrator/orchestrator.go, breakers.go)

    [Degrade] tries the primary model (transport breaker, hedge and retry
    around it, then the quality evaluation and the semantic breaker), the
    fallback model, the semantic cache, and finally answers with a graceful
    denial; every attempt appends one step to the request's trace.

    The transport breaker, the hedger and the retrier are the flowguard
    library: parameters ([Guard]) with the documented law that they report
    success only after a call of the function they guard succeeded.  The world
    [W] holds their state, the providers' and the clock.  Logging, tracing
    spans and Prometheus metrics are not modelled: they read the state and
    never write it. *)
From S2P Require Import Prelude RingBuffer Float64 GoStrings Evaluator Breaker Provider Chaos Telemetry Memory.
From S2P Require SemanticCache.
From Stdlib Require Import ZArith Lia Reals Lra String SpecFloat.
From stdpp Require Import base tactics list gmap strings.
#[local] Open Scope Z_scope.

(** [isRetriable]. *)
Definition isRetriable (err : option GoError) : bool :=
  match err with
  | None => false
  | Some e =>
      if err_refused e then false
      else match err_dns e with Some true => false | _ => true end
  end.

(** ** The guards around a call

    [guard_do fn] runs [fn] zero, one or more times and returns [None] (nil)
    or an error; [R] is the caller's state that the closure [fn] captures. *)
Record Guard (W : Type) := mkGuard {
  guard_do : forall R, (W * R -> option GoError * (W * R)) -> W * R -> option GoError * (W * R);
}.
Arguments mkGuard {W}.
Arguments guard_do {W} _ {R}.

(** What the orchestrator relies on: a property of the captured state that
    [fn] keeps is kept, and nil is returned only after some call returned nil
    (with [Q] what such a call establishes and later calls keep). *)
Class GuardLaws {W} (g : Guard W) : Prop := {
  guard_keeps : forall R (P : R -> Prop) fn s,
    (forall s, P s.2 -> P (fn s).2.2) -> P s.2 -> P (guard_do g fn s).2.2;
  guard_success : forall R (Q : R -> Prop) fn s,
    (forall s, (fn s).1 = None -> Q (fn s).2.2) -> (forall s, Q s.2 -> Q (fn s).2.2) ->
    (guard_do g fn s).1 = None -> Q (guard_do g fn s).2.2;
}.

(** The four breakers, one transport and one semantic per model. *)
Record BreakerSet := mkBreakers { PrimarySemantic : SemanticBreaker; FallbackSemantic : SemanticBreaker }.

Record Result := mkTierResult { res_Text : string; res_Tier : Tier; res_Cached : bool }.

Record TelStore := mkTel { tel_Costs : CostTracker; tel_Latency : LatencyTracker }.

(** The state [Degrade] works on: the world, the components, the trace and
    the state-change callbacks the breakers have started. *)
Record OState (W : Type) := mkOState {
  world : W;
  breakers : BreakerSet;
  eval : QualityEvaluator;
  sc : SemanticCache.SemanticCache;
  tel : TelStore;
  chaos : Chaos;
  trace : Trace;
  started : list StateChange;
}.
Arguments mkOState {W}.
Arguments world {W}.
Arguments breakers {W}.
Arguments eval {W}.
Arguments sc {W}.
Arguments tel {W}.
Arguments chaos {W}.
Arguments trace {W}.
Arguments started {W}.

Section Updates.
Context {W : Type}.
Implicit Types (s : OState W).
Definition with_world (w : W) s : OState W :=
  mkOState w (breakers s) (eval s) (sc s) (tel s) (chaos s) (trace s) (started s).
Definition with_breakers b s : OState W :=
  mkOState (world s) b (eval s) (sc s) (tel s) (chaos s) (trace s) (started s).
Definition with_eval e s : OState W :=
  mkOState (world s) (breakers s) e (sc s) (tel s) (chaos s) (trace s) (started s).
Definition with_sc c s : OState W :=
  mkOState (world s) (breakers s) (eval s) c (tel s) (chaos s) (trace s) (started s).
Definition with_tel t s : OState W :=
  mkOState (world s) (breakers s) (eval s) (sc s) t (chaos s) (trace s) (started s).
Definition with_trace t s : OState W :=
  mkOState (world s) (breakers s) (eval s) (sc s) (tel s) (chaos s) t (started s).
Definition with_started l s : OState W :=
  mkOState (world s) (breakers s) (eval s) (sc s) (tel s) (chaos s) (trace s) l.
End Updates.

(** The orchestrator's fixed dependencies. *)
Record Orchestrator (W : Type) := mkOrch {
  primary : LLMProvider W;
  fallback : LLMProvider W;
  primaryModel : string;
  fallbackModel : string;
  PrimaryTransport : Guard W;
  FallbackTransport : Guard W;
  hedger : Guard W;
  retrier : (option GoError -> bool) -> Z -> Z -> Guard W;  (** retryIf, max, backoff *)
  transport_state : W -> bool -> string;  (** the breaker's state: primary if [true] *)
  clock_read : W -> Z * W;                (** [time.Now] *)
  retryMax : Z;
  retryBackoff : Z;
}.
Arguments mkOrch {W}.
Arguments primary {W}.
Arguments fallback {W}.
Arguments primaryModel {W}.
Arguments fallbackModel {W}.
Arguments PrimaryTransport {W}.
Arguments FallbackTransport {W}.
Arguments hedger {W}.
Arguments retrier {W}.
Arguments transport_state {W}.
Arguments clock_read {W}.
Arguments retryMax {W}.
Arguments retryBackoff {W}.

(** [New]'s defaults: 2 retries, 300ms. *)
Definition default_retryMax (n : Z) : Z := if n <=? 0 then 2 else n.
Definition default_retryBackoff (d : Z) : Z := if d <=? 0 then 300 * millisecond else d.

(** [latestStep]: the last step recorded for a tier. *)
Definition latestStep (tr : Trace) (tier : Tier) : option TraceStep :=
  List.find (fun st => bool_decide (st_Tier st = tier)) (rev (Steps tr)).

Definition sb_string (s : SBState) : string :=
  match s with SBHealthy => "healthy" | SBDegraded => "degraded" | SBFailing => "failing" end.

Section Chain.
Context {W : Type} `{Unicode} (o : Orchestrator W).
Notation P := (Prog (OState W)).

Definition now : P Z := fun s => let '(t, w) := clock_read o (world s) in Some (t, with_world w s).

(** [generate]. *)
Definition generate (model prompt : string) (w : W) : (GoError + string) * W :=
  match Generate (primary o) (mkRequest model prompt "" 0 []) w with
  | (inl err, w) => (inl err, w)
  | (inr r, w) => (inr (Text r), w)
  end.

(** The closures of [tryPrimary]: [result] and [hedgeFireCount] are the
    captured variables, the pair of the guards' state. *)
Definition primary_call (prompt : string) (s : W * (string * Z)) : option GoError * (W * (string * Z)) :=
  let '(w, (result, fires)) := s in
  match generate (primaryModel o) prompt w with
  | (inl err, w) => (Some err, (w, (result, fires)))
  | (inr text, w) => (None, (w, (text, fires)))
  end.
Definition hedged_call (prompt : string) (s : W * (string * Z)) : option GoError * (W * (string * Z)) :=
  let '(w, (result, fires)) := s in
  guard_do (retrier o isRetriable (retryMax o) (retryBackoff o)) (primary_call prompt) (w, (result, wrap64 (fires + 1))).
Definition transport_primary (prompt : string) (w : W) : option GoError * (W * (string * Z)) :=
  guard_do (PrimaryTransport o) (fun s => guard_do (hedger o) (hedged_call prompt) s) (w, (EmptyString, 0)).

Definition fallback_call (prompt : string) (s : W * string) : option GoError * (W * string) :=
  let '(w, result) := s in
  match Generate (fallback o) (mkRequest (fallbackModel o) prompt "" 0 []) w with
  | (inl err, w) => (Some err, (w, result))
  | (inr r, w) => (None, (w, Text r))
  end.
Definition transport_fallback (prompt : string) (w : W) : option GoError * (W * string) :=
  guard_do (FallbackTransport o) (fallback_call prompt) (w, EmptyString).

(** The semantic breaker of a tier. *)
Definition semantic (prim : bool) (b : BreakerSet) : SemanticBreaker :=
  if prim then PrimarySemantic b else FallbackSemantic b.
Definition set_semantic (prim : bool) (sb : SemanticBreaker) (b : BreakerSet) : BreakerSet :=
  if prim then mkBreakers sb (FallbackSemantic b) else mkBreakers (PrimarySemantic b) sb.

Definition should_block (prim : bool) : P bool :=
  t ← now;
  s ← get_st;
  let '(b, sb) := ShouldBlock t (semantic prim (breakers s)) in
  _ ← update_st (with_breakers (set_semantic prim sb (breakers s)));
  mret b.

Definition evaluate (prompt response : string) : P QualityResult := fun s =>
  '(r, e) ← Evaluate (eval s) prompt response; Some (r, with_eval e s).

Definition record_at (prim : bool) (qr : QualityResult) (t : Z) : P unit := fun s =>
  '(sb, ev) ← Record_ t (res_Score qr) qr (semantic prim (breakers s));
  Some (tt, with_started (started s ++ match ev with Some c => [c] | None => [] end)
              (with_breakers (set_semantic prim sb (breakers s)) s)).
Definition record_quality (prim : bool) (qr : QualityResult) : P unit := now ≫= record_at prim qr.

Definition read_transport (prim : bool) : P string := fun s => Some (transport_state o (world s) prim, s).
Definition read_semantic (prim : bool) : P string := fun s => Some (sb_string (state (semantic prim (breakers s))), s).
Definition call_transport {R} (f : W -> option GoError * (W * R)) : P (option GoError * R) := fun s =>
  let '(err, (w, r)) := f (world s) in Some ((err, r), with_world w s).

(** The part [tryPrimary] and [tryFallback] share once the transport
    succeeded: evaluate, record, decide.  Returns the outcome fields. *)
Definition judge (prim : bool) (prompt result tcb : string) : P (TraceStep * option string) :=
  qr ← evaluate prompt result;
  _ ← record_quality prim qr;
  scb ← read_semantic prim;
  let tier := if prim then TierPrimary else TierFallback in
  let step := mkStep tier 0 tcb scb (Some (res_Score qr)) (map sig_Name (res_Signals qr)) in
  if flt (res_Score qr) QualityAcceptable && (0 <? len (res_Signals qr))
  then mret (step (Some OutcomeSemanticFailure), None)
  else mret (step (Some OutcomeSuccess), Some result).

(** The body of [tryPrimary] / [tryFallback] before the deferred [AddStep]. *)
Definition attempt (prim : bool) (killed : bool) {R} (call : W -> option GoError * (W * R)) (text : R -> string)
    (prompt : string) : P (TraceStep * option string) :=
  let tier := if prim then TierPrimary else TierFallback in
  tcb ← read_transport prim;
  scb ← read_semantic prim;
  let step := fun tcb outcome => mkStep tier 0 tcb scb None [] (Some outcome) in
  if killed then mret (step tcb OutcomeKilled, None)
  else
    blocked ← should_block prim;
    if (blocked : bool) then mret (step tcb OutcomeSemanticCBOpen, None)
    else
      '(err, r) ← call_transport call;
      match err with
      | Some _ => tcb ← read_transport prim; mret (step tcb OutcomeTransportError, None)
      | None => judge prim prompt (text r) tcb
      end.

Definition set_latency (ms : Z) (st : TraceStep) : TraceStep :=
  mkStep (st_Tier st) ms (TransportCB st) (SemanticCB st) (QualityScore st) (QualitySignals st) (st_Outcome st).
Definition add_step (st : TraceStep) : P unit := update_st (fun s => with_trace (AddStep st (trace s)) s).

(** The deferred function: latency, then [AddStep]. *)
Definition deferred (stepStart : Z) (m : P (TraceStep * option string)) : P (option string) :=
  '(st, r) ← m;
  t ← now;
  _ ← add_step (set_latency (milliseconds (time_sub t stepStart)) st);
  mret r.

Definition tryPrimary (prompt : string) : P (option string) :=
  stepStart ← now;
  s ← get_st;
  deferred stepStart
    (attempt true (IsPrimaryKilled (chaos s)) (transport_primary prompt) fst prompt).

Definition tryFallback (prompt : string) : P (option string) :=
  stepStart ← now;
  s ← get_st;
  deferred stepStart
    (attempt false (IsFallbackKilled (chaos s)) (transport_fallback prompt) (fun r => r) prompt).

Definition record_latency (tier : Tier) (d : Z) : P unit := fun s =>
  l ← Record_latency tier d (tel_Latency (tel s)); Some (tt, with_tel (mkTel (tel_Costs (tel s)) l) s).
Definition record_cost (tier : Tier) (i r : string) : P unit :=
  update_st (fun s => with_tel (mkTel (Record_cost tier i r (tel_Costs (tel s))) (tel_Latency (tel s))) s).
Definition cache_set (prompt text : string) : P unit :=
  t ← now; t' ← now;
  update_st (fun s => with_sc (SemanticCache.Set_ t t' prompt text (sc s)) s).
Definition cache_get (prompt : string) : P (option string) :=
  t ← now;
  s ← get_st;
  mret (SemanticCache.Get t (sc s) prompt).

(** A tier that produced a text: latency, cache, cost. *)
Definition served (tier : Tier) (start : Z) (prompt text : string) : P Result :=
  t ← now;
  _ ← record_latency tier (time_sub t start);
  _ ← cache_set prompt text;
  _ ← record_cost tier prompt text;
  mret (mkTierResult text tier false).

Definition denial_text : string := "All AI tiers are currently unavailable. Please try again shortly.".

(** Tiers 3 and 4: the cache, then the graceful denial. *)
Definition last_part (start : Z) (prompt : string) : P Result :=
  c ← cache_get prompt;
  match c with
  | Some cached =>
      t ← now;
      let dur := time_sub t start in
      _ ← record_latency TierCache dur;
      _ ← add_step (mkStep TierCache (milliseconds dur) "" "" None [] (Some OutcomeCacheHit));
      _ ← record_cost TierCache prompt cached;
      mret (mkTierResult cached TierCache true)
  | None =>
      t ← now;
      _ ← add_step (mkStep TierDegraded (milliseconds (time_sub t start)) "" "" None [] (Some OutcomeGracefulDenial));
      _ ← record_cost TierDegraded prompt "";
      mret (mkTierResult denial_text TierDegraded false)
  end.

Definition Degrade (prompt : string) : P Result :=
  start ← now;
  r ← tryPrimary prompt;
  match r with
  | Some text => served TierPrimary start prompt text
  | None =>
      r ← tryFallback prompt;
      match r with
      | Some text => served TierFallback start prompt text
      | None => last_part start prompt
      end
  end.
End Chain.

(** ** What the chain leaves alone

    A relation that holds across each of the chain's primitive updates holds
    across [Degrade]. *)
Section Keeps.
Context {W : Type} `{Unicode} (o : Orchestrator W) (R : OState W -> OState W -> Prop) `{!PreOrder R}.
Context (R_world : forall w s, R s (with_world w s)) (R_breakers : forall b s, R s (with_breakers b s))
  (R_eval : forall e s, R s (with_eval e s)) (R_started : forall l s, R s (with_started l s))
  (R_tel : forall t s, R s (with_tel t s)) (R_sc : forall c s, R s (with_sc c s))
  (R_step : forall st s, R s (with_trace (AddStep st (trace s)) s)).

Lemma keeps_now : keeps R (now o).
Proof. intros s x s' E. unfold now in E. destruct (clock_read _ _). injection E as _ <-. apply R_world. Qed.
Lemma keeps_transport prim : keeps R (read_transport o prim).
Proof. intros s x s' [= _ <-]. reflexivity. Qed.
Lemma keeps_semantic prim : keeps R (read_semantic (W := W) prim).
Proof. intros s x s' [= _ <-]. reflexivity. Qed.
Lemma keeps_call {A} (f : W -> option GoError * (W * A)) : keeps R (call_transport f).
Proof. intros s x s' E. unfold call_transport in E. destruct (f _) as [err [w r]]. injection E as _ <-. apply R_world. Qed.
Lemma keeps_evaluate prompt text : keeps R (evaluate prompt text).
Proof.
  intros s x s' E. unfold evaluate in E. destruct (Evaluate _ _ _) as [[r e]|]; [|discriminate].
  injection E as _ <-. apply R_eval.
Qed.
Lemma keeps_record prim qr t : keeps R (record_at prim qr t).
Proof.
  intros s x s' E. unfold record_at in E. destruct (Record_ _ _ _ _) as [[sb ev]|]; [|discriminate].
  injection E as _ <-. etransitivity; [apply R_breakers|]. apply (R_started _ (with_breakers _ s)).
Qed.
Lemma keeps_latency tier d : keeps R (record_latency tier d).
Proof.
  intros s x s' E. unfold record_latency in E. destruct (Record_latency _ _ _) as [l|]; [|discriminate].
  injection E as _ <-. apply R_tel.
Qed.
Lemma keeps_step st : keeps R (add_step st).
Proof. apply keeps_update. intros s. apply R_step. Qed.
Lemma keeps_cost tier i r : keeps R (record_cost tier i r).
Proof. apply keeps_update. intros s. apply R_tel. Qed.

Lemma keeps_tier prim k {A} (call : W -> option GoError * (W * A)) text prompt t0 :
  keeps R (deferred o t0 (attempt o prim k call text prompt)).
Proof.
  unfold deferred, attempt, should_block, judge, record_quality. keeps_steps;
    auto using keeps_now, keeps_transport, keeps_semantic, keeps_call, keeps_evaluate, keeps_record, keeps_step.
Qed.
Lemma Degrade_keeps prompt : keeps R (Degrade o prompt).
Proof.
  unfold Degrade, tryPrimary, tryFallback, last_part, served, cache_set, cache_get.
  keeps_with ltac:(first [apply keeps_tier | apply keeps_now | apply keeps_latency | apply keeps_step | apply keeps_cost]); auto.
Qed.
End Keeps.

(** ** The specification of a tier

    One run of a tier, as a rule per outcome: which calls it makes, what they
    do to the evaluator and to the tier's semantic breaker, the step it
    records and what it returns. *)

Section Spec.
Context {W : Type} `{Unicode} (o : Orchestrator W).
Implicit Types (s : OState W).

Definition tier_of (prim : bool) : Tier := if prim then TierPrimary else TierFallback.
Definition killed (prim : bool) (c : Chaos) : bool := if prim then IsPrimaryKilled c else IsFallbackKilled c.

(** The text is one the tier's model generated for this prompt. *)
Definition generated (prim : bool) (prompt text : string) : Prop :=
  exists w r w',
    (if prim then Generate (primary o) (mkRequest (primaryModel o) prompt "" 0 []) w
     else Generate (fallback o) (mkRequest (fallbackModel o) prompt "" 0 []) w) = (inr r, w') /\ Text r = text.

Definition failed_step (prim : bool) (out : TraceOutcome) (st : TraceStep) : Prop :=
  st_Tier st = tier_of prim /\ st_Outcome st = Some out /\ QualityScore st = None /\ QualitySignals st = [].

(** The verdict on an evaluated text. *)
Definition rejected (qr : QualityResult) : bool :=
  flt (res_Score qr) QualityAcceptable && (0 <? len (res_Signals qr)).
Definition judged_step (prim : bool) (qr : QualityResult) (st : TraceStep) : Prop :=
  st_Tier st = tier_of prim /\ QualityScore st = Some (res_Score qr) /\
  QualitySignals st = map sig_Name (res_Signals qr) /\
  st_Outcome st = Some (if rejected qr then OutcomeSemanticFailure else OutcomeSuccess).

Inductive tier_run (prim : bool) (prompt : string) (c : Chaos) :
    BreakerSet * QualityEvaluator -> BreakerSet * QualityEvaluator -> TraceStep -> option string -> Prop :=
| run_killed b e st : killed prim c = true -> failed_step prim OutcomeKilled st ->
    tier_run prim prompt c (b, e) (b, e) st None
| run_blocked b e t st : killed prim c = false -> (ShouldBlock t (semantic prim b)).1 = true ->
    failed_step prim OutcomeSemanticCBOpen st -> tier_run prim prompt c (b, e) (b, e) st None
| run_transport b e t sb st : killed prim c = false -> ShouldBlock t (semantic prim b) = (false, sb) ->
    failed_step prim OutcomeTransportError st ->
    tier_run prim prompt c (b, e) (set_semantic prim sb b, e) st None
| run_judged b e t sb text qr e' t' sb' ev st : killed prim c = false ->
    ShouldBlock t (semantic prim b) = (false, sb) -> generated prim prompt text ->
    Evaluate e prompt text = Some (qr, e') -> Record_ t' (res_Score qr) qr sb = Some (sb', ev) ->
    judged_step prim qr st ->
    tier_run prim prompt c (b, e) (set_semantic prim sb' b, e') st (if rejected qr then None else Some text).

(** ** The specification of the chain *)

Definition final_step (tier : Tier) (out : TraceOutcome) (st : TraceStep) : Prop :=
  st_Tier st = tier /\ st_Outcome st = Some out /\ QualityScore st = None /\ QualitySignals st = [].

(** From the state before to the steps recorded, the result, and what the
    request leaves in the cache and in the cost tracker. *)
Inductive chain_run (prompt : string) s : OState W -> list TraceStep -> Result -> Prop :=
| chain_primary s' st text t t' :
    tier_run true prompt (chaos s) (breakers s, eval s) (breakers s', eval s') st (Some text) ->
    sc s' = SemanticCache.Set_ t t' prompt text (sc s) ->
    tel_Costs (tel s') = Record_cost TierPrimary prompt text (tel_Costs (tel s)) ->
    chain_run prompt s s' [st] (mkTierResult text TierPrimary false)
| chain_fallback s' be st st' text t t' :
    tier_run true prompt (chaos s) (breakers s, eval s) be st None ->
    tier_run false prompt (chaos s) be (breakers s', eval s') st' (Some text) ->
    sc s' = SemanticCache.Set_ t t' prompt text (sc s) ->
    tel_Costs (tel s') = Record_cost TierFallback prompt text (tel_Costs (tel s)) ->
    chain_run prompt s s' [st; st'] (mkTierResult text TierFallback false)
| chain_cache s' be st st' st'' text t :
    tier_run true prompt (chaos s) (breakers s, eval s) be st None ->
    tier_run false prompt (chaos s) be (breakers s', eval s') st' None ->
    SemanticCache.Get t (sc s) prompt = Some text -> sc s' = sc s ->
    final_step TierCache OutcomeCacheHit st'' ->
    tel_Costs (tel s') = Record_cost TierCache prompt text (tel_Costs (tel s)) ->
    chain_run prompt s s' [st; st'; st''] (mkTierResult text TierCache true)
| chain_denied s' be st st' st'' t :
    tier_run true prompt (chaos s) (breakers s, eval s) be st None ->
    tier_run false prompt (chaos s) be (breakers s', eval s') st' None ->
    SemanticCache.Get t (sc s) prompt = None -> sc s' = sc s ->
    final_step TierDegraded OutcomeGracefulDenial st'' ->
    tel_Costs (tel s') = Record_cost TierDegraded prompt "" (tel_Costs (tel s)) ->
    chain_run prompt s s' [st; st'; st''] (mkTierResult denial_text TierDegraded false).

Definition breakers_ok (b : BreakerSet) : Prop := sb_ok (PrimarySemantic b) /\ sb_ok (FallbackSemantic b).
(** The cache is well formed and its texts can be evaluated again. *)
Definition sc_ok (c : SemanticCache.SemanticCache) : Prop := SemanticCache.cache_ok c /\ SemanticCache.texts_ok c.
Definition orch_ok s : Prop :=
  breakers_ok (breakers s) /\ eval_ok (eval s) /\ sc_ok (sc s) /\
  forall t, tracker_ok t (tel_Latency (tel s)).

(** What the proofs rely on: the guards' contract, and answers shorter than
    a terabyte, so that the length arithmetic of the evaluator is exact. *)
Class OrchLaws : Prop := {
  laws_primary : GuardLaws (PrimaryTransport o);
  laws_fallback : GuardLaws (FallbackTransport o);
  laws_hedger : GuardLaws (hedger o);
  laws_retrier : forall f n d, GuardLaws (retrier o f n d);
  short_primary : forall req w r w', Generate (primary o) req w = (inr r, w') -> slen (Text r) < max_text;
  short_fallback : forall req w r w', Generate (fallback o) req w = (inr r, w') -> slen (Text r) < max_text;
}.
End Spec.
#[export] Existing Instances laws_primary laws_fallback laws_hedger laws_retrier.

Section Refinement.
Context {W : Type} `{Unicode} (o : Orchestrator W) {Hlaws : OrchLaws o}.

(** The closures: a nil error means the captured text was generated. *)
Lemma primary_call_success prompt s :
  (primary_call o prompt s).1 = None -> generated o true prompt (primary_call o prompt s).2.2.1.
Proof.
  destruct s as (w & r0 & n). unfold primary_call, generate, generated.
  destruct (Generate _ _ w) as [[err|r] w'] eqn:E; cbn; [done|]. intros _. eauto.
Qed.
Lemma primary_call_keeps prompt s :
  generated o true prompt s.2.1 -> generated o true prompt (primary_call o prompt s).2.2.1.
Proof.
  intros Hg. destruct (primary_call o prompt s).1 as [err|] eqn:E; [|now apply primary_call_success].
  destruct s as (w & r0 & n). unfold primary_call, generate in *. cbn [snd fst] in Hg.
  destruct (Generate _ _ w) as [[e|r] w']; [exact Hg|discriminate].
Qed.

Lemma transport_primary_success prompt w :
  (transport_primary o prompt w).1 = None -> generated o true prompt (transport_primary o prompt w).2.2.1.
Proof.
  set (Q := fun r : string * Z => generated o true prompt r.1).
  assert (Hk1 : forall s, Q s.2 -> Q (hedged_call o prompt s).2.2).
  { intros [w0 [t n]] Hq. unfold hedged_call.
    apply (guard_keeps (g := retrier o isRetriable (retryMax o) (retryBackoff o)) _ Q);
      [intros s; apply primary_call_keeps|exact Hq]. }
  assert (Hs1 : forall s, (hedged_call o prompt s).1 = None -> Q (hedged_call o prompt s).2.2).
  { intros [w0 [t n]]. unfold hedged_call.
    apply (guard_success _ Q); [intros s; apply primary_call_success|intros s; apply primary_call_keeps]. }
  unfold transport_primary. apply (guard_success _ Q).
  - intros s. apply (guard_success _ Q); assumption.
  - intros s Hq. now apply (guard_keeps _ Q).
Qed.

Lemma fallback_call_success prompt s :
  (fallback_call o prompt s).1 = None -> generated o false prompt (fallback_call o prompt s).2.2.
Proof.
  destruct s as [w r0]. unfold fallback_call, generated.
  destruct (Generate _ _ w) as [[err|r] w'] eqn:E; cbn; [done|]. intros _. eauto.
Qed.
Lemma transport_fallback_success prompt w :
  (transport_fallback o prompt w).1 = None -> generated o false prompt (transport_fallback o prompt w).2.2.
Proof.
  apply (guard_success _ (generated o false prompt)); [intros s; apply fallback_call_success|].
  intros [w0 r0] Hq. cbn [snd] in Hq. destruct (fallback_call o prompt (w0, r0)).1 as [err|] eqn:E;
    [|now apply fallback_call_success].
  unfold fallback_call in *. destruct (Generate _ _ w0) as [[e|r] w']; [exact Hq|discriminate].
Qed.

Lemma generated_short prim prompt text : generated o prim prompt text -> slen text < max_text.
Proof. intros (w & r & w' & E & <-). destruct prim; [exact (short_primary o _ _ _ _ E)|exact (short_fallback o _ _ _ _ E)]. Qed.

Lemma semantic_ok prim b : breakers_ok b -> sb_ok (semantic prim b).
Proof. intros []. now destruct prim. Qed.
Lemma set_semantic_ok prim sb b : breakers_ok b -> sb_ok sb -> breakers_ok (set_semantic prim sb b).
Proof. intros [] ?. destruct prim; now split. Qed.
Lemma semantic_set prim sb b : semantic prim (set_semantic prim sb b) = sb.
Proof. now destruct prim. Qed.
Lemma set_semantic_set prim sb sb' b : set_semantic prim sb' (set_semantic prim sb b) = set_semantic prim sb' b.
Proof. now destruct prim. Qed.
Lemma set_semantic_same prim b : set_semantic prim (semantic prim b) b = b.
Proof. now destruct prim, b. Qed.
(** ** The actions *)

Lemma now_runs (s : OState W) (Q : Z -> OState W -> Prop) : (forall t w, Q t (with_world w s)) -> runs (now o) s Q.
Proof. intros HQ. unfold runs, now. destruct (clock_read o (world s)) as [t w]. eauto. Qed.

Lemma should_block_runs prim (s : OState W) (Q : bool -> OState W -> Prop) :
  (forall t w, Q (ShouldBlock t (semantic prim (breakers s))).1
     (with_breakers (set_semantic prim (ShouldBlock t (semantic prim (breakers s))).2 (breakers s)) (with_world w s))) ->
  runs (should_block o prim) s Q.
Proof.
  intros HQ. apply runs_bind, now_runs. intros t w. apply runs_bind, runs_get.
  specialize (HQ t w). cbn [breakers with_world]. destruct (ShouldBlock t _) as [b sb].
  apply runs_bind, runs_update, runs_ret. exact HQ.
Qed.

Lemma evaluate_runs prompt text (s : OState W) (Q : QualityResult -> OState W -> Prop) :
  eval_ok (eval s) -> slen text < max_text ->
  (forall qr e', Evaluate (eval s) prompt text = Some (qr, e') -> eval_ok e' -> in_unit (res_Score qr) ->
     Q qr (with_eval e' s)) ->
  runs (evaluate prompt text) s Q.
Proof.
  intros He Ht HQ. destruct (Evaluate_chain _ prompt text He Ht) as (ls & coh & e' & E & Hl & Hc & He' & _).
  destruct (evaluate_acc_ok prompt text ls coh Ht Hl Hc) as (F & B & _).
  exists (mkResult (clip0 (evaluate_acc prompt text ls coh).2) (evaluate_acc prompt text ls coh).1), (with_eval e' s).
  split; [unfold evaluate; rewrite E; reflexivity|]. apply HQ; [exact E|exact He'|].
  apply clip0_unit; [exact F|apply B].
Qed.

Lemma record_quality_runs prim qr (s : OState W) (Q : unit -> OState W -> Prop) :
  breakers_ok (breakers s) -> in_unit (res_Score qr) ->
  (forall t w sb ev l, Record_ t (res_Score qr) qr (semantic prim (breakers s)) = Some (sb, ev) -> sb_ok sb ->
     Q tt (with_started l (with_breakers (set_semantic prim sb (breakers s)) (with_world w s)))) ->
  runs (record_quality o prim qr) s Q.
Proof.
  intros Hb Hq HQ. apply runs_bind, now_runs. intros t w.
  destruct (Record_total t _ qr _ (semantic_ok prim _ Hb) Hq) as (sb & ev & E & Hsb & _).
  unfold runs, record_at. cbn [breakers with_world]. rewrite E. cbn [mbind option_bind].
  eexists _, _. split; [reflexivity|]. eapply HQ; [exact E|exact Hsb].
Qed.

Lemma call_transport_runs {R} (f : W -> option GoError * (W * R)) (s : OState W) (Q : option GoError * R -> OState W -> Prop) :
  (forall w, Q ((f w).1, (f w).2.2) (with_world (f w).2.1 s)) -> runs (call_transport f) s Q.
Proof.
  intros HQ. unfold runs, call_transport. specialize (HQ (world s)).
  destruct (f (world s)) as [err [w r]]. eauto.
Qed.

(** ** A tier runs as specified *)

Definition unit_of (s : OState W) : BreakerSet * QualityEvaluator := (breakers s, eval s).
Definition frame (s s' : OState W) : Prop := sc s' = sc s /\ tel s' = tel s /\ chaos s' = chaos s.
Definition tier_post prim prompt (s : OState W) (st : TraceStep) (r : option string) (s' : OState W) : Prop :=
  tier_run o prim prompt (chaos s) (unit_of s) (unit_of s') st r /\
  breakers_ok (breakers s') /\ eval_ok (eval s') /\ frame s s'.

Ltac tier_post :=
  split; [split; [|split; [assumption|split; [assumption|repeat split]]]|reflexivity].

Lemma attempt_runs prim {R} (call : W -> option GoError * (W * R)) (text : R -> string) prompt (s : OState W) :
  breakers_ok (breakers s) -> eval_ok (eval s) ->
  (forall w, (call w).1 = None -> generated o prim prompt (text (call w).2.2)) ->
  runs (attempt o prim (killed prim (chaos s)) call text prompt) s
    (fun x s' => tier_post prim prompt s x.1 x.2 s' /\ trace s' = trace s).
Proof.
  intros Hb He Hcall. unfold attempt. apply runs_bind. eexists _, s. split; [reflexivity|].
  apply runs_bind. eexists _, s. split; [reflexivity|]. destruct (killed prim (chaos s)) eqn:Ek.
  { apply runs_ret. tier_post. now apply run_killed. }
  apply runs_bind, should_block_runs. intros t w.
  pose proof (ShouldBlock_ok t _ (semantic_ok prim _ Hb)) as Hsb.
  destruct (ShouldBlock t (semantic prim (breakers s))) as [blk sb] eqn:Es. cbn [fst snd] in *.
  pose proof (set_semantic_ok prim sb _ Hb Hsb) as Hb1. destruct blk.
  { assert (Hsame : sb = semantic prim (breakers s)).
    { unfold ShouldBlock in Es. repeat case_match; congruence. }
    rewrite Hsame, set_semantic_same in *.
    apply runs_ret. tier_post. eapply run_blocked; [exact Ek|now rewrite Es|easy]. }
  apply runs_bind, call_transport_runs. intros w1. destruct (call w1).1 as [err|] eqn:Ec.
  { apply runs_bind. eexists _, _. split; [reflexivity|]. apply runs_ret.
    tier_post. eapply run_transport; [exact Ek|exact Es|easy]. }
  pose proof (Hcall w1 Ec) as Hg. pose proof (generated_short prim prompt _ Hg) as Hsh.
  unfold judge. apply runs_bind, evaluate_runs; [exact He|exact Hsh|]. intros qr e' E He' Hu.
  apply runs_bind, record_quality_runs; [exact Hb1|exact Hu|]. intros t' w2 sb' ev l Er Hsb'.
  cbn [breakers with_eval with_world with_breakers] in *. rewrite semantic_set in Er. rewrite set_semantic_set.
  apply runs_bind. eexists _, _. split; [reflexivity|]. cbv zeta. fold (rejected qr).
  assert (Hst : forall tcb scb, tier_run o prim prompt (chaos s) (unit_of s) (set_semantic prim sb' (breakers s), e')
      (mkStep (tier_of prim) 0 tcb scb (Some (res_Score qr)) (map sig_Name (res_Signals qr))
         (Some (if rejected qr then OutcomeSemanticFailure else OutcomeSuccess)))
      (if rejected qr then None else Some (text (call w1).2.2))).
  { intros. eapply run_judged; try eassumption. repeat split. }
  pose proof (set_semantic_ok prim sb' _ Hb Hsb').
  destruct (rejected qr); apply runs_ret; tier_post; apply Hst.
Qed.

Lemma tier_run_latency prim prompt c u u' st r ms :
  tier_run o prim prompt c u u' st r -> tier_run o prim prompt c u u' (set_latency ms st) r.
Proof.
  intros []; econstructor; try eassumption;
    match goal with Hs : failed_step _ _ _ |- _ => exact Hs | Hs : judged_step _ _ _ |- _ => exact Hs end.
Qed.

Lemma tier_runs prim {R} (call : W -> option GoError * (W * R)) (text : R -> string) prompt t0 (s : OState W) :
  breakers_ok (breakers s) -> eval_ok (eval s) ->
  (forall w, (call w).1 = None -> generated o prim prompt (text (call w).2.2)) ->
  runs (deferred o t0 (attempt o prim (killed prim (chaos s)) call text prompt)) s (fun r s' =>
    exists st, tier_post prim prompt s st r s' /\ Steps (trace s') = Steps (trace s) ++ [st]).
Proof.
  intros Hb He Hc. apply runs_bind. eapply runs_mono; [now apply attempt_runs|].
  intros [st r] s1 [(Hr & Hb1 & He1 & Hf) Ht]. apply runs_bind, now_runs. intros t w.
  apply runs_bind, runs_update, runs_ret. eexists. split; [|cbn; now rewrite Ht].
  split; [apply tier_run_latency; exact Hr|]. auto.
Qed.
End Refinement.

(** ** The chain refines its specification *)

Section Chain_refinement.
Context {W : Type} `{Unicode} (o : Orchestrator W) {Hlaws : OrchLaws o}.
Implicit Types (s : OState W).

Definition latency_ok (l : LatencyTracker) : Prop := forall t, tracker_ok t l.

Lemma record_latency_runs tier d s (Q : unit -> OState W -> Prop) : latency_ok (tel_Latency (tel s)) ->
  (forall l, latency_ok l -> Q tt (with_tel (mkTel (tel_Costs (tel s)) l) s)) -> runs (record_latency tier d) s Q.
Proof.
  intros Hl HQ. destruct (Record_latency_spec tier d _ (Hl tier)) as (l & E & Hok & _ & Hoth).
  unfold runs, record_latency. rewrite E. eexists _, _. split; [reflexivity|]. apply HQ.
  intros t. destruct (decide (t = tier)) as [->|Hne]; [exact Hok|].
  destruct (Hoth t Hne) as (Ew & Ei & Ef). specialize (Hl t). unfold tracker_ok in *. now rewrite Ew, Ei, Ef.
Qed.

(** What the last part of a request leaves. *)
Definition ends tier s s' (set : list (Z * Z)) (prompt text : string) (steps : list TraceStep) : Prop :=
  sc s' = match set with (t, t') :: _ => SemanticCache.Set_ t t' prompt text (sc s) | [] => sc s end /\
  tel_Costs (tel s') = Record_cost tier prompt text (tel_Costs (tel s)) /\
  latency_ok (tel_Latency (tel s')) /\ unit_of s' = unit_of s /\ Steps (trace s') = Steps (trace s) ++ steps.

Lemma served_runs tier start prompt text s : latency_ok (tel_Latency (tel s)) ->
  runs (served o tier start prompt text) s (fun r s' =>
    r = mkTierResult text tier false /\ exists t t', ends tier s s' [(t, t')] prompt text []).
Proof.
  intros Hl. apply runs_bind, now_runs. intros t1 w1. apply runs_bind, record_latency_runs; [exact Hl|].
  intros l Hl'. apply runs_bind, runs_bind, now_runs. intros t w. apply runs_bind, now_runs. intros t' w'.
  apply runs_update. apply runs_bind, runs_update, runs_ret. split; [done|].
  exists t, t'. split; [reflexivity|]. split; [reflexivity|]. split; [exact Hl'|]. split; [reflexivity|].
  cbn. now rewrite app_nil_r.
Qed.

Lemma last_part_runs start prompt s : latency_ok (tel_Latency (tel s)) ->
  runs (last_part o start prompt) s (fun r s' => exists t st,
    match SemanticCache.Get t (sc s) prompt with
    | Some text => r = mkTierResult text TierCache true /\ final_step TierCache OutcomeCacheHit st /\
        ends TierCache s s' [] prompt text [st]
    | None => r = mkTierResult denial_text TierDegraded false /\ final_step TierDegraded OutcomeGracefulDenial st /\
        ends TierDegraded s s' [] prompt "" [st]
    end).
Proof.
  intros Hl. apply runs_bind, runs_bind, now_runs. intros t w. apply runs_bind, runs_get, runs_ret.
  cbn [sc with_world]. destruct (SemanticCache.Get t (sc s) prompt) as [text|] eqn:Eg;
    apply runs_bind, now_runs; intros t1 w1.
  - apply runs_bind, record_latency_runs; [exact Hl|]. intros l Hl'.
    apply runs_bind, runs_update. apply runs_bind, runs_update, runs_ret.
    eexists t, _. rewrite Eg. split; [done|]. split; [|repeat split; exact Hl']. repeat split.
  - apply runs_bind, runs_update. apply runs_bind, runs_update, runs_ret.
    eexists t, _. rewrite Eg. split; [done|]. split; [|repeat split; exact Hl]. repeat split.
Qed.

Lemma tier_run_short prim prompt c u u' st text : tier_run o prim prompt c u u' st (Some text) -> slen text < max_text.
Proof.
  intros Hr. inversion Hr as [| | |? ? t sb text' qr ? ? ? ? ? ? ? Hg]. subst. destruct (rejected qr); [discriminate|].
  simplify_eq. exact (generated_short o prim prompt text Hg).
Qed.

(** A tier that answers ends the request. *)
Lemma served_ends tier start prompt text s0 s steps : slen text < max_text ->
  breakers_ok (breakers s) -> eval_ok (eval s) -> sc_ok (sc s0) -> latency_ok (tel_Latency (tel s0)) ->
  sc s = sc s0 -> tel s = tel s0 -> Steps (trace s) = Steps (trace s0) ++ steps ->
  runs (served o tier start prompt text) s (fun r s' => orch_ok s' /\
    r = mkTierResult text tier false /\ unit_of s' = unit_of s /\ Steps (trace s') = Steps (trace s0) ++ steps /\
    exists t t', sc s' = SemanticCache.Set_ t t' prompt text (sc s0) /\
      tel_Costs (tel s') = Record_cost tier prompt text (tel_Costs (tel s0))).
Proof.
  intros Hx Hb He Hc Hl Hsc Htel Ht. eapply runs_mono; [apply served_runs; now rewrite Htel|].
  intros r s2 (-> & t & t' & Esc & Eco & Hl2 & Eu & Et). rewrite Htel in Eco. rewrite Hsc in Esc.
  split; [|rewrite Et, Ht, app_nil_r; eauto 10]. injection Eu as Ebr Eev.
  unfold orch_ok. rewrite Ebr, Eev, Esc. split; [exact Hb|]. split; [exact He|]. split; [|exact Hl2].
  destruct Hc as [Hc Hc']. split; [now apply SemanticCache.Set_ok|now apply SemanticCache.Set_texts].
Qed.

(** When both failed, the cache or the denial ends it. *)
Lemma last_part_ends start prompt s0 s be st st' :
  breakers_ok (breakers s) -> eval_ok (eval s) -> sc_ok (sc s0) -> latency_ok (tel_Latency (tel s0)) ->
  sc s = sc s0 -> tel s = tel s0 -> Steps (trace s) = Steps (trace s0) ++ [st; st'] ->
  tier_run o true prompt (chaos s0) (unit_of s0) be st None -> tier_run o false prompt (chaos s0) be (unit_of s) st' None ->
  runs (last_part o start prompt) s (fun r s' => orch_ok s' /\
    exists steps, Steps (trace s') = Steps (trace s0) ++ steps /\ chain_run o prompt s0 s' steps r).
Proof.
  intros Hb He Hc Hl Hsc Htel Ht R1 R2. eapply runs_mono; [apply last_part_runs; now rewrite Htel|].
  intros r s3 (t & st'' & Hend). rewrite Hsc in Hend.
  assert (Hfin : forall tier text, ends tier s s3 [] prompt text [st''] -> orch_ok s3 /\
    tier_run o false prompt (chaos s0) be (breakers s3, eval s3) st' None /\ sc s3 = sc s0 /\
    tel_Costs (tel s3) = Record_cost tier prompt text (tel_Costs (tel s0)) /\
    Steps (trace s3) = Steps (trace s0) ++ [st; st'; st'']).
  { intros tier text (Esc & Eco & Hl3 & Eu & Et). injection Eu as Ebr Eev. rewrite Hsc in Esc. rewrite Htel in Eco.
    split; [unfold orch_ok; rewrite Ebr, Eev, Esc; auto|]. split; [now rewrite Ebr, Eev|].
    split; [exact Esc|]. split; [exact Eco|]. rewrite Et, Ht. now rewrite <- !app_assoc. }
  destruct (SemanticCache.Get t (sc s0) prompt) as [text|] eqn:Eg; destruct Hend as (-> & Hst & Hend);
    destruct (Hfin _ _ Hend) as (Hok & R2' & Esc & Eco & Et); (split; [exact Hok|]);
    exists [st; st'; st'']; (split; [exact Et|]).
  - eapply chain_cache; [exact R1|exact R2'|exact Eg|exact Esc|exact Hst|exact Eco].
  - eapply chain_denied; [exact R1|exact R2'|exact Eg|exact Esc|exact Hst|exact Eco].
Qed.

Lemma Degrade_runs prompt s : orch_ok s ->
  runs (Degrade o prompt) s (fun r s' => orch_ok s' /\
    exists steps, Steps (trace s') = Steps (trace s) ++ steps /\ chain_run o prompt s s' steps r).
Proof.
  intros (Hb & He & Hc & Hl). unfold Degrade. apply runs_bind, now_runs. intros start w0.
  apply runs_bind. unfold tryPrimary. apply runs_bind, now_runs. intros t1 w1. apply runs_bind, runs_get.
  eapply runs_mono.
  { apply (tier_runs o true (transport_primary o prompt) fst prompt t1); [exact Hb|exact He|].
    intros w. apply (transport_primary_success o). }
  intros r s1 (st & (Hr & Hb1 & He1 & Hsc & Htel & Hch) & Ht). destruct r as [text|].
  { eapply runs_mono; [apply (served_ends _ _ _ _ s); first [eassumption|eapply tier_run_short; eassumption]|].
    intros r s2 (Hok & -> & [= Eb Ee] & Et & t & t' & Esc & Eco). split; [exact Hok|]. exists [st]. split; [exact Et|].
    eapply chain_primary; [|exact Esc|exact Eco]. rewrite Eb, Ee. exact Hr. }
  apply runs_bind. unfold tryFallback. apply runs_bind, now_runs. intros t2 w2. apply runs_bind, runs_get.
  eapply runs_mono.
  { apply (tier_runs o false (transport_fallback o prompt) (fun r => r) prompt t2); [exact Hb1|exact He1|].
    intros w. apply (transport_fallback_success o). }
  intros r s2 (st' & (Hr2 & Hb2 & He2 & Hsc2 & Htel2 & Hch2) & Ht2). cbn [sc tel chaos trace with_world] in *.
  rewrite Hsc in Hsc2. rewrite Htel in Htel2. rewrite Hch in Hr2. rewrite Ht, <- app_assoc in Ht2.
  destruct r as [text|]; [|exact (last_part_ends start prompt s s2 _ st st' Hb2 He2 Hc Hl Hsc2 Htel2 Ht2 Hr Hr2)].
  eapply runs_mono; [apply (served_ends _ _ _ _ s); first [eassumption|eapply tier_run_short; eassumption]|].
  intros r s3 (Hok & -> & [= Eb Ee] & Et & t & t' & Esc & Eco). split; [exact Hok|]. exists [st; st']. split; [exact Et|].
  eapply chain_fallback; [exact Hr| |exact Esc|exact Eco]. rewrite Eb, Ee. exact Hr2.
Qed.
End Chain_refinement.

(** ** Facts of a run *)

Section RunFacts.
Context {W : Type} `{Unicode} (o : Orchestrator W) {Hlaws : OrchLaws o}.

(** An evaluated text that is not rejected scores at least [QualityAcceptable]. *)
Lemma Evaluate_verdict e prompt text qr e' : eval_ok e -> slen text < max_text ->
  Evaluate e prompt text = Some (qr, e') ->
  eval_ok e' /\ in_unit (res_Score qr) /\
  (if rejected qr then flt (res_Score qr) QualityAcceptable = true /\ res_Signals qr <> []
   else fle QualityAcceptable (res_Score qr) = true).
Proof.
  intros He Ht E. destruct (Evaluate_chain e prompt text He Ht) as (ls & coh & e1 & E1 & Hl & Hc & He1 & _).
  rewrite E1 in E. injection E as <- <-. set (acc := evaluate_acc prompt text ls coh).
  destruct (evaluate_acc_ok prompt text ls coh Ht Hl Hc) as (F & B & Es & _). fold acc in F, B, Es.
  assert (Hu : in_unit (clip0 acc.2)) by (apply clip0_unit; [exact F|apply B]).
  split; [exact He1|]. split; [exact Hu|]. unfold rejected. cbn [res_Score res_Signals].
  destruct (flt (clip0 acc.2) QualityAcceptable) eqn:Ef; cbn [andb].
  - assert (Hne : acc.1 <> []).
    { intros Hnil. rewrite Es, Hnil in Ef. vm_compute in Ef. discriminate. }
    rewrite (proj2 (Z.ltb_lt 0 _)); [auto|]. destruct acc.1; [done|]. rewrite len_cons. pose proof (len_nonneg l). lia.
  - destruct Hu as [Fu Bu]. apply fle_spec; [reflexivity|exact Fu|]. now apply flt_false.
Qed.

(** The invariant along a tier, and its window of scores. *)
Lemma tier_run_ok prim prompt c b e b' e' st r :
  tier_run o prim prompt c (b, e) (b', e') st r -> breakers_ok b -> eval_ok e -> breakers_ok b' /\ eval_ok e'.
Proof.
  intros Hr Hb He. inversion Hr as [| |? ? t sb ? Hk Hsb|? ? t sb text qr ? t' sb' ev ? Hk Hsb Hg Hev Hrec Hst]; subst; auto.
  - split; [|exact He]. apply set_semantic_ok; [exact Hb|].
    pose proof (ShouldBlock_ok t _ (semantic_ok prim _ Hb)) as Hs. now rewrite Hsb in Hs.
  - destruct (Evaluate_verdict e prompt text qr e' He) as (He' & Hu & _);
      [eapply (generated_short o); eassumption|eassumption|].
    split; [|exact He']. apply set_semantic_ok; [exact Hb|].
    pose proof (ShouldBlock_ok t _ (semantic_ok prim _ Hb)) as Hs. rewrite Hsb in Hs.
    destruct (Record_total t' _ qr _ Hs Hu) as (sb2 & ev2 & E2 & Hok & _). cbn [snd] in E2. congruence.
Qed.

Lemma tier_run_good prim prompt c b e u' st text :
  tier_run o prim prompt c (b, e) u' st (Some text) -> eval_ok e ->
  generated o prim prompt text /\ st_Outcome st = Some OutcomeSuccess /\
  exists q, QualityScore st = Some q /\ in_unit q /\ fle QualityAcceptable q = true.
Proof.
  intros Hr He. inversion Hr as [| | |? ? t sb text' qr e' t' sb' ev ? Hk Hsb Hg Hev Hrec (_ & Hq & _ & Ho)]. subst.
  destruct (Evaluate_verdict e prompt text' qr e' He) as (_ & Hu & Hv);
    [eapply (generated_short o); eassumption|eassumption|].
  destruct (rejected qr); [discriminate|]. simplify_eq. eauto 8.
Qed.
Lemma tier_run_failed prim prompt c u u' st :
  tier_run o prim prompt c u u' st None -> st_Outcome st <> Some OutcomeSuccess.
Proof.
  intros Hr. inversion Hr as [? ? ? ? (_ & Ho & _)|? ? ? ? ? ? (_ & Ho & _)|? ? ? ? ? ? ? (_ & Ho & _)
    |? ? t sb text' qr e' t' sb' ev ? Hk Hsb Hg Hev Hrec (_ & _ & _ & Ho)]; subst; rewrite Ho; try done.
  now destruct (rejected qr).
Qed.

Definition step_score (st : TraceStep) : list f64 := match QualityScore st with Some q => [q] | None => [] end.

Lemma ShouldBlock_window t sb :
  win_contents (ShouldBlock t sb).2 = win_contents sb /\ win_cap (ShouldBlock t sb).2 = win_cap sb.
Proof. unfold ShouldBlock. case_decide; [|done]. case_bool; [|done]. now case_bool. Qed.

Lemma tier_run_window prim prompt c b e b' e' st r :
  tier_run o prim prompt c (b, e) (b', e') st r -> breakers_ok b ->
  len (win_contents (semantic prim b)) <= win_cap (semantic prim b) ->
  semantic (negb prim) b' = semantic (negb prim) b /\
  win_cap (semantic prim b') = win_cap (semantic prim b) /\
  win_contents (semantic prim b') =
    lastn (Z.to_nat (win_cap (semantic prim b))) (win_contents (semantic prim b) ++ step_score st).
Proof.
  intros Hr Hb Hcap.
  assert (Hnil : forall st', step_score st' = [] -> win_contents (semantic prim b) =
    lastn (Z.to_nat (win_cap (semantic prim b))) (win_contents (semantic prim b) ++ step_score st')).
  { intros st' ->. rewrite app_nil_r, lastn_all; [done|]. unfold len in Hcap. lia. }
  assert (Hf : forall out, failed_step prim out st -> step_score st = []) by (intros out (_ & _ & Hq & _); unfold step_score; now rewrite Hq).
  inversion Hr as [| |? ? t sb ? Hk Hsb|? ? t sb text qr ? t' sb' ev ? Hk Hsb Hg Hev Hrec Hst]; subst; eauto.
  - destruct (ShouldBlock_window t (semantic prim b)) as [W1 W2]. rewrite Hsb in W1, W2. cbn [snd] in W1, W2.
    rewrite semantic_set, W1, W2. split; [now destruct prim|]. eauto.
  - destruct (ShouldBlock_window t (semantic prim b)) as [W1 W2].
    pose proof (ShouldBlock_ok t _ (semantic_ok prim _ Hb)) as Hs. rewrite Hsb in W1, W2, Hs. cbn [snd] in W1, W2, Hs.
    rewrite semantic_set. split; [now destruct prim|].
    assert (Hp : win_push (t', res_Score qr, qr) sb = Some sb').
    { cbn. unfold record_score. cbn [fst snd]. now rewrite Hrec. }
    assert (Hw : win_ok sb) by apply Hs.
    rewrite (win_push_cap _ _ _ Hw Hp), (win_push_contents _ _ _ Hw Hp), W1, W2. split; [done|].
    destruct Hst as (_ & Hq & _). unfold step_score. now rewrite Hq.
Qed.
End RunFacts.

(** ** Serving a series of requests *)

Section Series.
Context {W : Type} `{Unicode} (o : Orchestrator W).

(** Requests one after the other, each with its own fresh trace; the traces
    as they are when their request ends. *)
Fixpoint serve_all (l : list (Trace * string)) (s : OState W) : option (list Trace * OState W) :=
  match l with
  | [] => Some ([], s)
  | (tr, prompt) :: l =>
      '(_, s) ← Degrade o prompt (with_trace tr s);
      '(trs, s') ← serve_all l s;
      Some (trace s :: trs, s')
  end.

(** The scores a tier's steps report. *)
Definition scores_in (tier : Tier) (steps : list TraceStep) : list f64 :=
  concat (map step_score (filter (fun st => st_Tier st = tier) steps)).

Lemma scores_in_app tier l k : scores_in tier (l ++ k) = scores_in tier l ++ scores_in tier k.
Proof. unfold scores_in. now rewrite filter_app, map_app, concat_app. Qed.

Context {Hlaws : OrchLaws o}.

Lemma tier_run_tier prim prompt c u u' st r : tier_run o prim prompt c u u' st r -> st_Tier st = tier_of prim.
Proof. intros []; match goal with Hs : failed_step _ _ _ |- _ => apply Hs | Hs : judged_step _ _ _ |- _ => apply Hs end. Qed.

Lemma scores_in_tier prim prim' prompt c u u' st r : tier_run o prim prompt c u u' st r ->
  scores_in (tier_of prim') [st] = if Bool.eqb prim prim' then step_score st else [].
Proof.
  intros Hr. apply tier_run_tier in Hr. unfold scores_in. cbn [filter list_filter].
  case_decide as Hd; rewrite Hr in Hd; destruct prim, prim'; try discriminate; try (now contradiction Hd);
    cbn; now rewrite ?app_nil_r.
Qed.
Lemma scores_in_final prim tier out st : final_step tier out st -> scores_in (tier_of prim) [st] = [].
Proof.
  intros (_ & _ & Hq & _). unfold scores_in. cbn [filter list_filter]. case_decide; [|done].
  cbn. unfold step_score. now rewrite Hq.
Qed.

Definition windows_ok (b : BreakerSet) : Prop :=
  forall prim, len (win_contents (semantic prim b)) <= win_cap (semantic prim b).

(** One tier: both windows, extended by what the step reports. *)
Lemma tier_run_windows prim prompt c b e b' e' st r :
  tier_run o prim prompt c (b, e) (b', e') st r -> breakers_ok b -> windows_ok b ->
  windows_ok b' /\ forall p, win_cap (semantic p b') = win_cap (semantic p b) /\
    win_contents (semantic p b') =
      lastn (Z.to_nat (win_cap (semantic p b))) (win_contents (semantic p b) ++ scores_in (tier_of p) [st]).
Proof.
  intros Hr Hb Hw. destruct (tier_run_window o prim prompt c b e b' e' st r Hr Hb (Hw prim)) as (Eo & Ec & Ew).
  assert (Hall : forall p, win_cap (semantic p b') = win_cap (semantic p b) /\
    win_contents (semantic p b') =
      lastn (Z.to_nat (win_cap (semantic p b))) (win_contents (semantic p b) ++ scores_in (tier_of p) [st])).
  { intros p. rewrite (scores_in_tier prim p prompt c _ _ st r Hr). destruct (Bool.eqb prim p) eqn:Ep.
    - apply Bool.eqb_prop in Ep as <-. auto.
    - assert (Hp : p = negb prim) by (destruct prim, p; first [discriminate|reflexivity]). rewrite Hp, Eo. split; [done|].
      rewrite app_nil_r, lastn_all; [done|]. specialize (Hw (negb prim)). unfold len in Hw. lia. }
  split; [|exact Hall]. intros p. destruct (Hall p) as [-> ->]. unfold len. rewrite length_lastn.
  specialize (Hw p). pose proof (len_nonneg (win_contents (semantic p b))). lia.
Qed.

Lemma chain_run_windows prompt (s s' : OState W) steps r :
  chain_run o prompt s s' steps r -> orch_ok s -> windows_ok (breakers s) ->
  windows_ok (breakers s') /\ forall p, win_cap (semantic p (breakers s')) = win_cap (semantic p (breakers s)) /\
    win_contents (semantic p (breakers s')) =
      lastn (Z.to_nat (win_cap (semantic p (breakers s))))
        (win_contents (semantic p (breakers s)) ++ scores_in (tier_of p) steps).
Proof.
  intros Hr (Hb & He & _) Hw.
  assert (Htwo : forall be st st', tier_run o true prompt (chaos s) (breakers s, eval s) be st None ->
    forall r, tier_run o false prompt (chaos s) be (breakers s', eval s') st' r -> forall rest,
    (forall p, scores_in (tier_of p) rest = []) ->
    windows_ok (breakers s') /\ forall p, win_cap (semantic p (breakers s')) = win_cap (semantic p (breakers s)) /\
      win_contents (semantic p (breakers s')) =
        lastn (Z.to_nat (win_cap (semantic p (breakers s))))
          (win_contents (semantic p (breakers s)) ++ scores_in (tier_of p) ([st] ++ [st'] ++ rest))).
  { intros [b e] st st' R1 r' R2 rest Hrest.
    destruct (tier_run_ok o true prompt _ _ _ _ _ st None R1 Hb He) as [Hb1 _].
    destruct (tier_run_windows true prompt _ _ _ _ _ st None R1 Hb Hw) as [Hw1 H1].
    destruct (tier_run_windows false prompt _ _ _ _ _ st' r' R2 Hb1 Hw1) as [Hw2 H2].
    split; [exact Hw2|]. intros p. destruct (H1 p) as [C1 E1], (H2 p) as [C2 E2].
    split; [congruence|]. rewrite E2, C1, E1, lastn_lastn_app, !scores_in_app, Hrest, app_nil_r. now rewrite <- app_assoc. }
  destruct Hr.
  - eapply tier_run_windows; eassumption.
  - eapply (Htwo _ _ _ H0 _ H1 []). reflexivity.
  - eapply (Htwo _ _ _ H0 _ H1 [st'']). intros p. eapply scores_in_final; eassumption.
  - eapply (Htwo _ _ _ H0 _ H1 [st'']). intros p. eapply scores_in_final; eassumption.
Qed.
End Series.

(** ** With both kill switches on *)

Section Killed.
Context {W : Type} `{Unicode} (o : Orchestrator W).

(** A killed tier: two clock readings and a step. *)
Definition skip_tier (clk : W -> Z * W) (ts : W -> bool -> string) (prim : bool) (s : OState W) : OState W :=
  let '(t0, w0) := clk (world s) in
  let '(t1, w1) := clk w0 in
  with_trace (AddStep (mkStep (tier_of prim) (milliseconds (time_sub t1 t0)) (ts w0 prim)
                         (sb_string (state (semantic prim (breakers s)))) None [] (Some OutcomeKilled)) (trace s))
    (with_world w1 s).

Lemma Degrade_skips prompt (s : OState W) :
  IsPrimaryKilled (chaos s) = true -> IsFallbackKilled (chaos s) = true ->
  Degrade o prompt s =
    let '(start, w0) := clock_read o (world s) in
    last_part o start prompt
      (skip_tier (clock_read o) (transport_state o) false (skip_tier (clock_read o) (transport_state o) true (with_world w0 s))).
Proof.
  intros Hp Hf. destruct s as [w b e c t ch tr st]. cbn in Hp, Hf.
  unfold Degrade. rewrite prog_bind_eq. unfold now at 1. cbn [world]. destruct (clock_read o w) as [start w0].
  rewrite prog_bind_eq.
  assert (Ep : forall w, tryPrimary o prompt (mkOState w b e c t ch tr st)
    = Some (None, skip_tier (clock_read o) (transport_state o) true (mkOState w b e c t ch tr st))).
  { intros w1. unfold tryPrimary, skip_tier, now. rewrite prog_bind_eq. cbn [world]. destruct (clock_read o w1) as [t0 w2].
    rewrite prog_bind_eq. unfold get_st. cbn [chaos with_world]. rewrite Hp.
    cbv [deferred attempt mbind mret prog_bind prog_ret now read_transport read_semantic add_step update_st].
    cbn. now destruct (clock_read o w2). }
  assert (Ef : forall w tr, tryFallback o prompt (mkOState w b e c t ch tr st)
    = Some (None, skip_tier (clock_read o) (transport_state o) false (mkOState w b e c t ch tr st))).
  { intros w1 tr1. unfold tryFallback, skip_tier, now. rewrite prog_bind_eq. cbn [world]. destruct (clock_read o w1) as [t0 w2].
    rewrite prog_bind_eq. unfold get_st. cbn [chaos with_world]. rewrite Hf.
    cbv [deferred attempt mbind mret prog_bind prog_ret now read_transport read_semantic add_step update_st].
    cbn. now destruct (clock_read o w2). }
  unfold with_world. cbn [breakers eval sc tel chaos trace started]. rewrite Ep, prog_bind_eq.
  unfold skip_tier at 1. cbn [world breakers]. destruct (clock_read o w0) as [t0 w1] eqn:E0.
  destruct (clock_read o w1) as [t1 w2] eqn:E1. unfold with_trace, with_world. cbn [breakers eval sc tel chaos trace started world].
  rewrite Ef. symmetry.
  unfold skip_tier at 2. cbn [world breakers]. rewrite E0. cbv beta iota. rewrite E1. reflexivity.
Qed.

Lemma last_part_clock (o' : Orchestrator W) start prompt s : clock_read o = clock_read o' ->
  last_part o start prompt s = last_part o' start prompt s.
Proof. intros Hc. unfold last_part, cache_get, now. now rewrite Hc. Qed.

Lemma last_part_frame start prompt (s : OState W) r s' : last_part o start prompt s = Some (r, s') ->
  breakers s' = breakers s /\ eval s' = eval s /\ res_Tier r <> TierPrimary /\ res_Tier r <> TierFallback.
Proof.
  unfold last_part. rewrite prog_bind_eq.
  assert (Ec : exists c w, cache_get o prompt s = Some (c, with_world w s)).
  { unfold cache_get, now. rewrite prog_bind_eq. destruct (clock_read o (world s)) as [t w]. eexists _, w. reflexivity. }
  destruct Ec as (c & w & ->). destruct c as [text|]; rewrite prog_bind_eq; unfold now; cbn [world with_world];
    destruct (clock_read o w) as [t1 w1]; cbv zeta; rewrite prog_bind_eq.
  - unfold record_latency. destruct (Record_latency _ _ _); cbn [mbind option_bind]; [|discriminate].
    intros [= <- <-]. auto.
  - intros [= <- <-]. auto.
Qed.
End Killed.

(** ** A concrete deployment, for the witnesses *)

Module Sample.
(** A retry loop: at most [n] more calls while [retryIf] accepts the error. *)
Fixpoint retry_loop {W R} (retryIf : option GoError -> bool) (n : nat)
    (fn : W * R -> option GoError * (W * R)) (s : W * R) : option GoError * (W * R) :=
  match n with
  | O => fn s
  | S n => match fn s with
           | (None, s) => (None, s)
           | (Some err, s) => if retryIf (Some err) then retry_loop retryIf n fn s else (Some err, s)
           end
  end.
Definition direct {W} : Guard W := mkGuard (fun R fn s => fn s).
Definition retry {W} (f : option GoError -> bool) (n backoff : Z) : Guard W :=
  mkGuard (fun R fn s => retry_loop f (Z.to_nat n) fn s).

#[export] Instance direct_laws {W} : GuardLaws (@direct W).
Proof. split; intros R P fn s H1; [intros H2; now apply H1|intros _; apply H1]. Qed.

#[export] Instance retry_laws {W} f n d : GuardLaws (@retry W f n d).
Proof.
  split; cbn; generalize (Z.to_nat n); intros k R P fn s Hk.
  - revert s. induction k as [|k IH]; intros s Hp; cbn [retry_loop]; [now apply Hk|].
    pose proof (Hk s Hp) as Hf. destruct (fn s) as [[err|] s1]; [|exact Hf]. case_bool; [now apply IH|exact Hf].
  - intros Hkeep. revert s. induction k as [|k IH]; intros s; cbn [retry_loop]; [apply Hk|].
    specialize (Hk s). destruct (fn s) as [[err|] s1]; [|exact Hk]. case_bool; [apply IH|discriminate].
Qed.

Definition answering (text : string) : LLMProvider Z :=
  mkProvider (fun _ w => (inr (mkResponse text 0 0 "stop"), w)) (fun _ w => ([Send text; Close], None, w))
    (fun _ => None) (fun w => (None, w)) "sample".
Definition down : LLMProvider Z :=
  mkProvider (fun _ w => (inl (mkError "connection refused" true None), w))
    (fun _ w => ([Close], Some (mkError "connection refused" true None), w)) (fun _ => None) (fun w => (None, w)) "down".

(** The world is the clock; it advances by a millisecond per reading. *)
Definition orch (p f : LLMProvider Z) : Orchestrator Z :=
  mkOrch p f "large" "small" direct direct direct retry (fun _ _ => "closed"%string)
    (fun w => (w, w + millisecond)) 2 (300 * millisecond).
Definition state0 (c : Chaos) : OState Z :=
  mkOState 0 (mkBreakers fresh_breaker fresh_breaker) (NewEvaluator None)
    (SemanticCache.New (10 * minute) None SemanticCache.defaultSimilarityThreshold 4)
    (mkTel NewCostTracker NewLatencyTracker) c (newTrace [] 0 0 "q") [].

Lemma orch_laws p f :
  (forall req w r w', Generate p req w = (inr r, w') -> slen (Text r) < max_text) ->
  (forall req w r w', Generate f req w = (inr r, w') -> slen (Text r) < max_text) -> OrchLaws (orch p f).
Proof. intros Hp Hf. split; [exact direct_laws|exact direct_laws|exact direct_laws|exact retry_laws|exact Hp|exact Hf]. Qed.
Lemma short_answering text : slen text < max_text ->
  forall req w r w', Generate (answering text) req w = (inr r, w') -> slen (Text r) < max_text.
Proof. intros Ht req w r w' [= <- _]. exact Ht. Qed.
Lemma short_down req w r w' : Generate down req w = (inr r, w') -> slen (Text r) < max_text.
Proof. discriminate. Qed.
Lemma state0_ok c : orch_ok (state0 c).
Proof.
  split; [split; exact fresh_breaker_ok|]. split; [apply NewEvaluator_ok; discriminate|].
  split; [|intros t; apply tracker_ok_new]. split; [|constructor]. split; [constructor|intros _; vm_compute; discriminate].
Qed.

Definition answer : string := "Paris is the capital of France.".
Definition outage : Orchestrator Z := orch down (answering answer).
#[export] Instance outage_laws : OrchLaws outage.
Proof. apply orch_laws; [exact short_down|apply short_answering; reflexivity]. Qed.
End Sample.
#[local] Existing Instance Sample.outage_laws.

(** ** Properties of the chain *)

(** C14.  The degradation chain is total and implements its specification:
    from a well-formed state every request is answered without a panic by
    exactly one rule of [chain_run] (primary; then fallback; then cache; then
    denial), whose steps are appended to the trace in that order, whose
    verdicts are those of the evaluator and of the semantic breakers, whose
    text is stored in the cache exactly when a model produced it, and which
    counts the request once, under the tier that answered; the breakers, the
    evaluator, the cache and the latency windows stay well formed. *)
Theorem Degrade_refines {W} `{Unicode} (o : Orchestrator W) {Hlaws : OrchLaws o} prompt s : orch_ok s ->
  exists r s' steps, Degrade o prompt s = Some (r, s') /\ orch_ok s' /\
    Steps (trace s') = Steps (trace s) ++ steps /\ chain_run o prompt s s' steps r.
Proof.
  intros Hs. destruct (Degrade_runs o prompt s Hs) as (r & s' & E & Hok & steps & Ht & Hr).
  exists r, s', steps. auto.
Qed.

Lemma Degrade_refines_witness :
  orch_ok (Sample.state0 (NewChaos true)) /\
  exists r s' steps, Degrade Sample.outage "What is the capital?" (Sample.state0 (NewChaos true)) = Some (r, s') /\
    orch_ok s' /\ Steps (trace s') = steps /\
    chain_run Sample.outage "What is the capital?" (Sample.state0 (NewChaos true)) s' steps r /\
    r = mkTierResult Sample.answer TierFallback false.
Proof.
  split; [apply Sample.state0_ok|].
  destruct (Degrade_refines Sample.outage "What is the capital?" (Sample.state0 (NewChaos true)) (Sample.state0_ok _))
    as (r & s' & steps & E & Hok & Ht & Hr).
  exists r, s', steps. split; [exact E|]. split; [exact Hok|]. split; [exact Ht|]. split; [exact Hr|].
  assert (Er : option_map fst (Degrade Sample.outage "What is the capital?" (Sample.state0 (NewChaos true)))
    = Some (mkTierResult Sample.answer TierFallback false)) by (vm_compute; reflexivity).
  rewrite E in Er. injection Er as <-. reflexivity.
Defined.

(** C15.  No unjudged answer: a result of a live tier is a text that the
    tier's model generated for this prompt and that scored at least
    [QualityAcceptable], as the tier's step in the trace reports; the fallback
    answers only after the primary failed; a cached result is what the
    semantic cache held before the request; and the denial is given only when
    both models failed and the cache had no entry. *)
Theorem Degrade_answer {W} `{Unicode} (o : Orchestrator W) {Hlaws : OrchLaws o} prompt s r s' :
  orch_ok s -> Degrade o prompt s = Some (r, s') ->
  let good prim st := generated o prim prompt (res_Text r) /\ st_Outcome st = Some OutcomeSuccess /\
    exists q, QualityScore st = Some q /\ in_unit q /\ fle QualityAcceptable q = true in
  let failed st := st_Outcome st <> Some OutcomeSuccess in
  exists steps, Steps (trace s') = Steps (trace s) ++ steps /\
  match res_Tier r with
  | TierPrimary => exists p, steps = [p] /\ good true p /\ res_Cached r = false
  | TierFallback => exists p f, steps = [p; f] /\ failed p /\ good false f /\ res_Cached r = false
  | TierCache => exists p f c t, steps = [p; f; c] /\ failed p /\ failed f /\
      SemanticCache.Get t (sc s) prompt = Some (res_Text r) /\ res_Cached r = true
  | TierDegraded => exists p f d t, steps = [p; f; d] /\ failed p /\ failed f /\
      SemanticCache.Get t (sc s) prompt = None /\ res_Text r = denial_text
  end.
Proof.
  intros Hs E good failed. destruct (Degrade_runs o prompt s Hs) as (r0 & s0 & E0 & _ & steps & Ht & Hr).
  rewrite E in E0. injection E0 as <- <-. exists steps. split; [exact Ht|]. destruct Hs as (Hb & He & _).
  assert (Hfail : forall prim u u' st, tier_run o prim prompt (chaos s) u u' st None -> failed st)
    by (intros; eapply (tier_run_failed o); eassumption).
  assert (Hgood : forall prim b e u' st text, tier_run o prim prompt (chaos s) (b, e) u' st (Some text) -> eval_ok e ->
    generated o prim prompt text /\ st_Outcome st = Some OutcomeSuccess /\
    exists q, QualityScore st = Some q /\ in_unit q /\ fle QualityAcceptable q = true) by
    (intros; eapply (tier_run_good o); eassumption).
  destruct Hr as [? st text t t' R1|? be st st' text t t' R1 R2|? be st st' st'' text t R1 R2 Hg|? be st st' st'' t R1 R2 Hg];
    cbn [res_Tier res_Cached res_Text].
  - exists st. split; [done|]. split; [|done]. eapply Hgood; eassumption.
  - exists st, st'. split; [done|]. split; [eapply Hfail; exact R1|]. split; [|done].
    destruct be as [b1 e1]. destruct (tier_run_ok o true prompt _ _ _ _ _ _ _ R1 Hb He) as [_ He1].
    eapply Hgood; eassumption.
  - exists st, st', st'', t. split; [done|]. split; [eapply Hfail; exact R1|]. split; [eapply Hfail; exact R2|]. auto.
  - exists st, st', st'', t. split; [done|]. split; [eapply Hfail; exact R1|]. split; [eapply Hfail; exact R2|]. auto.
Qed.

Lemma Degrade_answer_witness :
  exists r s', Degrade Sample.outage "What is the capital?" (Sample.state0 (NewChaos true)) = Some (r, s') /\
    exists p f q, Steps (trace s') = [p; f] /\ st_Outcome p <> Some OutcomeSuccess /\
      generated Sample.outage false "What is the capital?" (res_Text r) /\
      QualityScore f = Some q /\ fle QualityAcceptable q = true.
Proof.
  destruct (Degrade Sample.outage "What is the capital?" (Sample.state0 (NewChaos true))) as [[r s']|] eqn:E;
    [|vm_compute in E; discriminate].
  exists r, s'. split; [done|].
  destruct (Degrade_answer Sample.outage "What is the capital?" (Sample.state0 (NewChaos true)) r s' (Sample.state0_ok _) E)
    as (steps & Ht & Hr).
  assert (Er : option_map (fun x => res_Tier x.1) (Degrade Sample.outage "What is the capital?" (Sample.state0 (NewChaos true)))
    = Some TierFallback) by (vm_compute; reflexivity).
  rewrite E in Er. injection Er as Er. rewrite Er in Hr.
  destruct Hr as (p & f & -> & Hp & (Hg & _ & q & Hq & _ & Hl) & _).
  exists p, f, q. auto.
Defined.

(** C16.  The semantic breakers judge exactly what the traces report: after
    any series of requests the score window of each breaker is the last
    [WindowSize] of its scores before and of the quality scores in the steps
    of its tier, in order; attempts that were skipped or failed in transport
    add nothing. *)
Theorem breaker_window_is_trace {W} `{Unicode} (o : Orchestrator W) {Hlaws : OrchLaws o} l s :
  orch_ok s -> windows_ok (breakers s) -> Forall (fun x => Steps x.1 = []) l ->
  exists trs s', serve_all o l s = Some (trs, s') /\ orch_ok s' /\ length trs = length l /\
    forall prim, win_contents (semantic prim (breakers s')) =
      lastn (Z.to_nat (win_cap (semantic prim (breakers s))))
        (win_contents (semantic prim (breakers s)) ++ concat (map (fun tr => scores_in (tier_of prim) (Steps tr)) trs)).
Proof.
  intros Hs Hw Hl. revert s Hs Hw. induction Hl as [|[tr prompt] l Htr Hl IH]; intros s Hs Hw; cbn [serve_all].
  - exists [], s. split; [done|]. split; [done|]. split; [done|]. intros prim. cbn [map concat].
    rewrite app_nil_r, lastn_all; [done|]. specialize (Hw prim). unfold len in Hw. lia.
  - destruct (Degrade_runs o prompt (with_trace tr s) Hs) as (r & s1 & -> & Hs1 & steps & Ht & Hr).
    cbn [mbind option_bind]. cbn [trace with_trace] in Ht. cbn [fst] in Htr. rewrite Htr in Ht. cbn [app] in Ht.
    destruct (chain_run_windows o prompt _ _ _ _ Hr Hs Hw) as [Hw1 H1].
    destruct (IH s1 Hs1 Hw1) as (trs & s' & -> & Hs' & Hlen & H2). cbn [mbind option_bind].
    exists (trace s1 :: trs), s'. split; [done|]. split; [done|]. split; [cbn; lia|]. intros prim.
    destruct (H1 prim) as [C1 E1]. rewrite H2, C1, E1, lastn_lastn_app, <- app_assoc. cbn [map concat]. now rewrite Ht.
Qed.

Lemma breaker_window_is_trace_witness :
  exists trs s', serve_all Sample.outage [(newTrace [] 0 0 "q", "q"); (newTrace [] 0 0 "r", "r")]%string
    (Sample.state0 (NewChaos true)) = Some (trs, s') /\
    win_contents (PrimarySemantic (breakers s')) = [] /\
    win_contents (FallbackSemantic (breakers s')) = concat (map (fun tr => scores_in TierFallback (Steps tr)) trs) /\
    length (win_contents (FallbackSemantic (breakers s'))) = 2%nat.
Proof.
  destruct (serve_all Sample.outage [(newTrace [] 0 0 "q", "q"); (newTrace [] 0 0 "r", "r")]%string
    (Sample.state0 (NewChaos true))) as [[trs s']|] eqn:E; [|vm_compute in E; discriminate].
  exists trs, s'. split; [done|].
  destruct (breaker_window_is_trace Sample.outage [(newTrace [] 0 0 "q", "q"); (newTrace [] 0 0 "r", "r")]%string
    (Sample.state0 (NewChaos true))) as (trs0 & s0 & E0 & _ & _ & Hw).
  - apply Sample.state0_ok.
  - intros []; vm_compute; discriminate.
  - repeat constructor.
  - rewrite E in E0. injection E0 as <- <-.
    assert (Ex : option_map (fun x => (length (concat (map (fun tr => scores_in TierPrimary (Steps tr)) x.1)),
       length (concat (map (fun tr => scores_in TierFallback (Steps tr)) x.1))))
       (serve_all Sample.outage [(newTrace [] 0 0 "q", "q"); (newTrace [] 0 0 "r", "r")]%string
         (Sample.state0 (NewChaos true))) = Some (0%nat, 2%nat)) by (vm_compute; reflexivity).
    rewrite E in Ex. injection Ex as Ep Ef.
    pose proof (Hw true) as Hp. pose proof (Hw false) as Hf. cbn [semantic] in Hp, Hf.
    change (win_contents (PrimarySemantic (breakers (Sample.state0 (NewChaos true))))) with (@nil f64) in Hp.
    change (win_contents (FallbackSemantic (breakers (Sample.state0 (NewChaos true))))) with (@nil f64) in Hf.
    cbn [app tier_of fst snd] in *. apply nil_length_inv in Ep. rewrite Ep in Hp. rewrite lastn_all in Hf.
    + split; [exact Hp|]. split; [exact Hf|]. rewrite Hf. exact Ef.
    + etransitivity; [apply Nat.eq_le_incl, Ef|]. vm_compute. lia.
Defined.

(** The kill switches isolate the models: with both on, the request
    does not depend on the providers, on their guards or on the models (any
    two orchestrators with the same clock and transport states answer alike),
    it is answered by the cache or by the denial, and it changes neither the
    breakers nor the evaluator. *)
Theorem Degrade_killed {W} `{Unicode} (o o' : Orchestrator W) prompt s :
  IsPrimaryKilled (chaos s) = true -> IsFallbackKilled (chaos s) = true ->
  clock_read o = clock_read o' -> transport_state o = transport_state o' ->
  Degrade o prompt s = Degrade o' prompt s /\
  forall r s', Degrade o prompt s = Some (r, s') ->
    breakers s' = breakers s /\ eval s' = eval s /\ res_Tier r <> TierPrimary /\ res_Tier r <> TierFallback.
Proof.
  intros Hp Hf Hc Ht. rewrite !Degrade_skips by assumption.
  rewrite <- Hc, <- Ht. destruct (clock_read o (world s)) as [start w0].
  split; [now apply last_part_clock|]. intros r s' E.
  apply last_part_frame in E as (E1 & E2 & E3).
  rewrite E1, E2. split; [|split; [|exact E3]]; unfold skip_tier; now repeat case_match.
Qed.

Lemma Degrade_killed_witness :
  let s := Sample.state0 (KillFallback 0 (KillPrimary 0 (NewChaos true))) in
  let o' := Sample.orch (Sample.answering "a") Sample.down in
  Degrade Sample.outage "q" s = Degrade o' "q" s /\
  exists r s', Degrade Sample.outage "q" s = Some (r, s') /\ breakers s' = breakers s /\ res_Tier r = TierDegraded.
Proof.
  intros s o'. destruct (Degrade_killed Sample.outage o' "q" s) as [E Hall]; [reflexivity..|].
  split; [exact E|]. destruct (Degrade Sample.outage "q" s) as [[r s']|] eqn:Ed; [|vm_compute in Ed; discriminate].
  exists r, s'. split; [done|]. destruct (Hall r s' eq_refl) as (Hb & _). split; [exact Hb|].
  assert (Er : option_map (fun x => res_Tier x.1) (Degrade Sample.outage "q" s) = Some TierDegraded) by (vm_compute; reflexivity).
  rewrite Ed in Er. injection Er as <-. reflexivity.
Defined.

(** ** What the model shows of the code *)

Section ProbeLeak.
Context {W : Type} `{Unicode} (o : Orchestrator W).

Lemma tier_leaks_probe prim prompt c b e b' e' st r :
  tier_run o prim prompt c (b, e) (b', e') st r ->
  state (semantic prim b) = SBFailing -> st_Outcome st = Some OutcomeTransportError ->
  state (semantic prim b') = SBFailing /\ probeInFlight (semantic prim b') = true.
Proof.
  intros Hr Hst Ho.
  inversion Hr as [? ? ? ? (_ & Ho' & _)|? ? ? ? ? ? (_ & Ho' & _)|? ? t sb ? Hk Hsb (_ & Ho' & _)
    |? ? t sb text' qr ? t' sb' ev ? Hk Hsb Hg Hev Hrec (_ & _ & _ & Ho')]; subst;
    try (rewrite Ho' in Ho; try discriminate; now destruct (rejected qr)).
  rewrite semantic_set. unfold ShouldBlock in Hsb. rewrite decide_True in Hsb by exact Hst.
  repeat (revert Hsb; case_bool; intros Hsb); simplify_eq. auto.
Qed.
Lemma fallback_keeps_primary prompt c b e b' e' st r :
  tier_run o false prompt c (b, e) (b', e') st r -> PrimarySemantic b' = PrimarySemantic b.
Proof. intros Hr. now inversion Hr; subst. Qed.
End ProbeLeak.

(** A probe that fails in transport is never given back: when a request
    finds the primary's semantic breaker failing and its attempt at the
    primary (the first step it records) ends in a transport error, it leaves
    the breaker failing with the probe taken, and however long and however
    often it is asked from then on, it admits nobody. *)
Theorem transport_error_leaks_probe {W} `{Unicode} (o : Orchestrator W) {Hlaws : OrchLaws o} prompt s r s' st rest :
  orch_ok s -> state (PrimarySemantic (breakers s)) = SBFailing ->
  Degrade o prompt s = Some (r, s') -> Steps (trace s') = Steps (trace s) ++ st :: rest ->
  st_Outcome st = Some OutcomeTransportError ->
  state (PrimarySemantic (breakers s')) = SBFailing /\ probeInFlight (PrimarySemantic (breakers s')) = true /\
  forall nows, admitted (ask_all nows (PrimarySemantic (breakers s'))).1 = 0.
Proof.
  intros Hok Hst E Ht Ho. destruct (Degrade_runs o prompt s Hok) as (r0 & s0 & E0 & _ & steps & Es & Hc).
  rewrite E in E0. injection E0 as <- <-. rewrite Es in Ht. apply app_inv_head in Ht. subst steps.
  assert (Hb : state (PrimarySemantic (breakers s')) = SBFailing /\ probeInFlight (PrimarySemantic (breakers s')) = true).
  { inversion Hc; subst;
      try match goal with be : (BreakerSet * QualityEvaluator)%type |- _ => destruct be as [b1 e1] end;
      try match goal with Hf : tier_run _ false _ _ _ _ _ _ |- _ => apply fallback_keeps_primary in Hf; rewrite Hf end;
      match goal with Hp : tier_run _ true _ _ _ _ _ _ |- _ => exact (tier_leaks_probe o _ _ _ _ _ _ _ _ _ Hp Hst Ho) end. }
  destruct Hb as [H1 H2]. split; [exact H1|]. split; [exact H2|]. intros nows. now apply ask_all_held.
Qed.

Lemma transport_error_leaks_probe_witness :
  let s := with_world (60 * second) (with_breakers (mkBreakers failing_breaker fresh_breaker) (Sample.state0 (NewChaos true))) in
  exists s', option_map snd (Degrade Sample.outage "q" s) = Some s' /\
    forall nows, admitted (ask_all nows (PrimarySemantic (breakers s'))).1 = 0.
Proof.
  intros s.
  destruct (Degrade Sample.outage "q" s) as [[r s']|] eqn:E; [|vm_compute in E; discriminate].
  exists s'. split; [reflexivity|].
  assert (Hs : exists st rest, option_map (fun x => Steps (trace x.2)) (Degrade Sample.outage "q" s) = Some (st :: rest) /\
    st_Outcome st = Some OutcomeTransportError) by (eexists _, _; split; vm_compute; reflexivity).
  destruct Hs as (st & rest & Es & Eo). rewrite E in Es. injection Es as Es.
  apply (transport_error_leaks_probe Sample.outage "q" s r s' st rest); [|reflexivity|exact E|exact Es|exact Eo].
  destruct (Sample.state0_ok (NewChaos true)) as (_ & He & Hc & Hl).
  split; [split; [|exact fresh_breaker_ok]|auto]. exact (failing_breaker_ok 0).
Defined.

(** The same on a run: one outage during a probe, an hour later the primary
    is back and still never asked. *)
Example outage_during_probe :
  let s := with_world (60 * second) (with_breakers (mkBreakers failing_breaker fresh_breaker) (Sample.state0 (NewChaos true))) in
  exists r s', Degrade Sample.outage "q" s = Some (r, s') /\
    option_map (fun x => map (fun st => (st_Tier st, st_Outcome st)) (Steps (trace x.2)))
      (Degrade (Sample.orch (Sample.answering Sample.answer) Sample.down) "q"
         (with_trace (newTrace [] 0 0 "q") (with_world (3660 * second) s')))
      = Some [(TierPrimary, Some OutcomeSemanticCBOpen); (TierFallback, Some OutcomeTransportError); (TierDegraded, Some OutcomeGracefulDenial)].
Proof.
  intros s. destruct (Degrade Sample.outage "q" s) as [[r s']|] eqn:E; [|vm_compute in E; discriminate].
  exists r, s'. split; [done|].
  transitivity (match Degrade Sample.outage "q" s with
    | Some (_, s') => option_map (fun x => map (fun st => (st_Tier st, st_Outcome st)) (Steps (trace x.2)))
        (Degrade (Sample.orch (Sample.answering Sample.answer) Sample.down) "q"
         (with_trace (newTrace [] 0 0 "q") (with_world (3660 * second) s'))) | None => None end);
    [now rewrite E|]. vm_compute. reflexivity.
Qed.
