(* ===== verification/Stream.v ===== *)
(** * The quality-gated stream (orchestrator/stream.go)

    [StreamWithQualityGate] forwards the primary's chunks to the client and
    looks for refusal markers at the chunks 30, 60, 90 and 120; on a hit, or
    when the primary's stream ends with an error, the fallback's stream
    follows.  The producer goroutine writes the channel the loop ranges over:
    the list of its channel operations is what [Stream] returns (the contract
    of the interface: sends, then one close), and a channel that is never
    closed blocks the loop ([None]).  The client is an oracle: [client k] says
    whether the [k]-th event (from 0) is received before its context ends. *)
From S2P Require Import Prelude RingBuffer Float64 GoStrings Evaluator Breaker Provider Chaos Telemetry Memory Orchestrator.
From Stdlib Require Import ZArith Lia Reals Lra String SpecFloat.
From stdpp Require Import base tactics list gmap strings.
#[local] Open Scope Z_scope.

Record StreamToken := mkToken { Token : string; Done : bool; tok_Tier : Tier; Switched : bool; Reason : string }.
Definition chunk_token (tier : Tier) (text : string) : StreamToken := mkToken text false tier false "".
Definition switch_token (reason : string) : StreamToken :=
  mkToken "" false TierFallback true ("quality gate: " +:+ reason).

Definition Client : Type := Z -> bool.

(** [sendToken]: the events received so far, and whether this one is. *)
Definition sendToken (client : Client) (out : list StreamToken) (t : StreamToken) : bool * list StreamToken :=
  if client (len out) then (true, out ++ [t]) else (false, out).

(** [for range rawTokens {}]: ends when the channel is closed. *)
Fixpoint drain (ops : list ChanOp) : option unit :=
  match ops with
  | [] => None
  | Close :: _ => Some tt
  | Send _ :: ops => drain ops
  end.

(** How the loop over the primary's chunks ends. *)
Inductive GateEnd := Exhausted | Tripped | ClientGone.

Section Stream.
Context {W : Type} `{Unicode} (o : Orchestrator W).
Notation P := (Prog (OState W)).

Definition gate_trips (tokenCount : Z) (buf : string) : bool :=
  (Z.rem tokenCount 30 =? 0) && (tokenCount <=? 120) && flt (RefusalMarkerScore buf).1 (flit 5 10).

Fixpoint primary_loop (client : Client) (ops : list ChanOp) (buf : string) (tokenCount : Z) (out : list StreamToken)
    : option (GateEnd * list StreamToken) :=
  match ops with
  | [] => None
  | Close :: _ => Some (Exhausted, out)
  | Send token :: ops =>
      let buf := buf +:+ token in
      let tokenCount := wrap64 (tokenCount + 1) in
      if gate_trips tokenCount buf then
        _ ← drain ops;
        let '(sent, out) := sendToken client out (switch_token (RefusalMarkerScore buf).2) in
        Some (if sent : bool then Tripped else ClientGone, out)
      else
        let '(sent, out) := sendToken client out (chunk_token TierPrimary token) in
        if sent : bool then primary_loop client ops buf tokenCount out
        else _ ← drain ops; Some (ClientGone, out)
  end.

(** The fallback's loop: [true] if it ran to the end. *)
Fixpoint fallback_loop (client : Client) (ops : list ChanOp) (out : list StreamToken) : option (bool * list StreamToken) :=
  match ops with
  | [] => None
  | Close :: _ => Some (true, out)
  | Send token :: ops =>
      let '(sent, out) := sendToken client out (chunk_token TierFallback token) in
      if sent : bool then fallback_loop client ops out else _ ← drain ops; Some (false, out)
  end.

Definition stream_request (model prompt : string) : Request := mkRequest model prompt "" 0 [].

Definition canUsePrimary : P bool :=
  s ← get_st;
  if IsPrimaryKilled (chaos s) then mret false
  else
    blocked ← should_block o true;
    if (blocked : bool) then mret false
    else tcb ← read_transport o true; mret (String.eqb tcb "closed").

Definition primary_stream (client : Client) (prompt : string) : P (GateEnd * option GoError * list StreamToken) := fun s =>
  let '(ops, streamErr, w) := Stream (primary o) (stream_request (primaryModel o) prompt) (world s) in
  '(e, out) ← primary_loop client ops EmptyString 0 [];
  Some (e, streamErr, out, with_world w s).

Definition fallback_stream (client : Client) (prompt : string) (out : list StreamToken) : P (Tier * bool * list StreamToken) := fun s =>
  let '(ops, _, w) := Stream (fallback o) (stream_request (fallbackModel o) prompt) (world s) in
  '(complete, out) ← fallback_loop client ops out;
  Some (TierFallback, negb complete, out, with_world w s).

(** The tier returned, whether the error is [ctx.Err()] (else nil), and the
    events the client received. *)
Definition StreamWithQualityGate (client : Client) (prompt : string) : P (Tier * bool * list StreamToken) :=
  usable ← canUsePrimary;
  if (usable : bool) then
    '(e, streamErr, out) ← primary_stream client prompt;
    match e, streamErr with
    | ClientGone, _ => mret (TierPrimary, true, out)
    | Exhausted, None => mret (TierPrimary, false, out)
    | _, _ => fallback_stream client prompt out
    end
  else fallback_stream client prompt [].

(** ** The events the stream promises

    [gate_at]: the chunk at which the gate trips, if any. *)
Definition gate_points : list nat := [30; 60; 90; 120]%nat.
Definition text_of (chunks : list string) : string := foldl (fun b t => b +:+ t) EmptyString chunks.
Definition low_at (chunks : list string) (n : nat) : bool :=
  (n <=? length chunks)%nat && flt (RefusalMarkerScore (text_of (take n chunks))).1 (flit 5 10).
Definition gate_at (chunks : list string) : option nat := List.find (low_at chunks) gate_points.

Definition primary_events (chunks : list string) : list StreamToken :=
  match gate_at chunks with
  | Some n => map (chunk_token TierPrimary) (take (n - 1) chunks)
              ++ [switch_token (RefusalMarkerScore (text_of (take n chunks))).2]
  | None => map (chunk_token TierPrimary) chunks
  end.

(** What an impatient client gets of a list of events. *)
Fixpoint received (client : Client) (k : Z) (events : list StreamToken) : list StreamToken :=
  match events with
  | [] => []
  | t :: events => if client k then t :: received client (k + 1) events else []
  end.
End Stream.

(** ** The loops refine the promised events *)

Section Loops.
Context {W : Type} `{Unicode}.

Lemma len_nil_cons {A B} (x : B) l : (len (@nil A) =? len (x :: l)) = false.
Proof. apply Z.eqb_neq. rewrite len_cons. pose proof (len_nonneg l). unfold len at 1. cbn. lia. Qed.

Lemma received_app client a b : forall k, received client k (a ++ b) =
  if len (received client k a) =? len a then a ++ received client (k + len a) b else received client k a.
Proof.
  induction a as [|t a IH]; intros k; cbn [received app]; [change (len (@nil StreamToken)) with 0; now rewrite Z.add_0_r|].
  destruct (client k); [|now rewrite len_nil_cons].
  rewrite IH, !len_cons. destruct (Z.eqb_spec (len (received client (k + 1) a)) (len a)).
  - rewrite (proj2 (Z.eqb_eq _ _)) by lia. do 3 f_equal. lia.
  - now rewrite (proj2 (Z.eqb_neq _ _)) by lia.
Qed.

Lemma received_len client l : forall k, len (received client k l) <= len l.
Proof.
  induction l as [|t l IH]; intros k; cbn [received]; [done|].
  destruct (client k); rewrite !len_cons; [specialize (IH (k + 1)); lia|]. pose proof (len_nonneg l). unfold len at 1. cbn. lia.
Qed.
Lemma received_all client l : forall k, len (received client k l) = len l -> received client k l = l.
Proof.
  induction l as [|t l IH]; intros k; cbn [received]; [done|].
  destruct (client k); rewrite !len_cons; [intros; f_equal; apply IH; lia|]. pose proof (len_nonneg l). unfold len at 1. cbn. lia.
Qed.
Lemma eqb_add_l a b c : (a + b =? a + c) = (b =? c).
Proof. apply eq_true_iff_eq. rewrite !Z.eqb_eq. lia. Qed.

Lemma drain_close chunks : drain (map Send chunks ++ [Close]) = Some tt.
Proof. induction chunks; [done|exact IHchunks]. Qed.

Lemma text_of_snoc done t : text_of (done ++ [t]) = text_of done +:+ t.
Proof. unfold text_of. now rewrite foldl_app. Qed.

(** The events of the chunks [rest] after the chunks [done]. *)
Fixpoint events_from (done rest : list string) : list StreamToken * bool :=
  match rest with
  | [] => ([], false)
  | t :: rest =>
      let done := done ++ [t] in
      if gate_trips (len done) (text_of done) then ([switch_token (RefusalMarkerScore (text_of done)).2], true)
      else let '(ev, tripped) := events_from done rest in (chunk_token TierPrimary t :: ev, tripped)
  end.

Definition loop_end (ev out : list StreamToken) (tripped : bool) : GateEnd :=
  if len out =? len ev then if tripped then Tripped else Exhausted else ClientGone.

Lemma primary_loop_spec client rest : forall done out, len done + len rest <= int64_max ->
  let ev := (events_from done rest).1 in
  let got := received client (len out) ev in
  primary_loop client (map Send rest ++ [Close]) (text_of done) (len done) out
    = Some (loop_end ev got (events_from done rest).2, out ++ got).
Proof.
  induction rest as [|t rest IH]; intros done out Hlen; cbn [map app primary_loop events_from].
  - cbn. now rewrite app_nil_r.
  - rewrite len_cons in Hlen. pose proof (len_nonneg done). pose proof (len_nonneg rest).
    assert (Hn : wrap64 (len done + 1) = len (done ++ [t])).
    { rewrite len_app, wrap64_id; [reflexivity|]. unfold int64_min, int64_max in *. lia. }
    rewrite Hn, <- text_of_snoc. destruct (gate_trips (len (done ++ [t])) (text_of (done ++ [t]))).
    + rewrite drain_close. cbn [mbind option_bind fst snd received]. unfold sendToken.
      destruct (client (len out)); cbn; [done|now rewrite app_nil_r].
    + unfold sendToken. specialize (IH (done ++ [t]) (out ++ [chunk_token TierPrimary t])).
      destruct (events_from (done ++ [t]) rest) as [ev b]. cbn [fst snd received] in *.
      destruct (client (len out)).
      * rewrite IH by (rewrite len_app; unfold len at 2; cbn; lia). rewrite (len_app out). change (len [_]) with 1.
        rewrite <- app_assoc. unfold loop_end. rewrite !len_cons.
        replace (_ + 1 =? _ + 1) with (len (received client (len out + 1) ev) =? len ev); [done|].
        apply eq_true_iff_eq. rewrite !Z.eqb_eq. lia.
      * rewrite drain_close. cbn. unfold loop_end. now rewrite app_nil_r, len_nil_cons.
Qed.

Lemma fallback_loop_spec client chunks : forall out,
  let got := received client (len out) (map (chunk_token TierFallback) chunks) in
  fallback_loop client (map Send chunks ++ [Close]) out = Some (len got =? len chunks, out ++ got).
Proof.
  induction chunks as [|t chunks IH]; intros out; cbn [map app fallback_loop received].
  - now rewrite app_nil_r.
  - unfold sendToken. destruct (client (len out)).
    + rewrite IH, len_app, <- app_assoc. change (len [_]) with 1. rewrite !len_cons. do 2 f_equal.
      apply eq_true_iff_eq. rewrite !Z.eqb_eq. lia.
    + rewrite drain_close. cbn [mbind option_bind]. now rewrite app_nil_r, len_nil_cons.
Qed.

(** ** The gate *)

Lemma gate_trips_point done rest n : n = length done -> n ∈ gate_points ->
  gate_trips (len done) (text_of done) = low_at (done ++ rest) n.
Proof.
  intros -> Hn. unfold gate_trips, low_at, len. rewrite length_app, take_app_length.
  rewrite (proj2 (Nat.leb_le _ _)) by lia. f_equal.
  unfold gate_points in Hn. rewrite !elem_of_cons, elem_of_nil in Hn.
  destruct Hn as [-> | [-> | [-> | [-> | []]]]]; reflexivity.
Qed.
Lemma gate_trips_points done : done <> [] -> gate_trips (len done) (text_of done) = true -> length done ∈ gate_points.
Proof.
  unfold gate_trips, len. intros Hne Ht. zbool. assert (0 < length done)%nat by (destruct done; [done|cbn; lia]).
  assert (Hk : exists k, Z.of_nat (length done) = 30 * k /\ 1 <= k <= 4).
  { exists (Z.quot (Z.of_nat (length done)) 30). Z.to_euclidean_division_equations. lia. }
  destruct Hk as (k & Hk & Hr). assert (Hc : (length done = 30 \/ length done = 60 \/ length done = 90 \/ length done = 120)%nat) by lia.
  unfold gate_points. rewrite !elem_of_cons. tauto.
Qed.

Lemma find_points f n : n ∈ gate_points -> f n = true -> (forall m, m ∈ gate_points -> (m < n)%nat -> f m = false) ->
  List.find f gate_points = Some n.
Proof.
  intros Hn Hf Hlt. unfold gate_points in *. cbn [List.find].
  assert (Hin : forall m, m = 30%nat \/ m = 60%nat \/ m = 90%nat \/ m = 120%nat -> (m < n)%nat -> f m = false).
  { intros m Hm. apply Hlt. rewrite !elem_of_cons. tauto. }
  rewrite !elem_of_cons, elem_of_nil in Hn.
  destruct Hn as [-> | [-> | [-> | [-> | []]]]]; rewrite ?Hf; rewrite ?Hin by (first [tauto|lia]); rewrite ?Hf; reflexivity.
Qed.

Lemma events_from_gate rest : forall done,
  (forall m, m ∈ gate_points -> (m <= length done)%nat -> low_at (done ++ rest) m = false) ->
  events_from done rest =
    match gate_at (done ++ rest) with
    | Some n => (map (chunk_token TierPrimary) (take (n - 1 - length done) rest)
                  ++ [switch_token (RefusalMarkerScore (text_of (take n (done ++ rest)))).2], true)
    | None => (map (chunk_token TierPrimary) rest, false)
    end.
Proof.
  induction rest as [|t rest IH]; intros done Hlow; cbn [events_from].
  - unfold gate_at. destruct (List.find _ _) as [n|] eqn:E; [|done].
    apply List.find_some in E as [Hin Hn]. rewrite Hlow in Hn; [done|now apply list_elem_of_In|].
    unfold low_at in Hn. apply andb_prop in Hn as [Hn _]. apply Nat.leb_le in Hn. rewrite app_nil_r in Hn. exact Hn.
  - assert (Ea : done ++ t :: rest = (done ++ [t]) ++ rest) by now rewrite <- app_assoc.
    assert (El : length (done ++ [t]) = S (length done)) by (rewrite length_app; cbn; lia).
    destruct (gate_trips (len (done ++ [t])) (text_of (done ++ [t]))) eqn:Et.
    + assert (Hp : length (done ++ [t]) ∈ gate_points) by (apply gate_trips_points; [now destruct done|exact Et]).
      unfold gate_at. rewrite (find_points _ (length (done ++ [t]))).
      * rewrite El. replace (S (length done) - 1 - length done)%nat with 0%nat by lia.
        rewrite Ea, <- El, take_app_length. reflexivity.
      * exact Hp.
      * rewrite Ea, <- (gate_trips_point (done ++ [t]) rest) by auto. exact Et.
      * intros m Hm Hlt. apply Hlow; [exact Hm|lia].
    + rewrite IH, <- Ea.
      * destruct (gate_at (done ++ t :: rest)) as [n|] eqn:Eg; [|done].
        assert (Hn : (S (length done) < n)%nat).
        { unfold gate_at in Eg. apply List.find_some in Eg as [Hin Hn]. apply list_elem_of_In in Hin.
          destruct (decide (n <= length done)%nat); [rewrite Hlow in Hn by auto; discriminate|].
          destruct (decide (n = S (length done))) as [->|]; [|lia].
          rewrite Ea, <- (gate_trips_point (done ++ [t]) rest) in Hn by auto. congruence. }
        rewrite El. replace (n - 1 - length done)%nat with (S (n - 1 - S (length done))) by lia. done.
      * intros m Hm Hle. rewrite <- Ea. destruct (decide (m <= length done)%nat); [now apply Hlow|].
        rewrite Ea, <- (gate_trips_point (done ++ [t]) rest) by (first [lia|exact Hm]). exact Et.
Qed.

Lemma events_from_start chunks :
  events_from [] chunks = (primary_events chunks, bool_decide (is_Some (gate_at chunks))).
Proof.
  rewrite events_from_gate.
  - cbn [app length]. unfold primary_events. destruct (gate_at chunks) as [n|].
    + rewrite Nat.sub_0_r. reflexivity.
    + reflexivity.
  - intros m Hm Hle. unfold gate_points in Hm. rewrite !elem_of_cons, elem_of_nil in Hm. cbn in Hle. lia.
Qed.
End Loops.

(** ** The whole stream *)

Section Whole.
Context {W : Type} `{Unicode} (o : Orchestrator W).

Definition chunks_of (ops : list ChanOp) : list string :=
  omap (fun op => match op with Send c => Some c | Close => None end) ops.

Lemma chunks_of_sends l : chunks_of (map Send l ++ [Close]) = l.
Proof.
  unfold chunks_of. rewrite omap_app. cbn. rewrite app_nil_r. induction l; [done|]. cbn. now f_equal.
Qed.
Lemma contract_ops (p : LLMProvider W) `{!StreamContract p} req w :
  (Stream p req w).1.1 = map Send (chunks_of (Stream p req w).1.1) ++ [Close].
Proof. destruct (stream_closes req w) as [l ->]. now rewrite chunks_of_sends. Qed.

(** The producer's channel operations and result on the two models. *)
Definition primary_out (prompt : string) (w : W) := Stream (primary o) (stream_request (primaryModel o) prompt) w.
Definition fallback_out (prompt : string) (w : W) := Stream (fallback o) (stream_request (fallbackModel o) prompt) w.

(** The two parts of the promised stream, from the world [w] in which it
    starts: the primary's events, whether the fallback follows, its events. *)
Definition first_part (usable : bool) (prompt : string) (w : W) : list StreamToken :=
  if usable then primary_events (chunks_of (primary_out prompt w).1.1) else [].
Definition continues (usable : bool) (prompt : string) (w : W) : bool :=
  negb usable || bool_decide (is_Some (gate_at (chunks_of (primary_out prompt w).1.1)))
    || bool_decide (is_Some (primary_out prompt w).1.2).
Definition second_part (usable : bool) (prompt : string) (w : W) : list StreamToken :=
  if continues usable prompt w
  then map (chunk_token TierFallback)
         (chunks_of (fallback_out prompt (if usable then (primary_out prompt w).2 else w)).1.1)
  else [].

Lemma canUsePrimary_runs s : runs (canUsePrimary o) s (fun usable s' =>
  (usable = true -> IsPrimaryKilled (chaos s) = false) /\
  eval s' = eval s /\ Orchestrator.sc s' = Orchestrator.sc s /\ tel s' = tel s /\ trace s' = trace s /\ chaos s' = chaos s /\
  (breakers s' = breakers s \/
   exists t sb, ShouldBlock t (PrimarySemantic (breakers s)) = (false, sb) /\
     breakers s' = set_semantic true sb (breakers s))).
Proof.
  apply runs_bind, runs_get. destruct (IsPrimaryKilled (chaos s)) eqn:Ek; [apply runs_ret; auto 10|].
  apply runs_bind, should_block_runs. intros t w.
  destruct (ShouldBlock t (semantic true (breakers s))) as [b sb] eqn:E. cbn [fst snd]. destruct b.
  - assert (Hsame : sb = semantic true (breakers s)) by (unfold ShouldBlock in E; repeat case_match; congruence).
    rewrite Hsame, set_semantic_same. apply runs_ret. split; [done|]. auto 10.
  - apply runs_bind. eexists _, _. split; [reflexivity|]. apply runs_ret. split; [done|]. do 5 (split; [reflexivity|]). right. now exists t, sb.
Qed.

Context `{!StreamContract (primary o)} `{!StreamContract (fallback o)}.

Lemma fallback_stream_spec client prompt out s :
  let fe := map (chunk_token TierFallback) (chunks_of (fallback_out prompt (world s)).1.1) in
  let got := received client (len out) fe in
  fallback_stream o client prompt out s =
    Some (TierFallback, negb (len got =? len fe), out ++ got, with_world (fallback_out prompt (world s)).2 s).
Proof.
  cbv zeta. unfold fallback_stream, fallback_out.
  pose proof (contract_ops (fallback o) (stream_request (fallbackModel o) prompt) (world s)) as Hops.
  destruct (Stream _ _ _) as [[ops err] w]. cbn [fst snd] in *. rewrite Hops at 1.
  rewrite fallback_loop_spec. cbn [mbind option_bind]. do 4 f_equal. unfold len. now rewrite length_map.
Qed.

Lemma primary_stream_spec client prompt s : len (chunks_of (primary_out prompt (world s)).1.1) <= int64_max ->
  let chunks := chunks_of (primary_out prompt (world s)).1.1 in
  let pe := primary_events chunks in
  let got := received client 0 pe in
  primary_stream o client prompt s =
    Some (loop_end pe got (bool_decide (is_Some (gate_at chunks))), (primary_out prompt (world s)).1.2, got,
          with_world (primary_out prompt (world s)).2 s).
Proof.
  intros Hlen. cbv zeta. unfold primary_stream, primary_out in *.
  pose proof (contract_ops (primary o) (stream_request (primaryModel o) prompt) (world s)) as Hops.
  destruct (Stream _ _ _) as [[ops err] w]. cbn [fst snd] in *. rewrite Hops at 1.
  pose proof (primary_loop_spec client (chunks_of ops) [] [] Hlen) as Hl. cbv zeta in Hl.
  rewrite events_from_start in Hl. cbn [fst snd] in Hl.
  change (text_of []) with EmptyString in Hl. change (len (@nil string)) with 0 in Hl. rewrite Hl. reflexivity.
Qed.

(** The stream delivers its two parts. *)
Lemma stream_runs client prompt s :
  (forall w, len (chunks_of (primary_out prompt w).1.1) <= int64_max) ->
  exists usable s1 s2, canUsePrimary o s = Some (usable, s1) /\
  let pe := first_part usable prompt (world s1) in
  let fe := second_part usable prompt (world s1) in
  let out := received client 0 (pe ++ fe) in
  StreamWithQualityGate o client prompt s =
    Some ((if (len (received client 0 pe) =? len pe) && continues usable prompt (world s1) then TierFallback else TierPrimary,
           negb (len out =? len (pe ++ fe)), out), s2) /\
  breakers s2 = breakers s1 /\ eval s2 = eval s /\ Orchestrator.sc s2 = Orchestrator.sc s /\ tel s2 = tel s /\ trace s2 = trace s /\ chaos s2 = chaos s.
Proof.
  intros Hlen. destruct (canUsePrimary_runs s) as (usable & s1 & E & _ & F1 & F2 & F3 & F4 & F5 & _).
  exists usable, s1. unfold StreamWithQualityGate. rewrite prog_bind_eq, E.
  unfold first_part, second_part, continues. destruct usable; cbn [negb orb].
  - rewrite prog_bind_eq, primary_stream_spec by apply Hlen.
    set (prim := primary_out prompt (world s1)). set (pe := primary_events _). set (got := received client 0 pe).
    rewrite received_app. fold got. unfold loop_end. destruct (Z.eqb_spec (len got) (len pe)) as [Eg|Eg]; cbn [andb].
    + assert (Hgot : got = pe) by (apply received_all; exact Eg).
      destruct (bool_decide (is_Some (gate_at _))) eqn:Egate; cbn [orb].
      * rewrite fallback_stream_spec. eexists. split; [done|]. rewrite Hgot, Z.add_0_l, !len_app, eqb_add_l. now destruct s1.
      * destruct prim.1.2 as [err|]; cbn [bool_decide].
        -- rewrite fallback_stream_spec. eexists. split; [done|]. rewrite Hgot, Z.add_0_l, !len_app, eqb_add_l. now destruct s1.
        -- eexists. split; [done|]. cbn. rewrite !app_nil_r, Hgot, Z.eqb_refl. done.
    + eexists. split; [done|]. rewrite len_app.
      assert (Hlt : len got < len pe) by (pose proof (received_len client pe 0) as Hle; fold got in Hle; lia).
      rewrite (proj2 (Z.eqb_neq (len got) _)); [done|].
      match goal with |- context [len pe + len ?l] => pose proof (len_nonneg l) end. lia.
  - rewrite fallback_stream_spec. eexists. split; [done|]. cbn [app len length]. split; [done|]. auto 10.
Qed.
End Whole.

(** ** Properties of the stream *)

(** C17.  The gated stream always ends and delivers what it promises: the
    client receives, in order and up to the first event it does not take, the
    primary's chunks before the first of the chunks 30, 60, 90, 120 at which
    the text so far scores under 0.5 (all of them if there is none), the one
    [Switched] event of a trip, and, when the primary was not usable, tripped
    or ended in an error, every chunk of the fallback; the tier returned is the
    one that was streaming last, the error is nil unless the client left, and
    nothing but the primary's breaker (by the probe that [ShouldBlock] may
    grant) has changed. *)
Theorem StreamWithQualityGate_spec {W} `{Unicode} (o : Orchestrator W)
    `{!StreamContract (primary o)} `{!StreamContract (fallback o)} client prompt s :
  (forall w, len (chunks_of (primary_out o prompt w).1.1) <= int64_max) ->
  exists usable s1 s2, canUsePrimary o s = Some (usable, s1) /\
  let pe := first_part o usable prompt (world s1) in
  let fe := second_part o usable prompt (world s1) in
  let out := received client 0 (pe ++ fe) in
  StreamWithQualityGate o client prompt s =
    Some ((if (len (received client 0 pe) =? len pe) && continues o usable prompt (world s1) then TierFallback else TierPrimary,
           negb (len out =? len (pe ++ fe)), out), s2) /\
  breakers s2 = breakers s1 /\ eval s2 = eval s /\ Orchestrator.sc s2 = Orchestrator.sc s /\ tel s2 = tel s /\ trace s2 = trace s /\ chaos s2 = chaos s.
Proof. intros Hlen. exact (stream_runs o client prompt s Hlen). Qed.

(** A primary that streams a refusal, chunk by chunk. *)
Definition refusing_chunks : list string :=
  replicate 29 "word "%string ++ ["I apologize, but I cannot: I'm just an AI. "; "more "]%string.
Definition streaming (chunks : list string) (err : option GoError) : LLMProvider Z :=
  mkProvider (Generate Sample.down) (fun _ w => (map Send chunks ++ [Close], err, w)) (fun _ => None) (fun w => (None, w)) "s".
#[export] Instance streaming_contract chunks err : StreamContract (streaming chunks err).
Proof. intros req w. now exists chunks. Qed.

Lemma StreamWithQualityGate_spec_witness :
  exists s2, StreamWithQualityGate (Sample.orch (streaming refusing_chunks None) (streaming ["fine"%string] None))
      (fun _ => true) "q" (Sample.state0 (NewChaos true)) =
    Some ((TierFallback, false,
           map (chunk_token TierPrimary) (replicate 29 "word "%string)
           ++ [switch_token "matched: i apologize, but i cannot; i'm just an ai"; chunk_token TierFallback "fine"]), s2) /\
    eval s2 = NewEvaluator None.
Proof.
  set (o := Sample.orch _ _).
  destruct (StreamWithQualityGate_spec o (fun _ => true) "q" (Sample.state0 (NewChaos true)))
    as (usable & s1 & s2 & E1 & E & _ & Ee & _); [intros w; vm_compute; discriminate|].
  assert (Hu : usable = true) by (vm_compute in E1; congruence). subst usable.
  exists s2. split; [|exact Ee]. rewrite E. vm_compute. reflexivity.
Defined.

(** ** What the model shows of the code

    A stream that is granted the probe of a failing breaker never reports
    back: after it the breaker is as before, or blocks every request for good. *)
Theorem stream_leaks_probe {W} `{Unicode} (o : Orchestrator W)
    `{!StreamContract (primary o)} `{!StreamContract (fallback o)} client prompt s :
  (forall w, len (chunks_of (primary_out o prompt w).1.1) <= int64_max) ->
  state (PrimarySemantic (breakers s)) = SBFailing ->
  exists r s', StreamWithQualityGate o client prompt s = Some (r, s') /\
    (breakers s' = breakers s \/ forall nows, admitted (ask_all nows (PrimarySemantic (breakers s'))).1 = 0).
Proof.
  intros Hlen Hst. destruct (canUsePrimary_runs o s) as (u & s1 & E1 & _ & _ & _ & _ & _ & _ & Hb).
  destruct (stream_runs o client prompt s Hlen) as (usable & s1' & s2 & E1' & E & Eb & _).
  rewrite E1 in E1'. injection E1' as <- <-.
  eexists _, s2. split; [exact E|]. rewrite Eb. destruct Hb as [->|(t & sb & Hs & ->)]; [auto|right].
  intros nows. cbn [set_semantic PrimarySemantic]. apply ask_all_held.
  all: unfold ShouldBlock in Hs; rewrite decide_True in Hs by exact Hst; repeat case_bool; simplify_eq; done.
Qed.

(** Fewer than 30 chunks are never gated, whatever they say; so the degraded
    wrapper's single chunk passes. *)
Theorem short_stream_not_gated `{Unicode} chunks : (length chunks < 30)%nat -> gate_at chunks = None.
Proof.
  intros Hl. unfold gate_at. destruct (List.find _ _) as [n|] eqn:E; [|done].
  apply List.find_some in E as [Hin Hn]. unfold low_at in Hn. apply andb_prop in Hn as [Hn _].
  apply Nat.leb_le in Hn. apply list_elem_of_In in Hin. unfold gate_points in Hin.
  rewrite !elem_of_cons, elem_of_nil in Hin. lia.
Qed.
Example degraded_stream_not_gated `{Unicode} d req (w : Z) : enabled d = true ->
  gate_at (chunks_of (Stream (wrapper_provider d) req w).1.1) = None.
Proof.
  intros He. apply short_stream_not_gated. cbn [wrapper_provider Stream]. unfold degraded_Stream. rewrite He. cbn. lia.
Qed.
(** One refusal marker is no hit: its score is 0.65, the gate asks for less
    than 0.5. *)
Example one_marker_is_no_hit :
  let text := "I am unable to assist with that. "%string in
  flt (RefusalMarkerScore text).1 f1 = true /\ gate_trips 30 text = false.
Proof. vm_compute. auto. Qed.
(** A primary that fails after its first chunk: the fallback's answer follows
    it with no [Switched] event. *)
Example broken_stream_no_switch :
  option_map fst (StreamWithQualityGate
    (Sample.orch (streaming ["The capital is "%string] (Some (mkError "reset" false None))) (streaming ["Paris."%string] None))
    (fun _ => true) "q" (Sample.state0 (NewChaos true)))
  = Some (TierFallback, false, [chunk_token TierPrimary "The capital is "; chunk_token TierFallback "Paris."]).
Proof. vm_compute. reflexivity. Qed.
