(* ===== verification/Guarded.v ===== *)
(** * Guards around stateful calls

    A flowguard primitive (circuit breaker, bulkhead, load shedder) runs a
    closure under its protection.  The closures of the agent work on a state
    [S] of which the world [W] the guards live in is a part ([getw], [putw]),
    assign a captured variable ([A]), and may panic ([None]): [guarded] lifts
    a [Guard] to them.  [CallsOnce] is the contract of the guards that neither
    retry nor duplicate: they refuse the call with an error and leave the
    captured variable alone, or run the closure exactly once. *)
From S2P Require Import Prelude Provider Orchestrator.
From Stdlib Require Import ZArith Lia String.
From stdpp Require Import base tactics list.
#[local] Open Scope Z_scope.

Class CallsOnce {W} (g : Guard W) : Prop :=
  calls_once : forall R (fn : W * R -> option GoError * (W * R)) w r,
    (exists e w', guard_do g fn (w, r) = (Some e, (w', r))) \/
    (exists w0 w', guard_do g fn (w, r) = ((fn (w0, r)).1, (w', (fn (w0, r)).2.2))).

(** The part of a state the guards live in. *)
Class HasWorld (S W : Type) := { getw : S -> W; putw : W -> S -> S }.

Section Guarded.
Context {S W A : Type} `{!HasWorld S W}.

(** A closure that may panic: from a state, the error it returns, the value it
    assigns and the state it leaves. *)
Definition Body : Type := S -> option ((option GoError * A) * S).

Definition run_body (body : Body) (x : W * option (S * A)) : option GoError * (W * option (S * A)) :=
  match x.2 with
  | None => (None, (x.1, None))
  | Some (s, _) =>
      match body (putw x.1 s) with
      | None => (None, (x.1, None))
      | Some ((err, a), s') => (err, (getw s', Some (s', a)))
      end
  end.

(** [zero] is the captured variable's value before the call. *)
Definition guarded (g : Guard W) (zero : A) (body : Body) : Body := fun s =>
  let '(err, (w, r)) := guard_do g (run_body body) (getw s, Some (s, zero)) in
  '(s', a) ← r;
  Some ((err, a), putw w s').

Lemma guarded_once g `{!CallsOnce g} zero (body : Body) s :
  (exists e w, guarded g zero body s = Some ((Some e, zero), putw w s)) \/
  (exists w0 w, guarded g zero body s =
     match body (putw w0 s) with Some (r, s') => Some (r, putw w s') | None => None end).
Proof.
  unfold guarded. destruct (calls_once (g := g) _ (run_body body) (getw s) (Some (s, zero))) as [(e & w' & E)|(w0 & w' & E)]; rewrite E.
  - left. eauto.
  - right. exists w0, w'. unfold run_body. cbn [fst snd]. destruct (body (putw w0 s)) as [[[err a] s']|]; reflexivity.
Qed.
End Guarded.
Arguments Body : clear implicits.

(** The guard that only calls. *)
#[export] Instance direct_once {W} : CallsOnce (@Sample.direct W).
Proof. intros R fn w r. right. exists w, (fn (w, r)).2.1. cbn. now destruct (fn (w, r)) as [e [w' r']]. Qed.
(** The guard that refuses every call. *)
Definition refusing {W} (e : GoError) : Guard W := mkGuard (fun R fn s => (Some e, s)).
#[export] Instance refusing_once {W} e : CallsOnce (@refusing W e).
Proof. intros R fn w r. left. now exists e, w. Qed.
