(* ===== verification/Tools.v ===== *)
(** * The agent's tools (agent/tool.go)

    The registry that guards every tool with its own circuit breaker, and the
    search of the built-in knowledge base; the calculator is in Calculator.v.
    A tool is what the interface [Tool] says: a record of its operations over
    the state it acts on.  The circuit breaker is the flowguard library's, as
    in Orchestrator.v, with the contract [CallsOnce] of Guarded.v. *)
From S2P Require Import Prelude Float64 GoStrings Provider Orchestrator Guarded.
From Stdlib Require Import ZArith Lia String.
From stdpp Require Import base tactics list gmap strings sorting.
#[local] Open Scope Z_scope.

(** ** The knowledge base *)

Record kbEntry := mkKb { keywords : list string; content : string }.

Definition knowledgeBase : list kbEntry := [
  mkKb ["circuit breaker"; "cb"; "open"; "closed"; "half-open"; "trip"]
    ("Circuit Breaker Pattern: A circuit breaker wraps calls to a remote service and monitors for failures.
It has three states: Closed (normal operation, calls pass through), Open (calls are rejected immediately
without attempting the remote call — prevents cascading failures), and Half-Open (one probe call is allowed
to test recovery). The breaker trips to Open after a failure threshold is exceeded. After a timeout it
moves to Half-Open. Two consecutive successes close it again. The adaptive variant trips based on
error rate over a sliding window rather than consecutive failures.");
  mkKb ["retry"; "backoff"; "exponential"; "attempt"]
    ("Retry with Exponential Backoff: Automatically retries failed operations with increasing delays.
The delay grows exponentially (e.g., 300ms, 600ms, 1200ms) to avoid overwhelming a recovering service.
Adding jitter (random variance) prevents thundering herd when many clients retry simultaneously.
Permanent errors should not be retried. Context cancellation and deadline propagation is essential —
never retry past the caller's deadline.");
  mkKb ["hedge"; "hedged"; "parallel"; "tail latency"; "p99"; "duplicate"]
    ("Hedged Requests: Fire a duplicate request to the same service after a delay (e.g., 1.5s).
Return whichever response arrives first and cancel the other. This trades ~5% extra load for dramatically
reduced tail latency (p99). Best for idempotent read operations. The delay should be set to your p95
latency — that way hedging only activates for the slowest 5% of requests. Named after the financial
concept of hedging risk.");
  mkKb ["bulkhead"; "isolation"; "concurrent"; "semaphore"; "compartment"]
    ("Bulkhead Pattern: Limits concurrent access to a resource using a semaphore pool, isolating
different priority classes. Named after ship bulkheads that contain flooding to one compartment.
In practice: give interactive UI requests 20 slots and batch jobs 5 slots. A flood of batch requests
cannot starve interactive users. When a bulkhead is full, new requests fail immediately (ErrFull)
rather than queuing indefinitely.");
  mkKb ["load shed"; "loadshed"; "overload"; "aimd"; "congestion"; "backpressure"]
    ("Adaptive Load Shedding: Uses the AIMD algorithm from TCP congestion control to manage
server capacity. Starts at an initial concurrency limit. When latency exceeds the threshold (e.g., 5s),
the limit is halved (multiplicative decrease). After each successful fast request, the limit increments
by 1 (additive increase). When in-flight requests exceed the limit, new arrivals are rejected with 503.
This prevents the " +:+ quote +:+ "overload cliff" +:+ quote +:+ " where a server accepts too much work and becomes completely unresponsive.");
  mkKb ["semantic cache"; "cache"; "embedding"; "cosine"; "similarity"; "ttl"]
    ("Semantic Cache: Stores LLM responses indexed by embedding vectors. When a new request arrives,
its embedding is compared to cached embeddings using cosine similarity. If similarity exceeds 0.92,
the cached response is returned without calling the LLM. Unlike exact-match caches, semantically
similar questions share cached answers: " +:+ quote +:+ "What is Go?" +:+ quote +:+ " and " +:+ quote +:+ "Explain the Golang language" +:+ quote +:+ " both hit
the same cache entry. Uses nomic-embed-text (274MB) for high-quality embeddings.");
  mkKb ["graceful degradation"; "fallback"; "resilience"; "fault tolerance"; "availability"]
    ("Graceful Degradation: A system that never returns an error to users, instead falling back
through a tiered chain of alternatives. AgentShield's chain: primary model (best quality) → fallback
model (lower quality but fast) → semantic cache (instant, stale data) → graceful denial (always available).
Each tier has its own circuit breaker. The goal is to maintain service availability even when individual
components fail, at the cost of potentially reduced quality.");
  mkKb ["react"; "reasoning"; "action"; "tool"; "agent"; "loop"]
    ("ReAct (Reasoning + Acting): An agent framework where the LLM alternates between Thought
(reasoning about what to do), Action (invoking a tool), and Observation (processing the tool result).
This loop repeats until the LLM produces a final Answer. Each tool call is wrapped in its own circuit
breaker — if a tool fails, the agent can reason about the failure and try alternatives. Maximum iteration
depth prevents infinite loops. Resilience at every step of the pipeline.")
]%string.

Section Search.
Context `{Unicode}.

(** The loops of [searchKB] that score an entry. *)
Definition keyword_score (q : string) (e : kbEntry) : Z :=
  foldl (fun score kw => if contains q kw then score + 3 else score) 0 (keywords e).
Definition word_score (e : kbEntry) (score : Z) (w : string) : Z :=
  if slen w <? 3 then score
  else
    let score := foldl (fun score kw => if contains kw w then score + 1 else score) score (keywords e) in
    if contains (to_lower (content e)) w then score + 1 else score.
Definition score_entry (q : string) (words : list string) (e : kbEntry) : Z :=
  foldl (word_score e) (keyword_score q e) words.

(** The insertion sort: element [i] moves left past every smaller score;
    the sorted prefix is kept in reverse. *)
Fixpoint move_left {A} (x : Z * A) (rprefix : list (Z * A)) : list (Z * A) :=
  match rprefix with
  | [] => [x]
  | y :: r => if y.1 <? x.1 then y :: move_left x r else x :: y :: r
  end.
Definition sort_results {A} (l : list (Z * A)) : list (Z * A) := rev (foldl (fun r x => move_left x r) [] l).

Definition kb_results (query : string) : list (Z * kbEntry) :=
  let q := to_lower query in
  let words := fields q in
  filter (fun r => 0 < r.1) (map (fun e => (score_entry q words e, e)) knowledgeBase).

Definition searchKB (query : string) : string :=
  match kb_results query with
  | [] => "No relevant documentation found for: " +:+ query
  | results => str_join (nl +:+ nl +:+ "---" +:+ nl +:+ nl) (map (fun r => content r.2) (take 2 (sort_results results)))
  end.
End Search.

(** ** The sort *)

Section Sort.
Context {A : Type}.
Implicit Types (l r : list (Z * A)).

Lemma move_left_perm x r : move_left x r ≡ₚ x :: r.
Proof.
  induction r as [|y r IH]; cbn [move_left]; [done|]. case_bool; [|done]. rewrite IH. apply Permutation_swap.
Qed.
Lemma sort_go_perm l : forall r, foldl (fun r x => move_left x r) r l ≡ₚ r ++ l.
Proof.
  induction l as [|x l IH]; intros r; cbn [foldl]; [now rewrite app_nil_r|].
  rewrite IH, move_left_perm. cbn [app]. apply Permutation_middle.
Qed.
Lemma sort_results_perm l : sort_results l ≡ₚ l.
Proof. unfold sort_results. rewrite <- Permutation_rev. apply (sort_go_perm l []). Qed.

Definition ascending : list (Z * A) -> Prop := StronglySorted (fun a b : Z * A => a.1 <= b.1).
Definition descending : list (Z * A) -> Prop := StronglySorted (fun a b : Z * A => b.1 <= a.1).

Lemma move_left_sorted x r : ascending r -> ascending (move_left x r).
Proof.
  induction 1 as [|y r Hr IH Hy]; cbn [move_left]; [repeat constructor|]. case_bool; zbool.
  - constructor; [exact IH|]. rewrite move_left_perm. constructor; [lia|exact Hy].
  - constructor; [now constructor|]. constructor; [lia|]. eapply Forall_impl; [exact Hy|]. cbn. intros; lia.
Qed.
Lemma sort_go_sorted l : forall r, ascending r -> ascending (foldl (fun r x => move_left x r) r l).
Proof. induction l as [|x l IH]; intros r Hr; cbn [foldl]; [exact Hr|]. now apply IH, move_left_sorted. Qed.
Lemma rev_sorted r : ascending r -> descending (rev r).
Proof.
  induction 1 as [|y r Hr IH Hy]; cbn [rev]; [constructor|].
  assert (Hy' : Forall (fun a => y.1 <= a.1) (rev r)) by (now rewrite <- Permutation_rev).
  clear Hr Hy. unfold descending in *. induction IH as [|z l Hl IHl Hz]; cbn [app]; [repeat constructor|].
  apply Forall_cons in Hy' as [Hyz Hy']. constructor; [now apply IHl|]. apply Forall_app. split; [exact Hz|now constructor].
Qed.
Lemma sort_results_sorted l : descending (sort_results l).
Proof. apply rev_sorted, sort_go_sorted. constructor. Qed.

(** Equal scores keep their order. *)
Lemma move_left_stable s x r : ascending r ->
  filter (fun a => a.1 = s) (rev (move_left x r)) = filter (fun a => a.1 = s) (rev r ++ [x]).
Proof.
  induction 1 as [|y r Hr IH Hy]; cbn [move_left]; [done|]. case_bool; zbool; cbn [rev].
  - rewrite filter_app, IH, !filter_app, <- !app_assoc. f_equal. rewrite !filter_cons, !filter_nil.
    repeat case_decide; try done. lia.
  - done.
Qed.
Lemma sort_results_stable s l : filter (fun a => a.1 = s) (sort_results l) = filter (fun a => a.1 = s) l.
Proof.
  unfold sort_results.
  assert (Hgo : forall r, ascending r -> filter (fun a : Z * A => a.1 = s) (rev (foldl (fun r x => move_left x r) r l))
    = filter (fun a => a.1 = s) (rev r ++ l)).
  { induction l as [|x l IH]; intros r Hr; cbn [foldl]; [now rewrite app_nil_r|].
    rewrite IH by (now apply move_left_sorted). rewrite filter_app, move_left_stable by exact Hr.
    rewrite !filter_app, <- app_assoc. f_equal. now rewrite <- filter_app. }
  apply (Hgo []). constructor.
Qed.
End Sort.

(** ** The registry *)

Section Registry.
Context {W S Args : Type} `{!HasWorld S W}.

(** [Execute] may panic ([None]). *)
Record Tool := mkTool {
  tool_Name : string; Description : string; ArgsSchema : string;
  tool_Execute : Args -> S -> option ((string * option GoError) * S);
}.
(** [newBreaker] makes the circuit breaker of a newly registered tool. *)
Context (newBreaker : string -> Guard W).

Record ToolRegistry := mkRegistry { tools : gmap string Tool; cbs : gmap string (Guard W) }.
Definition empty_registry : ToolRegistry := mkRegistry ∅ ∅.
Definition register (t : Tool) (r : ToolRegistry) : ToolRegistry :=
  mkRegistry (<[tool_Name t := t]> (tools r)) (<[tool_Name t := newBreaker (tool_Name t)]> (cbs r)).
Definition newToolRegistry (ts : list Tool) : ToolRegistry := foldl (fun r t => register t r) empty_registry ts.

(** [Execute]: the result variable is captured by the guarded closure; a
    registered tool without a breaker would be a nil dereference. *)
Definition Execute (r : ToolRegistry) (name : string) (args : Args) (s : S) : option ((string * option GoError) * S) :=
  match tools r !! name with
  | None => Some ((EmptyString, Some (mkError ("unknown tool: " +:+ name) false None)), s)
  | Some t =>
      cb ← cbs r !! name;
      '((err, result), s) ←
        guarded cb EmptyString (fun s => '((result, err), s) ← tool_Execute t args s; Some ((err, result), s)) s;
      Some ((result, err), s)
  end.

Definition KnownNames (r : ToolRegistry) : gset string := dom (tools r).
Definition List_tools (r : ToolRegistry) : list (string * string) :=
  map (fun e => (tool_Name e.2, Description e.2)) (map_to_list (tools r)).

(** [SystemPrompt]: the range over the map visits the tools in an order that
    Go leaves open, here the argument. *)
Definition tool_line (t : Tool) : string :=
  "- " +:+ tool_Name t +:+ ": " +:+ Description t +:+ ". Args: " +:+ ArgsSchema t +:+ nl.
Definition format_help : string := "
When you need to use a tool, respond EXACTLY like this (no extra text before):
Thought: <your reasoning>
Action: <tool_name>
ActionInput: {" +:+ quote +:+ "key" +:+ quote +:+ ": " +:+ quote +:+ "value" +:+ quote +:+ "}

When you have the final answer, respond EXACTLY like this:
Thought: <final reasoning>
Answer: <your complete answer>

Never mix formats. Use tools when they help give a precise answer.".
Definition SystemPrompt (order : list Tool) : string :=
  "You are a helpful AI assistant with access to tools." +:+ nl +:+ nl +:+ "Available tools:" +:+ nl +:+
  String.concat EmptyString (map tool_line order) +:+ format_help.
End Registry.
Arguments Tool : clear implicits.
Arguments ToolRegistry : clear implicits.

Section RegistryFacts.
Context {W S Args : Type} `{!HasWorld S W} (newBreaker : string -> Guard W).

(** The tool a name stands for: the last one registered under it. *)
Definition last_named (name : string) (ts : list (Tool S Args)) : option (Tool S Args) :=
  List.find (fun t => String.eqb (tool_Name t) name) (rev ts).

Lemma newToolRegistry_lookup ts name : tools (newToolRegistry newBreaker ts) !! name = last_named name ts.
Proof.
  unfold newToolRegistry, last_named. induction ts as [|t ts IH] using rev_ind; [apply lookup_empty|].
  rewrite foldl_app, rev_app_distr. cbn [foldl rev app List.find register tools].
  destruct (String.eqb_spec (tool_Name t) name) as [<-|Hne]; [apply lookup_insert_eq|].
  now rewrite lookup_insert_ne.
Qed.
Lemma newToolRegistry_breaker ts name t : last_named name ts = Some t ->
  cbs (newToolRegistry newBreaker ts) !! name = Some (newBreaker name).
Proof.
  unfold newToolRegistry, last_named. induction ts as [|u ts IH] using rev_ind; [done|].
  rewrite foldl_app, rev_app_distr. cbn [foldl rev app List.find register cbs].
  destruct (String.eqb_spec (tool_Name u) name) as [<-|Hne]; [intros; apply lookup_insert_eq|].
  intros Hl. rewrite lookup_insert_ne by done. now apply IH.
Qed.

(** The outcomes of an execution. *)
Definition executed (name : string) (args : Args) (ts : list (Tool S Args)) (s : S)
    (out : option ((string * option GoError) * S)) : Prop :=
  match last_named name ts with
  | None => out = Some ((EmptyString, Some (mkError ("unknown tool: " +:+ name) false None)), s)
  | Some t =>
      (exists e w, out = Some ((EmptyString, Some e), putw w s)) \/
      (exists w0 w, out = match tool_Execute t args (putw w0 s) with
                          | Some (r, s') => Some (r, putw w s') | None => None end)
  end.

Lemma Execute_executed `{!forall n, CallsOnce (newBreaker n)} ts name args s :
  executed name args ts s (Execute (newToolRegistry newBreaker ts) name args s).
Proof.
  unfold Execute, executed. rewrite newToolRegistry_lookup. destruct (last_named name ts) as [t|] eqn:E; [|done].
  rewrite (newToolRegistry_breaker ts name t E). cbn [mbind option_bind].
  destruct (guarded_once (newBreaker name) EmptyString
    (fun s => '((result, err), s) ← tool_Execute t args s; Some ((err, result), s)) s) as [(e & w & Eg)|(w0 & w & Eg)]; rewrite Eg.
  - left. eauto.
  - right. exists w0, w. destruct (tool_Execute t args (putw w0 s)) as [[[res err] s']|]; reflexivity.
Qed.
End RegistryFacts.

(** ** Properties of the tools *)

(** The knowledge base search returns the best entries: the hits (the
    entries with a positive score) sorted by decreasing score, equal scores in
    the order of the knowledge base, and of these the first two; without a hit
    the message names the query as it was asked. *)
Theorem searchKB_spec `{Unicode} query :
  let words := fields (to_lower query) in
  let score := score_entry (to_lower query) words in
  let hits := filter (fun r => 0 < r.1) (map (fun e => (score e, e)) knowledgeBase) in
  (hits = [] /\ searchKB query = "No relevant documentation found for: " +:+ query) \/
  exists top, top ≡ₚ hits /\ descending top /\
    (forall s, filter (fun r => r.1 = s) top = filter (fun r => r.1 = s) hits) /\
    searchKB query = str_join (nl +:+ nl +:+ "---" +:+ nl +:+ nl) (map (fun r => content r.2) (take 2 top)).
Proof.
  intros words score hits. change hits with (kb_results query). unfold searchKB.
  destruct (kb_results query) as [|r rs] eqn:E; [left; done|right].
  exists (sort_results (r :: rs)). split; [apply sort_results_perm|]. split; [apply sort_results_sorted|].
  split; [intros s; apply sort_results_stable|reflexivity].
Qed.

Example search_hit : map (fun r => (r.1, keywords r.2 !! 0%nat)) (take 2 (sort_results (kb_results "how does retry backoff work")))
  = [(10, Some "retry"); (1, Some "load shed")]%string.
Proof. vm_compute. reflexivity. Qed.

(** The registry runs the tool that was asked for, at most once: an
    unknown name is an error that runs nothing; for a registered one there is
    always a breaker to run it under, and either the breaker refused the call
    (an error, no result, and nothing but the world has changed) or the tool
    last registered under that name ran exactly once, for exactly these
    arguments, and result, error and state are what it left. *)
Theorem registry_Execute {W S Args} `{!HasWorld S W} (newBreaker : string -> Guard W)
    `{!forall n, CallsOnce (newBreaker n)} (ts : list (Tool S Args)) name args s :
  let out := Execute (newToolRegistry newBreaker ts) name args s in
  match List.find (fun t => String.eqb (tool_Name t) name) (rev ts) with
  | None => out = Some ((EmptyString, Some (mkError ("unknown tool: " +:+ name) false None)), s)
  | Some t =>
      (exists e w, out = Some ((EmptyString, Some e), putw w s)) \/
      (exists w0 w, out = match tool_Execute t args (putw w0 s) with
                          | Some (r, s') => Some (r, putw w s') | None => None end)
  end.
Proof. apply (Execute_executed newBreaker ts name args s). Qed.

(** A state that is a world and a counter of the runs. *)
#[export] Instance counted_world : HasWorld (Z * Z) Z := {| getw := fst; putw := fun w s => (w, s.2) |}.
Definition echo_tool : Tool (Z * Z) string :=
  mkTool "echo" "Repeats its argument" "{}" (fun args s => Some ((args, None), (s.1, s.2 + 1))).

Lemma registry_Execute_witness :
  let out := Execute (newToolRegistry (fun _ => Sample.direct) [echo_tool]) "echo" "hello" (5, 0) in
  (exists e w, out = Some ((EmptyString, Some e), putw w (5, 0))) \/
  (exists w0 w, out = match tool_Execute echo_tool "hello" (putw w0 (5, 0)) with
                      | Some (r, s') => Some (r, putw w s') | None => None end).
Proof. exact (registry_Execute (fun _ => Sample.direct) [echo_tool] "echo" "hello" (5, 0)). Defined.
