(* ===== verification/Agent.v ===== *)
(** * The agent facade (agent/agent.go)

    [Agent] bundles the orchestrator with its stores and puts the load shedder
    and the bulkheads in front of it: [ask] counts the request, opens a trace,
    runs the degradation chain under both guards, and turns their refusals
    into denials.  [Status] is the snapshot behind the dashboard and the
    [check_system] tool.

    [AState] is the agent's mutable state: the orchestrator's ([os], with the
    world), the stores and the request counter.  A trace is a pointer the
    trace store and the request share: [trace (os s)] is the object, and
    [sync_trace] shows it in the store.  A request runs without another one in
    between; the semantic breaker's own interleavings are in Breaker.v.
    The load shedder and the bulkheads are flowguard's: [Guard]s with the
    contract [CallsOnce].  Metrics, logs and the wiring in [newAgent] are not
    modelled. *)
From S2P Require Import Prelude Float64 GoStrings Evaluator Breaker Provider Chaos Telemetry Memory Orchestrator Guarded.
From S2P Require SemanticCache.
From Stdlib Require Import ZArith Lia Reals Lra String SpecFloat.
From stdpp Require Import base tactics list gmap strings.
#[local] Open Scope Z_scope.

(** [Response] of the agent; the tier is empty in its zero value. *)
Record AgentResponse := mkAnswer {
  ans_Text : string; ans_Tier : option Tier; ans_Cached : bool; ans_TraceID : string;
}.
Definition zero_response : AgentResponse := mkAnswer EmptyString None false EmptyString.

Record AState (W : Type) := mkAState { os : OState W; mem : Store; totalRequests : Z }.
Arguments mkAState {W}.
Arguments os {W}.
Arguments mem {W}.
Arguments totalRequests {W}.

(** The agent's fixed parts: the orchestrator, the guards in front of it,
    [errors.Is] for their two refusals, the random source, and the readings of
    flowguard's gauges. *)
Record Agent (W : Type) := mkAgent {
  orch : Orchestrator W;
  shedder : Guard W;
  interactiveBH : Guard W;
  batchBH : Guard W;
  is_ErrShed : GoError -> bool;
  is_ErrFull : GoError -> bool;
  random_bytes : W -> list Z * W;
  gauges : W -> f64 * (Z * Z) * (Z * Z);  (** error rate; limit, in flight; busy slots *)
}.
Arguments mkAgent {W}.
Arguments orch {W}.
Arguments shedder {W}.
Arguments interactiveBH {W}.
Arguments batchBH {W}.
Arguments is_ErrShed {W}.
Arguments is_ErrFull {W}.
Arguments random_bytes {W}.
Arguments gauges {W}.

Section Updates.
Context {W : Type}.
Implicit Types (s : AState W).
Definition with_os (o : OState W) s : AState W := mkAState o (mem s) (totalRequests s).
Definition with_mem (m : Store) s : AState W := mkAState (os s) m (totalRequests s).
Definition with_total (n : Z) s : AState W := mkAState (os s) (mem s) n.
Definition with_traces (t : TraceStore) (m : Store) : Store := mkStore (Sessions m) t (History m).
Definition with_sessions (x : SessionStore) (m : Store) : Store := mkStore x (Traces m) (History m).
Definition with_history (h : ScoreHistory) (m : Store) : Store := mkStore (Sessions m) (Traces m) h.
#[export] Instance agent_world : HasWorld (AState W) W :=
  {| getw := fun s => world (os s); putw := fun w s => with_os (with_world w (os s)) s |}.
End Updates.

Section Ask.
Context {W : Type} `{Unicode} (a : Agent W).
Notation P := (Prog (AState W)).

Definition lift_os {A} (m : Prog (OState W) A) : P A := fun s => '(x, o) ← m (os s); Some (x, with_os o s).
Definition now_ : P Z := lift_os (now (orch a)).
Definition read_random : P (list Z) := fun s =>
  let '(b, w) := random_bytes a (world (os s)) in Some (b, putw w s).

(** [a.memory.Traces.New(prompt)]: the new trace becomes the current one. *)
Definition new_trace (prompt : string) : P unit :=
  b ← read_random; t ← now_; t' ← now_;
  update_st (fun s => let '(tr, ts) := New_trace b t t' prompt (Traces (mem s)) in
                      with_os (with_trace tr (os s)) (with_mem (with_traces ts (mem s)) s)).
(** The store holds the pointer to the current trace, unless it was evicted. *)
Definition sync_trace : P unit := update_st (fun s =>
  let tr := trace (os s) in
  let ts := Traces (mem s) in
  with_mem (with_traces (mkTraceStore (alter (fun _ => tr) (tr_ID tr) (traces ts)) (trace_ttl ts) (trace_done ts)) (mem s)) s).

Definition degrade (prompt : string) : P AgentResponse :=
  r ← lift_os (Degrade (orch a) prompt);
  mret (mkAnswer (res_Text r) (Some (res_Tier r)) (res_Cached r) EmptyString).

(** The closure under the guards: [resp] is the captured variable. *)
Definition ask_body (prompt : string) : Body (AState W) AgentResponse := fun s =>
  '(r, s) ← degrade prompt s; Some ((None, r), s).
Definition guarded_degrade (prompt : string) (batch : bool) : P (option GoError * AgentResponse) :=
  guarded (shedder a) zero_response
    (guarded (if batch then batchBH a else interactiveBH a) zero_response (ask_body prompt)).

Definition shed_text : string := "Server is overloaded. Please try again in a moment.".
Definition full_text : string := "Too many concurrent requests. Please try again shortly.".
Definition denial_step : TraceStep := mkStep TierDegraded 0 "" "" None [] (Some OutcomeGracefulDenial).

Definition refuse (text prompt : string) : P AgentResponse :=
  _ ← lift_os (add_step denial_step);
  _ ← lift_os (record_cost TierDegraded prompt "");
  mret (mkAnswer text (Some TierDegraded) false EmptyString).

(** The end of [ask]: finalize the trace, put its ID in the response. *)
Definition finish (resp : AgentResponse) : P (AgentResponse * option GoError) :=
  t ← now_;
  _ ← update_st (fun s => with_os (with_trace (Finalize t (ans_Tier resp) (trace (os s))) (os s)) s);
  _ ← sync_trace;
  s ← get_st;
  mret (mkAnswer (ans_Text resp) (ans_Tier resp) (ans_Cached resp) (tr_ID (trace (os s))), None).

Definition ask (prompt : string) (batch : bool) : P (AgentResponse * option GoError) :=
  _ ← update_st (fun s => with_total (wrap64 (totalRequests s + 1)) s);
  _ ← new_trace prompt;
  '(err, resp) ← guarded_degrade prompt batch;
  match err with
  | Some e =>
      if is_ErrShed a e then refuse shed_text prompt ≫= finish
      else if is_ErrFull a e then refuse full_text prompt ≫= finish
      else _ ← sync_trace; mret (resp, Some e)
  | None => finish resp
  end.

Definition Ask (prompt : string) : P (AgentResponse * option GoError) := ask prompt false.
Definition AskBatch (prompt : string) : P (AgentResponse * option GoError) := ask prompt true.
End Ask.

(** ** Status *)

Record Status := mkStatus {
  status_Input : ScoreInput;  (** the fields that go into the score *)
  TotalRequests : Z; ErrorRate : f64; LoadshedLimit : Z; LoadshedInflight : Z;
  InteractiveBusy : Z; BatchBusy : Z; ActiveSessions : Z; ChaosRunning : bool;
  status_Score : ResilienceScore;
}.

Section StatusCall.
Context {W : Type} `{FloatToInt} (a : Agent W).

Definition breaker_string (prim killed : bool) (w : W) : string :=
  if killed then "killed" else transport_state (orch a) w prim.

(** The fields of the snapshot that [ComputeScore] takes. *)
Definition score_input (s : AState W) : option ScoreInput :=
  let o := os s in
  pSem ← Snapshot (PrimarySemantic (breakers o));
  fSem ← Snapshot (FallbackSemantic (breakers o));
  let '(pr, fr, cr, dr) := TierCounts (tel_Costs (tel o)) in
  lat ← Snapshot_latency (tel_Latency (tel o));
  Some (mkScoreInput (breaker_string true (IsPrimaryKilled (chaos o)) (world o))
          (breaker_string false (IsFallbackKilled (chaos o)) (world o))
          (IsPrimaryKilled (chaos o)) (IsFallbackKilled (chaos o)) pSem fSem (IsDegradeEnabled (chaos o))
          (SemanticCache.Size (Orchestrator.sc o)) (mkCounts pr fr cr dr) (Snapshot_costs (tel_Costs (tel o))) lat).

Definition status : Prog (AState W) Status :=
  s ← get_st;
  i ← query_st score_input;
  let score := ComputeScore i in
  let '(rate, (limit, inflight), (inter, batch)) := gauges a (world (os s)) in
  t ← now_ a;
  _ ← change_st (fun s => h ← Record_score t (Telemetry.Total score) (History (mem s)); Some (with_mem (with_history h (mem s)) s));
  mret (mkStatus i (totalRequests s) rate limit inflight inter batch (Count (Sessions (mem s)))
          (IsRunning (chaos (os s))) score).
End StatusCall.

(** ** Laws and lemmas *)

Class AgentLaws {W} (a : Agent W) : Prop := {
  agent_orch : OrchLaws (orch a);
  agent_shedder : CallsOnce (shedder a);
  agent_interactive : CallsOnce (interactiveBH a);
  agent_batch : CallsOnce (batchBH a);
}.
#[export] Existing Instances agent_orch agent_shedder agent_interactive agent_batch.

Section AskFacts.
Context {W : Type} `{Unicode} (a : Agent W).
Implicit Types (s : AState W).

Lemma runs_lift {A} (m : Prog (OState W) A) s (Q : A -> AState W -> Prop) :
  runs m (os s) (fun x o => Q x (with_os o s)) -> runs (lift_os m) s Q.
Proof. intros (x & o & E & HQ). exists x, (with_os o s). unfold lift_os. rewrite E. auto. Qed.

Lemma now_runs_ s (Q : Z -> AState W -> Prop) :
  (forall t w, Q t (putw w s)) -> runs (now_ a) s Q.
Proof. intros HQ. apply runs_lift, now_runs. intros t w. apply HQ. Qed.

(** What the chain reads and writes: everything but the world, the trace and
    the callbacks. *)
Definition parts (o : OState W) := (breakers o, eval o, Orchestrator.sc o, tel o, chaos o).
Lemma parts_inv o o' : parts o = parts o' ->
  breakers o = breakers o' /\ eval o = eval o' /\ Orchestrator.sc o = Orchestrator.sc o' /\ tel o = tel o' /\ chaos o = chaos o'.
Proof. intros [= -> -> -> -> ->]. auto. Qed.

Lemma orch_ok_parts o o' : parts o = parts o' -> orch_ok o -> orch_ok o'.
Proof. intros (E1 & E2 & E3 & E4 & E5)%parts_inv. unfold orch_ok. now rewrite E1, E2, E3, E4. Qed.

Lemma chain_run_parts prompt o o1 o' o1' steps r : parts o = parts o1 -> parts o' = parts o1' ->
  chain_run (orch a) prompt o o' steps r -> chain_run (orch a) prompt o1 o1' steps r.
Proof.
  intros (E1 & E2 & E3 & E4 & E5)%parts_inv (F1 & F2 & F3 & F4 & F5)%parts_inv Hc.
  inversion Hc; subst; rewrite ?E1, ?E2, ?E3, ?E4, ?E5, ?F1, ?F2, ?F3, ?F4 in *.
  - eapply chain_primary; eassumption.
  - eapply chain_fallback; eassumption.
  - eapply chain_cache; eassumption.
  - eapply chain_denied; eassumption.
Qed.
(** A trace that is opened in the store and current. *)
Definition opened (s : AState W) (prompt : string) : Prop :=
  traces (Traces (mem s)) !! tr_ID (trace (os s)) = Some (trace (os s)) /\
  tr_Prompt (trace (os s)) = prompt /\ Steps (trace (os s)) = [].

Lemma new_trace_runs prompt s (Q : unit -> AState W -> Prop) :
  (forall s', parts (os s') = parts (os s) -> Sessions (mem s') = Sessions (mem s) -> History (mem s') = History (mem s) ->
     totalRequests s' = totalRequests s -> opened s' prompt -> Q tt s') ->
  runs (new_trace a prompt) s Q.
Proof.
  intros HQ. unfold new_trace. apply runs_bind. unfold runs at 1, read_random.
  destruct (random_bytes a (world (os s))) as [b w]. eexists _, _. split; [reflexivity|].
  apply runs_bind, now_runs_. intros t w1. apply runs_bind, now_runs_. intros t' w2. apply runs_update.
  apply HQ; try reflexivity. split; [|auto]. cbn. apply lookup_insert_eq.
Qed.

Context {Hlaws : AgentLaws a}.

(** The chain only appends to the trace, and leaves the switches alone. *)
Definition same_trace (o o' : OState W) : Prop :=
  tr_ID (trace o') = tr_ID (trace o) /\ tr_Prompt (trace o') = tr_Prompt (trace o) /\ chaos o' = chaos o.
#[export] Instance same_trace_preorder : PreOrder same_trace.
Proof. split; [now repeat split|]. intros x y z (H1 & H2 & H3) (H4 & H5 & H6). repeat split; congruence. Qed.

Lemma Degrade_trace prompt : keeps same_trace (Degrade (orch a) prompt).
Proof. apply Degrade_keeps; try typeclasses eauto; intros; now repeat split. Qed.

(** What a run of the chain does to the agent's state. *)
Definition degraded_to prompt s (r : AgentResponse) s' : Prop :=
  orch_ok (os s') /\ mem s' = mem s /\ totalRequests s' = totalRequests s /\
  same_trace (os s) (os s') /\
  exists steps tier, Steps (trace (os s')) = Steps (trace (os s)) ++ steps /\
    ans_Tier r = Some tier /\ ans_TraceID r = EmptyString /\
    chain_run (orch a) prompt (os s) (os s') steps (mkTierResult (ans_Text r) tier (ans_Cached r)).

Lemma degrade_runs prompt s : orch_ok (os s) -> runs (degrade a prompt) s (degraded_to prompt s).
Proof.
  intros Hok. destruct (Degrade_runs (orch a) prompt (os s) Hok) as ([text tier cached] & o & E & Hok' & steps & Et & Hc).
  pose proof (Degrade_trace prompt _ _ _ E) as E1. apply runs_bind, runs_lift.
  exists (mkTierResult text tier cached), o. split; [exact E|]. apply runs_ret. unfold degraded_to. cbn. eauto 12.
Qed.
Lemma degraded_to_putw prompt w w' s r s' :
  degraded_to prompt (putw w s) r s' -> degraded_to prompt s r (putw w' s').
Proof.
  intros (Hok & E1 & E2 & E3 & steps & tier & Et & E5 & E6 & Hc).
  split; [revert Hok; now apply orch_ok_parts|]. do 3 (split; [assumption|]). exists steps, tier.
  split; [exact Et|]. split; [exact E5|]. split; [exact E6|]. revert Hc. now apply chain_run_parts.
Qed.

(** Under both guards: refused, or run once. *)
Lemma guarded_degrade_runs prompt batch s (Q : option GoError * AgentResponse -> AState W -> Prop) :
  orch_ok (os s) ->
  (forall e w, Q (Some e, zero_response) (putw w s)) ->
  (forall r s', degraded_to prompt s r s' -> Q (None, r) s') ->
  runs (guarded_degrade a prompt batch) s Q.
Proof.
  intros Hok Hrefused Hran. unfold runs, guarded_degrade.
  assert (Hbh : CallsOnce (if batch then batchBH a else interactiveBH a)) by (destruct batch; typeclasses eauto).
  set (bh := if batch then batchBH a else interactiveBH a) in *.
  destruct (guarded_once (shedder a) zero_response (guarded bh zero_response (ask_body a prompt)) s)
    as [(e & w & E)|(w0 & w & E)]; rewrite E; [eauto|].
  destruct (guarded_once bh zero_response (ask_body a prompt) (putw w0 s)) as [(e & w1 & E1)|(w1 & w2 & E1)]; rewrite E1.
  - eexists _, _. split; [reflexivity|]. apply (Hrefused e w).
  - destruct (degrade_runs prompt (putw w1 (putw w0 s))) as (r & s' & Ed & Hd); [revert Hok; now apply orch_ok_parts|].
    unfold ask_body. rewrite Ed. cbn [mbind option_bind]. eexists _, _. split; [reflexivity|]. apply Hran.
    apply (degraded_to_putw prompt w1 w s). apply (degraded_to_putw prompt w1 w2 (putw w1 s)). exact Hd.
Qed.

(** The trace in the store, finalized. *)
Definition stored (s : AState W) (id prompt : string) (tier : option Tier) (steps : list TraceStep) : Prop :=
  exists tr, traces (Traces (mem s)) !! id = Some tr /\ tr_ID tr = id /\ tr_Prompt tr = prompt /\ FinalTier tr = tier /\ Steps tr = steps.

Lemma finish_runs resp s :
  is_Some (traces (Traces (mem s)) !! tr_ID (trace (os s))) ->
  runs (finish a resp) s (fun x s' =>
    x = (mkAnswer (ans_Text resp) (ans_Tier resp) (ans_Cached resp) (tr_ID (trace (os s))), None) /\
    parts (os s') = parts (os s) /\ Sessions (mem s') = Sessions (mem s) /\ History (mem s') = History (mem s) /\
    totalRequests s' = totalRequests s /\
    stored s' (tr_ID (trace (os s))) (tr_Prompt (trace (os s))) (ans_Tier resp) (Steps (trace (os s)))).
Proof.
  intros [tr Htr]. unfold finish. apply runs_bind, now_runs_. intros t w. apply runs_bind, runs_update.
  apply runs_bind, runs_update. apply runs_bind, runs_get, runs_ret. do 5 (split; [reflexivity|]).
  eexists. split; [cbn; rewrite lookup_alter_eq; cbn in Htr; rewrite Htr; reflexivity|]. auto.
Qed.
End AskFacts.

(** ** The specification of a request *)

Section AskSpec.
Context {W : Type} `{Unicode} (a : Agent W).

(** What a request leaves in the orchestrator's parts, the response it gives
    and the steps its trace ends with: the chain ran, or it was refused. *)
Inductive ask_run prompt (o o' : OState W) : list TraceStep -> AgentResponse -> Prop :=
| ask_answered steps r tier : chain_run (orch a) prompt o o' steps (mkTierResult (ans_Text r) tier (ans_Cached r)) ->
    ans_Tier r = Some tier -> ask_run prompt o o' steps r
| ask_refused r : (ans_Text r = shed_text \/ ans_Text r = full_text) -> ans_Tier r = Some TierDegraded -> ans_Cached r = false ->
    parts o' = (breakers o, eval o, Orchestrator.sc o,
                mkTel (Record_cost TierDegraded prompt "" (tel_Costs (tel o))) (tel_Latency (tel o)), chaos o) ->
    ask_run prompt o o' [denial_step] r.

Definition ask_post prompt (s : AState W) (x : AgentResponse * option GoError) (s' : AState W) : Prop :=
  orch_ok (os s') /\ Sessions (mem s') = Sessions (mem s) /\ History (mem s') = History (mem s) /\
  totalRequests s' = wrap64 (totalRequests s + 1) /\
  match x.2 with
  | None => exists steps, ask_run prompt (os s) (os s') steps x.1 /\ stored s' (ans_TraceID x.1) prompt (ans_Tier x.1) steps
  | Some e => x.1 = zero_response /\ parts (os s') = parts (os s) /\ is_ErrShed a e = false /\ is_ErrFull a e = false
  end.

Context {Hlaws : AgentLaws a}.

Lemma refuse_runs text prompt s s0 :
  orch_ok (os s0) -> parts (os s) = parts (os s0) -> Sessions (mem s) = Sessions (mem s0) ->
  History (mem s) = History (mem s0) -> totalRequests s = wrap64 (totalRequests s0 + 1) -> opened s prompt ->
  text = shed_text \/ text = full_text ->
  runs (refuse text prompt ≫= finish a) s (ask_post prompt s0).
Proof.
  intros Hok Hp Hs Hh Ht (Htr & Hprompt & Hsteps) Htext. apply runs_bind. unfold refuse.
  apply runs_bind, runs_lift, runs_update. apply runs_bind, runs_lift, runs_update. apply runs_ret.
  eapply runs_mono; [apply finish_runs; cbn; rewrite Htr; eauto|].
  intros x s' (-> & E1 & E2 & E3 & E4 & Hst). cbn in E2, E3, E4.
  apply parts_inv in Hp as (P1 & P2 & P3 & P4 & P5).
  assert (Ep : parts (os s') = (breakers (os s0), eval (os s0), Orchestrator.sc (os s0),
    mkTel (Record_cost TierDegraded prompt "" (tel_Costs (tel (os s0)))) (tel_Latency (tel (os s0))), chaos (os s0)))
    by (rewrite E1; unfold parts; cbn; now rewrite P1, P2, P3, P4, P5).
  split; [injection Ep as F1 F2 F3 F4 F5; unfold orch_ok; rewrite F1, F2, F3, F4; exact Hok|].
  split; [congruence|]. split; [congruence|]. split; [congruence|]. cbn [fst snd ans_Text ans_Tier ans_Cached ans_TraceID].
  exists [denial_step]. split; [apply ask_refused; auto|]. cbn in Hst. now rewrite Hprompt, Hsteps in Hst.
Qed.

Lemma ask_runs prompt batch s : orch_ok (os s) -> runs (ask a prompt batch) s (ask_post prompt s).
Proof.
  intros Hok. unfold ask. apply runs_bind, runs_update. apply runs_bind, new_trace_runs.
  intros s1 Hp Hs Hh Ht Hopen. apply runs_bind.
  assert (Hok1 : orch_ok (os s1)) by (revert Hok; now apply orch_ok_parts).
  apply (guarded_degrade_runs a); [exact Hok1| |].
  - intros e w. destruct (is_ErrShed a e) eqn:Es; [apply refuse_runs; auto|].
    destruct (is_ErrFull a e) eqn:Ef; [apply refuse_runs; auto|].
    apply runs_bind, runs_update, runs_ret. split; [revert Hok1; now apply orch_ok_parts|].
    split; [exact Hs|]. split; [exact Hh|]. split; [exact Ht|]. cbn [fst snd]. split; [done|]. split; [exact Hp|auto].
  - intros r s2 (Hok2 & Em & Et & (Eid & Epr & _) & steps & tier & Esteps & Etier & _ & Hc).
    destruct Hopen as (Htr & Hprompt & Hsteps). rewrite Hsteps in Esteps.
    eapply runs_mono; [apply finish_runs; rewrite Em, Eid, Htr; eauto|].
    intros x s3 (-> & E1 & E2 & E3 & E4 & Hst). rewrite Em in E2, E3. rewrite Et in E4.
    split; [revert Hok2; now apply orch_ok_parts|]. split; [now rewrite E2|]. split; [now rewrite E3|]. split; [now rewrite E4|].
    cbn [fst snd ans_Text ans_Tier ans_Cached ans_TraceID]. exists steps.
    split; [|now rewrite Esteps, Epr, Hprompt in Hst].
    eapply ask_answered; [|exact Etier]. revert Hc. now apply chain_run_parts.
Qed.
End AskSpec.

(** ** Properties of a request *)

(** C20.  Every request is answered and accounted for: from a well-formed state
    [ask] never panics, keeps the state well formed, counts the request once,
    and either runs the degradation chain exactly once and returns its answer,
    or was refused by the load shedder or the bulkhead and returns one of the
    two denials without touching breakers, evaluator, cache or latencies (but
    counted as a denial in the costs), or hands on another error of the guards
    with nothing changed; the trace stored under the response's ID is this
    request's, with its prompt, its final tier and the steps of that run. *)
Theorem ask_spec {W} `{Unicode} (a : Agent W) {Hlaws : AgentLaws a} prompt batch s : orch_ok (os s) ->
  exists resp err s', ask a prompt batch s = Some ((resp, err), s') /\
    orch_ok (os s') /\ Sessions (mem s') = Sessions (mem s) /\ totalRequests s' = wrap64 (totalRequests s + 1) /\
    match err with
    | None => exists tr, traces (Traces (mem s')) !! ans_TraceID resp = Some tr /\
        tr_ID tr = ans_TraceID resp /\ tr_Prompt tr = prompt /\ FinalTier tr = ans_Tier resp /\
        ask_run a prompt (os s) (os s') (Steps tr) resp
    | Some e => resp = zero_response /\ parts (os s') = parts (os s) /\ is_ErrShed a e = false /\ is_ErrFull a e = false
    end.
Proof.
  intros Hok. destruct (ask_runs a prompt batch s Hok) as ([resp err] & s' & E & Hok' & Es & _ & Et & Hout).
  exists resp, err, s'. do 4 (split; [assumption|]). cbn [fst snd] in Hout. destruct err as [e|]; [exact Hout|].
  destruct Hout as (steps & Hr & tr & H1 & H2 & H3 & H4 & <-). exists tr. auto.
Qed.

(** ** Sequences of requests *)

Section Sequences.
Context {W : Type} `{Unicode} (a : Agent W).

Fixpoint ask_all (l : list (string * bool)) : Prog (AState W) (list (AgentResponse * option GoError)) :=
  match l with
  | [] => mret []
  | (prompt, batch) :: l => r ← ask a prompt batch; rs ← ask_all l; mret (r :: rs)
  end.

(** The request counter of a tier. *)
Definition tier_count (t : Tier) (c : CostTracker) : Z :=
  match t with TierPrimary => primaryReqs c | TierFallback => fallbackReqs c | TierCache => cacheReqs c | TierDegraded => deniedReqs c end.
(** The responses of a tier among some results. *)
Definition of_tier (t : Tier) (rs : list (AgentResponse * option GoError)) : Z :=
  len (filter (fun r => r.2 = None /\ ans_Tier r.1 = Some t) rs).
Definition errors_in (rs : list (AgentResponse * option GoError)) : Z := len (filter (fun r => r.2 <> None) rs).

Lemma Record_cost_count t i r c t' :
  tier_count t' (Record_cost t i r c) = if decide (t' = t) then wrap64 (tier_count t' c + 1) else tier_count t' c.
Proof. destruct c, t, t'; reflexivity. Qed.

Lemma of_tier_cons t r rs : of_tier t (r :: rs) =
  (if decide (r.2 = None /\ ans_Tier r.1 = Some t) then 1 else 0) + of_tier t rs.
Proof. unfold of_tier. rewrite filter_cons. case_decide; rewrite ?len_cons; lia. Qed.
Lemma errors_in_cons r rs : errors_in (r :: rs) = (if decide (r.2 <> None) then 1 else 0) + errors_in rs.
Proof. unfold errors_in. rewrite filter_cons. case_decide; rewrite ?len_cons; lia. Qed.

(** Every result is an error or a response of one tier. *)
Lemma results_partition rs : Forall (fun r => r.2 = None -> ans_Tier r.1 <> None) rs ->
  of_tier TierPrimary rs + of_tier TierFallback rs + of_tier TierCache rs + of_tier TierDegraded rs + errors_in rs = len rs.
Proof.
  induction 1 as [|r rs Hr _ IH]; [reflexivity|]. rewrite !of_tier_cons, errors_in_cons, len_cons.
  destruct r as [resp [e|]]; cbn [fst snd] in *.
  - repeat case_decide; try lia; intuition congruence.
  - specialize (Hr eq_refl). destruct (ans_Tier resp) as [[]|]; [..|congruence];
      repeat case_decide; try lia; intuition congruence.
Qed.

Context {Hlaws : AgentLaws a}.

(** A run of the chain is counted once, under the tier that answered. *)
Lemma chain_costs prompt o o' steps r : chain_run (orch a) prompt o o' steps r ->
  exists i t, tel_Costs (tel o') = Record_cost (res_Tier r) i t (tel_Costs (tel o)).
Proof. intros Hc. inversion Hc; subst; eauto. Qed.

Lemma ask_counts prompt s x s' : ask_post a prompt s x s' -> forall t,
  tier_count t (tel_Costs (tel (os s'))) =
    (if decide (x.2 = None /\ ans_Tier x.1 = Some t) then wrap64 (tier_count t (tel_Costs (tel (os s))) + 1)
     else tier_count t (tel_Costs (tel (os s)))) /\ (x.2 = None -> ans_Tier x.1 <> None).
Proof.
  intros (_ & _ & _ & _ & Hx) t. destruct x as [resp [e|]]; cbn [fst snd] in *.
  { destruct Hx as (_ & Hp & _). apply parts_inv in Hp as (_ & _ & _ & -> & _).
    rewrite decide_False by (intros [? _]; discriminate). split; [done|discriminate]. }
  destruct Hx as (steps & Hr & _).
  assert (Hc : exists tier i r, ans_Tier resp = Some tier /\
    tel_Costs (tel (os s')) = Record_cost tier i r (tel_Costs (tel (os s)))).
  { destruct Hr as [steps r tier Hc Ht|r _ Ht _ Hp].
    - apply chain_costs in Hc as (i & t0 & E). eauto 6.
    - exists TierDegraded, prompt, EmptyString. split; [exact Ht|]. injection Hp as _ _ _ -> _. reflexivity. }
  destruct Hc as (tier & i & r & Ht & ->). rewrite Record_cost_count, Ht. split; [|discriminate].
  repeat case_decide; intuition congruence.
Qed.

Lemma ask_all_runs l : forall s, orch_ok (os s) -> 0 <= totalRequests s -> totalRequests s + len l <= int64_max ->
  (forall t, 0 <= tier_count t (tel_Costs (tel (os s))) /\ tier_count t (tel_Costs (tel (os s))) + len l <= int64_max) ->
  runs (ask_all l) s (fun rs s' => orch_ok (os s') /\ len rs = len l /\ totalRequests s' = totalRequests s + len l /\
    Forall (fun r => r.2 = None -> ans_Tier r.1 <> None) rs /\
    forall t, tier_count t (tel_Costs (tel (os s'))) = tier_count t (tel_Costs (tel (os s))) + of_tier t rs).
Proof.
  induction l as [|[prompt batch] l IH]; intros s Hok H0 Ht Hc; cbn [ask_all].
  { apply runs_ret. split; [exact Hok|]. split; [done|]. split; [change (len []) with 0; lia|]. split; [constructor|].
    intros t. change (of_tier t []) with 0. lia. }
  rewrite !len_cons in *. pose proof (len_nonneg l) as Hl. apply runs_bind. eapply runs_mono; [now apply ask_runs|].
  intros x s1 Hx. pose proof (ask_counts prompt s x s1 Hx) as Hcount. destruct Hx as (Hok1 & _ & _ & Et & _).
  rewrite wrap64_id in Et by (unfold int64_min; lia).
  assert (Hn : forall t, tier_count t (tel_Costs (tel (os s1))) = tier_count t (tel_Costs (tel (os s)))
    + (if decide (x.2 = None /\ ans_Tier x.1 = Some t) then 1 else 0)).
  { intros t. destruct (Hcount t) as [-> _]. case_decide; [|lia]. specialize (Hc t).
    rewrite wrap64_id by (unfold int64_min; lia). lia. }
  apply runs_bind. eapply runs_mono; [apply IH; [exact Hok1|lia|lia|]|].
  { intros t. rewrite Hn. specialize (Hc t). case_decide; lia. }
  intros rs s2 (Hok2 & Hlen & Htot & Hf & Hall). apply runs_ret. rewrite len_cons. split; [exact Hok2|].
  split; [lia|]. split; [lia|]. split; [constructor; [exact (proj2 (Hcount TierPrimary))|exact Hf]|].
  intros t. rewrite Hall, Hn, of_tier_cons. lia.
Qed.
End Sequences.

(** C21.  The tier counters stay in step with the request counter: over any
    sequence of [Ask] and [AskBatch] calls (fewer than 2^63 requests in all)
    nothing panics, the request counter grows by the number of calls, every
    tier's counter by the number of responses of that tier, refusals included,
    and so the four counters together by the number of calls that did not end
    in an error. *)
Theorem tier_counts_in_sync {W} `{Unicode} (a : Agent W) {Hlaws : AgentLaws a} l s :
  orch_ok (os s) -> 0 <= totalRequests s -> totalRequests s + len l <= int64_max ->
  (forall t, 0 <= tier_count t (tel_Costs (tel (os s))) /\ tier_count t (tel_Costs (tel (os s))) + len l <= int64_max) ->
  exists rs s', ask_all a l s = Some (rs, s') /\ len rs = len l /\ totalRequests s' = totalRequests s + len l /\
    (forall t, tier_count t (tel_Costs (tel (os s'))) = tier_count t (tel_Costs (tel (os s))) + of_tier t rs) /\
    of_tier TierPrimary rs + of_tier TierFallback rs + of_tier TierCache rs + of_tier TierDegraded rs
      = len l - errors_in rs.
Proof.
  intros Hok H0 Ht Hc. destruct (ask_all_runs a l s Hok H0 Ht Hc) as (rs & s' & E & _ & Hlen & Htot & Hf & Hall).
  exists rs, s'. split; [exact E|]. do 3 (split; [assumption|]). pose proof (results_partition rs Hf). lia.
Qed.

(** ** The status *)

(** The well-formed states of the agent: the request counter is an int64. *)
Definition counter_ok (n : Z) : Prop := int64_min <= n <= int64_max.
Definition agent_ok {W} (s : AState W) : Prop := orch_ok (os s) /\ history_ok (History (mem s)) /\ counter_ok (totalRequests s).

Lemma agent_ok_parts {W} (s s' : AState W) : parts (os s) = parts (os s') -> History (mem s) = History (mem s') ->
  totalRequests s = totalRequests s' -> agent_ok s' -> agent_ok s.
Proof. intros Ep Eh En (Ho & Hh & Hn). split; [revert Ho; now apply orch_ok_parts|]. now rewrite Eh, En. Qed.

Lemma ask_post_ok {W} `{Unicode} (a : Agent W) prompt s x s' : ask_post a prompt s x s' -> agent_ok s -> agent_ok s'.
Proof.
  intros (Ho & _ & Eh & En & _) (_ & Hh & _). split; [exact Ho|]. rewrite Eh, En. split; [exact Hh|apply wrap64_range].
Qed.

Section StatusFacts.
Context {W : Type} `{FloatToInt} (a : Agent W).
Implicit Types (s : AState W).

(** Reading the status changes the world and the score history, nothing else. *)
Definition same_but_history s s' : Prop :=
  parts (os s') = parts (os s) /\ trace (os s') = trace (os s) /\ Sessions (mem s') = Sessions (mem s) /\
  Traces (mem s') = Traces (mem s) /\ totalRequests s' = totalRequests s.

Lemma score_input_total s : orch_ok (os s) -> exists i, score_input a s = Some i /\
  Telemetry.CacheSize i = SemanticCache.Size (Orchestrator.sc (os s)) /\
  Telemetry.Counts i = mkCounts (primaryReqs (tel_Costs (tel (os s)))) (fallbackReqs (tel_Costs (tel (os s))))
                         (cacheReqs (tel_Costs (tel (os s)))) (deniedReqs (tel_Costs (tel (os s)))) /\
  Telemetry.Costs i = Snapshot_costs (tel_Costs (tel (os s))).
Proof.
  intros ((Hp & Hf) & _ & _ & Hl). unfold score_input.
  destruct (Snapshot_total _ Hp) as [p ->], (Snapshot_total _ Hf) as [f ->]. cbn [mbind option_bind].
  destruct (Snapshot_latency_total _ Hl) as [l El]. cbn [TierCounts]. unfold TierCounts. rewrite El. cbn [mbind option_bind].
  eexists. split; [reflexivity|]. auto.
Qed.

Lemma status_runs s : agent_ok s -> runs (status a) s (fun st s' =>
  score_input a s = Some (status_Input st) /\ status_Score st = ComputeScore (status_Input st) /\
  TotalRequests st = totalRequests s /\ ActiveSessions st = Count (Sessions (mem s)) /\
  same_but_history s s' /\ agent_ok s').
Proof.
  intros (Ho & Hh & Hn). unfold status. apply runs_bind, runs_get. apply runs_bind.
  destruct (score_input_total s Ho) as (i & Ei & _). exists i, s. unfold query_st at 1. rewrite Ei. split; [reflexivity|].
  cbv zeta. destruct (gauges a (world (os s))) as [[rate [limit inflight]] [inter batch]].
  apply runs_bind, now_runs_. intros t w. apply runs_bind.
  destruct (Record_score_total t (Telemetry.Total (ComputeScore i)) (History (mem s)) Hh) as (h & Eh & Hh').
  eexists _, _. unfold change_st. cbn [mem putw agent_world with_os]. rewrite Eh. cbn [mbind option_bind].
  split; [reflexivity|]. apply runs_ret. cbn. repeat (split; [reflexivity|]). split; [repeat split|].
  split; [exact Ho|split; [exact Hh'|exact Hn]].
Qed.
End StatusFacts.

(** The status: from a well-formed state with counters below 2^51
    [Status] never panics, reports the counters, the cache and the sessions as
    they are, and a Resilience Score between 0 and 100 whose five components
    add up to it; it records that score and leaves breakers, evaluator, cache,
    telemetry, switches, sessions and traces alone. *)
Theorem status_spec {W} `{FloatToInt} (a : Agent W) (s : AState W) : agent_ok s ->
  Forall (fun n => 0 <= n < 2 ^ 51) (counters (tel_Costs (tel (os s)))) ->
  Forall (fun t => 0 <= tier_count t (tel_Costs (tel (os s))) < 2 ^ 51) [TierPrimary; TierFallback; TierCache; TierDegraded] ->
  exists st s', status a s = Some (st, s') /\ same_but_history s s' /\ agent_ok s' /\
    TotalRequests st = totalRequests s /\ ActiveSessions st = Count (Sessions (mem s)) /\
    Telemetry.CacheSize (status_Input st) = SemanticCache.Size (Orchestrator.sc (os s)) /\
    Telemetry.Costs (status_Input st) = Snapshot_costs (tel_Costs (tel (os s))) /\
    let b := Breakdown (status_Score st) in
    Telemetry.Total (status_Score st) = TransportHealth b + SemanticQuality b + CacheEfficiency b + Availability b + LatencyScore b /\
    0 <= Telemetry.Total (status_Score st) <= 100.
Proof.
  intros Hok Hc Ht. destruct (status_runs a s Hok) as (st & s' & E & Ei & Es & Etot & Eses & Hsame & Hok').
  exists st, s'. split; [exact E|]. do 4 (split; [assumption|]).
  destruct (score_input_total a s (proj1 Hok)) as (i & Ei' & Esize & Ecounts & Ecosts). rewrite Ei in Ei'. injection Ei' as <-.
  split; [exact Esize|]. split; [exact Ecosts|]. rewrite Es.
  assert (Hin : score_input_ok (status_Input st)).
  { repeat (apply Forall_cons in Ht as [? Ht]). cbn [tier_count] in *. unfold score_input_ok. rewrite Ecounts, Ecosts, Esize.
    cbn [Primary Fallback Cache Denied]. split; [unfold SemanticCache.Size; apply len_nonneg|].
    do 4 (split; [lia|]). split; [lia|]. apply SavingsPercent_bounds. eapply Forall_impl; [exact Hc|]. cbn. lia. }
  pose proof (ComputeScore_ok _ Hin) as (H1 & H2 & H3 & H4 & H5 & Hsum). cbv zeta. split; [exact Hsum|lia].
Qed.

(** ** A sample agent *)

Module SampleAgent.
Definition shed_error : GoError := mkError "load shed" false None.
Definition agent (p f : LLMProvider Z) (shedder bh : Guard Z) : Agent Z :=
  mkAgent (Sample.orch p f) shedder bh bh (fun e => String.eqb (err_msg e) "load shed")
    (fun e => String.eqb (err_msg e) "bulkhead full") (fun w => ([w mod 256], w)) (fun _ => (f0, (10, 0), (0, 0))).
Definition state (c : Chaos) : AState Z :=
  mkAState (Sample.state0 c) (mkStore NewSessionStore NewTraceStore (mkHistory (replicate 4 (mkPoint 0 0)) 0 false 4 time_zero second)) 0.
Definition healthy : Agent Z := agent (Sample.answering Sample.answer) Sample.down Sample.direct Sample.direct.
(** Every request is shed. *)
Definition shedding : Agent Z := agent (Sample.answering Sample.answer) Sample.down (refusing shed_error) Sample.direct.

#[export] Instance agent_laws p f s b : OrchLaws (Sample.orch p f) -> CallsOnce s -> CallsOnce b -> AgentLaws (agent p f s b).
Proof. intros. split; assumption. Qed.
#[export] Instance healthy_orch : OrchLaws (Sample.orch (Sample.answering Sample.answer) Sample.down).
Proof.
  apply Sample.orch_laws; [apply Sample.short_answering; vm_compute; reflexivity|]. apply Sample.short_down.
Qed.
#[export] Instance healthy_laws : AgentLaws healthy.
Proof. apply agent_laws; typeclasses eauto. Qed.
#[export] Instance shedding_laws : AgentLaws shedding.
Proof. apply agent_laws; typeclasses eauto. Qed.
Lemma state_ok c : agent_ok (state c).
Proof.
  split; [apply Sample.state0_ok|]. split; [|split; discriminate]. split; [|cbn; lia]. split; [reflexivity|]. cbn. unfold int64_max. lia.
Qed.
End SampleAgent.

Export (hints) SampleAgent.

Lemma ask_spec_witness :
  exists resp err s', ask SampleAgent.shedding "q" false (SampleAgent.state (NewChaos true)) = Some ((resp, err), s') /\
    ans_Text resp = shed_text /\ totalRequests s' = 1.
Proof.
  destruct (ask_spec SampleAgent.shedding "q" false (SampleAgent.state (NewChaos true)) (Sample.state0_ok _))
    as (resp & err & s' & E & _ & _ & Et & _).
  exists resp, err, s'. split; [exact E|]. split; [|exact Et].
  assert (Er : option_map (fun x => ans_Text x.1.1) (ask SampleAgent.shedding "q" false (SampleAgent.state (NewChaos true)))
    = Some shed_text) by (vm_compute; reflexivity).
  rewrite E in Er. injection Er as Er. exact Er.
Defined.

Lemma tier_counts_in_sync_witness :
  let l := [("q", false); ("q", true)]%string in
  exists rs s', ask_all SampleAgent.healthy l (SampleAgent.state (NewChaos true)) = Some (rs, s') /\
    totalRequests s' = 2 /\ tier_count TierPrimary (tel_Costs (tel (os s'))) = 2.
Proof.
  intros l. destruct (tier_counts_in_sync SampleAgent.healthy l (SampleAgent.state (NewChaos true)) (Sample.state0_ok _))
    as (rs & s' & E & _ & Et & Hc & _); [cbn; lia|vm_compute; discriminate|intros []; vm_compute; intuition discriminate|].
  exists rs, s'. split; [exact E|]. split; [exact Et|]. rewrite Hc.
  assert (Er : option_map (fun x => of_tier TierPrimary x.1) (ask_all SampleAgent.healthy l (SampleAgent.state (NewChaos true)))
    = Some 2) by (vm_compute; reflexivity).
  rewrite E in Er. injection Er as Er. cbn [fst] in Er. rewrite Er. reflexivity.
Defined.

Lemma status_spec_witness : exists st s', status SampleAgent.healthy (SampleAgent.state (NewChaos true)) = Some (st, s') /\
  0 <= Telemetry.Total (status_Score st) <= 100.
Proof.
  destruct (status_spec SampleAgent.healthy (SampleAgent.state (NewChaos true))) as (st & s' & E & _ & _ & _ & _ & _ & _ & _ & Ht).
  - apply SampleAgent.state_ok.
  - unfold counters. repeat (apply Forall_cons; split; [cbn; lia|]). apply Forall_nil_2.
  - unfold counters. repeat (apply Forall_cons; split; [cbn; lia|]). apply Forall_nil_2.
  - exists st, s'. split; [exact E|exact Ht].
Defined.
