(* ===== verification/Toolset.v ===== *)
(** * The built-in tools (agent/tool.go, agent/mcp_tool.go)

    The tools the ReAct loop can call, as the records [Tool] of Tools.v over the
    agent's state: the calculator, the knowledge base, the system report, and
    the MCP lookup, whose HTTP exchange is a parameter.  The clock tool
    is in GetTime.v; the registry here takes it as [get_time].  The arguments are a Go map, [nil] or an
    object. *)
From S2P Require Import Prelude Float64 GoStrings Strconv Json Provider Calculator Orchestrator Guarded Tools Config Agent.
From S2P Require Telemetry.
From Stdlib Require Import ZArith Lia String SpecFloat.
From stdpp Require Import base tactics list gmap strings.
#[local] Open Scope Z_scope.

(** A [map[string]any], which may be nil. *)
Definition ToolArgs : Type := option object.
(** [s, _ := args[name].(string)]. *)
Definition string_arg (args : ToolArgs) (name : string) : string :=
  match args ≫= obj_get name with Some (JStr s) => s | _ => EmptyString end.
Definition plain_error (msg : string) : GoError := mkError msg false None.

Section Texts.
Context `{Printable} `{Unicode}.
(** The texts of the evaluator's errors. *)
Definition expr_error (e : ExprError) : string :=
  match e with
  | ErrEnd => "unexpected end of expression"
  | ErrParen => "missing closing parenthesis"
  | ErrDivision => "division by zero"
  | ErrNumber token =>
      "strconv.ParseFloat: parsing " +:+ Quote (string_of_runes token) +:+ ": " +:+
      (if is_inf (ParseFloat token).1 false then "value out of range" else "invalid syntax")
  | ErrChar c p => "unexpected character " +:+ Quote (encode_rune c) +:+ " at position " +:+ itoa p
  | ErrTrailing rest => "unexpected trailing input: " +:+ Quote (string_of_runes rest)
  end.
End Texts.

Section Tools.
Context {W : Type} `{Unicode} `{Printable} `{MathFun} `{FloatToInt} (a : Agent W).
Notation Result := (option ((string * option GoError) * AState W)).
Notation AgentTool := (Tool (AState W) ToolArgs).

Definition CalculateTool_Execute (args : ToolArgs) (s : AState W) : Result :=
  let expr := string_arg args "expression" in
  r ← Calculate expr;
  Some (match r with
        | inl None => (EmptyString, Some (plain_error "expression is required"))
        | inl (Some e) => (EmptyString, Some (plain_error ("cannot evaluate " +:+ Quote expr +:+ ": " +:+ expr_error e)))
        | inr text => (text, None)
        end, s).
Definition CalculateTool : AgentTool :=
  mkTool "calculate" "Evaluate a mathematical expression" ("{" +:+ quote +:+ "expression" +:+ quote +:+ ": " +:+ quote +:+ "2^10 + 5 * 3" +:+ quote +:+ "}")
    CalculateTool_Execute.

Definition SearchDocsTool_Execute (args : ToolArgs) (s : AState W) : Result :=
  let query := string_arg args "query" in
  Some (if String.eqb query EmptyString then (EmptyString, Some (plain_error "query is required"))
        else (searchKB query, None), s).
Definition SearchDocsTool : AgentTool :=
  mkTool "search_docs" "Search the resilience engineering knowledge base" ("{" +:+ quote +:+ "query" +:+ quote +:+ ": " +:+ quote +:+ "circuit breaker pattern" +:+ quote +:+ "}")
    SearchDocsTool_Execute.

Definition system_report (s : Status) : string :=
  let i := status_Input s in
  "Primary circuit breaker: " +:+ Telemetry.PrimaryBreaker i +:+ " | Fallback circuit breaker: " +:+ Telemetry.FallbackBreaker i +:+ " | " +:+
  "Cache entries: " +:+ itoa (Telemetry.CacheSize i) +:+ " | Total requests: " +:+ itoa (TotalRequests s) +:+
  " | Primary error rate: " +:+ fmt_fixed 0 (fmul (ErrorRate s) (f64_of_Z 100)) +:+ "% | " +:+
  "Load shedder limit: " +:+ itoa (LoadshedLimit s) +:+ " (in-flight: " +:+ itoa (LoadshedInflight s) +:+ ")".
Definition CheckSystemTool_Execute (args : ToolArgs) (s : AState W) : Result :=
  '(st, s) ← status a s; Some ((system_report st, None), s).
Definition CheckSystemTool : AgentTool :=
  mkTool "check_system" "Check AgentShield's current resilience status" "{}" CheckSystemTool_Execute.

(** ** The MCP lookup *)

(** An exchange of the HTTP client: an error of [NewRequestWithContext], an
    error of the call, or the status and the body of the response. *)
Inductive Exchange := BadRequest (err : string) | CallFailed (err : string) | Replied (status : Z) (body : string).
Context (http_post : string -> string -> W -> Exchange * W) (decode_error : string -> string).

Definition MCPLookupTool_Execute (url : string) (args : ToolArgs) (s : AState W) : Result :=
  let fail msg s := Some ((EmptyString, Some (plain_error msg)), s) in
  if String.eqb url EmptyString then fail "MCP not configured (MCP_URL unset)" s
  else
    let tool := string_arg args "tool" in
    if String.eqb tool EmptyString then fail "mcp_lookup requires {tool:...}" s
    else
      let body := default EmptyString (marshal (JObj [("args", JStr (string_arg args "args")); ("tool", JStr tool)]%string)) in
      let '(out, w) := http_post (url +:+ "/mcp/call") body (getw s) in
      let s := putw w s in
      match out with
      | BadRequest e => fail ("mcp request: " +:+ e) s
      | CallFailed e => fail ("mcp call: " +:+ e) s
      | Replied status body =>
          if negb (status =? 200) then fail ("mcp status " +:+ itoa status) s
          else match decode_object body with
               | Some m =>
                   let '(result, bad) := string_field "result" m in
                   if bad then fail ("mcp decode: " +:+ decode_error body) s else Some ((result, None), s)
               | None => fail ("mcp decode: " +:+ decode_error body) s
               end
      end.
Definition MCPLookupTool (url : string) : AgentTool :=
  mkTool "mcp_lookup" ("Call an external MCP server tool. Use for weather, currency, " +:+
    "or any data the local tools don't cover. Routed through a circuit " +:+ "breaker so MCP outages degrade gracefully.")
    ("{" +:+ quote +:+ "tool" +:+ quote +:+ ": " +:+ quote +:+ "weather" +:+ quote +:+ ", " +:+ quote +:+ "args" +:+ quote +:+ ": " +:+ quote +:+ "Berlin" +:+ quote +:+ "}")
    (MCPLookupTool_Execute url).

(** [newToolRegistry]: the four built-in tools, and the MCP lookup when its
    URL is configured; [get_time] is the clock tool. *)
Definition agent_tools (get_time : AgentTool) (cfg : option Config) : list AgentTool :=
  [CalculateTool; get_time; SearchDocsTool; CheckSystemTool] ++
  match cfg with
  | Some c => if String.eqb (mcp_URL (cfg_MCP c)) EmptyString then [] else [MCPLookupTool (mcp_URL (cfg_MCP c))]
  | None => []
  end.
End Tools.

(** ** What the loop relies on *)

(** A tool that returns from every well-formed state, and leaves everything but
    the world and the score history alone. *)
Class SafeTool {W} (t : Tool (AState W) ToolArgs) : Prop :=
  tool_runs : forall args s, agent_ok s -> runs (tool_Execute t args) s (fun _ s' => same_but_history s s' /\ agent_ok s').

Section Safe.
Context {W : Type}.
Implicit Types (s : AState W).
#[export] Instance same_but_history_preorder : PreOrder (@same_but_history W).
Proof.
  split; [now intros s; repeat split|]. intros s1 s2 s3 (A1 & A2 & A3 & A4 & A5) (B1 & B2 & B3 & B4 & B5).
  repeat split; congruence.
Qed.
Lemma same_putw s w : same_but_history s (putw w s).
Proof. now repeat split. Qed.
Lemma agent_ok_putw s w : agent_ok s -> agent_ok (putw w s).
Proof. intros [Ho Hh]. split; [|exact Hh]. revert Ho. now apply orch_ok_parts. Qed.
#[local] Hint Resolve same_putw agent_ok_putw : core.

Context `{Unicode} `{Printable} `{MathFun} `{FloatToInt} (a : Agent W).

#[export] Instance CalculateTool_safe : SafeTool (W := W) CalculateTool.
Proof.
  intros args s Hok. unfold runs. cbn. unfold CalculateTool_Execute, Calculate.
  case_bool; cbn [mbind option_bind]; [eexists _, s; split; [reflexivity|now split]|].
  destruct (evalExpr_returns (string_arg args "expression")) as [[e|v] ->]; cbn [mbind option_bind];
    (eexists _, s; split; [reflexivity|now split]).
Qed.
#[export] Instance SearchDocsTool_safe : SafeTool (W := W) SearchDocsTool.
Proof. intros args s Hok. eexists _, s. split; [reflexivity|now split]. Qed.
#[export] Instance CheckSystemTool_safe : SafeTool (CheckSystemTool a).
Proof.
  intros args s Hok. destruct (status_runs a s Hok) as (st & s' & E & _ & _ & _ & _ & Hs & Hok').
  unfold runs. cbn. unfold CheckSystemTool_Execute. rewrite E. eexists _, s'. split; [reflexivity|now split].
Qed.
#[export] Instance MCPLookupTool_safe http_post decode_error url : SafeTool (W := W) (MCPLookupTool http_post decode_error url).
Proof.
  intros args s Hok. unfold runs. cbn. unfold MCPLookupTool_Execute.
  repeat (case_match; try (eexists _, _; split; [reflexivity|now auto])); eexists _, _; (split; [reflexivity|split; [reflexivity||apply same_putw|auto]]).
Qed.
Lemma agent_tools_safe http_post decode_error get_time cfg : SafeTool (W := W) get_time ->
  Forall (SafeTool (W := W)) (agent_tools a http_post decode_error get_time cfg).
Proof.
  intros Hg. unfold agent_tools. repeat (apply Forall_cons; split; [typeclasses eauto|]).
  destruct cfg as [c|]; [|constructor]. case_bool; repeat constructor. typeclasses eauto.
Qed.
End Safe.
