(* ===== verification/GetTime.v ===== *)
(** * The clock tool (agent/tool.go: [GetTimeTool])

    The civil date of package time, from the day number, and the tool that
    prints it.  The reference is the calendar counted day by day from Thursday,
    1 January 1970 ([tomorrow]).  The time-zone database belongs to the host:
    [zone] looks a name up and gives an error's text or the offset, in seconds,
    at each Unix time. *)
From S2P Require Import Prelude Float64 GoStrings Strconv Json Provider Calculator Orchestrator Guarded Tools Config Agent Toolset.
From Stdlib Require Import ZArith Lia String.
From stdpp Require Import base tactics list strings.
#[local] Open Scope Z_scope.

(** ** Dates *)

Record Date := mkDate { Year : Z; Month : Z; Day : Z; Weekday : Z }.
Definition is_leap (y : Z) : bool := (y mod 4 =? 0) && (negb (y mod 100 =? 0) || (y mod 400 =? 0)).
Definition month_length (leap : bool) (m : Z) : Z :=
  if m =? 2 then (if leap then 29 else 28) else if (m =? 4) || (m =? 6) || (m =? 9) || (m =? 11) then 30 else 31.

(** The year and the day in it (from 0), from the days since 1 January 1: cut
    off 400, 100, 4 years and one year; the last of four is never short. *)
Definition year_day (d : Z) : Z * Z :=
  let n400 := d / 146097 in let d := d - 146097 * n400 in
  let n := d / 36524 in let n100 := n - Z.shiftr n 2 in let d := d - 36524 * n100 in
  let n4 := d / 1461 in let d := d - 1461 * n4 in
  let n := d / 365 in let n1 := n - Z.shiftr n 2 in
  (400 * n400 + 100 * n100 + 4 * n4 + n1 + 1, d - 365 * n1).
(** The month and its day, from the day of the year. *)
Fixpoint month_day (fuel : nat) (leap : bool) (m yday : Z) : Z * Z :=
  match fuel with
  | O => (m, yday + 1)
  | S fuel => if yday <? month_length leap m then (m, yday + 1) else month_day fuel leap (m + 1) (yday - month_length leap m)
  end.
(** The date of a day, counted from 1 January 1970: twelve months are enough. *)
Definition date_of (day : Z) : Date :=
  let '(y, yday) := year_day (day + 719162) in
  let '(m, d) := month_day 11 (is_leap y) 1 yday in mkDate y m d ((day + 4) mod 7).

Definition weekday_name (w : Z) : string :=
  nth (Z.to_nat w) ["Sunday"; "Monday"; "Tuesday"; "Wednesday"; "Thursday"; "Friday"; "Saturday"] EmptyString.
Definition month_name (m : Z) : string :=
  nth (Z.to_nat (m - 1)) ["January"; "February"; "March"; "April"; "May"; "June"; "July"; "August"; "September"; "October"; "November"; "December"] EmptyString.
Definition zero_pad (width : nat) (n : Z) : string :=
  if n <? 0 then str1 45 +:+ zeros (width - String.length (digits (- n))) +:+ digits (- n)
  else zeros (width - String.length (digits n)) +:+ digits n.
(** The layout "Monday, 02 January 2006 15:04:05". *)
Definition format_date (d : Date) (secs : Z) : string :=
  weekday_name (Weekday d) +:+ ", " +:+ zero_pad 2 (Day d) +:+ " " +:+ month_name (Month d) +:+ " " +:+ zero_pad 4 (Year d) +:+ " " +:+
  zero_pad 2 (secs / 3600) +:+ ":" +:+ zero_pad 2 (secs mod 3600 / 60) +:+ ":" +:+ zero_pad 2 (secs mod 60).

(** ** The tool *)

Section Tool.
Context {W : Type} `{Unicode} `{Printable} (a : Agent W).
Context (zone : string -> W -> (string + (Z -> Z)) * W).
Notation Result := (option ((string * option GoError) * AState W)).

Definition GetTimeTool_Execute (args : ToolArgs) (s : AState W) : Result :=
  let tz := string_arg args "timezone" in
  let tz := if String.eqb tz EmptyString then "UTC"%string else tz in
  let '(loc, w) := zone tz (getw s) in
  let s := putw w s in
  match loc with
  | inl err => Some ((EmptyString, Some (plain_error ("unknown timezone " +:+ Quote tz +:+ ": " +:+ err))), s)
  | inr offset =>
      '(t, s) ← now_ a s;
      let local := t / second + offset (t / second) in
      Some ((format_date (date_of (local / 86400)) (local mod 86400) +:+ " (timezone: " +:+ tz +:+ ")", None), s)
  end.
Definition GetTimeTool : Tool (AState W) ToolArgs :=
  mkTool "get_time" "Get the current date and time in a timezone"
    ("{" +:+ quote +:+ "timezone" +:+ quote +:+ ": " +:+ quote +:+ "Asia/Almaty" +:+ quote +:+ "}") GetTimeTool_Execute.
End Tool.

(** ** The calendar *)

Definition epoch : Date := mkDate 1970 1 1 4.
Definition tomorrow (d : Date) : Date :=
  let w := (Weekday d + 1) mod 7 in
  if Day d <? month_length (is_leap (Year d)) (Month d) then mkDate (Year d) (Month d) (Day d + 1) w
  else if Month d <? 12 then mkDate (Year d) (Month d + 1) 1 w
  else mkDate (Year d + 1) 1 1 w.

(** The days before the year [y], counted from 1 January 1. *)
Definition year_start (y : Z) : Z := 365 * (y - 1) + (y - 1) / 4 - (y - 1) / 100 + (y - 1) / 400.
Definition year_length (y : Z) : Z := if is_leap y then 366 else 365.

Lemma year_start_parts e c q r : 0 <= c <= 3 -> 0 <= q <= 24 -> 0 <= r <= 3 ->
  year_start (400 * e + 100 * c + 4 * q + r + 1) = 146097 * e + 36524 * c + 1461 * q + 365 * r.
Proof.
  intros Hc Hq Hr. unfold year_start. set (x := 400 * e + 100 * c + 4 * q + r).
  replace (x + 1 - 1) with x by lia.
  rewrite <- (Z.div_unique_pos x 4 (100 * e + 25 * c + q) r) by (unfold x; lia).
  rewrite <- (Z.div_unique_pos x 100 (4 * e + c) (4 * q + r)) by (unfold x; lia).
  rewrite <- (Z.div_unique_pos x 400 e (100 * c + 4 * q + r)) by (unfold x; lia). unfold x. lia.
Qed.
Lemma year_start_mono y y' : y <= y' -> year_start y <= year_start y'.
Proof.
  intros Hy. unfold year_start. pose proof (Z.div_le_mono (y - 1) (y' - 1) 4 ltac:(lia) ltac:(lia)).
  pose proof (Z.div_le_mono (y - 1) (y' - 1) 400 ltac:(lia) ltac:(lia)).
  pose proof (Z.div_mod (y - 1) 100 ltac:(lia)). pose proof (Z.mod_pos_bound (y - 1) 100 ltac:(lia)).
  pose proof (Z.div_mod (y' - 1) 100 ltac:(lia)). pose proof (Z.mod_pos_bound (y' - 1) 100 ltac:(lia)). lia.
Qed.
Lemma div_succ x n : 0 < n -> (x + 1) / n = x / n + (if (x + 1) mod n =? 0 then 1 else 0).
Proof.
  intros Hn. pose proof (Z.div_mod x n ltac:(lia)). pose proof (Z.mod_pos_bound x n Hn).
  pose proof (Z.div_mod (x + 1) n ltac:(lia)). pose proof (Z.mod_pos_bound (x + 1) n Hn). case_bool; zbool; nia.
Qed.
Lemma year_start_succ y : year_start (y + 1) = year_start y + year_length y.
Proof.
  unfold year_start, year_length, is_leap. replace (y + 1 - 1) with (y - 1 + 1) by lia. rewrite !div_succ by lia.
  replace (y - 1 + 1) with y by lia.
  pose proof (Z.div_mod y 4 ltac:(lia)). pose proof (Z.div_mod y 100 ltac:(lia)). pose proof (Z.div_mod y 400 ltac:(lia)).
  pose proof (Z.mod_pos_bound y 4 ltac:(lia)). pose proof (Z.mod_pos_bound y 100 ltac:(lia)). pose proof (Z.mod_pos_bound y 400 ltac:(lia)).
  repeat case_bool; zbool; cbn [andb orb negb]; lia.
Qed.

(** A fifth part of one day is the last day of the fourth. *)
Lemma cut_spec d k : 0 < k -> 0 <= d <= 4 * k -> let c := d / k - Z.shiftr (d / k) 2 in
  0 <= c <= 3 /\ 0 <= d - k * c /\ (d - k * c < k \/ d - k * c = k /\ c = 3 /\ d = 4 * k).
Proof.
  intros Hk Hd. cbv zeta. pose proof (Z.div_mod d k ltac:(lia)). pose proof (Z.mod_pos_bound d k Hk).
  set (x := d / k) in *. clearbody x. assert (Hq : x = 0 \/ x = 1 \/ x = 2 \/ x = 3 \/ x = 4) by nia.
  destruct Hq as [->|[->|[->|[->| ->]]]];
    match goal with |- context [Z.shiftr ?n 2] => let v := eval compute in (Z.shiftr n 2) in change (Z.shiftr n 2) with v end; lia.
Qed.
(** [year_day] finds the year around the day. *)
Lemma year_day_spec d : let '(y, n) := year_day d in d = year_start y + n /\ 0 <= n < year_length y.
Proof.
  unfold year_day. cbv zeta. pose proof (Z.div_mod d 146097 ltac:(lia)) as H0. pose proof (Z.mod_pos_bound d 146097 ltac:(lia)) as H1.
  set (e := d / 146097) in *. set (d1 := d - 146097 * e).
  destruct (cut_spec d1 36524 ltac:(lia) ltac:(unfold d1; lia)) as (Hc & Hc0 & Hc1). set (c := d1 / 36524 - _) in *. set (d2 := d1 - 36524 * c) in *.
  pose proof (Z.div_mod d2 1461 ltac:(lia)) as H2. pose proof (Z.mod_pos_bound d2 1461 ltac:(lia)) as H3.
  set (q := d2 / 1461) in *. set (d3 := d2 - 1461 * q) in *.
  destruct (cut_spec d3 365 ltac:(lia) ltac:(unfold d3; lia)) as (Hr & Hr0 & Hr1). set (r := d3 / 365 - _) in *. set (n := d3 - 365 * r) in *.
  assert (Hd : d = 146097 * e + 36524 * c + 1461 * q + 365 * r + n) by (unfold n, d3, d2, d1; lia).
  rewrite year_start_parts by lia. split; [lia|]. split; [lia|].
  assert (Hn : n < 365 \/ n = 365 /\ r = 3 /\ (0 <= q < 24 \/ q = 24 /\ c = 3)) by (unfold d3 in *; lia).
  clearbody d1 d2 d3 n r q c e. unfold year_length, is_leap.
  destruct Hn as [Hn|(-> & -> & Hq)]; [case_bool; lia|].
  replace (400 * e + 100 * c + 4 * q + 3 + 1) with ((100 * e + 25 * c + q + 1) * 4) by lia. rewrite Z.mod_mul by lia.
  destruct Hq as [Hq|[-> ->]].
  - rewrite <- (Z.mod_unique_pos ((100 * e + 25 * c + q + 1) * 4) 100 (4 * e + c) (4 * (q + 1))) by lia.
    rewrite (proj2 (Z.eqb_neq (4 * (q + 1)) 0)) by lia. cbn. lia.
  - replace ((100 * e + 25 * 3 + 24 + 1) * 4) with ((e + 1) * 400) by lia. rewrite (Z.mod_mul _ 400), orb_true_r by lia. cbn. lia.
Qed.
Lemma year_day_unique d y n : d = year_start y + n -> 0 <= n < year_length y -> year_day d = (y, n).
Proof.
  intros -> Hn. pose proof (year_day_spec (year_start y + n)) as H. destruct (year_day _) as [y' n']. destruct H as [E Hn'].
  pose proof (year_start_succ y). pose proof (year_start_succ y'). destruct (Z.lt_total y y') as [Hy|[->|Hy]].
  - pose proof (year_start_mono (y + 1) y' ltac:(lia)). lia.
  - f_equal. lia.
  - pose proof (year_start_mono (y' + 1) y ltac:(lia)). lia.
Qed.

(** Within a year the months follow each other. *)
Definition next_month_day (leap : bool) (md : Z * Z) : Z * Z :=
  let '(m, d) := md in if d <? month_length leap m then (m, d + 1) else (m + 1, 1).
Definition month_day_ok (leap : bool) (n : Z) : bool :=
  let md := month_day 11 leap 1 n in
  bool_decide (month_day 11 leap 1 (n + 1) = next_month_day leap md) && (bool_decide (md.1 < 12) || (md.2 <? month_length leap md.1)).
Lemma month_day_next (leap : bool) n : 0 <= n < (if leap then 365 else 364) -> month_day_ok leap n = true.
Proof.
  intros Hn. assert (E : forallb (fun k => month_day_ok leap (Z.of_nat k)) (seq 0 (Z.to_nat (if leap then 365 else 364))) = true)
    by (destruct leap; vm_compute; reflexivity).
  rewrite forallb_forall in E. specialize (E (Z.to_nat n)). rewrite Z2Nat.id in E by lia. apply E, in_seq. destruct leap; lia.
Qed.
Lemma date_of_succ d : date_of (d + 1) = tomorrow (date_of d).
Proof.
  unfold date_of. pose proof (year_day_spec (d + 719162)) as H. destruct (year_day (d + 719162)) as [y n]. destruct H as [E Hn].
  replace (d + 1 + 4) with (d + 4 + 1) by lia.
  assert (Hw : (d + 4 + 1) mod 7 = ((d + 4) mod 7 + 1) mod 7) by (now rewrite Z.add_mod_idemp_l by lia).
  destruct (decide (n + 1 < year_length y)) as [Hl|Hl].
  - rewrite (year_day_unique (d + 1 + 719162) y (n + 1)) by lia.
    assert (Hm : month_day_ok (is_leap y) n = true) by (apply month_day_next; unfold year_length in Hl; destruct (is_leap y); lia).
    unfold month_day_ok in Hm. destruct (month_day 11 (is_leap y) 1 n) as [m md].
    apply andb_prop in Hm as [Hm Hlt]. apply bool_decide_eq_true in Hm. rewrite Hm. unfold tomorrow, next_month_day. cbn [fst snd Day Month Year Weekday] in *.
    destruct (md <? month_length (is_leap y) m); [now rewrite Hw|].
    rewrite orb_false_r in Hlt. apply bool_decide_eq_true in Hlt. rewrite (proj2 (Z.ltb_lt m 12)) by lia. now rewrite Hw.
  - rewrite (year_day_unique (d + 1 + 719162) (y + 1) 0);
      [|rewrite year_start_succ; lia|unfold year_length; case_bool; lia].
    assert (En : n = year_length y - 1) by lia. unfold year_length in En. subst n.
    unfold tomorrow. destruct (is_leap y); cbn -[Z.modulo]; now rewrite Hw.
Qed.
(** The date is the calendar's. *)
Lemma date_of_calendar (n : nat) : date_of (Z.of_nat n) = Nat.iter n tomorrow epoch.
Proof.
  induction n as [|n IH]; [reflexivity|]. rewrite Nat2Z.inj_succ, <- Z.add_1_r, date_of_succ, IH. reflexivity.
Qed.

(** ** The tool keeps its promise to the loop *)

Section Safe.
Context {W : Type} `{Unicode} `{Printable} (a : Agent W) (zone : string -> W -> (string + (Z -> Z)) * W).
#[export] Instance GetTimeTool_safe : SafeTool (GetTimeTool a zone).
Proof.
  intros args s Hok. unfold runs. cbn. unfold GetTimeTool_Execute. destruct (zone _ _) as [[e|off] w].
  { eexists _, _. split; [reflexivity|]. split; [apply same_putw|now apply agent_ok_putw]. }
  destruct (now_runs_ a (putw w s) (fun _ s' => same_but_history s s' /\ agent_ok s')) as (t & s' & -> & Hs).
  { intros t w'. split; [|now apply agent_ok_putw, agent_ok_putw]. etransitivity; apply same_putw. }
  eexists _, s'. split; [reflexivity|exact Hs].
Qed.
End Safe.

(** The date of the day [d] counted from the epoch, in either direction: the
    epoch's [d]-th successor, or the date whose [-d]-th successor it is. *)
Definition valid_date (x : Date) : Prop :=
  1 <= Month x <= 12 /\ 1 <= Day x <= month_length (is_leap (Year x)) (Month x) /\ 0 <= Weekday x < 7.
Definition calendar (d : Z) (x : Date) : Prop :=
  valid_date x /\ if 0 <=? d then x = Nat.iter (Z.to_nat d) tomorrow epoch else Nat.iter (Z.to_nat (- d)) tomorrow x = epoch.
Lemma date_of_iter (n : nat) d : Nat.iter n tomorrow (date_of d) = date_of (d + Z.of_nat n).
Proof.
  induction n as [|n IH]; [cbn; now rewrite Z.add_0_r|]. change (Nat.iter (S n) tomorrow (date_of d)) with (tomorrow (Nat.iter n tomorrow (date_of d))).
  rewrite IH, <- date_of_succ. f_equal. lia.
Qed.
Lemma month_day_valid (leap : bool) n : 0 <= n < (if leap then 366 else 365) ->
  let md := month_day 11 leap 1 n in 1 <= md.1 <= 12 /\ 1 <= md.2 <= month_length leap md.1.
Proof.
  intros Hn. assert (E : forallb (fun k => let md := month_day 11 leap 1 (Z.of_nat k) in
      (1 <=? md.1) && (md.1 <=? 12) && (1 <=? md.2) && (md.2 <=? month_length leap md.1)) (seq 0 (Z.to_nat (if leap then 366 else 365))) = true)
    by (destruct leap; vm_compute; reflexivity).
  rewrite forallb_forall in E. specialize (E (Z.to_nat n)). rewrite Z2Nat.id in E by lia.
  assert (Hin : In (Z.to_nat n) (seq 0 (Z.to_nat (if leap then 366 else 365)))) by (apply in_seq; destruct leap; lia).
  specialize (E Hin). cbv zeta in *. zbool. lia.
Qed.
Lemma date_of_on d : calendar d (date_of d).
Proof.
  split.
  - unfold date_of. pose proof (year_day_spec (d + 719162)) as H. destruct (year_day (d + 719162)) as [y n]. destruct H as [_ Hn].
    pose proof (month_day_valid (is_leap y) n) as Hv. unfold year_length in Hn.
    destruct (month_day 11 (is_leap y) 1 n) as [m k]. cbn [Month Day Year Weekday fst snd] in *.
    split; [apply Hv; destruct (is_leap y); lia|]. split; [apply Hv; destruct (is_leap y); lia|]. apply Z.mod_pos_bound. lia.
  - destruct (Z.leb_spec 0 d) as [Hd|Hd].
    + now rewrite <- date_of_calendar, Z2Nat.id.
    + rewrite date_of_iter, Z2Nat.id by lia. now rewrite Z.add_opp_diag_r.
Qed.

(** C40.  The clock tool always answers and changes nothing but the world (the
    look at the zone database and the clock): a name the database does not
    know is an error that quotes it; otherwise the text is the zone's wall
    clock, its weekday and date being those of the calendar counted day by day
    from Thursday, 1 January 1970, forwards or backwards, the hour below 24,
    minute and second below 60; no [timezone] argument means UTC. *)
Theorem get_time_reports {W} `{Unicode} `{Printable} (a : Agent W) zone args s :
  let tz := if String.eqb (string_arg args "timezone") EmptyString then "UTC"%string else string_arg args "timezone" in
  let '(loc, w) := zone tz (getw s) in
  exists text err w', GetTimeTool_Execute a zone args s = Some ((text, err), putw w' s) /\
    match loc with
    | inl e => text = EmptyString /\ err = Some (plain_error ("unknown timezone " +:+ Quote tz +:+ ": " +:+ e))
    | inr offset => err = None /\ exists t s1, now_ a (putw w s) = Some (t, s1) /\
        exists day hour minute sec date,
          t / second + offset (t / second) = 86400 * day + 3600 * hour + 60 * minute + sec /\
          0 <= hour < 24 /\ 0 <= minute < 60 /\ 0 <= sec < 60 /\ calendar day date /\
          text = weekday_name (Weekday date) +:+ ", " +:+ zero_pad 2 (Day date) +:+ " " +:+ month_name (Month date) +:+ " " +:+ zero_pad 4 (Year date) +:+ " " +:+
                 zero_pad 2 hour +:+ ":" +:+ zero_pad 2 minute +:+ ":" +:+ zero_pad 2 sec +:+ " (timezone: " +:+ tz +:+ ")"
    end.
Proof.
  intros tz. unfold GetTimeTool_Execute. fold tz. destruct (zone tz (getw s)) as [[e|offset] w]; [now eexists _, _, w|].
  destruct (now_runs_ a (putw w s) (fun t s1 => exists w', s1 = putw w' s)) as (t & s1 & E & w' & ->).
  { intros t w'. exists w'. now destruct s as [[]]. }
  rewrite E. cbn [mbind option_bind]. eexists _, _, w'. split; [reflexivity|]. split; [reflexivity|]. exists t, (putw w' s). split; [reflexivity|].
  generalize (t / second + offset (t / second)). clear. intros l. pose proof (Z.mod_pos_bound l 86400 ltac:(lia)) as Hm.
  exists (l / 86400), (l mod 86400 / 3600), (l mod 86400 mod 3600 / 60), (l mod 86400 mod 60), (date_of (l / 86400)).
  split; [|split; [|split; [|split; [|split; [apply date_of_on|]]]]].
  - pose proof (Z.div_mod l 86400 ltac:(lia)). pose proof (Z.div_mod (l mod 86400) 3600 ltac:(lia)).
    pose proof (Z.div_mod (l mod 86400 mod 3600) 60 ltac:(lia)).
    replace (l mod 86400 mod 60) with (l mod 86400 mod 3600 mod 60); [lia|]. apply Z.mod_mod_divide. now exists 60.
  - split; [apply Z.div_pos; lia|apply Z.div_lt_upper_bound; lia].
  - pose proof (Z.mod_pos_bound (l mod 86400) 3600 ltac:(lia)). split; [apply Z.div_pos; lia|apply Z.div_lt_upper_bound; lia].
  - apply Z.mod_pos_bound. lia.
  - unfold format_date. now rewrite !str_app_assoc.
Qed.

(** Two zones: UTC, and Almaty five hours ahead. *)
Definition sample_zone (name : string) (w : Z) : (string + (Z -> Z)) * Z :=
  (if String.eqb name "UTC" then inr (fun _ => 0) else if String.eqb name "Asia/Almaty" then inr (fun _ => 18000)
   else inl ("unknown time zone " +:+ name)%string, w).
Example leap_dates :
  date_of 11016 = mkDate 2000 2 29 2 /\ date_of 19782 = mkDate 2024 2 29 4 /\ date_of 47540 = mkDate 2100 2 28 0 /\ date_of 47541 = mkDate 2100 3 1 1 /\
  date_of 20088 = mkDate 2024 12 31 2 /\ date_of (-1) = mkDate 1969 12 31 3.
Proof. vm_compute. auto 6. Qed.

Lemma get_time_reports_witness :
  let s := putw (1700000000 * second) (SampleAgent.state (Chaos.NewChaos true)) in
  let args := Some [("timezone", JStr "Asia/Almaty")]%string in
  exists w, GetTimeTool_Execute SampleAgent.healthy sample_zone args s =
    Some (("Wednesday, 15 November 2023 03:13:20 (timezone: Asia/Almaty)"%string, None), putw w s).
Proof.
  intros s args. destruct (get_time_reports SampleAgent.healthy sample_zone args s) as (text & err & w & E & _).
  exists w. rewrite E.
  assert (Er : option_map fst (GetTimeTool_Execute SampleAgent.healthy sample_zone args s) =
    Some ("Wednesday, 15 November 2023 03:13:20 (timezone: Asia/Almaty)"%string, None)) by (vm_compute; reflexivity).
  rewrite E in Er. cbn [option_map fst] in Er. now injection Er as -> ->.
Defined.

(** The registry with the clock in it: every built-in tool is safe in the loop. *)
Definition built_in_tools {W} `{Unicode} `{Printable} `{MathFun} `{FloatToInt} (a : Agent W) http_post decode_error zone (cfg : option Config) :=
  agent_tools a http_post decode_error (GetTimeTool a zone) cfg.
Lemma built_in_tools_safe {W} `{Unicode} `{Printable} `{MathFun} `{FloatToInt} (a : Agent W) http_post decode_error zone cfg :
  Forall SafeTool (built_in_tools a http_post decode_error zone cfg).
Proof. apply agent_tools_safe. typeclasses eauto. Qed.
