(* ===== verification/React.v ===== *)
(** * The ReAct loop (agent/react.go)

    Reason and act: the model's answer is parsed into a thought, an action with
    JSON arguments, or a final answer; actions run a tool through the registry
    (or the per-call cache), their observations join the transcript, which is
    summarized when it grows too long, and after [maxReactIterations] rounds the
    loop gives up.  Every round is one run of the degradation chain.

    The loop works on the agent's state ([AState]) and its local variables
    ([Local]).  Spans, metrics and span attributes are not modelled.  [order] is
    the order in which the range over the tool map visits the tools. *)
From S2P Require Import Prelude Float64 GoStrings Calculator Utf8 Lines Strconv Json Config Provider Telemetry Memory Orchestrator Guarded Tools Summarize Agent Toolset.
From S2P Require ToolCache.
From Stdlib Require Import ZArith Lia String Ascii.
From stdpp Require Import base tactics list gmap strings.
#[local] Open Scope Z_scope.

Definition maxReactIterations : nat := 6.
Definition maxAttrBytes : Z := 2 * 1024.

Record ReactStep := mkReactStep {
  Iteration : Z; Thought : string; Action : string; ActionInput : ToolArgs; Observation : string; Answer : string;
}.
Record ReactResponse := mkReactResponse {
  react_Answer : string; react_Steps : list ReactStep; react_Tier : option Tier; Turns : Z; SessionID : string; react_TraceID : string;
}.

(** ** Parsing the model's answer *)

Section Parse.
Context `{Unicode} `{Printable}.

Definition extractAfterColon (line : string) : string :=
  match index_byte line ":" with None => EmptyString | Some idx => trim_space (str_drop (S idx) line) end.

(** The outer [None] is the error; the map may be nil. *)
Definition parseJSONArgs (s : string) : option ToolArgs :=
  let s := trim_space s in
  if String.eqb s EmptyString || String.eqb s "{}" then Some (Some [])
  else
    match Unmarshal_map s None with
    | (false, m) => Some m
    | (true, m) =>
        match Unmarshal_map ("{" +:+ quote +:+ "value" +:+ quote +:+ ": " +:+ Quote s +:+ "}") m with
        | (false, m) => Some m
        | (true, _) => None
        end
    end.

Definition marshalArgs (args : ToolArgs) : string :=
  match args with
  | None => "null"
  | Some m => match marshal (JObj m) with Some t => t | None => "{}" end
  end.

Definition set_Thought (t : string) (s : ReactStep) := mkReactStep (Iteration s) t (Action s) (ActionInput s) (Observation s) (Answer s).
Definition set_Action (a : string) (s : ReactStep) := mkReactStep (Iteration s) (Thought s) a (ActionInput s) (Observation s) (Answer s).
Definition set_ActionInput (m : ToolArgs) (s : ReactStep) := mkReactStep (Iteration s) (Thought s) (Action s) m (Observation s) (Answer s).
Definition set_Observation (o : string) (s : ReactStep) := mkReactStep (Iteration s) (Thought s) (Action s) (ActionInput s) o (Answer s).
Definition set_Answer (a : string) (s : ReactStep) := mkReactStep (Iteration s) (Thought s) (Action s) (ActionInput s) (Observation s) a.

(** [line[n:]]. *)
Definition slice_from (n : Z) (line : string) : option string :=
  if n <=? slen line then Some (str_drop (Z.to_nat n) line) else None.
(** The characters [Trim] takes off an action: backquote and quotes. *)
Definition action_quote (b : Z) : bool := (b =? 96) || (b =? 34) || (b =? 39).

(** The loop over the lines; [true] when it returned from the function. *)
Fixpoint parse_lines (lines : list string) (step : ReactStep) : option (ReactStep * bool) :=
  match lines with
  | [] => Some (step, false)
  | line :: rest =>
      let line := trim_space line in
      let lower := to_lower line in
      if has_prefix lower "thought:" then
        t ← slice_from 8 line; parse_lines rest (set_Thought (trim_space t) step)
      else if has_prefix lower "answer:" then
        t ← slice_from 7 line;
        let add answer next := let next := trim_space next in if String.eqb next EmptyString then answer else answer +:+ " " +:+ next in
        Some (set_Answer (foldl add (trim_space t) rest) step, true)
      else if has_prefix lower "action:" && negb (has_prefix lower "action input") then
        t ← slice_from 7 line; parse_lines rest (set_Action (Trim action_quote (trim_space t)) step)
      else if has_prefix lower "actioninput:" || has_prefix lower "action input:" then
        let jsonStr := extractAfterColon line in
        parse_lines rest (set_ActionInput (match parseJSONArgs jsonStr with Some args => args | None => Some [("value"%string, JStr jsonStr)] end) step)
      else parse_lines rest step
  end.
Definition parseReactStep (raw : string) (iteration : Z) : option ReactStep :=
  '(step, returned) ← parse_lines (split_lines raw) (mkReactStep iteration "" "" None "" "");
  Some (if negb returned && String.eqb (Action step) EmptyString && String.eqb (Answer step) EmptyString
        then set_Answer raw step else step).
End Parse.

Definition buildHistory (messages : list Message) : string :=
  match messages with
  | [] => EmptyString
  | _ =>
      "Previous conversation:" +:+ nl +:+
      foldl (fun b m =>
        if String.eqb (Role m) "user" then b +:+ "User: " +:+ Content m +:+ nl
        else if String.eqb (Role m) "assistant" then b +:+ "Assistant: " +:+ Content m +:+ nl
        else b) EmptyString messages +:+ nl
  end.

Definition truncateAttr (s : string) : string :=
  if slen s <=? maxAttrBytes then s else str_take (Z.to_nat maxAttrBytes) s +:+ "...[truncated]".

Definition toolCacheEnabled (cfg : option Config) : bool :=
  match cfg with None => false | Some c => tc_Enabled (cfg_ToolCache c) end.
Definition toolCacheMaxEntries (cfg : option Config) : Z :=
  match cfg with
  | None => 64
  | Some c => if tc_MaxEntries (cfg_ToolCache c) <=? 0 then 64 else tc_MaxEntries (cfg_ToolCache c)
  end.
Definition reactMaxTranscriptTokens (cfg : option Config) : Z :=
  match cfg with
  | None => 6000
  | Some c => if MaxTranscriptTokens (cfg_ReAct c) <=? 0 then 6000 else MaxTranscriptTokens (cfg_ReAct c)
  end.

(** ** The loop *)

(** The local variables: the steps, the tier of the last answer, the
    transcript, the tool cache. *)
Record Local := mkLocal { steps : list ReactStep; lastTier : option Tier; conversationCtx : string; tc : ToolCache.toolCache }.
Definition with_ctx (x : string) (l : Local) : Local := mkLocal (steps l) (lastTier l) x (tc l).
Definition with_steps (x : list ReactStep) (l : Local) : Local := mkLocal x (lastTier l) (conversationCtx l) (tc l).
Definition with_tc (x : ToolCache.toolCache) (l : Local) : Local := mkLocal (steps l) (lastTier l) (conversationCtx l) x.
Definition with_tier (x : option Tier) (l : Local) : Local := mkLocal (steps l) x (conversationCtx l) (tc l).

Section React.
Context {W : Type} `{Unicode} `{Printable} (a : Agent W).
Notation P := (Prog (AState W)).
Notation AgentTool := (Tool (AState W) ToolArgs).
Context (cfg : option Config) (newBreaker : string -> Guard W) (ts order : list AgentTool).

Definition add_message (id role content : string) (tier : option Tier) : P unit :=
  at_ ← now_ a; t ← now_ a;
  change_st (fun s => x ← Memory.Add t id (mkMessage role content tier at_) (Sessions (mem s)); Some (with_mem (with_sessions x (mem s)) s)).
Definition ensure_session (id : string) : P unit :=
  t ← now_ a; update_st (fun s => with_mem (with_sessions (GetOrCreate t id (Sessions (mem s))).2 (mem s)) s).

(** [done]: every return path. *)
Definition react_done (sessionID answer : string) (turns : Z) (tier : option Tier) (l : Local) : P ReactResponse :=
  _ ← add_message sessionID "assistant" answer tier;
  t ← now_ a;
  _ ← update_st (fun s => with_os (with_trace (Finalize t tier (trace (os s))) (os s)) s);
  _ ← sync_trace;
  s ← get_st;
  mret (mkReactResponse answer (steps l) tier turns sessionID (tr_ID (trace (os s)))).

(** The transcript before the next answer. *)
Definition summarize (threshold : Z) (ctx : string) : P string :=
  if threshold <=? estimateTokens ctx then
    fun s => '(ctx, w) ← summarizeTranscript (fallback (orch a)) (fallbackModel (orch a)) ctx threshold (world (os s)); Some (ctx, putw w s)
  else mret ctx.

(** The tool call of a step, through the cache; only results without an error
    are kept. *)
Definition call_tool (step : ReactStep) (inputStr : string) (c : ToolCache.toolCache) : P (string * ToolCache.toolCache) :=
  match ToolCache.Get (Action step) inputStr c with
  | (Some cached, c) => mret (cached, c)
  | (None, c) =>
      '(obs, toolErr) ← (Execute (newToolRegistry newBreaker ts) (Action step) (ActionInput step) : P _);
      match toolErr with
      | Some e => mret ("Tool error: " +:+ err_msg e, c)
      | None => mret (obs, ToolCache.Set_ (Action step) inputStr obs c)
      end
  end.

Definition set_last (f : ReactStep -> ReactStep) (l : list ReactStep) : list ReactStep := alter f (length l - 1)%nat l.

(** One iteration: the local variables, and the answer when it returns. *)
Definition iteration (threshold : Z) (i : Z) (l : Local) : P (Local * option string) :=
  ctx ← summarize threshold (conversationCtx l);
  resp ← degrade a ctx;
  let raw := trim_space (ans_Text resp) in
  step ← query_st (fun _ => parseReactStep raw (i + 1));
  let l := with_tier (ans_Tier resp) (with_steps (steps l ++ [step]) (with_ctx ctx l)) in
  if negb (String.eqb (Answer step) EmptyString) then mret (l, Some (Answer step))
  else if negb (String.eqb (Action step) EmptyString) then
    let inputStr := truncateAttr (marshalArgs (ActionInput step)) in
    '(obs, c) ← call_tool step inputStr (tc l);
    let l := with_tc c (with_steps (set_last (set_Observation obs) (steps l)) l) in
    mret (with_ctx (conversationCtx l +:+ "Thought: " +:+ Thought step +:+ nl +:+ "Action: " +:+ Action step +:+ nl +:+
                    "ActionInput: " +:+ inputStr +:+ nl +:+ "Observation: " +:+ obs +:+ nl) l, None)
  else
    mret (with_steps (steps l ++ [mkReactStep (i + 1) "" "" None "" raw]) l, Some raw).

Definition gave_up : string := "I was unable to complete the reasoning chain within the allowed iterations.".
(** [rounds] remain. *)
Fixpoint react_loop (rounds : nat) (threshold : Z) (sessionID : string) (i : Z) (l : Local) : P ReactResponse :=
  match rounds with
  | O =>
      let answer := match last (steps l) with
                    | Some s => if String.eqb (Thought s) EmptyString then gave_up else Thought s
                    | None => gave_up
                    end in
      react_done sessionID answer (Z.of_nat maxReactIterations) (lastTier l) l
  | S rounds =>
      '(l, answer) ← iteration threshold i l;
      match answer with
      | Some text => react_done sessionID text (i + 1) (lastTier l) l
      | None => react_loop rounds threshold sessionID (i + 1) l
      end
  end.

Definition React (prompt sessionID : string) : P ReactResponse :=
  _ ← ensure_session sessionID;
  s ← get_st;
  let history := buildHistory (Messages_of sessionID (Sessions (mem s))) in
  let fullPrompt := SystemPrompt order +:+ nl +:+ nl +:+ history +:+ "User: " +:+ prompt +:+ nl +:+ "Assistant:" in
  _ ← new_trace a prompt;
  _ ← add_message sessionID "user" prompt None;
  react_loop maxReactIterations (reactMaxTranscriptTokens cfg) sessionID 0
    (mkLocal [] (Some TierPrimary) fullPrompt (ToolCache.newToolCache (toolCacheMaxEntries cfg) (toolCacheEnabled cfg))).
End React.

(** ** Parsing never panics *)

Section ParseFacts.
Context `{Unicode} `{Printable}.

Lemma slice_from_prefix p line : Forall (fun c => byte_val c < 128) (list_ascii_of_string p) ->
  has_prefix (to_lower line) p = true -> slice_from (slen p) line = Some (str_drop (String.length p) line).
Proof.
  intros Hp Hpre. pose proof (lower_prefix_length p line Hp Hpre). unfold slice_from.
  rewrite (proj2 (Z.leb_le _ _)) by lia. unfold slen. now rewrite Nat2Z.id.
Qed.
Lemma parse_lines_total lines : forall step, is_Some (parse_lines lines step).
Proof.
  induction lines as [|line lines IH]; intros step; cbn [parse_lines]; [eauto|]. set (l := trim_space line).
  destruct (has_prefix (to_lower l) "thought:") eqn:E1.
  { change 8 with (slen "thought:"). rewrite slice_from_prefix by (assumption || (repeat constructor; vm_compute; reflexivity)). apply IH. }
  destruct (has_prefix (to_lower l) "answer:") eqn:E2.
  { change 7 with (slen "answer:"). rewrite slice_from_prefix by (assumption || (repeat constructor; vm_compute; reflexivity)). cbn. eauto. }
  destruct (has_prefix (to_lower l) "action:") eqn:E3; cbn [andb].
  - destruct (negb _); [|destruct (_ || _); apply IH].
    change 7 with (slen "action:"). rewrite slice_from_prefix by (assumption || (repeat constructor; vm_compute; reflexivity)). apply IH.
  - destruct (_ || _); apply IH.
Qed.
Lemma parseReactStep_total raw i : exists step, parseReactStep raw i = Some step.
Proof. unfold parseReactStep. destruct (parse_lines_total (split_lines raw) (mkReactStep i "" "" None "" "")) as [[step r] ->]. cbn. eauto. Qed.
Lemma parse_lines_iteration lines : forall step step' r, parse_lines lines step = Some (step', r) -> Iteration step' = Iteration step.
Proof.
  induction lines as [|line lines IH]; intros step step' r E; cbn [parse_lines] in E; [now injection E as <- <-|].
  destruct (has_prefix _ "thought:"); [destruct (slice_from _ _); [|done]; now apply IH in E|].
  destruct (has_prefix _ "answer:"); [destruct (slice_from _ _); [|done]; now injection E as <- <-|].
  destruct (_ && _); [destruct (slice_from _ _); [|done]; now apply IH in E|].
  destruct (_ || _); now apply IH in E.
Qed.
Lemma parseReactStep_iteration raw i step : parseReactStep raw i = Some step -> Iteration step = i.
Proof.
  unfold parseReactStep. destruct (parse_lines _ _) as [[st r]|] eqn:E; [|done]. cbn. intros [= <-].
  apply parse_lines_iteration in E. now destruct (_ && _).
Qed.
End ParseFacts.

(** ** What the loop writes, the parser reads *)

Section RoundTrip.
Context `{Unicode} `{Printable}.

(** A trimmed text of one line. *)
Definition one_line (s : string) : Prop := trim_space s = s /\ ~ In (byte_of 10) (list_ascii_of_string s).
(** Arguments a tool call can carry: values JSON can hold. *)
Definition args_ok (args : ToolArgs) : Prop :=
  match args with
  | None => True
  | Some m => json_ok (JObj m) = true /\ depth (JObj m) <= maxNestingDepth /\ is_Some (marshal (JObj m))
  end.

Lemma marshalArgs_line args : args_ok args -> one_line (marshalArgs args) /\ marshalArgs args <> EmptyString /\
  ends_clean (marshalArgs args) /\ parseJSONArgs (marshalArgs args) = Some args.
Proof.
  destruct args as [m|]; [intros (Hok & Hd & [t E])|intros _].
  - unfold marshalArgs. rewrite E. destruct (trim_object m t E) as (Ht & Hne & He). split; [split; [exact Ht|]|].
    { pose proof (printed_marshal _ _ E) as Hp. unfold printed in Hp. rewrite List.Forall_forall in Hp. intros Hin. now apply Hp in Hin. }
    split; [exact Hne|]. split; [exact He|]. unfold parseJSONArgs. rewrite Ht. apply String.eqb_neq in Hne. rewrite Hne. cbn [orb].
    destruct (String.eqb_spec t "{}") as [->|_]; [|now rewrite (Unmarshal_marshal m t E Hok Hd)].
    pose proof (Unmarshal_marshal m "{}" E Hok Hd) as Eu. vm_compute in Eu. now injection Eu as <-.
  - assert (He : ends_clean "null") by (exists 3%nat, 108; vm_compute; auto).
    split; [split; [vm_compute; reflexivity|]|split; [discriminate|split; [exact He|vm_compute; reflexivity]]].
    cbn [marshalArgs list_ascii_of_string In]. intuition discriminate.
Qed.

(** What the loop keeps of them. *)
Lemma in_str_take c n s : In c (list_ascii_of_string (str_take n s)) -> In c (list_ascii_of_string s).
Proof. revert s. induction n as [|n IH]; intros [|d s]; cbn; try tauto. intros [->|Hin]; auto. Qed.
Lemma truncateAttr_line args : args_ok args -> trim_space (truncateAttr (marshalArgs args)) = truncateAttr (marshalArgs args) /\
  ~ In (byte_of 10) (list_ascii_of_string (truncateAttr (marshalArgs args))) /\
  (slen (marshalArgs args) <= 2048 -> parseJSONArgs (truncateAttr (marshalArgs args)) = Some args).
Proof.
  intros Hargs. destruct (marshalArgs_line args Hargs) as ((Hj & Hnj) & Hjne & _ & Hparse). unfold truncateAttr.
  change maxAttrBytes with 2048. destruct (Z.leb_spec (slen (marshalArgs args)) 2048) as [Hl|Hl]; [now split|]. split; [|split; [|lia]].
  - destruct args as [m|]; [|vm_compute in Hl; discriminate]. destruct Hargs as (_ & _ & t & E). unfold marshalArgs. rewrite E.
    cbn [marshal] in E. destruct (mapM _ m) as [r|]; [|discriminate]. injection E as <-.
    change (str_take (Z.to_nat 2048) ("{" +:+ ?x)) with (String "{" (str_take (Z.to_nat 2047) x)). generalize (str_take (Z.to_nat 2047) (str_join "," r +:+ "}")). intros u.
    apply clean_trim; [apply starts_ascii; vm_compute; reflexivity|].
    change "...[truncated]" with ("...[truncated" +:+ String "]" EmptyString). rewrite <- str_app_assoc. apply ends_byte; vm_compute; reflexivity.
  - rewrite list_ascii_app, in_app_iff. intros [Hin|Hin]; [now apply in_str_take in Hin|vm_compute in Hin; intuition discriminate].
Qed.

(** A line the parser reads: a prefix and a trimmed text. *)
Lemma prefix_line p t : Forall (fun c => byte_val c < 128) (list_ascii_of_string p) -> starts_clean p ->
  trim_space (p +:+ " ") = p -> trim_space t = t ->
  trim_space (p +:+ String " " t) = (if String.eqb t EmptyString then p else p +:+ String " " t).
Proof.
  intros Hp Hs Hp' Ht. destruct (String.eqb_spec t EmptyString) as [->|Hne]; [exact Hp'|].
  destruct (trim_clean t Hne Ht) as [_ He]. apply clean_trim.
  - destruct p as [|c p]; [destruct Hs as (r & l & E & _); discriminate|]. apply Forall_cons in Hp as [Hc _].
    change (String c p +:+ String " " t) with (String c (p +:+ String " " t)). apply starts_ascii; [exact Hc|].
    destruct Hs as (r & l & E & Hr). rewrite runes_ascii in E by exact Hc. now injection E as <- _.
  - apply ends_app; [exact Hp|]. apply ends_ascii; [vm_compute; reflexivity|exact He].
Qed.

(** What such a line gives: its lower-cased start, and the text. *)
Lemma read_line p t : Forall (fun c => byte_val c < 128) (list_ascii_of_string p) -> starts_clean p ->
  trim_space (p +:+ " ") = p -> trim_space t = t ->
  exists rest, to_lower (trim_space (p +:+ String " " t)) = lower_ascii p +:+ rest /\
    trim_space (p +:+ String " " t) = p +:+ (if String.eqb t EmptyString then EmptyString else String " " t) /\
    trim_space (if String.eqb t EmptyString then EmptyString else String " " t) = t.
Proof.
  intros Hp Hs Hp' Ht. rewrite prefix_line by assumption. destruct (String.eqb_spec t EmptyString) as [->|Hne].
  - exists EmptyString. pose proof (to_lower_app p EmptyString Hp) as E. change (to_lower EmptyString) with EmptyString in E.
    rewrite !str_app_nil_r in *. now rewrite E.
  - exists (to_lower (String " " t)). split; [now apply to_lower_app|]. split; [done|].
    rewrite trim_space_cons by (vm_compute; reflexivity). exact Ht.
Qed.
Lemma prefix_app p rest q : String.prefix q p = true -> has_prefix (p +:+ rest) q = true.
Proof.
  unfold has_prefix. revert p. induction q as [|c q IH]; intros p E; [now destruct (p +:+ rest)|].
  destruct p as [|d p]; [discriminate|]. change (String d p +:+ rest) with (String d (p +:+ rest)). cbn [String.prefix] in *.
  destruct (Ascii.ascii_dec c d); [now apply IH|discriminate].
Qed.
(** [q] and [p] differ before either ends. *)
Fixpoint clash (p q : string) : bool :=
  match p, q with String c p, String d q => if Ascii.ascii_dec c d then clash p q else true | _, _ => false end.
Lemma prefix_clash p rest q : clash q p = true -> has_prefix (p +:+ rest) q = false.
Proof.
  unfold has_prefix. revert p. induction q as [|c q IH]; intros p E; [discriminate|].
  destruct p as [|d p]; [discriminate|]. change (String d p +:+ rest) with (String d (p +:+ rest)). cbn [String.prefix clash] in *.
  destruct (Ascii.ascii_dec c d); [now apply IH|done].
Qed.

Lemma slice_app p t : slice_from (slen p) (p +:+ t) = Some t.
Proof.
  unfold slice_from. rewrite slen_app. pose proof (slen_nonneg t). rewrite (proj2 (Z.leb_le _ _)) by lia.
  unfold slen. now rewrite Nat2Z.id, str_drop_app.
Qed.
Lemma app_one_line c p t : ~ In c (list_ascii_of_string p) -> ~ In c (list_ascii_of_string t) -> ~ In c (list_ascii_of_string (p +:+ t)).
Proof. rewrite list_ascii_app, in_app_iff. tauto. Qed.
Lemma transcript_lines thought action j :
  ~ In (byte_of 10) (list_ascii_of_string thought) -> ~ In (byte_of 10) (list_ascii_of_string action) ->
  ~ In (byte_of 10) (list_ascii_of_string j) ->
  split_lines ("Thought: " +:+ thought +:+ nl +:+ "Action: " +:+ action +:+ nl +:+ "ActionInput: " +:+ j)
  = ["Thought:" +:+ String " " thought; "Action:" +:+ String " " action; "ActionInput:" +:+ String " " j].
Proof.
  intros Ht Ha Hj. unfold split_lines.
  assert (Hc : forall p : string, forallb (fun c => negb (byte_val c =? 10)) (list_ascii_of_string p) = true -> ~ In (byte_of 10) (list_ascii_of_string p)).
  { intros p Hp Hin. rewrite forallb_forall in Hp. now apply Hp in Hin. }
  change (split_byte (byte_of 10) ("Thought: " +:+ (thought +:+ String (byte_of 10) ("Action: " +:+ (action +:+ String (byte_of 10) ("ActionInput: " +:+ j))))) =
    ["Thought: " +:+ thought; "Action: " +:+ action; "ActionInput: " +:+ j]).
  rewrite <- (str_app_assoc "Thought: "), split_byte_app by (apply app_one_line; [now apply Hc|exact Ht]).
  rewrite <- (str_app_assoc "Action: "), split_byte_app by (apply app_one_line; [now apply Hc|exact Ha]).
  rewrite split_byte_one by (apply app_one_line; [now apply Hc|exact Hj]). reflexivity.
Qed.
End RoundTrip.

(** The side conditions of [read_line] on a constant prefix. *)
Ltac ascii_prefix := first [solve [repeat constructor; vm_compute; reflexivity] | solve [apply starts_ascii; vm_compute; reflexivity] | vm_compute; reflexivity].

(** ** The loop *)

Section LoopFacts.
Context {W : Type} `{Unicode} `{Printable} (a : Agent W).
Notation AgentTool := (Tool (AState W) ToolArgs).
Context (cfg : option Config) (newBreaker : string -> Guard W) (ts order : list AgentTool).
Implicit Types (s : AState W) (l : Local).

(** A step that called a tool. *)
Definition acted (st : ReactStep) : Prop := Answer st = EmptyString /\ Action st <> EmptyString.

(** The tier costs after the runs of the chain: tier, input, output of each. *)
Definition costs_after (runs_ : list (Tier * string * string)) (c : CostTracker) : CostTracker :=
  foldl (fun c r => Record_cost r.1.1 r.1.2 r.2 c) c runs_.

(** What the loop keeps: the sessions, the trace store, the current trace's
    identity, the switches, the request counter; and the costs of the rounds so far. *)
Definition rounds_done (s0 s : AState W) (runs_ : list (Tier * string * string)) : Prop :=
  agent_ok s /\ Sessions (mem s) = Sessions (mem s0) /\ Traces (mem s) = Traces (mem s0) /\
  same_trace (os s0) (os s) /\
  totalRequests s = totalRequests s0 /\ tel_Costs (tel (os s)) = costs_after runs_ (tel_Costs (tel (os s0))).

Lemma rounds_same s0 s s' runs_ : rounds_done s0 s runs_ -> same_but_history s s' -> agent_ok s' -> rounds_done s0 s' runs_.
Proof.
  intros (_ & E1 & E2 & (E3 & E4 & E7) & E5 & E6) (P & T & F1 & F2 & F3) Hok. apply parts_inv in P as (_ & _ & _ & P & C).
  split; [exact Hok|]. unfold same_trace. rewrite T, P, C. repeat split; congruence.
Qed.

Context {Hlaws : AgentLaws a} {Hbreakers : forall n, CallsOnce (newBreaker n)}.
Hypothesis Hts : Forall SafeTool ts.

Lemma call_tool_runs step input c s : agent_ok s ->
  runs (call_tool newBreaker ts step input c) s (fun _ s' => same_but_history s s' /\ agent_ok s').
Proof.
  intros Hok. unfold call_tool. destruct (ToolCache.Get (Action step) input c) as [[cached|] c']; [now apply runs_ret|].
  apply runs_bind.
  assert (He : runs (Execute (newToolRegistry newBreaker ts) (Action step) (ActionInput step)) s
    (fun _ s' => same_but_history s s' /\ agent_ok s')).
  { pose proof (Execute_executed newBreaker ts (Action step) (ActionInput step) s) as Hx. unfold executed, runs in *.
    destruct (last_named (Action step) ts) as [t|] eqn:Et; [|rewrite Hx; eexists _, s; now split].
    destruct Hx as [(e & w & Hx)|(w0 & w & Hx)]; [rewrite Hx; eexists _, _; split; [reflexivity|]; split; [apply same_putw|now apply agent_ok_putw]|].
    assert (Ht : SafeTool t).
    { apply (proj1 (List.Forall_forall _ _) Hts). apply List.in_rev. now apply List.find_some in Et as [Et _]. }
    destruct (Ht (ActionInput step) (putw w0 s) (agent_ok_putw s w0 Hok)) as (r & s' & E & Hs & Hok'). rewrite Hx, E.
    eexists _, _. split; [reflexivity|]. split; [|now apply agent_ok_putw].
    transitivity (putw w0 s); [apply same_putw|]. transitivity s'; [exact Hs|apply same_putw]. }
  eapply runs_mono; [exact He|]. intros [obs [e|]] s' Hs; now apply runs_ret.
Qed.

Lemma summarize_runs threshold ctx s : agent_ok s ->
  runs (summarize a threshold ctx) s (fun _ s' => same_but_history s s' /\ agent_ok s').
Proof.
  intros Hok. unfold summarize. case_bool; [|now apply runs_ret].
  destruct (summarizeTranscript_returns (fallback (orch a)) (fallbackModel (orch a)) ctx threshold (world (os s))) as (r & w & E).
  unfold runs. rewrite E. cbn [mbind option_bind]. eexists _, _. split; [reflexivity|]. split; [apply same_putw|now apply agent_ok_putw].
Qed.

Lemma set_last_snoc f (before : list ReactStep) st : set_last f (before ++ [st]) = before ++ [f st].
Proof.
  unfold set_last. rewrite length_app. cbn [length]. replace (length before + 1 - 1)%nat with (length before + 0)%nat by lia.
  now rewrite alter_app_r.
Qed.
Lemma costs_after_snoc rs r c : costs_after (rs ++ [r]) c = Record_cost r.1.1 r.1.2 r.2 (costs_after rs c).
Proof. unfold costs_after. now rewrite foldl_app. Qed.

(** One run of the chain. *)
Lemma degrade_round s0 s rs ctx : rounds_done s0 s rs ->
  runs (degrade a ctx) s (fun r s' => exists tier i o, ans_Tier r = Some tier /\ rounds_done s0 s' (rs ++ [(tier, i, o)])).
Proof.
  intros ((Ho & Hh & Hn) & E1 & E2 & E3 & E5 & E6). eapply runs_mono; [now apply (degrade_runs a)|].
  intros r s' (Ho' & M1 & M2 & T1 & steps & tier & _ & Et & _ & Hc).
  apply chain_costs in Hc as (i & o & Ec). cbn [res_Tier] in Ec. exists tier, i, o. split; [exact Et|].
  split; [split; [exact Ho'|now rewrite M1, M2]|]. rewrite M1, Ec, costs_after_snoc, E6.
  split; [exact E1|]. split; [exact E2|]. split; [now transitivity (os s)|]. split; [congruence|done].
Qed.

(** What a round adds: a step that called a tool, or the answer. *)
Definition round_steps (i : Z) (before after : list ReactStep) (answer : option string) : Prop :=
  exists added, after = before ++ added /\ Forall (fun st => Iteration st = i + 1) added /\
    match answer with
    | None => exists st, added = [st] /\ acted st
    | Some text => exists st, last added = Some st /\ Answer st = text
    end.

Lemma iteration_runs threshold i l s0 s rs : rounds_done s0 s rs ->
  runs (iteration a newBreaker ts threshold i l) s (fun x s' => exists tier input output,
    rounds_done s0 s' (rs ++ [(tier, input, output)]) /\ lastTier x.1 = Some tier /\
    round_steps i (steps l) (steps x.1) x.2).
Proof.
  intros Hr. unfold iteration. apply runs_bind. eapply runs_mono; [apply summarize_runs; apply Hr|].
  intros ctx s1 [Hs Hok]. apply (rounds_same s0 s s1) in Hr; [|assumption..]. apply runs_bind.
  eapply runs_mono; [apply (degrade_round s0 s1 rs ctx); exact Hr|]. intros r s2 (tier & inp & out & Et & Hr2). cbv zeta. apply runs_bind.
  destruct (parseReactStep_total (trim_space (ans_Text r)) (i + 1)) as [step Ep]. pose proof (parseReactStep_iteration _ _ _ Ep) as Hi.
  exists step, s2. unfold query_st. rewrite Ep. split; [reflexivity|]. rewrite Et.
  destruct (String.eqb_spec (Answer step) EmptyString) as [Ha|Ha]; cbn [negb].
  2:{ apply runs_ret. exists tier, inp, out. do 2 (split; [done|]). exists [step]. repeat constructor; [done|]. now exists step. }
  destruct (String.eqb_spec (Action step) EmptyString) as [Hact|Hact]; cbn [negb].
  { apply runs_ret. exists tier, inp, out. do 2 (split; [done|]). eexists [step; _]. cbn [fst snd steps with_steps with_tier with_ctx].
    rewrite <- app_assoc. repeat constructor; [done|]. eexists. split; reflexivity. }
  apply runs_bind. eapply runs_mono; [apply call_tool_runs; apply Hr2|]. intros [obs c] s3 [Hs3 Hok3].
  apply (rounds_same s0 s2 s3) in Hr2; [|assumption..]. apply runs_ret. exists tier, inp, out. split; [done|]. split; [done|].
  exists [set_Observation obs step]. cbn [fst snd steps with_steps with_tier with_ctx with_tc]. rewrite set_last_snoc.
  repeat constructor; [done|]. eexists. split; [reflexivity|]. now split.
Qed.

(** ** The session *)

Definition conversation s (id : string) : list Message := Messages_of id (Sessions (mem s)).
(** Everything but the sessions, up to the world. *)
Definition same_but_sessions s s' : Prop :=
  parts (os s') = parts (os s) /\ trace (os s') = trace (os s) /\ Traces (mem s') = Traces (mem s) /\
  History (mem s') = History (mem s) /\ totalRequests s' = totalRequests s.
(** The messages of a session change, no other session does. *)
Definition session_now s s' (id : string) (msgs : list Message) : Prop :=
  conversation s' id = msgs /\ is_Some (sessions (Sessions (mem s')) !! id) /\
  forall id', id' <> id -> sessions (Sessions (mem s')) !! id' = sessions (Sessions (mem s)) !! id'.

Lemma session_now_trans s1 s2 s3 id m m' : session_now s1 s2 id m -> session_now s2 s3 id m' -> session_now s1 s3 id m'.
Proof. intros (_ & _ & E) (H1 & H2 & E'). split; [done|]. split; [done|]. intros id' Hne. now rewrite E', E. Qed.

Lemma ensure_session_runs id s : runs (ensure_session a id) s (fun _ s' =>
  same_but_sessions s s' /\ session_now s s' id (conversation s id)).
Proof.
  unfold ensure_session. apply runs_bind, now_runs_. intros t w. apply runs_update. split; [now repeat split|].
  unfold session_now, conversation, Messages_of. cbn. rewrite lookup_insert_eq.
  split; [now destruct (sessions _ !! id)|]. split; [eauto|]. intros id' Hne. now apply lookup_insert_ne.
Qed.

Lemma add_message_runs id role content tier s : is_Some (sessions (Sessions (mem s)) !! id) ->
  runs (add_message a id role content tier) s (fun _ s' => same_but_sessions s s' /\
    exists at_, session_now s s' id (lastn (Z.to_nat maxHistory) (conversation s id ++ [mkMessage role content tier at_]))).
Proof.
  intros [sess Hs]. unfold add_message. apply runs_bind, now_runs_. intros at_ w. apply runs_bind, now_runs_. intros t w'.
  unfold runs, change_st. cbn [mem putw agent_world with_os]. rewrite (Add_session t id (mkMessage role content tier at_) _ sess Hs).
  cbn [mbind option_bind]. eexists _, _. split; [reflexivity|]. split; [now repeat split|]. exists at_.
  unfold session_now, conversation, Messages_of. cbn [mem with_mem with_sessions Sessions sessions]. rewrite lookup_insert_eq, Hs.
  split; [done|]. split; [eauto|]. intros id' Hne. now apply lookup_insert_ne.
Qed.

(** ** The answer *)

(** The steps of an answered request: steps that called a tool, numbered
    from 1, then the round of the answer, or six of them and the last thought. *)
Definition numbered (l0 : list ReactStep) : Prop := forall k st, l0 !! k = Some st -> Iteration st = Z.of_nat k + 1.
Definition answered_by (all : list ReactStep) (answer : string) (turns : Z) : Prop :=
  exists calls final, all = calls ++ final /\ Forall acted calls /\ numbered calls /\
    ((turns = len calls + 1 /\ Forall (fun st => Iteration st = turns) final /\
      exists st, last final = Some st /\ Answer st = answer) \/
     (turns = len calls /\ turns = Z.of_nat maxReactIterations /\ final = [] /\
      exists st, last calls = Some st /\ answer = if String.eqb (Thought st) EmptyString then gave_up else Thought st)).

(** What a request leaves, from the state [s0] in which its trace is open and
    its question is in the session. *)
Definition react_post s0 (id : string) (r : ReactResponse) s : Prop :=
  agent_ok s /\ (totalRequests s = totalRequests s0 /\ chaos (os s) = chaos (os s0)) /\ 1 <= Turns r <= Z.of_nat maxReactIterations /\ SessionID r = id /\
  answered_by (react_Steps r) (react_Answer r) (Turns r) /\
  (exists rs, len rs = Turns r /\ tel_Costs (tel (os s)) = costs_after rs (tel_Costs (tel (os s0))) /\
     option_map (fun x => x.1.1) (last rs) = react_Tier r) /\
  (exists at_, session_now s0 s id (lastn (Z.to_nat maxHistory) (conversation s0 id ++ [mkMessage "assistant" (react_Answer r) (react_Tier r) at_]))) /\
  exists tr, traces (Traces (mem s)) !! react_TraceID r = Some tr /\ tr_ID tr = react_TraceID r /\
    tr_Prompt tr = tr_Prompt (trace (os s0)) /\ FinalTier tr = react_Tier r.

Lemma react_done_runs s0 s rs id answer turns l : rounds_done s0 s rs ->
  is_Some (sessions (Sessions (mem s0)) !! id) -> is_Some (traces (Traces (mem s0)) !! tr_ID (trace (os s0))) ->
  1 <= turns <= Z.of_nat maxReactIterations -> answered_by (steps l) answer turns -> len rs = turns ->
  option_map (fun x => x.1.1) (last rs) = lastTier l ->
  runs (react_done a id answer turns (lastTier l) l) s (react_post s0 id).
Proof.
  intros (Hok & E1 & E2 & (E3 & E4 & E7) & E5 & E6) Hs Ht Hturns Hans Hlen Hlast. unfold react_done. apply runs_bind.
  rewrite <- E1 in Hs. eapply runs_mono; [now apply add_message_runs|]. intros _ s1 [(P & T & F1 & F2 & F3) [at_ Hm]].
  apply runs_bind, now_runs_. intros t w. apply runs_bind, runs_update. apply runs_bind, runs_update.
  apply runs_bind, runs_get, runs_ret. pose proof P as (P1 & P2 & P3 & P4 & P5)%parts_inv.
  split. { revert Hok. now apply agent_ok_parts. }
  split; [cbn; split; congruence|]. split; [exact Hturns|]. split; [done|]. split; [exact Hans|].
  split. { exists rs. split; [exact Hlen|]. split; [cbn; congruence|exact Hlast]. }
  split. { exists at_. unfold session_now, conversation in *. rewrite <- E1. exact Hm. }
  cbn. rewrite T, F1, E2, E3. destruct Ht as [tr Htr]. exists (Finalize t (lastTier l) (trace (os s))).
  rewrite lookup_alter_eq, Htr. cbn. rewrite E3. auto.
Qed.

Lemma react_loop_runs threshold id s0 : is_Some (sessions (Sessions (mem s0)) !! id) ->
  is_Some (traces (Traces (mem s0)) !! tr_ID (trace (os s0))) ->
  forall rounds i l s rs, rounds_done s0 s rs -> len rs = i -> len (steps l) = i -> i + Z.of_nat rounds = Z.of_nat maxReactIterations ->
    Forall acted (steps l) -> numbered (steps l) -> (0 < i -> option_map (fun x => x.1.1) (last rs) = lastTier l) ->
  runs (react_loop a newBreaker ts rounds threshold id i l) s (react_post s0 id).
Proof.
  intros Hs Ht. induction rounds as [|rounds IH]; intros i l s rs Hr Hrs Hi Hsum Hact Hnum Htier; cbn [react_loop].
  - assert (Hi6 : i = Z.of_nat maxReactIterations) by lia. apply (react_done_runs s0 s rs); try assumption; [unfold maxReactIterations; lia| |lia|apply Htier; unfold maxReactIterations in *; lia].
    exists (steps l), []. rewrite app_nil_r. do 3 (split; [done|]). right. repeat (split; [lia || done|]).
    destruct (last (steps l)) as [st|] eqn:E; [eauto|]. apply last_None in E. rewrite E in Hi. change (0 = i) in Hi. unfold maxReactIterations in *. lia.
  - apply runs_bind. eapply runs_mono; [apply (iteration_runs threshold i l s0 s rs Hr)|].
    intros [l' ans] s' (tier & inp & out & Hr' & Hl' & added & Eadd & Hadd & Hans). cbn [fst snd] in *.
    assert (Hlast : option_map (fun x => x.1.1) (last (rs ++ [(tier, inp, out)])) = lastTier l') by (now rewrite last_snoc).
    pose proof (len_nonneg rs) as Hpos.
    destruct ans as [text|].
    + apply (react_done_runs s0 s' (rs ++ [(tier, inp, out)])); try assumption; [lia| |rewrite len_app; change (len [(tier, inp, out)]) with 1; lia].
      exists (steps l), added. do 3 (split; [done|]). left. split; [lia|]. split; [done|]. exact Hans.
    + destruct Hans as (st & -> & Ha). apply Forall_inv in Hadd.
      apply (IH (i + 1) l' s' (rs ++ [(tier, inp, out)])); auto.
      * rewrite len_app. change (len [(tier, inp, out)]) with 1. lia.
      * rewrite Eadd, len_app. change (len [st]) with 1. lia.
      * lia.
      * rewrite Eadd. apply Forall_app. split; [exact Hact|now constructor].
      * rewrite Eadd. intros k st'. rewrite lookup_app_Some. intros [Hk|[Hk Hk']]; [now apply Hnum|].
        destruct (k - length (steps l))%nat as [|n] eqn:Ek; [|done]. injection Hk' as <-. rewrite Hadd. unfold len in Hi. lia.
Qed.
End LoopFacts.

(** ** Properties of the loop *)

(** A call up to the loop, and the loop's postcondition. *)
Lemma React_runs {W} `{Unicode} `{Printable} (a : Agent W) {Hlaws : AgentLaws a} cfg newBreaker ts order prompt id s :
  (forall n, CallsOnce (newBreaker n)) -> Forall SafeTool ts -> agent_ok s ->
  runs (React a cfg newBreaker ts order prompt id) s (fun r s' => exists s0 t,
    totalRequests s0 = totalRequests s /\ chaos (os s0) = chaos (os s) /\ tel (os s0) = tel (os s) /\ tr_Prompt (trace (os s0)) = prompt /\
    session_now s s0 id (lastn (Z.to_nat maxHistory) (conversation s id ++ [mkMessage "user" prompt None t])) /\
    react_post s0 id r s').
Proof.
  intros Hb Hts Hok.
  unfold React. apply runs_bind. eapply runs_mono; [apply ensure_session_runs|]. intros _ s1 [Hs1 Hses1].
  apply runs_bind, runs_get. cbv zeta. apply runs_bind, (new_trace_runs a). intros s2 P2 S2 H2 T2 (O1 & O2 & O3).
  apply runs_bind. eapply runs_mono; [apply add_message_runs; rewrite S2; apply Hses1|].
  intros _ s3 [(P3 & T3 & Q3 & R3 & U3) [t Hses3]]. destruct Hs1 as (P1 & _ & Q1 & R1 & U1).
  assert (Hp : parts (os s3) = parts (os s)) by congruence.
  assert (Hok3 : agent_ok s3). { revert Hok. apply agent_ok_parts; congruence. }
  eapply runs_mono.
  - apply (react_loop_runs a newBreaker ts Hts _ id s3 (proj1 (proj2 Hses3))) with (rs := []);
      [rewrite T3, Q3, O1; eauto| |done|done|done|constructor|now intros k st|lia].
    split; [exact Hok3|]. now repeat split.
  - intros r s' Hpost. exists s3, t. split; [congruence|]. split; [now apply parts_inv in Hp as (_ & _ & _ & _ & ->)|]. split; [now apply parts_inv in Hp as (_ & _ & _ & -> & _)|].
    split; [congruence|]. split; [|exact Hpost]. destruct Hses1 as (Hc1 & _ & Hother).
    replace (conversation s2 id) with (conversation s id) in Hses3 by (rewrite <- Hc1; unfold conversation; now rewrite S2). destruct Hses3 as (Hc3 & Hsome & Ho3).
    split; [exact Hc3|]. split; [exact Hsome|]. intros id' Hne. rewrite Ho3 by done. rewrite S2. now apply Hother.
Qed.

(** C22.  The ReAct loop answers every question: with tools that return and
    breakers that call once, from a well-formed state [React] never panics,
    keeps the state well formed and stops after at most six rounds.  Its steps
    are tool calls numbered from 1, then the round of the answer, or six calls
    and the last thought; the session's history gains the question and the
    answer (its last twenty messages stay) and no other session changes; the
    trace stored under the response's ID has the question and the final tier;
    every round is counted in the tier costs, none in the request counter. *)
Theorem React_spec {W} `{Unicode} `{Printable} (a : Agent W) {Hlaws : AgentLaws a} cfg newBreaker ts order prompt id s :
  (forall n, CallsOnce (newBreaker n)) -> Forall SafeTool ts -> agent_ok s ->
  exists r s', React a cfg newBreaker ts order prompt id s = Some (r, s') /\ agent_ok s' /\
    1 <= Turns r <= Z.of_nat maxReactIterations /\ SessionID r = id /\
    answered_by (react_Steps r) (react_Answer r) (Turns r) /\
    (exists t t', session_now s s' id (lastn (Z.to_nat maxHistory)
       (conversation s id ++ [mkMessage "user" prompt None t; mkMessage "assistant" (react_Answer r) (react_Tier r) t']))) /\
    (exists tr, traces (Traces (mem s')) !! react_TraceID r = Some tr /\
       tr_ID tr = react_TraceID r /\ tr_Prompt tr = prompt /\ FinalTier tr = react_Tier r) /\
    totalRequests s' = totalRequests s /\
    exists rs, len rs = Turns r /\ tel_Costs (tel (os s')) = costs_after rs (tel_Costs (tel (os s))) /\
      option_map (fun x => x.1.1) (last rs) = react_Tier r.
Proof.
  intros Hb Hts Hok. destruct (React_runs a cfg newBreaker ts order prompt id s Hb Hts Hok)
    as (r & s' & E & s0 & t & E1 & _ & E2 & E3 & Hses & Hok' & [Etot _] & Hturns & Hid & Hans & Hcosts & [t' Hses'] & Htr).
  exists r, s'. rewrite E2 in Hcosts. rewrite E3 in Htr. rewrite E1 in Etot. do 5 (split; [assumption|]). split; [|now split].
  exists t, t'. eapply session_now_trans; [exact Hses|]. destruct Hses as (Hc & _). rewrite Hc, lastn_lastn_app, <- app_assoc in Hses'.
  exact Hses'.
Qed.

(** C23.  What the loop writes into the transcript, the parser reads back: for
    any one-line thought, any one-line action without quotes around it and any
    arguments JSON can hold, the three lines of a tool call parse to exactly
    that thought and that action and to no answer, and to exactly those
    arguments as long as their JSON has no more than 2048 bytes.  (Of a longer
    text the loop writes the first 2048 bytes and a mark; what that parses to
    is left open.) *)
Theorem transcript_roundtrip `{Unicode} `{Printable} thought action args i :
  one_line thought -> one_line action -> action <> EmptyString -> Trim action_quote action = action -> args_ok args ->
  exists args',
    parseReactStep ("Thought: " +:+ thought +:+ nl +:+ "Action: " +:+ action +:+ nl +:+ "ActionInput: " +:+ truncateAttr (marshalArgs args)) i
      = Some (mkReactStep i thought action args' EmptyString EmptyString) /\
    (slen (marshalArgs args) <= 2048 -> args' = args).
Proof.
  intros [Ht Hn] [Ha Hna] Hne Hq Hargs. destruct (truncateAttr_line args Hargs) as (Hj & Hnj & Hparse).
  set (j := truncateAttr (marshalArgs args)) in *.
  exists (match parseJSONArgs j with Some args => args | None => Some [("value"%string, JStr j)] end).
  split; [|intros Hl; now rewrite (Hparse Hl)]. unfold parseReactStep. rewrite transcript_lines by assumption.
  cbn [parse_lines].
  destruct (read_line "Thought:" thought) as (r1 & L1 & T1 & E1); [ascii_prefix..|exact Ht|].
  destruct (read_line "Action:" action) as (r2 & L2 & T2 & E2); [ascii_prefix..|exact Ha|].
  destruct (read_line "ActionInput:" j) as (r3 & L3 & T3 & E3); [ascii_prefix..|exact Hj|].
  rewrite L1, L2, L3, T1, T2, T3.
  rewrite (prefix_app (lower_ascii "Thought:")) by reflexivity.
  rewrite (prefix_clash (lower_ascii "Action:") r2 "thought:"), (prefix_clash (lower_ascii "Action:") r2 "answer:"),
    (prefix_clash (lower_ascii "Action:") r2 "action input") by reflexivity. rewrite (prefix_app (lower_ascii "Action:") r2 "action:") by reflexivity.
  rewrite (prefix_clash (lower_ascii "ActionInput:") r3 "thought:"), (prefix_clash (lower_ascii "ActionInput:") r3 "answer:"),
    (prefix_clash (lower_ascii "ActionInput:") r3 "action:"), (prefix_app (lower_ascii "ActionInput:") r3 "actioninput:") by reflexivity.
  cbn [negb andb orb]. change 8 with (slen "Thought:"). change 7 with (slen "Action:"). rewrite !slice_app. cbn [mbind option_bind].
  rewrite E1, E2, Hq. unfold extractAfterColon.
  change (index_byte ("ActionInput:" +:+ (if String.eqb j EmptyString then EmptyString else String " " j)) ":") with (Some 11%nat).
  cbv iota. change (str_drop 12 ("ActionInput:" +:+ (if String.eqb j EmptyString then EmptyString else String " " j)))
    with (if String.eqb j EmptyString then EmptyString else String " " j). rewrite E3. cbn. apply String.eqb_neq in Hne. now rewrite Hne.
Qed.

(** ** A sample run *)

Module SampleReact.
Definition clock : Tool (AState Z) ToolArgs := mkTool "get_time" "Get the current date and time" "{}" (fun _ s => Some (("noon"%string, None), s)).
#[export] Instance clock_safe : SafeTool clock.
Proof. intros args s Hok. eexists _, s. split; [reflexivity|]. now split. Qed.
Definition expression : ToolArgs := Some [("expression", JStr "6*7")]%string.
(** A model that only ever asks for the same product. *)
Definition request : string :=
  "Thought: the product is needed first" +:+ nl +:+ "Action: calculate" +:+ nl +:+ "ActionInput: " +:+ marshalArgs expression.
Definition asking : Agent Z := SampleAgent.agent (Sample.answering request) Sample.down Sample.direct Sample.direct.
#[export] Instance asking_orch : OrchLaws (Sample.orch (Sample.answering request) Sample.down).
Proof. apply Sample.orch_laws; [apply Sample.short_answering; vm_compute; reflexivity|]. apply Sample.short_down. Qed.
#[export] Instance asking_laws : AgentLaws asking.
Proof. apply SampleAgent.agent_laws; typeclasses eauto. Qed.
Definition tools : list (Tool (AState Z) ToolArgs) := agent_tools asking (fun _ _ w => (CallFailed "no server", w)) (fun _ => EmptyString) clock None.
Definition state0 : AState Z := SampleAgent.state (Chaos.NewChaos true).
Definition run : option (ReactResponse * AState Z) :=
  React asking None (fun _ => Sample.direct) tools tools "what is six times seven?" "s1" state0.
Lemma state0_agent_ok : agent_ok state0.
Proof. apply SampleAgent.state_ok. Qed.
End SampleReact.
Export (hints) SampleReact.

(** Six rounds with the calculator, from the second on out of the cache. *)
Example six_rounds : option_map (fun x => (react_Answer x.1, Turns x.1, map Observation (react_Steps x.1))) SampleReact.run
  = Some ("the product is needed first", 6, ["42"; "42"; "42"; "42"; "42"; "42"])%string.
Proof. vm_compute. reflexivity. Qed.

Lemma React_spec_witness : exists r s', SampleReact.run = Some (r, s') /\ 1 <= Turns r <= 6 /\ SessionID r = "s1"%string.
Proof.
  destruct (React_spec SampleReact.asking None (fun _ => Sample.direct) SampleReact.tools SampleReact.tools
    "what is six times seven?" "s1" SampleReact.state0) as (r & s' & E & _ & Ht & Hid & _).
  - intros n. typeclasses eauto.
  - apply agent_tools_safe. typeclasses eauto.
  - apply SampleReact.state0_agent_ok.
  - exists r, s'. split; [exact E|]. split; [exact Ht|exact Hid].
Defined.

Lemma transcript_roundtrip_witness : exists args',
  parseReactStep SampleReact.request 1
    = Some (mkReactStep 1 "the product is needed first" "calculate" args' EmptyString EmptyString) /\
  (slen (marshalArgs SampleReact.expression) <= 2048 -> args' = SampleReact.expression).
Proof.
  change SampleReact.request with ("Thought: " +:+ "the product is needed first" +:+ nl +:+ "Action: " +:+ "calculate" +:+ nl +:+ "ActionInput: " +:+ truncateAttr (marshalArgs SampleReact.expression)).
  apply transcript_roundtrip.
  - split; [vm_compute; reflexivity|]. vm_compute. intuition discriminate.
  - split; [vm_compute; reflexivity|]. vm_compute. intuition discriminate.
  - discriminate.
  - vm_compute. reflexivity.
  - vm_compute. split; [reflexivity|]. split; [discriminate|]. eexists. reflexivity.
Defined.
