(* ===== verification/Net.v ===== *)
(** * IP addresses (package net)

    What the API's rate limiter and webhook validation use of Go's packages
    [net] and [net/netip], executable: parsing of addresses and CIDR ranges,
    containment, the address classes, splitting of host and port.

    A [net.IP] is the 16 bytes [ParseIP] returns, as a 128-bit number; an IPv4
    address is the one mapped to [::ffff:0:0/96] ([To4]).  A range has the
    width of the bytes it compares, 4 or 16.  Zones are refused by [ParseIP]
    and by [ParseCIDR], so no address here has one. *)
From S2P Require Import Prelude GoStrings.
From Stdlib Require Import ZArith Lia String Ascii.
From stdpp Require Import base tactics list strings.
#[local] Open Scope Z_scope.

Definition IP : Type := Z.
Definition v4_prefix : Z := Z.shiftl 65535 32.
Definition of4 (a : Z) : IP := v4_prefix + a.
(** [To4]. *)
Definition To4 (ip : IP) : option Z := if Z.shiftr ip 32 =? 65535 then Some (Z.land ip (2 ^ 32 - 1)) else None.

(** ** Parsing *)

Definition octet (s : string) : option Z :=
  let l := list_ascii_of_string s in
  let v := foldl (fun n c => 10 * n + (byte_val c - 48)) 0 l in
  if negb (String.eqb s EmptyString) && forallb (fun c => ascii_digit (byte_val c)) l &&
     ((slen s =? 1) || negb (has_prefix s "0")) && (slen s <=? 3) && (v <=? 255)
  then Some v else None.
(** [parseIPv4Fields]: four octets without leading zeros. *)
Definition parseIPv4 (s : string) : option Z :=
  match map octet (split_byte "." s) with
  | [Some a; Some b; Some c; Some d] => Some (((a * 256 + b) * 256 + c) * 256 + d)
  | _ => None
  end.

Definition hex_val (c : ascii) : option Z :=
  let b := byte_val c in
  if (48 <=? b) && (b <=? 57) then Some (b - 48)
  else if (97 <=? b) && (b <=? 102) then Some (b - 87)
  else if (65 <=? b) && (b <=? 70) then Some (b - 55) else None.
(** The hexadecimal digits at the head: their value, their number, the rest. *)
Fixpoint hex_head (s : string) (acc : Z) (n : nat) : Z * nat * string :=
  match s with
  | String c s' => match hex_val c with Some d => hex_head s' (16 * acc + d) (S n) | None => (acc, n, s) end
  | EmptyString => (acc, n, s)
  end.

(** The loop of [parseIPv6]: [groups] are the 16-bit groups so far, last first;
    [ell] is their number at the ellipsis; [fuel] the groups still missing.
    The result is what is left of the text, the groups and the ellipsis. *)
Fixpoint groups6 (fuel : nat) (s : string) (groups : list Z) (ell : option nat) : option (string * list Z * option nat) :=
  match fuel with
  | O => Some (s, groups, ell)
  | S fuel' =>
      let '(acc, n, rest) := hex_head s 0 0 in
      if (n =? 0)%nat || (4 <? n)%nat then None
      else match rest with
           | String "." _ =>
               let i := length groups in
               if (match ell with None => negb (i =? 6)%nat | Some _ => false end) || (6 <? i)%nat then None
               else v ← parseIPv4 s; Some (EmptyString, Z.land v 65535 :: Z.shiftr v 16 :: groups, ell)
           | EmptyString => Some (EmptyString, acc :: groups, ell)
           | String ":" (String ":" rest) =>
               match ell with
               | Some _ => None
               | None =>
                   let groups := acc :: groups in
                   if String.eqb rest EmptyString then Some (EmptyString, groups, Some (length groups))
                   else groups6 fuel' rest groups (Some (length groups))
               end
           | String ":" (String _ _ as rest) => groups6 fuel' rest (acc :: groups) ell
           | _ => None
           end
  end.
(** [parseIPv6], for a text without zone. *)
Definition parseIPv6 (s : string) : option IP :=
  if String.eqb s "::" then Some 0
  else
    let '(s, ell) := if has_prefix s "::" then (str_drop 2 s, Some O) else (s, None) in
    '(left_over, groups, ell) ← groups6 8 s [] ell;
    let groups := rev groups in
    let n := length groups in
    all ← (if negb (String.eqb left_over EmptyString) then None
           else if (n <? 8)%nat then e ← ell; Some (take e groups ++ replicate (8 - n) 0 ++ drop e groups)
           else match ell with Some _ => None | None => Some groups end);
    Some (foldl (fun v g => v * 65536 + g) 0 all).

(** [netip.ParseAddr] without zones: the first separator decides. *)
Fixpoint first_sep (s : string) : option ascii :=
  match s with
  | EmptyString => None
  | String c s => if Ascii.eqb c "." || Ascii.eqb c ":" || Ascii.eqb c "%" then Some c else first_sep s
  end.
(** The address and its width in bits. *)
Definition ParseAddr (s : string) : option (IP * Z) :=
  match first_sep s with
  | Some "."%char => a ← parseIPv4 s; Some (of4 a, 32)
  | Some ":"%char => if contains s "%" then None else a ← parseIPv6 s; Some (a, 128)
  | _ => None
  end.
Definition ParseIP (s : string) : option IP := fst <$> ParseAddr s.

(** ** Ranges *)

(** [net_width] is 32 when the masked address and the mask are 4 bytes. *)
Record IPNet := mkNet { net_IP : Z; net_ones : Z; net_width : Z }.
Definition mask (ones width : Z) : Z := Z.shiftl (2 ^ ones - 1) (width - ones).

(** [dtoi] on the whole text. *)
Definition dtoi (s : string) : option Z :=
  let l := list_ascii_of_string s in
  if negb (String.eqb s EmptyString) && forallb (fun c => ascii_digit (byte_val c)) l
  then let v := foldl (fun n c => 10 * n + (byte_val c - 48)) 0 l in if v <? 16777215 then Some v else None
  else None.
(** [ParseCIDR]: a masked IPv6 range that still is IPv4-mapped compares 4
    bytes. *)
Definition ParseCIDR (s : string) : option IPNet :=
  i ← index_byte s "/";
  '(ip, width) ← ParseAddr (str_take i s);
  n ← dtoi (str_drop (S i) s);
  if width <? n then None
  else if width =? 32 then a ← To4 ip; Some (mkNet (Z.land a (mask n 32)) n 32)
  else let a := Z.land ip (mask n 128) in
       Some match To4 a with Some a4 => mkNet a4 (n - 96) 32 | None => mkNet a n 128 end.
Definition Contains (n : IPNet) (ip : IP) : bool :=
  let m := mask (net_ones n) (net_width n) in
  match To4 ip with
  | Some a => (net_width n =? 32) && (Z.land (net_IP n) m =? Z.land a m)
  | None => (net_width n =? 128) && (Z.land (net_IP n) m =? Z.land ip m)
  end.

(** ** Classes of addresses *)

(** Byte [i] of a 4-byte, of a 16-byte address. *)
Definition byte4 (a i : Z) : Z := Z.land (Z.shiftr a (24 - 8 * i)) 255.
Definition byte16 (a i : Z) : Z := Z.land (Z.shiftr a (120 - 8 * i)) 255.

Definition IsUnspecified (ip : IP) : bool := (ip =? of4 0) || (ip =? 0).
Definition IsLoopback (ip : IP) : bool := match To4 ip with Some a => byte4 a 0 =? 127 | None => ip =? 1 end.
Definition IsPrivate (ip : IP) : bool :=
  match To4 ip with
  | Some a => (byte4 a 0 =? 10) || ((byte4 a 0 =? 172) && (Z.land (byte4 a 1) 240 =? 16)) || ((byte4 a 0 =? 192) && (byte4 a 1 =? 168))
  | None => Z.land (byte16 ip 0) 254 =? 252
  end.
Definition IsMulticast (ip : IP) : bool := match To4 ip with Some a => Z.land (byte4 a 0) 240 =? 224 | None => byte16 ip 0 =? 255 end.
Definition IsLinkLocalMulticast (ip : IP) : bool :=
  match To4 ip with
  | Some a => (byte4 a 0 =? 224) && (byte4 a 1 =? 0) && (byte4 a 2 =? 0)
  | None => (byte16 ip 0 =? 255) && (Z.land (byte16 ip 1) 15 =? 2)
  end.
Definition IsLinkLocalUnicast (ip : IP) : bool :=
  match To4 ip with
  | Some a => (byte4 a 0 =? 169) && (byte4 a 1 =? 254)
  | None => (byte16 ip 0 =? 254) && (Z.land (byte16 ip 1) 192 =? 128)
  end.

(** ** Host and port *)

Definition last_index (s : string) (c : ascii) : option nat :=
  let l := list_ascii_of_string s in
  (fun i => (length l - S i)%nat) <$> index_byte (string_of_list_ascii (rev l)) c.
(** [SplitHostPort]: the host, or an error. *)
Definition SplitHost (hostport : string) : option string :=
  i ← last_index hostport ":";
  '(host, j, k) ← (match hostport with
    | String "[" _ =>
        e ← index_byte hostport "]";
        if (S e =? i)%nat then Some (str_take (e - 1) (str_drop 1 hostport), 1%nat, S e) else None
    | _ => let host := str_take i hostport in
           match index_byte host ":" with Some _ => None | None => Some (host, O, O) end
    end);
  match index_byte (str_drop j hostport) "[", index_byte (str_drop k hostport) "]" with
  | None, None => Some host
  | _, _ => None
  end.

Example parse_ips : map ParseIP ["127.0.0.1"; "::1"; "fe80::1"; "::ffff:10.0.0.1"; "1.2.3"; "01.2.3.4"; "1::2::3"; "256.1.1.1"; "fe80::1%eth0"; "1:2:3:4:5:6:7:8"; "::"; "1:2:3:4:5:6:7::"]%string
  = [Some (of4 (127 * 2 ^ 24 + 1)); Some 1; Some (Z.shiftl 65152 112 + 1); Some (of4 (10 * 2 ^ 24 + 1)); None; None; None; None; None;
     Some 5192455318486707404433266433261576; Some 0; Some 5192455318486707404433266433261568].
Proof. vm_compute. reflexivity. Qed.
Example split_hosts : map SplitHost ["1.2.3.4:80"; "[::1]:80"; "::1:80"; "[::1]"; "host"; ":80"]%string
  = [Some "1.2.3.4"; Some "::1"; None; None; None; Some ""]%string.
Proof. vm_compute. reflexivity. Qed.

(** ** Masks and classes as intervals of high bits *)

Lemma land_mask a k w : 0 <= k <= w -> 0 <= a < 2 ^ w -> Z.land a (mask k w) = Z.shiftl (Z.shiftr a (w - k)) (w - k).
Proof.
  intros Hk Ha. unfold mask. apply Z.bits_inj'. intros i Hi. rewrite Z.land_spec, !Z.shiftl_spec by lia.
  destruct (Z.ltb_spec i (w - k)) as [Hl|Hl]; [rewrite !(Z.testbit_neg_r _ (i - (w - k))) by lia; apply andb_false_r|].
  rewrite Z.shiftr_spec by lia. replace (i - (w - k) + (w - k)) with i by lia.
  change (2 ^ k - 1) with (Z.pred (2 ^ k)). rewrite <- Z.ones_equiv.
  destruct (Z.ltb_spec (i - (w - k)) k) as [Hk'|Hk']; [rewrite Z.ones_spec_low by lia; apply andb_true_r|].
  rewrite Z.ones_spec_high by lia. rewrite andb_false_r. symmetry.
  rewrite <- (Z.mod_small a (2 ^ w)) by lia. apply Z.mod_pow2_bits_high. lia.
Qed.
Lemma mask_eqb a b k w : 0 <= k <= w -> 0 <= a < 2 ^ w -> 0 <= b < 2 ^ w ->
  (Z.land a (mask k w) =? Z.land b (mask k w)) = (Z.shiftr a (w - k) =? Z.shiftr b (w - k)).
Proof.
  intros Hk Ha Hb. rewrite !land_mask by assumption.
  assert (Hinj : Z.shiftl (Z.shiftr a (w - k)) (w - k) = Z.shiftl (Z.shiftr b (w - k)) (w - k) <-> Z.shiftr a (w - k) = Z.shiftr b (w - k)).
  { split; [|congruence]. rewrite !Z.shiftl_mul_pow2 by lia. intros E. apply Z.mul_reg_r in E; [exact E|].
    pose proof (Z.pow_pos_nonneg 2 (w - k)). lia. }
  destruct (Z.eqb_spec (Z.shiftr a (w - k)) (Z.shiftr b (w - k))) as [E|E]; [apply Z.eqb_eq|apply Z.eqb_neq]; tauto.
Qed.

Lemma byte4_val a i : 0 <= i <= 3 -> byte4 a i = (a / 2 ^ (24 - 8 * i)) mod 256.
Proof. intros Hi. unfold byte4. rewrite Z.shiftr_div_pow2 by lia. change 255 with (Z.ones 8). now rewrite Z.land_ones by lia. Qed.
Lemma byte16_val a i : 0 <= i <= 15 -> byte16 a i = (a / 2 ^ (120 - 8 * i)) mod 256.
Proof. intros Hi. unfold byte16. rewrite Z.shiftr_div_pow2 by lia. change 255 with (Z.ones 8). now rewrite Z.land_ones by lia. Qed.
(** The high bits of a byte. *)
Lemma land_high x k : 0 <= x < 256 -> 0 <= k <= 8 -> Z.land x (256 - 2 ^ k) = 2 ^ k * (x / 2 ^ k).
Proof.
  intros Hx Hk. replace (256 - 2 ^ k) with (mask (8 - k) 8).
  - rewrite land_mask by (change (2 ^ 8) with 256; lia). replace (8 - (8 - k)) with k by lia.
    rewrite Z.shiftl_mul_pow2, Z.shiftr_div_pow2 by lia. lia.
  - unfold mask. rewrite Z.shiftl_mul_pow2 by lia. rewrite Z.mul_sub_distr_r, <- Z.pow_add_r by lia.
    replace (8 - k + (8 - (8 - k))) with 8 by lia. replace (8 - (8 - k)) with k by lia. lia.
Qed.
Lemma To4_range ip a : To4 ip = Some a -> 0 <= a < 2 ^ 32 /\ ip = of4 a.
Proof.
  unfold To4. destruct (Z.eqb_spec (Z.shiftr ip 32) 65535) as [E|]; [|discriminate]. intros [= <-].
  change (2 ^ 32 - 1) with (Z.ones 32). rewrite Z.land_ones by lia. split; [apply Z.mod_pos_bound; lia|].
  rewrite Z.shiftr_div_pow2 in E by lia. unfold of4, v4_prefix. change (Z.shiftl 65535 32) with (65535 * 2 ^ 32).
  rewrite <- E. pose proof (Z.div_mod ip (2 ^ 32)). lia.
Qed.
Lemma To4_of4 a : 0 <= a < 2 ^ 32 -> To4 (of4 a) = Some a.
Proof.
  intros Ha. unfold To4, of4, v4_prefix. change (Z.shiftl 65535 32) with (65535 * 2 ^ 32).
  rewrite Z.shiftr_div_pow2, Z.div_add_l by lia. rewrite (Z.div_small a) by lia. change (65535 + 0 =? 65535) with true. cbv iota.
  change (2 ^ 32 - 1) with (Z.ones 32). rewrite Z.land_ones by lia. rewrite Z.add_comm, Z.mod_add by lia. now rewrite Z.mod_small.
Qed.

(** A range on a given address, by its high bits. *)
Lemma Contains_4 n k a : 0 <= k <= 32 -> 0 <= n < 2 ^ 32 -> 0 <= a < 2 ^ 32 ->
  Contains (mkNet n k 32) (of4 a) = (n / 2 ^ (32 - k) =? a / 2 ^ (32 - k)).
Proof. intros Hk Hn Ha. unfold Contains. rewrite To4_of4 by exact Ha. cbn [net_IP net_ones net_width]. rewrite mask_eqb by assumption. now rewrite !Z.shiftr_div_pow2 by lia. Qed.
Lemma Contains_16 n k ip : 0 <= k <= 128 -> 0 <= n < 2 ^ 128 -> 0 <= ip < 2 ^ 128 -> To4 ip = None ->
  Contains (mkNet n k 128) ip = (n / 2 ^ (128 - k) =? ip / 2 ^ (128 - k)).
Proof. intros Hk Hn Ha E. unfold Contains. rewrite E. cbn [net_IP net_ones net_width]. rewrite mask_eqb by assumption. now rewrite !Z.shiftr_div_pow2 by lia. Qed.

(** ** What parsing returns *)

Lemma octet_range s v : octet s = Some v -> 0 <= v <= 255.
Proof.
  unfold octet. set (l := list_ascii_of_string s). set (w := foldl _ 0 l).
  destruct (negb (String.eqb s EmptyString)); cbn [andb]; [|discriminate].
  destruct (forallb _ l) eqn:Hd; cbn [andb]; [|discriminate].
  destruct (_ || _); cbn [andb]; [|discriminate]. destruct (slen s <=? 3); cbn [andb]; [|discriminate].
  destruct (Z.leb_spec w 255); [|discriminate]. intros [= <-]. split; [|lia].
  unfold w. assert (Hg : forall n, 0 <= n -> 0 <= foldl (fun n c => 10 * n + (byte_val c - 48)) n l); [|now apply Hg].
  clear w H. induction l as [|c l IH]; intros n Hn; [exact Hn|]. cbn [forallb foldl] in *. apply andb_prop in Hd as [Hc Hd].
  apply IH; [exact Hd|]. unfold ascii_digit in Hc. zbool. lia.
Qed.
Lemma parseIPv4_range s a : parseIPv4 s = Some a -> 0 <= a < 2 ^ 32.
Proof.
  unfold parseIPv4. destruct (split_byte "." s) as [|s1 [|s2 [|s3 [|s4 [|s5 l]]]]]; cbn [map]; try discriminate;
    try (repeat (destruct (octet _); try discriminate); discriminate).
  destruct (octet s1) as [b1|] eqn:E1, (octet s2) as [b2|] eqn:E2, (octet s3) as [b3|] eqn:E3, (octet s4) as [b4|] eqn:E4; try discriminate.
  apply octet_range in E1, E2, E3, E4. intros [= <-]. lia.
Qed.
Lemma hex_val_range c d : hex_val c = Some d -> 0 <= d < 16.
Proof. unfold hex_val. repeat case_bool; zbool; intros E; try discriminate; injection E as E; lia. Qed.
Lemma hex_head_range s : forall acc n acc' n' rest, hex_head s acc n = (acc', n', rest) -> 0 <= acc < 16 ^ Z.of_nat n ->
  (n <= n')%nat /\ 0 <= acc' < 16 ^ Z.of_nat n'.
Proof.
  induction s as [|c s IH]; intros acc n acc' n' rest E Ha; cbn [hex_head] in E; [injection E as <- <- <-; auto|].
  destruct (hex_val c) as [d|] eqn:Ed; [|injection E as <- <- <-; auto]. apply hex_val_range in Ed. apply IH in E; [split; [lia|apply E]|].
  rewrite Nat2Z.inj_succ, Z.pow_succ_r by lia. lia.
Qed.
Definition group_ok (g : Z) : Prop := 0 <= g < 65536.
Lemma hex_group s acc n rest : hex_head s 0 0 = (acc, n, rest) -> (n =? 0)%nat || (4 <? n)%nat = false -> group_ok acc.
Proof.
  intros E Hn. apply hex_head_range in E as [_ E]; [|lia]. apply orb_false_iff in Hn as [_ Hn]. apply Nat.ltb_ge in Hn.
  unfold group_ok. assert (16 ^ Z.of_nat n <= 16 ^ 4) by (apply Z.pow_le_mono_r; lia). lia.
Qed.
Lemma groups6_ok fuel : forall s groups ell left_over groups' ell', groups6 fuel s groups ell = Some (left_over, groups', ell') ->
  Forall group_ok groups -> (length groups + fuel = 8)%nat -> Forall group_ok groups' /\ (length groups' <= 8)%nat.
Proof.
  induction fuel as [|fuel IH]; intros s groups ell left_over groups' ell' E Hg Hl; cbn [groups6] in E; [injection E as <- <- <-; split; [done|lia]|].
  destruct (hex_head s 0 0) as [[acc n] rest] eqn:Eh. destruct ((n =? 0)%nat || (4 <? n)%nat) eqn:En; [discriminate|].
  pose proof (hex_group s acc n rest Eh En) as Hacc.
  assert (Hacc' : Forall group_ok (acc :: groups) /\ (length (acc :: groups) <= 8)%nat) by (split; [now constructor|cbn; lia]).
  destruct rest as [|c rest]; [now injection E as <- <- <-|].
  destruct (Ascii.eqb_spec c ".") as [->|Hd].
  { destruct (parseIPv4 s) as [v|] eqn:Ev; [|case_match; discriminate]. case_match; [discriminate|]. cbn [mbind option_bind] in E. injection E as <- <- <-.
    apply parseIPv4_range in Ev. apply orb_false_iff in H as [_ H]. apply Nat.ltb_ge in H. split; [|cbn; lia].
    constructor; [|constructor; [|exact Hg]]; unfold group_ok.
    - change 65535 with (Z.ones 16). rewrite Z.land_ones by lia. apply Z.mod_pos_bound. lia.
    - rewrite Z.shiftr_div_pow2 by lia. split; [apply Z.div_pos; lia|apply Z.div_lt_upper_bound; lia]. }
  assert (Hnext : forall t e, groups6 fuel t (acc :: groups) e = Some (left_over, groups', ell') -> Forall group_ok groups' /\ (length groups' <= 8)%nat).
  { intros t e Et. eapply IH; [exact Et|apply Hacc'|cbn; lia]. }
  destruct (Ascii.eqb_spec c ":") as [->|Hc].
  - destruct rest as [|c' rest]; [discriminate|]. destruct (Ascii.eqb_spec c' ":") as [->|Hc'].
    + destruct ell; [discriminate|]. destruct (String.eqb rest EmptyString); [now injection E as <- <- <-|now apply Hnext in E].
    + apply (Hnext (String c' rest) ell). rewrite <- E. destruct c' as [[] [] [] [] [] [] [] []]; try reflexivity. now destruct Hc'.
  - exfalso. revert E. destruct c as [[] [] [] [] [] [] [] []]; try discriminate; [now destruct Hd|now destruct Hc].
Qed.
Lemma fold_groups l : Forall group_ok l -> forall v n, 0 <= v < 65536 ^ Z.of_nat n ->
  0 <= foldl (fun v g => v * 65536 + g) v l < 65536 ^ Z.of_nat (n + length l).
Proof.
  induction 1 as [|g l Hg _ IH]; intros v n Hv; cbn [foldl length]; [now rewrite Nat.add_0_r|].
  replace (n + S (length l))%nat with (S n + length l)%nat by lia. apply IH. rewrite Nat2Z.inj_succ, Z.pow_succ_r by lia.
  unfold group_ok in Hg. lia.
Qed.
Lemma parseIPv6_range s ip : parseIPv6 s = Some ip -> 0 <= ip < 2 ^ 128.
Proof.
  unfold parseIPv6. case_bool; [intros [= <-]; lia|]. destruct (if has_prefix s "::" then _ else _) as [t ell].
  destruct (groups6 8 t [] ell) as [[[left_over groups] ell']|] eqn:Eg; cbn [mbind option_bind]; [|discriminate].
  apply groups6_ok in Eg as [Eg Hlen]; [|constructor|reflexivity]. apply Forall_rev in Eg. rewrite <- length_rev in Hlen. set (gs := rev groups) in *. intros E.
  assert (Hall : forall all, Forall group_ok all -> length all = 8%nat -> 0 <= foldl (fun v g => v * 65536 + g) 0 all < 2 ^ 128).
  { intros all Ha Hl. pose proof (fold_groups all Ha 0 0) as Hf. rewrite Hl in Hf. change (65536 ^ Z.of_nat (0 + 8)) with (2 ^ 128) in Hf.
    apply Hf. cbn. lia. }
  case_match; [discriminate|]. destruct (Nat.ltb_spec (length gs) 8) as [H8|H8].
  - destruct ell' as [e|]; [|discriminate]. cbn [mbind option_bind] in E. injection E as <-. apply Hall.
    + rewrite !Forall_app. split; [now apply Forall_take|]. split; [|now apply Forall_drop]. apply Forall_replicate. unfold group_ok. lia.
    + rewrite !length_app, length_replicate, length_take, length_drop. lia.
  - destruct ell' as [e|]; [discriminate|]. cbn [mbind option_bind] in E. injection E as <-. apply Hall; [exact Eg|lia].
Qed.
Lemma ParseIP_range s ip : ParseIP s = Some ip -> 0 <= ip < 2 ^ 128.
Proof.
  unfold ParseIP, ParseAddr. destruct (first_sep s) as [c|]; [|discriminate].
  destruct (Ascii.eqb_spec c ".") as [->|Hd].
  { destruct (parseIPv4 s) as [a|] eqn:E; [|discriminate]. intros [= <-]. apply parseIPv4_range in E. unfold of4, v4_prefix.
    change (Z.shiftl 65535 32) with (65535 * 2 ^ 32). lia. }
  destruct (Ascii.eqb_spec c ":") as [->|Hc].
  { destruct (contains s "%"); [discriminate|]. destruct (parseIPv6 s) as [a|] eqn:E; [|discriminate]. intros [= <-]. now apply parseIPv6_range in E. }
  destruct c as [[] [] [] [] [] [] [] []]; try discriminate; [now destruct Hd|now destruct Hc].
Qed.
