(* ===== verification/WebhookUrl.v ===== *)
(** * Validation of the webhook URL (api/webhook_validate.go)

    [validateWebhookURL] guards the webhook destination against requests to
    the server's own network.  [net/url]'s parser is the parameter
    [url_parse]: the scheme and the host name of a URL, or the text of the
    error.  The DNS resolver is the parameter [lookup]: the addresses of a
    host name, or an error (which covers the three-second deadline). *)
From S2P Require Import Prelude GoStrings Strconv Net Config.
From Stdlib Require Import ZArith Lia String Btauto.
From stdpp Require Import base tactics list strings.
#[local] Open Scope Z_scope.

Definition ipIsLoopbackOrPrivate (ip : IP) : bool :=
  IsLoopback ip || IsPrivate ip || IsLinkLocalUnicast ip || IsLinkLocalMulticast ip || IsUnspecified ip || IsMulticast ip.

Section Validate.
Context `{Unicode} `{Printable}.
Context (url_parse : string -> string + (string * string)) (lookup : string -> option (list IP)).

Definition isLoopbackOrPrivate (host : string) : bool :=
  let host := to_lower host in
  if String.eqb host "localhost" || String.eqb host "host.docker.internal" then true
  else match ParseIP host with
       | Some ip => ipIsLoopbackOrPrivate ip
       | None => match lookup host with
                 | None => true
                 | Some ips => existsb ipIsLoopbackOrPrivate ips
                 end
       end.

(** [None] accepts; otherwise the text of the error. *)
Definition validateWebhookURL (raw : string) (c : Config) : option string :=
  match url_parse raw with
  | inl err => Some ("invalid URL: " +:+ err)
  | inr (scheme, host) =>
      if negb (String.eqb scheme "https") && negb (String.eqb scheme "http") then
        Some ("unsupported scheme " +:+ Quote scheme +:+ " (must be http or https)")
      else if String.eqb scheme "http" && negb (AllowHTTP (cfg_Webhook c)) then
        Some "http:// webhooks require AGENTSHIELD_ALLOW_HTTP_WEBHOOK=true"%string
      else if String.eqb host EmptyString then Some "missing host"%string
      else if AllowPrivate (cfg_Webhook c) then None
      else if isLoopbackOrPrivate host then
        Some "private/loopback hosts are not allowed (set AGENTSHIELD_ALLOW_PRIVATE_WEBHOOK=true to override)"%string
      else None
  end.
End Validate.

(** ** The refused addresses *)

(** The ranges the classes of package net add up to. *)
Definition refused_ranges : list string :=
  ["0.0.0.0/32"; "127.0.0.0/8"; "10.0.0.0/8"; "172.16.0.0/12"; "192.168.0.0/16"; "169.254.0.0/16"; "224.0.0.0/4";
   "::/128"; "::1/128"; "fc00::/7"; "fe80::/10"; "ff00::/8"]%string.
Definition refused_nets : list IPNet := omap ParseCIDR refused_ranges.

Lemma refused_nets_eq : refused_nets =
  [mkNet 0 32 32; mkNet (127 * 2 ^ 24) 8 32; mkNet (10 * 2 ^ 24) 8 32; mkNet (2753 * 2 ^ 20) 12 32; mkNet (49320 * 2 ^ 16) 16 32;
   mkNet (43518 * 2 ^ 16) 16 32; mkNet (14 * 2 ^ 28) 4 32;
   mkNet 0 128 128; mkNet 1 128 128; mkNet (126 * 2 ^ 121) 7 128; mkNet (1018 * 2 ^ 118) 10 128; mkNet (255 * 2 ^ 120) 8 128].
Proof. vm_compute. reflexivity. Qed.

(** The high bits of bytes, as divisions. *)
Lemma high_nibble a i : 0 <= i <= 3 -> Z.land (byte4 a i) 240 = 16 * (byte4 a i / 16).
Proof. intros Hi. change 240 with (256 - 2 ^ 4). rewrite land_high; [reflexivity| |lia]. rewrite byte4_val by lia. apply Z.mod_pos_bound. lia. Qed.
Lemma high16 a i k m : 0 <= i <= 15 -> 0 <= k <= 8 -> m = 256 - 2 ^ k -> Z.land (byte16 a i) m = 2 ^ k * (byte16 a i / 2 ^ k).
Proof. intros Hi Hk ->. apply land_high; [|exact Hk]. rewrite byte16_val by lia. apply Z.mod_pos_bound. lia. Qed.

(** The address in pieces: 4, 4, 4, 4, 8 and 8 bits. *)
Lemma pieces4 a : 0 <= a < 2 ^ 32 -> exists p q r t u v,
  0 <= p < 16 /\ 0 <= q < 16 /\ 0 <= r < 16 /\ 0 <= t < 16 /\ 0 <= u < 256 /\ 0 <= v < 256 /\
  a = ((((p * 16 + q) * 16 + r) * 16 + t) * 256 + u) * 256 + v.
Proof.
  intros Ha. exists (a / 2 ^ 28), (a / 2 ^ 24 mod 16), (a / 2 ^ 20 mod 16), (a / 2 ^ 16 mod 16), (a / 2 ^ 8 mod 256), (a mod 256).
  Z.div_mod_to_equations. lia.
Qed.
Lemma div_piece x y d : 0 < d -> 0 <= y < d -> (x * d + y) / d = x.
Proof. intros Hd Hy. rewrite Z.div_add_l, Z.div_small by lia. lia. Qed.

Lemma refused_4 a : 0 <= a < 2 ^ 32 ->
  ipIsLoopbackOrPrivate (of4 a) = existsb (fun n => Contains n (of4 a)) refused_nets.
Proof.
  intros Ha. rewrite refused_nets_eq. cbn [existsb].
  rewrite !Contains_4 by lia. unfold Contains. rewrite To4_of4 by exact Ha. cbn [net_width Z.eqb Pos.eqb andb orb].
  unfold ipIsLoopbackOrPrivate, IsLoopback, IsPrivate, IsLinkLocalUnicast, IsLinkLocalMulticast, IsUnspecified, IsMulticast.
  rewrite To4_of4 by exact Ha. rewrite !high_nibble, !byte4_val by lia. unfold of4, v4_prefix. change (Z.shiftl 65535 32) with (65535 * 2 ^ 32).
  destruct (pieces4 a Ha) as (p & q & r & t & u & v & Hp & Hq & Hr & Ht & Hu & Hv & ->).
  set (a := ((((p * 16 + q) * 16 + r) * 16 + t) * 256 + u) * 256 + v) in *.
  assert (E8 : a / 2 ^ 8 = (((p * 16 + q) * 16 + r) * 16 + t) * 256 + u) by (unfold a; now rewrite div_piece by lia).
  assert (E16 : a / 2 ^ 16 = ((p * 16 + q) * 16 + r) * 16 + t) by (change (2 ^ 16) with (2 ^ 8 * 2 ^ 8); rewrite <- Z.div_div, E8 by lia; now rewrite div_piece by lia).
  assert (E20 : a / 2 ^ 20 = (p * 16 + q) * 16 + r) by (change (2 ^ 20) with (2 ^ 16 * 2 ^ 4); rewrite <- Z.div_div, E16 by lia; now rewrite div_piece by lia).
  assert (E24 : a / 2 ^ 24 = p * 16 + q) by (change (2 ^ 24) with (2 ^ 20 * 2 ^ 4); rewrite <- Z.div_div, E20 by lia; now rewrite div_piece by lia).
  assert (E28 : a / 2 ^ 28 = p) by (change (2 ^ 28) with (2 ^ 24 * 2 ^ 4); rewrite <- Z.div_div, E24 by lia; now rewrite div_piece by lia).
  change (24 - 8 * 0) with 24. change (24 - 8 * 1) with 16. change (24 - 8 * 2) with 8. cbn [Z.sub Z.opp Z.add Z.pos_sub Pos.pred_double].
  change (2 ^ (32 - 32)) with 1. change (2 ^ (32 - 8)) with (2 ^ 24). change (2 ^ (32 - 12)) with (2 ^ 20).
  change (2 ^ (32 - 16)) with (2 ^ 16). change (2 ^ (32 - 4)) with (2 ^ 28).
  rewrite ?E8, ?E16, ?E20, ?E24, ?E28, !Z.div_1_r, !Z.div_mul by lia.
  replace ((p * 16 + q) mod 256) with (p * 16 + q) by (symmetry; apply Z.mod_small; lia).
  replace ((((p * 16 + q) * 16 + r) * 16 + t) mod 256) with (r * 16 + t)
    by (apply Z.mod_unique with (p * 16 + q); lia).
  replace (((((p * 16 + q) * 16 + r) * 16 + t) * 256 + u) mod 256) with u
    by (apply Z.mod_unique with (((p * 16 + q) * 16 + r) * 16 + t); lia).
  rewrite !div_piece by lia. assert (Ha0 : 0 <= a) by lia. clear E8 E16 E20 E24 E28 Ha. clearbody a.
  assert (H1 : (2753 =? (p * 16 + q) * 16 + r) = ((p * 16 + q =? 172) && (16 * r =? 16))) by (clear -Hp Hq Hr Ht; apply eq_true_iff_eq; rewrite andb_true_iff, !Z.eqb_eq; lia).
  assert (H2 : (49320 =? ((p * 16 + q) * 16 + r) * 16 + t) = ((p * 16 + q =? 192) && (r * 16 + t =? 168))) by (clear -Hp Hq Hr Ht; apply eq_true_iff_eq; rewrite andb_true_iff, !Z.eqb_eq; lia).
  assert (H3 : (43518 =? ((p * 16 + q) * 16 + r) * 16 + t) = ((p * 16 + q =? 169) && (r * 16 + t =? 254))) by (clear -Hp Hq Hr Ht; apply eq_true_iff_eq; rewrite andb_true_iff, !Z.eqb_eq; lia).
  assert (H4 : (14 =? p) = (16 * p =? 224)) by (clear -Hp Hq Hr Ht; apply eq_true_iff_eq; rewrite !Z.eqb_eq; lia).
  assert (H5 : (p * 16 + q =? 224) = true -> (16 * p =? 224) = true) by (clear -Hp Hq Hr Ht; rewrite !Z.eqb_eq; lia).
  assert (H6 : (65535 * 2 ^ 32 + a =? 65535 * 2 ^ 32 + 0) = (0 =? a)) by (clear -Ha0; apply eq_true_iff_eq; rewrite !Z.eqb_eq; lia).
  assert (H7 : (65535 * 2 ^ 32 + a =? 0) = false) by (clear -Ha0; apply Z.eqb_neq; lia).
  rewrite H1, H2, H3, H4, H6, H7, (Z.eqb_sym 127), (Z.eqb_sym 10).
  clear -H5. destruct (p * 16 + q =? 224); [rewrite H5 by done|]; btauto.
Qed.

Lemma refused_16 ip : 0 <= ip < 2 ^ 128 -> To4 ip = None ->
  ipIsLoopbackOrPrivate ip = existsb (fun n => Contains n ip) refused_nets.
Proof.
  intros Hip E4. rewrite refused_nets_eq. cbn [existsb]. rewrite !Contains_16 by (exact E4 || lia).
  unfold Contains. rewrite E4. cbn [net_width Z.eqb Pos.eqb andb orb].
  unfold ipIsLoopbackOrPrivate, IsLoopback, IsPrivate, IsLinkLocalUnicast, IsLinkLocalMulticast, IsUnspecified, IsMulticast.
  rewrite E4. rewrite (high16 ip 0 1 254), (high16 ip 1 6 192), !byte16_val by lia.
  assert (H4 : (ip =? of4 0) = false) by (apply Z.eqb_neq; intros ->; now rewrite To4_of4 in E4 by lia).
  change (120 - 8 * 0) with 120. change (120 - 8 * 1) with 112. change (128 - 128) with 0. change (128 - 7) with 121.
  change (128 - 10) with 118. change (128 - 8) with 120. change (2 ^ 0) with 1. rewrite !Z.div_1_r, !Z.div_mul by lia.
  set (d := ip / 2 ^ 118).
  assert (Hd : 0 <= d < 1024) by (unfold d; split; [apply Z.div_pos; lia|apply Z.div_lt_upper_bound; lia]).
  assert (E120 : ip / 2 ^ 120 = d / 4) by (unfold d; rewrite Z.div_div by lia; reflexivity).
  assert (E121 : ip / 2 ^ 121 = d / 8) by (unfold d; rewrite Z.div_div by lia; reflexivity).
  assert (E112 : ip / 2 ^ 112 mod 256 / 2 ^ 6 = d mod 4).
  { unfold d. change (2 ^ 118) with (2 ^ 112 * 2 ^ 6). rewrite <- Z.div_div by lia. generalize (ip / 2 ^ 112). intros x.
    change (2 ^ 6) with 64. clear. Z.div_mod_to_equations. lia. }
  rewrite E120, E121, E112. replace (d / 4 mod 256) with (d / 4) by (symmetry; apply Z.mod_small; clear -Hd; Z.div_mod_to_equations; lia).
  assert (H1 : (126 =? d / 8) = (2 ^ 1 * (d / 4 / 2 ^ 1) =? 252)).
  { clear -Hd. change (2 ^ 1) with 2. apply eq_true_iff_eq. rewrite !Z.eqb_eq. Z.div_mod_to_equations. lia. }
  assert (H2 : (1018 =? d) = ((d / 4 =? 254) && (2 ^ 6 * (d mod 4) =? 128))).
  { clear -Hd. change (2 ^ 6) with 64. apply eq_true_iff_eq. rewrite andb_true_iff, !Z.eqb_eq. Z.div_mod_to_equations. lia. }
  rewrite H1, H2, H4, (Z.eqb_sym 255), (Z.eqb_sym 0), (Z.eqb_sym 1 ip). clear. btauto.
Qed.

(** An address is refused when it lies in one of the ranges. *)
Lemma refused_spec ip : 0 <= ip < 2 ^ 128 -> ipIsLoopbackOrPrivate ip = existsb (fun n => Contains n ip) refused_nets.
Proof.
  intros Hip. destruct (To4 ip) as [a|] eqn:E; [|now apply refused_16]. apply To4_range in E as [Ha ->]. now apply refused_4.
Qed.

(** ** Properties of the validation *)

Definition refused (ip : IP) : Prop := Exists (fun n => Contains n ip = true) refused_nets.
Lemma refused_iff ip : 0 <= ip < 2 ^ 128 -> ipIsLoopbackOrPrivate ip = true <-> refused ip.
Proof.
  intros Hip. rewrite refused_spec by exact Hip. unfold refused. rewrite existsb_exists, Exists_exists.
  split; intros (n & Hn & E); exists n; (split; [now apply list_elem_of_In|exact E]).
Qed.

Section ValidateFacts.
Context `{Unicode} `{Printable}.
Context (lookup : string -> option (list IP)).
Hypothesis Hlookup : forall host ips, lookup host = Some ips -> Forall (fun ip => 0 <= ip < 2 ^ 128) ips.

(** A host that stands for no refused address. *)
Definition public_host (host : string) : Prop :=
  host <> "localhost"%string /\ host <> "host.docker.internal"%string /\
  match ParseIP host with
  | Some ip => ~ refused ip
  | None => exists ips, lookup host = Some ips /\ Forall (fun ip => ~ refused ip) ips
  end.

Lemma public_host_spec host : isLoopbackOrPrivate lookup host = false <-> public_host (to_lower host).
Proof.
  unfold isLoopbackOrPrivate, public_host. destruct (String.eqb_spec (to_lower host) "localhost"); cbn [orb]; [split; [discriminate|tauto]|].
  destruct (String.eqb_spec (to_lower host) "host.docker.internal"); [split; [discriminate|tauto]|].
  destruct (ParseIP (to_lower host)) as [ip|] eqn:Eip.
  - rewrite <- refused_iff by now apply ParseIP_range in Eip. destruct (ipIsLoopbackOrPrivate ip); intuition congruence.
  - destruct (lookup (to_lower host)) as [ips|] eqn:El; [|split; [discriminate|intros (_ & _ & ips & E & _); discriminate]].
    pose proof (Hlookup _ _ El) as Hr. rewrite Forall_forall in Hr. split.
    + intros E. do 2 (split; [assumption|]). exists ips. split; [done|]. apply Forall_forall. intros ip Hip Hre.
      rewrite <- not_true_iff_false, existsb_exists in E. apply E. exists ip. split; [now apply list_elem_of_In|]. apply refused_iff; auto.
    + intros (_ & _ & ips' & [= <-] & Hf). apply not_true_iff_false. rewrite existsb_exists. intros (ip & Hip & E).
      apply list_elem_of_In in Hip. rewrite Forall_forall in Hf. apply (Hf ip Hip). apply refused_iff; auto.
Qed.
Lemma validate_accepts (url_parse : string -> string + (string * string)) raw c scheme host : url_parse raw = inr (scheme, host) ->
  validateWebhookURL url_parse lookup raw c = None <->
  (scheme = "https"%string \/ scheme = "http"%string /\ AllowHTTP (cfg_Webhook c) = true) /\ host <> EmptyString /\
  (AllowPrivate (cfg_Webhook c) = true \/ isLoopbackOrPrivate lookup host = false).
Proof.
  intros E. unfold validateWebhookURL. rewrite E.
  destruct (String.eqb_spec scheme "https"), (String.eqb_spec scheme "http"),
    (AllowHTTP (cfg_Webhook c)), (String.eqb_spec host EmptyString), (AllowPrivate (cfg_Webhook c)), (isLoopbackOrPrivate lookup host);
    cbn; intuition congruence.
Qed.
End ValidateFacts.

(** C33.  The webhook URL is accepted exactly when it parses to https, or to
    http where that is allowed, with a host that is not empty and, unless
    private hosts are allowed, is neither of the two local names and stands
    for no address in the twelve refused ranges (unspecified, loopback,
    private, link-local, multicast): neither the literal itself nor, for a
    name, any of the addresses it resolves to; a name that does not resolve
    is refused. *)
Theorem validateWebhookURL_spec `{Unicode} `{Printable} url_parse lookup raw c :
  (forall host ips, lookup host = Some ips -> Forall (fun ip => 0 <= ip < 2 ^ 128) ips) ->
  let w := cfg_Webhook c in
  validateWebhookURL url_parse lookup raw c = None <->
  exists scheme host, url_parse raw = inr (scheme, host) /\
    (scheme = "https"%string \/ scheme = "http"%string /\ AllowHTTP w = true) /\ host <> EmptyString /\
    (AllowPrivate w = true \/ public_host lookup (to_lower host)).
Proof.
  intros Hlookup w. destruct (url_parse raw) as [err|[scheme host]] eqn:E.
  - unfold validateWebhookURL. rewrite E. split; [discriminate|intros (s & h & [=] & _)].
  - rewrite (validate_accepts lookup url_parse raw c scheme host E), (public_host_spec lookup Hlookup host). split; [intros Hx; now exists scheme, host|].
    now intros (s & h & [= <- <-] & Hx).
Qed.

(** A resolver and a URL parser for the witness. *)
Definition sample_parse (raw : string) : string + (string * string) :=
  if has_prefix raw "https://" then inr ("https"%string, str_drop 8 raw) else inl "no scheme"%string.
Definition sample_lookup (host : string) : option (list IP) :=
  if String.eqb host "hooks.example.com" then Some [of4 (93 * 2 ^ 24)]
  else if String.eqb host "rebind.example.com" then Some [of4 (93 * 2 ^ 24); of4 (169 * 2 ^ 24 + 254 * 2 ^ 16 + 43518)] else None.
Example webhook_examples :
  map (fun raw => validateWebhookURL sample_parse sample_lookup raw Defaults)
    ["https://hooks.example.com"; "https://rebind.example.com"; "https://10.1.2.3"; "https://::ffff:127.0.0.1"; "https://8.8.8.8"; "https://nowhere"]%string
  = let no := Some "private/loopback hosts are not allowed (set AGENTSHIELD_ALLOW_PRIVATE_WEBHOOK=true to override)"%string in
    [None; no; no; no; None; no].
Proof. vm_compute. reflexivity. Qed.

Lemma validateWebhookURL_spec_witness :
  exists scheme host, sample_parse "https://hooks.example.com" = inr (scheme, host) /\ host <> EmptyString.
Proof.
  destruct (proj1 (validateWebhookURL_spec sample_parse sample_lookup "https://hooks.example.com" Defaults ltac:(
    intros host ips; unfold sample_lookup; repeat case_bool; intros [= <-]; repeat constructor; vm_compute; intuition discriminate)) eq_refl)
    as (scheme & host & Ep & _ & Hne & _).
  now exists scheme, host.
Defined.
