(* ===== verification/RateLimit.v ===== *)
(** * The per-IP rate limiter (api/ratelimit.go)

    [ipLimiter] keeps one sliding-window limiter per client IP (and a second,
    tighter one under the key [ip:compare]) in one map of at most
    [maxTrackedIPs] entries, from which the least recently used is evicted.
    flowguard's sliding window is a parameter: the type [Limiter] with its two
    operations.  Each call runs under the mutex: a function of the map.  The
    range over the map in [evictOldestLocked] visits the entries in an order
    Go leaves open: the argument [order], a permutation of the entries. *)
From S2P Require Import Prelude GoStrings Lines Net.
From Stdlib Require Import ZArith Lia String Ascii Sorted.
From stdpp Require Import base tactics list gmap strings.
#[local] Open Scope Z_scope.

Definition defaultIPRateLimit : Z := 60.
Definition defaultIPRateWindow : Z := minute.
Definition compareIPRateLimit : Z := 10.
Definition maxTrackedIPs : Z := 10000.

(** ** Whose request it is *)

(** A header that is not set reads as the empty string. *)
Record HttpRequest := mkHttp { RemoteAddr : string; Header : string -> string }.

Definition remoteIP (r : HttpRequest) : string :=
  match SplitHost (RemoteAddr r) with Some host => host | None => RemoteAddr r end.

(** [loadTrustedProxies]. *)
Definition proxy_part (part : string) : option IPNet :=
  let part := trim_space part in
  if String.eqb part EmptyString then None
  else
    let part :=
      if contains part "/" then part
      else match ParseIP part with
           | Some ip => match To4 ip with Some _ => part +:+ "/32" | None => part +:+ "/128" end
           | None => part
           end in
    ParseCIDR part.
Definition loadTrustedProxies (env : string) : list IPNet :=
  if String.eqb env EmptyString then [] else omap proxy_part (split_byte ","%char env).

Definition peerTrusted (proxies : list IPNet) (peer : string) : bool :=
  match ParseIP peer with
  | None => false
  | Some ip => existsb (fun n => Contains n ip) proxies
  end.
Definition clientIPFor (proxies : list IPNet) (r : HttpRequest) : string :=
  let peer := remoteIP r in
  if peerTrusted proxies peer then
    let xff := Header r "X-Forwarded-For" in
    if negb (String.eqb xff EmptyString) then
      match index_byte xff ","%char with
      | Some (S comma) => trim_space (str_take (S comma) xff)
      | _ => trim_space xff
      end
    else
      let xri := Header r "X-Real-IP" in
      if negb (String.eqb xri EmptyString) then trim_space xri else peer
  else peer.

(** ** The limiters *)

Section Limiters.
Context {Limiter : Type} (NewSlidingWindow : Z -> Z -> Limiter) (Allow : Z -> Limiter -> bool * Limiter).

Record ipEntry := mkEntry { limiter : Limiter; lastUsed : Z }.
Notation Limiters := (gmap string ipEntry).
Implicit Types (m : Limiters).

(** The oldest entry, in the order of the range; the empty key marks that
    there is none yet. *)
Definition oldest (order : list (string * ipEntry)) : string * Z :=
  foldl (fun acc e => if String.eqb acc.1 EmptyString || (lastUsed e.2 <? acc.2) then (e.1, lastUsed e.2) else acc)
    (EmptyString, 0) order.
Definition evictOldestLocked (order : list (string * ipEntry)) m : Limiters :=
  let ip := (oldest order).1 in if String.eqb ip EmptyString then m else delete ip m.
Definition make_room (order : list (string * ipEntry)) m : Limiters :=
  if maxTrackedIPs <=? Z.of_nat (size m) then evictOldestLocked order m else m.

(** [allow]: one reading of the clock for the entry, one in the limiter. *)
Definition allow (now now' : Z) (order : list (string * ipEntry)) (ip : string) m : bool * Limiters :=
  match m !! ip with
  | Some e => let '(ok, l) := Allow now' (limiter e) in (ok, <[ip := mkEntry l now]> m)
  | None =>
      let m := make_room order m in
      let '(ok, l) := Allow now' (NewSlidingWindow defaultIPRateLimit defaultIPRateWindow) in
      (ok, <[ip := mkEntry l now]> m)
  end.
(** The locked part of [compareMiddleware]. *)
Definition allow_compare (now now' : Z) (order : list (string * ipEntry)) (ip : string) m : bool * Limiters :=
  let key := ip +:+ ":compare" in
  let '(e, m) := match m !! key with
                 | Some e => (e, m)
                 | None =>
                     let m := make_room order m in
                     let e := mkEntry (NewSlidingWindow compareIPRateLimit defaultIPRateWindow) now in (e, <[key := e]> m)
                 end in
  let '(ok, l) := Allow now' (limiter e) in (ok, <[key := mkEntry l now]> m).
End Limiters.
Arguments ipEntry : clear implicits.

(** ** Trust *)

Lemma contains_index s c : contains s (String c EmptyString) = false -> index_byte s c = None.
Proof.
  induction s as [|d s IH]; [done|]. cbn [contains String.prefix index_byte]. intros E. apply orb_false_iff in E as [E1 E2].
  destruct (Ascii.ascii_dec c d) as [->|Hne]; [now destruct s|]. destruct (Ascii.eqb_spec c d); [done|]. now rewrite IH.
Qed.
Lemma index_byte_app s t c : index_byte s c = None -> index_byte (s +:+ String c t) c = Some (String.length s).
Proof.
  induction s as [|d s IH]; cbn [index_byte]; intros E.
  - change (EmptyString +:+ String c t) with (String c t). cbn. now rewrite Ascii.eqb_refl.
  - change (String d s +:+ String c t) with (String d (s +:+ String c t)). cbn [index_byte]. destruct (Ascii.eqb c d); [done|].
    destruct (index_byte s c); [done|]. now rewrite IH.
Qed.
Lemma split_byte_none s c : index_byte s c = None -> split_byte c s = [s].
Proof.
  induction s as [|d s IH]; [done|]. cbn [index_byte split_byte]. rewrite Ascii.eqb_sym. destruct (Ascii.eqb d c); [done|].
  destruct (index_byte s c); [done|]. intros _. now rewrite IH.
Qed.
Lemma ParseCIDR_app part n ip width : index_byte part "/" = None -> ParseAddr part = Some (ip, width) ->
  ParseCIDR (part +:+ String "/" n) =
    (n ← dtoi n;
     if width <? n then None
     else if width =? 32 then a ← To4 ip; Some (mkNet (Z.land a (Net.mask n 32)) n 32)
     else let a := Z.land ip (Net.mask n 128) in
          Some match To4 a with Some a4 => mkNet a4 (n - 96) 32 | None => mkNet a n 128 end).
Proof.
  intros Hs Ha. unfold ParseCIDR. rewrite index_byte_app by exact Hs. cbn [mbind option_bind].
  rewrite str_take_app, Ha. change (String "/" n) with ("/" +:+ n). rewrite <- str_app_assoc.
  assert (E : S (String.length part) = String.length (part +:+ "/")) by (rewrite str_length_app; cbn; lia).
  rewrite E, str_drop_app. reflexivity.
Qed.
Lemma mask_full a w : 0 < w -> 0 <= a < 2 ^ w -> Z.land a (Net.mask w w) = a.
Proof. intros Hw Ha. rewrite land_mask by lia. replace (w - w) with 0 by lia. now rewrite Z.shiftr_0_r, Z.shiftl_0_r. Qed.
Lemma ParseAddr_width s ip w : ParseAddr s = Some (ip, w) -> 0 <= ip < 2 ^ 128 /\ (w = 32 /\ To4 ip <> None \/ w = 128).
Proof.
  intros E. assert (Hip : ParseIP s = Some ip) by (unfold ParseIP; now rewrite E). split; [now apply ParseIP_range in Hip|].
  unfold ParseAddr in E. destruct (first_sep s) as [c|]; [|discriminate].
  destruct (Ascii.eqb_spec c ".") as [->|Hd].
  { destruct (parseIPv4 s) as [a|] eqn:E4; [|discriminate]. injection E as <- <-. left. apply parseIPv4_range in E4. now rewrite To4_of4. }
  destruct (Ascii.eqb_spec c ":") as [->|Hc].
  { destruct (contains s "%"); [discriminate|]. destruct (parseIPv6 s); [|discriminate]. injection E as <- <-. now right. }
  destruct c as [[] [] [] [] [] [] [] []]; try discriminate; [now destruct Hd|now destruct Hc].
Qed.

(** A bare address in the list trusts exactly that address, unless it is
    written as an IPv4-mapped IPv6 one. *)
Lemma proxy_part_bare part ip w : trim_space part = part -> contains part "/" = false -> ParseAddr part = Some (ip, w) ->
  w = 32 \/ To4 ip = None ->
  exists n, proxy_part part = Some n /\ forall ip', 0 <= ip' < 2 ^ 128 -> Contains n ip' = true <-> ip' = ip.
Proof.
  intros Ht Hs Ha Hw. destruct (ParseAddr_width _ _ _ Ha) as [Hip Hwidth]. unfold proxy_part. rewrite Ht, Hs.
  destruct (String.eqb_spec part EmptyString) as [->|_]; [discriminate|].
  unfold ParseIP. rewrite Ha. cbn [fmap option_fmap option_map fst].
  destruct (To4 ip) as [a|] eqn:E4.
  - destruct Hw as [->|]; [|discriminate]. apply To4_range in E4 as [Hra ->].
    change (part +:+ "/32") with (part +:+ String "/" "32"). rewrite (ParseCIDR_app part "32" (of4 a) 32) by (now apply contains_index || exact Ha).
    change (dtoi "32") with (Some 32). cbn [mbind option_bind]. change (32 <? 32) with false. cbv iota.
    rewrite Z.eqb_refl, To4_of4 by exact Hra. cbn [mbind option_bind]. rewrite mask_full by (exact Hra || lia). eexists. split; [reflexivity|].
    intros ip' Hip'. unfold Contains. cbn [net_IP net_ones net_width].
    destruct (To4 ip') as [b|] eqn:E'; [|split; [discriminate|intros ->; now rewrite To4_of4 in E' by exact Hra]].
    apply To4_range in E' as [Hrb ->]. change (32 =? 32) with true. cbn [andb]. rewrite !mask_full by (assumption || lia).
    rewrite Z.eqb_eq. unfold of4. lia.
  - destruct Hwidth as [[_ Hn]| ->]; [done|]. change (part +:+ "/128") with (part +:+ String "/" "128").
    rewrite (ParseCIDR_app part "128" ip 128) by (now apply contains_index || exact Ha).
    change (dtoi "128") with (Some 128). cbn [mbind option_bind]. change (128 <? 128) with false. change (128 =? 32) with false. cbv iota zeta.
    rewrite mask_full by (exact Hip || lia). rewrite E4. eexists. split; [reflexivity|].
    intros ip' Hip'. unfold Contains. cbn [net_IP net_ones net_width].
    destruct (To4 ip') as [b|] eqn:E'; [split; [discriminate|intros ->; congruence]|]. change (128 =? 128) with true. cbn [andb].
    rewrite !mask_full by (assumption || lia). rewrite Z.eqb_eq. lia.
Qed.
Example mapped_proxy_trusts_others :
  let proxies := loadTrustedProxies "::ffff:10.0.0.1" in
  (peerTrusted proxies "10.0.0.1", peerTrusted proxies "::1") = (false, true).
Proof. vm_compute. reflexivity. Qed.

(** ** Eviction *)

Section LimiterFacts.
Context {Limiter : Type} (NewSlidingWindow : Z -> Z -> Limiter) (Allow : Z -> Limiter -> bool * Limiter).
Notation ipEntry := (ipEntry Limiter).
Notation Limiters := (gmap string ipEntry).
Implicit Types (m : Limiters) (order : list (string * ipEntry)).

(** A call of one of the two middlewares: the client's address, the readings
    of the clock, the order of the range should it evict. *)
Record LimiterCall := mkCall { call_ip : string; call_compare : bool; call_now : Z; call_now' : Z; call_order : list (string * ipEntry) }.
Definition call_key (c : LimiterCall) : string := if call_compare c then call_ip c +:+ ":compare" else call_ip c.
Definition call_limit (c : LimiterCall) : Z := if call_compare c then compareIPRateLimit else defaultIPRateLimit.
Definition limiter_call (c : LimiterCall) m : bool * Limiters :=
  (if call_compare c then allow_compare NewSlidingWindow Allow else allow NewSlidingWindow Allow) (call_now c) (call_now' c) (call_order c) (call_ip c) m.
Fixpoint limiter_calls (l : list LimiterCall) m : list bool * Limiters :=
  match l with
  | [] => ([], m)
  | c :: l => let '(b, m) := limiter_call c m in let '(bs, m) := limiter_calls l m in (b :: bs, m)
  end.

(** Both middlewares ask the key's limiter, made on the first call. *)
Lemma limiter_call_eq c m : limiter_call c m =
  let m' := match m !! call_key c with Some _ => m | None => make_room (call_order c) m end in
  let l := match m !! call_key c with Some e => limiter e | None => NewSlidingWindow (call_limit c) defaultIPRateWindow end in
  ((Allow (call_now' c) l).1, <[call_key c := mkEntry (Allow (call_now' c) l).2 (call_now c)]> m').
Proof.
  destruct c as [ip [|] now now' order]; unfold limiter_call, call_key, call_limit, allow, allow_compare; cbn [call_compare call_ip call_now call_now' call_order].
  - destruct (m !! (ip +:+ ":compare")) as [e|]; [now destruct (Allow now' (limiter e))|].
    cbn [limiter]. destruct (Allow now' _) as [ok l]. cbn [fst snd]. now rewrite insert_insert_eq.
  - destruct (m !! ip) as [e|]; [now destruct (Allow now' (limiter e))|]. now destruct (Allow now' _).
Qed.

Lemma oldest_spec order : order <> [] -> Forall (fun e => e.1 <> EmptyString) order ->
  exists e, In ((oldest order).1, e) order /\ lastUsed e = (oldest order).2 /\
    Forall (fun e => (oldest order).2 <= lastUsed e.2) order.
Proof.
  intros Hne Hk. assert (Hgo : forall rest seen acc, Forall (fun e : string * ipEntry => e.1 <> EmptyString) rest ->
    (exists e, In (acc.1, e) seen /\ lastUsed e = acc.2 /\ acc.1 <> EmptyString) -> Forall (fun e : string * ipEntry => acc.2 <= lastUsed e.2) seen ->
    let res := foldl (fun acc e => if String.eqb acc.1 EmptyString || (lastUsed e.2 <? acc.2) then (e.1, lastUsed e.2) else acc) acc rest in
    (exists e, In (res.1, e) (seen ++ rest) /\ lastUsed e = res.2) /\ Forall (fun e : string * ipEntry => res.2 <= lastUsed e.2) (seen ++ rest)).
  { induction rest as [|[k e] rest IH]; intros seen acc Hr (ea & Hin & Hl & Hna) Hf; cbn [foldl].
    - rewrite app_nil_r. split; [now exists ea|exact Hf].
    - apply Forall_cons in Hr as [Hke Hr]. cbn [fst snd] in *. apply String.eqb_neq in Hna as Hna'. rewrite Hna'. cbn [orb].
      replace (seen ++ (k, e) :: rest) with ((seen ++ [(k, e)]) ++ rest) by (now rewrite <- app_assoc). apply IH; [exact Hr| |].
      + destruct (Z.ltb_spec (lastUsed e) acc.2); [exists e|exists ea]; rewrite in_app_iff; cbn; auto.
      + apply Forall_app. split; [|constructor; [|constructor]]; destruct (Z.ltb_spec (lastUsed e) acc.2); cbn [snd]; try lia; [|exact Hf].
        eapply Forall_impl; [exact Hf|]. cbn. intros; lia. }
  destruct order as [|[k e] rest]; [done|]. apply Forall_cons in Hk as [Hk Hr]. cbn [fst] in Hk.
  destruct (Hgo rest [(k, e)] (k, lastUsed e) Hr) as [[e' [Hin He]] Hf].
  - exists e. cbn. auto.
  - constructor; [cbn; lia|constructor].
  - exists e'. change (oldest ((k, e) :: rest)) with (foldl (fun acc e => if String.eqb acc.1 EmptyString || (lastUsed e.2 <? acc.2) then (e.1, lastUsed e.2) else acc) (k, lastUsed e) rest).
    cbn [app] in Hin, Hf. split; [exact Hin|]. split; [exact He|exact Hf].
Qed.

(** The keys of a table are never empty. *)
Definition named m : Prop := m !! EmptyString = None.
Lemma evict_spec order m : order ≡ₚ map_to_list m -> named m -> m <> ∅ ->
  exists ip e, m !! ip = Some e /\ evictOldestLocked order m = delete ip m /\ map_Forall (fun _ e' => lastUsed e <= lastUsed e') m.
Proof.
  intros Hp Hn Hne. assert (Hk : Forall (fun e : string * ipEntry => e.1 <> EmptyString) order).
  { apply Forall_forall. intros [k e] He. cbn. intros ->. rewrite Hp in He. apply elem_of_map_to_list in He. unfold named in Hn. congruence. }
  assert (Hne' : order <> []) by (intros ->; apply Permutation_nil in Hp; apply map_to_list_empty_iff in Hp; done).
  destruct (oldest_spec order Hne' Hk) as (e & Hin' & He & Hf). exists (oldest order).1, e.
  assert (Hm : forall k e, In (k, e) order <-> m !! k = Some e).
  { intros k e'. rewrite <- list_elem_of_In, Hp. apply elem_of_map_to_list. }
  split; [now apply Hm|]. split.
  - unfold evictOldestLocked. destruct (String.eqb_spec (oldest order).1 EmptyString) as [E|]; [|done].
    rewrite E in Hin'. apply Hm in Hin'. unfold named in Hn. congruence.
  - intros k e' Hk'. apply Hm in Hk'. rewrite Forall_forall in Hf. rewrite He. apply (Hf (k, e')). now apply list_elem_of_In.
Qed.

(** ** The table *)

Definition limiter_ok m : Prop := Z.of_nat (size m) <= maxTrackedIPs /\ named m.
Lemma limiter_call_ok c m : limiter_ok m -> call_key c <> EmptyString -> call_order c ≡ₚ map_to_list m ->
  limiter_ok (limiter_call c m).2.
Proof.
  intros [Hs Hn] Hk Hp. rewrite limiter_call_eq. cbn [snd].
  assert (Hnamed : forall m' e, named m' -> named (<[call_key c := e]> m')) by (intros m' e Hm; unfold named; now rewrite lookup_insert_ne).
  destruct (m !! call_key c) as [e|] eqn:E.
  - split; [|now apply Hnamed]. now rewrite map_size_insert_Some by (rewrite E; eauto).
  - unfold make_room. destruct (Z.leb_spec maxTrackedIPs (Z.of_nat (size m))) as [Hfull|Hroom].
    + destruct (evict_spec (call_order c) m Hp Hn) as (ip & e & Hip & -> & _).
      { intros ->. rewrite map_size_empty in Hfull. unfold maxTrackedIPs in Hfull. lia. }
      assert (Hd : size (delete ip m) = pred (size m)) by (rewrite map_size_delete, Hip; lia).
      assert (Hpos : size m <> 0%nat) by (apply map_size_ne_0_lookup; eauto).
      split; [|apply Hnamed; unfold named in *; destruct (decide (ip = EmptyString)) as [->|]; [apply lookup_delete_eq|now rewrite lookup_delete_ne]].
      rewrite map_size_insert_None; [lia|]. apply lookup_delete_None. now right.
    + split; [|now apply Hnamed]. rewrite map_size_insert_None by exact E. lia.
Qed.
(** Each range visits the entries of the table at hand. *)
Fixpoint orders_ok (l : list LimiterCall) m : Prop :=
  match l with
  | [] => True
  | c :: l => call_order c ≡ₚ map_to_list m /\ orders_ok l (limiter_call c m).2
  end.
Lemma limiter_calls_ok l : forall m, limiter_ok m -> Forall (fun c => call_key c <> EmptyString) l -> orders_ok l m ->
  limiter_ok (limiter_calls l m).2.
Proof.
  induction l as [|c l IH]; intros m Hm Hk Ho; [exact Hm|]. apply Forall_cons in Hk as [Hc Hk]. destruct Ho as [Hp Ho].
  cbn [limiter_calls]. pose proof (limiter_call_ok c m Hm Hc Hp) as Hm'. destruct (limiter_call c m) as [b m'] eqn:E. cbn [snd] in *.
  specialize (IH m' Hm' Hk Ho). now destruct (limiter_calls l m').
Qed.

(** ** Independence *)

(** A limiter of one's own, and what it answers. *)
Fixpoint private (st : option Limiter) (l : list LimiterCall) : list bool :=
  match l with
  | [] => []
  | c :: l =>
      let '(b, lim) := Allow (call_now' c) (default (NewSlidingWindow (call_limit c) defaultIPRateWindow) st) in
      b :: private (Some lim) l
  end.
(** The answers to the calls of one key. *)
Definition answers (k : string) (l : list LimiterCall) (bs : list bool) : list bool :=
  map snd (filter (fun x => call_key x.1 = k) (zip l bs)).

Lemma limiter_calls_private l : forall m k,
  Z.of_nat (size (dom m ∪ list_to_set (map call_key l) : gset string)) <= maxTrackedIPs ->
  answers k l (limiter_calls l m).1 = private (limiter <$> m !! k) (filter (fun c => call_key c = k) l).
Proof.
  induction l as [|c l IH]; intros m k Hs; [done|]. cbn [limiter_calls map list_to_set] in *.
  assert (Hroom : match m !! call_key c with Some _ => m | None => make_room (call_order c) m end = m).
  { destruct (m !! call_key c) eqn:E; [done|]. unfold make_room. destruct (Z.leb_spec maxTrackedIPs (Z.of_nat (size m))) as [Hf|]; [|done].
    exfalso. assert (Hsub : {[call_key c]} ∪ dom m ⊆ (dom m ∪ ({[call_key c]} ∪ list_to_set (map call_key l)) : gset string)) by set_solver.
    apply subseteq_size in Hsub. rewrite size_union, size_singleton, size_dom in Hsub by (apply disjoint_singleton_l; now apply not_elem_of_dom). lia. }
  pose proof (limiter_call_eq c m) as E. cbv zeta in E. rewrite Hroom in E. rewrite E. clear E.
  set (lim := match m !! call_key c with Some e => limiter e | None => _ end). set (m' := <[call_key c := _]> m).
  specialize (IH m' k). destruct (limiter_calls l m') as [bs m'']. cbn [fst] in *. unfold answers in *. cbn [zip]. rewrite !filter_cons. cbn [fst].
  assert (Hs' : Z.of_nat (size (dom m' ∪ list_to_set (map call_key l) : gset string)) <= maxTrackedIPs).
  { etransitivity; [|exact Hs]. apply inj_le, subseteq_size. unfold m'. rewrite dom_insert. set_solver. }
  destruct (decide (call_key c = k)) as [<-|Hne]; cbn [map snd].
  - rewrite IH by exact Hs'. cbn [private]. unfold m'. rewrite lookup_insert_eq. cbn [fmap option_fmap option_map limiter].
    assert (El : default (NewSlidingWindow (call_limit c) defaultIPRateWindow) (limiter <$> m !! call_key c) = lim) by (unfold lim; now destruct (m !! call_key c)).
    cbn [fmap option_fmap option_map] in El. rewrite El. now destruct (Allow (call_now' c) lim).
  - rewrite IH by exact Hs'. unfold m'. now rewrite lookup_insert_ne by done.
Qed.
End LimiterFacts.

(** flowguard's sliding window, as documented: of the calls made in order of
    time, at most [limit] within any [window] are allowed. *)
Fixpoint window_run {L} (Allow : Z -> L -> bool * L) (ts : list Z) (l : L) : list bool :=
  match ts with [] => [] | t :: ts => let '(b, l) := Allow t l in b :: window_run Allow ts l end.
Definition allowed_within (t window : Z) (ts : list Z) (bs : list bool) : Z :=
  len (filter (fun x => t - window < x.1 <= t /\ x.2 = true) (zip ts bs)).
Class SlidingWindow {L} (New : Z -> Z -> L) (Allow : Z -> L -> bool * L) : Prop :=
  window_capped : forall limit window ts t, 0 <= limit -> StronglySorted Z.le ts ->
    allowed_within t window ts (window_run Allow ts (New limit window)) <= limit.

Lemma private_window {L} (New : Z -> Z -> L) (Allow : Z -> L -> bool * L) calls : forall l,
  private New Allow (Some l) calls = window_run Allow (map call_now' calls) l.
Proof.
  induction calls as [|c calls IH]; intros l; [done|]. cbn [private map window_run from_option]. unfold id. destruct (Allow (call_now' c) l) as [b l']. now rewrite IH.
Qed.

(** ** Properties of the rate limiter *)

(** An address of the proxy list: trimmed, one entry, and not an IPv4 address
    in IPv6 clothing. *)
Definition bare_address (part : string) : Prop :=
  trim_space part = part /\ contains part "/" = false /\ index_byte part ","%char = None /\
  exists ip w, ParseAddr part = Some (ip, w) /\ (w = 32 \/ To4 ip = None).

Lemma split_join_parts c parts : Forall (fun p => index_byte p c = None) parts -> parts <> [] ->
  split_byte c (str_join (String c EmptyString) parts) = parts.
Proof.
  intros Hp Hne. induction Hp as [|p [|q parts] Hp _ IH]; [done|now apply split_byte_none|].
  change (str_join (String c EmptyString) (p :: q :: parts)) with (p +:+ String c (str_join (String c EmptyString) (q :: parts))).
  rewrite split_byte_app, IH; [done|done|]. clear -Hp. induction p as [|d p IH]; cbn in *; [tauto|].
  destruct (Ascii.eqb_spec c d) as [->|Hne]; [discriminate|]. destruct (index_byte p c); [discriminate|]. intros [->|Hin]; [done|]. now apply IH.
Qed.

(** C31.  Which address a request is limited by: with a proxy list of plain
    addresses a peer is trusted exactly when it is one of them, compared as
    addresses; the headers of any other peer are never looked at. *)
Theorem clientIPFor_trust parts r : parts <> [] -> Forall bare_address parts ->
  let proxies := loadTrustedProxies (str_join "," parts) in
  let peer := remoteIP r in
  (peerTrusted proxies peer = true <-> exists part ip, In part parts /\ ParseIP part = Some ip /\ ParseIP peer = Some ip) /\
  (peerTrusted proxies peer = false -> forall headers, clientIPFor proxies (mkHttp (RemoteAddr r) headers) = peer) /\
  (peerTrusted proxies peer = true -> Header r "X-Forwarded-For" = EmptyString -> Header r "X-Real-IP" = EmptyString ->
     clientIPFor proxies r = peer).
Proof.
  intros Hne Hb proxies peer. assert (Hparts : proxies = omap proxy_part parts).
  { unfold proxies, loadTrustedProxies. rewrite split_join_parts; [|eapply Forall_impl; [exact Hb|]; now intros p (_ & _ & H & _)|exact Hne].
    destruct (String.eqb_spec (str_join "," parts) EmptyString) as [E|_]; [|done].
    destruct parts as [|p [|q parts]]; [done| |].
    - cbn in E. subst p. apply Forall_cons in Hb as [(_ & _ & _ & ip & w & Ha & _) _]. discriminate.
    - change (str_join "," (p :: q :: parts)) with (p +:+ String "," (str_join "," (q :: parts))) in E. now destruct p. }
  split; [|split].
  - unfold peerTrusted. destruct (ParseIP peer) as [ip'|] eqn:Ep; [|split; [discriminate|intros (? & ? & _ & _ & [=])]].
    apply ParseIP_range in Ep. rewrite existsb_exists. rewrite Hparts. split.
    + intros (n & Hn & Hc). apply list_elem_of_In, list_elem_of_omap in Hn as (part & Hin & Hpart). rewrite Forall_forall in Hb.
      destruct (Hb part Hin) as (Ht & Hs & _ & ip & w & Ha & Hw). destruct (proxy_part_bare part ip w Ht Hs Ha Hw) as (n' & En & Hn').
      rewrite Hpart in En. injection En as <-. apply Hn' in Hc; [|exact Ep]. subst ip'. exists part, ip.
      split; [now apply list_elem_of_In|]. unfold ParseIP. now rewrite Ha.
    + intros (part & ip & Hin & Hip & [= ->]). apply list_elem_of_In in Hin. rewrite Forall_forall in Hb.
      destruct (Hb part Hin) as (Ht & Hs & _ & ip2 & w & Ha & Hw). unfold ParseIP in Hip. rewrite Ha in Hip. injection Hip as ->.
      destruct (proxy_part_bare part ip w Ht Hs Ha Hw) as (n & En & Hn). exists n. split; [|now apply Hn].
      apply list_elem_of_In, list_elem_of_omap. now exists part.
  - intros E headers. unfold clientIPFor. change (remoteIP (mkHttp (RemoteAddr r) headers)) with peer. now rewrite E.
  - intros E H1 H2. unfold clientIPFor. fold peer. now rewrite E, H1, H2.
Qed.

(** The limits of the two kinds of endpoints, and the calls of one client to
    the endpoints of one kind with their answers. *)
Definition kind_limit (compare : bool) : Z := if compare then 10 else 60.
Definition of_client {L} (ip : string) (compare : bool) (c : LimiterCall (Limiter := L)) : Prop := call_ip c = ip /\ call_compare c = compare.
#[export] Instance of_client_dec {L} ip compare (c : LimiterCall (Limiter := L)) : Decision (of_client ip compare c).
Proof. unfold of_client. apply _. Defined.
Definition client_answers {L} ip compare (l : list (LimiterCall (Limiter := L))) (bs : list bool) : list bool :=
  map snd (filter (fun x => of_client ip compare x.1) (zip l bs)).
Definition plain_client {L} (c : LimiterCall (Limiter := L)) : Prop := forall p, call_ip c <> p +:+ ":compare".
Lemma suffix_inj s a b : a +:+ s = b +:+ s -> a = b.
Proof.
  revert b. induction a as [|c a IH]; intros [|d b] E; [done| | |].
  - apply (f_equal String.length) in E. change (String d b +:+ s) with (String d (b +:+ s)) in E. cbn [String.length] in E. rewrite !str_length_app in E. cbn in E. lia.
  - apply (f_equal String.length) in E. change (String c a +:+ s) with (String c (a +:+ s)) in E. cbn [String.length] in E. rewrite !str_length_app in E. cbn in E. lia.
  - change (String c (a +:+ s) = String d (b +:+ s)) in E. injection E as -> E. f_equal. now apply IH.
Qed.
(** Plain addresses share no limiter, nor do the two kinds. *)
Lemma call_key_client {L} (c c' : LimiterCall (Limiter := L)) : plain_client c -> plain_client c' ->
  call_key c = call_key c' <-> of_client (call_ip c') (call_compare c') c.
Proof.
  intros H H'. unfold of_client, call_key. split; [|now intros [-> ->]].
  destruct (call_compare c), (call_compare c'); intros E; [split; [now apply suffix_inj in E|done]| | |now split].
  - now destruct (H' (call_ip c)).
  - now destruct (H (call_ip c')).
Qed.
Lemma filter_client {L A} (f : A -> LimiterCall (Limiter := L)) (c : LimiterCall (Limiter := L)) (l : list A) : plain_client c -> Forall (fun x => plain_client (f x)) l ->
  filter (fun x => call_key (f x) = call_key c) l = filter (fun x => of_client (call_ip c) (call_compare c) (f x)) l.
Proof.
  intros Hc Hl. induction Hl as [|x l Hx _ IH]; [done|]. pose proof (call_key_client (f x) c Hx Hc) as E.
  rewrite !filter_cons, IH. destruct (decide (call_key (f x) = call_key c)) as [H|H].
  - now rewrite decide_True by (now apply E).
  - now rewrite decide_False by (now rewrite <- E).
Qed.
Lemma private_client {L} (New : Z -> Z -> L) (Allow : Z -> L -> bool * L) ip compare l : Forall (of_client ip compare) l ->
  private New Allow None l = window_run Allow (map call_now' l) (New (kind_limit compare) minute).
Proof.
  intros Hl. destruct l as [|c l]; [done|]. apply Forall_cons in Hl as [[_ Hc] _].
  rewrite <- (private_window New). cbn [private default]. unfold call_limit. rewrite Hc. now destruct compare.
Qed.

Lemma client_none_calls {L} ip compare (l : list (LimiterCall (Limiter := L))) : Forall (fun c => ~ of_client ip compare c) l ->
  filter (of_client ip compare) l = [].
Proof. induction 1 as [|c l Hc _ IH]; [done|]. now rewrite filter_cons, decide_False. Qed.
Lemma client_none {L} ip compare (l : list (LimiterCall (Limiter := L))) bs : Forall (fun c => ~ of_client ip compare c) l ->
  client_answers ip compare l bs = [].
Proof.
  intros Hl. revert bs. induction Hl as [|c l Hc _ IH]; intros [|b bs]; [done..|]. unfold client_answers. cbn [zip].
  rewrite filter_cons, decide_False by exact Hc. apply IH.
Qed.

(** C32.  The limits: as long as there are no more limiters than the table
    holds and no client's address ends in [:compare], every client is answered
    as by two limiters of its own, one for each kind of endpoint, whatever the
    others do; so, its calls of one kind being in order of time, in any minute
    at most 60 of those to the ordinary endpoints are let through, and at most
    10 of those to the tighter ones. *)
Theorem rate_limits {L} (New : Z -> Z -> L) (Allow : Z -> L -> bool * L) `{!SlidingWindow New Allow} l ip compare t :
  Z.of_nat (size (list_to_set (map call_key l) : gset string)) <= maxTrackedIPs -> Forall plain_client l ->
  let mine := map call_now' (filter (of_client ip compare) l) in
  let bs := client_answers ip compare l (limiter_calls New Allow l ∅).1 in
  bs = window_run Allow mine (New (kind_limit compare) minute) /\
  (StronglySorted Z.le mine -> allowed_within t minute mine bs <= if compare then 10 else 60).
Proof.
  intros Hs Hplain mine bs. assert (Hbs : bs = window_run Allow mine (New (kind_limit compare) minute)).
  { unfold mine, bs. rewrite <- (private_client New Allow ip compare) by (apply Forall_forall; intros c Hc; now apply list_elem_of_filter in Hc as [Hc _]).
    destruct (decide (Exists (of_client ip compare) l)) as [Hc|Hc].
    - apply List.Exists_exists in Hc as (c & Hin & <- & <-). apply list_elem_of_In in Hin.
      assert (Hpc : plain_client c) by (now apply (proj1 (Forall_forall _ _) Hplain)).
      assert (Ef : filter (fun x => call_key x = call_key c) l = filter (of_client (call_ip c) (call_compare c)) l)
        by exact (filter_client (fun x => x) c l Hpc Hplain).
      rewrite <- Ef.
      transitivity (answers (call_key c) l (limiter_calls New Allow l ∅).1).
      + unfold client_answers, answers. f_equal. symmetry. apply (filter_client fst c); [exact Hpc|]. apply Forall_forall. intros [c' b] Hx.
        apply elem_of_zip_l in Hx. now apply (proj1 (Forall_forall _ _) Hplain).
      + rewrite limiter_calls_private; [now rewrite lookup_empty|]. rewrite dom_empty_L, union_empty_l_L. exact Hs.
    - apply not_Exists_Forall in Hc; [|apply _]. rewrite client_none by exact Hc. apply (client_none_calls ip compare) in Hc. now rewrite Hc. }
  split; [exact Hbs|]. rewrite Hbs. intros Hsorted. apply window_capped; [|exact Hsorted]. now destruct compare.
Qed.

(** The table stays bounded: with client addresses that are not empty it
    never holds more than 10000 limiters, however many clients call; a new
    client in a full table costs the entry that was used least recently. *)
Theorem limiter_table_bounded {L} (New : Z -> Z -> L) (Allow : Z -> L -> bool * L) l :
  Forall (fun c => call_key c <> EmptyString) l -> orders_ok New Allow l ∅ ->
  let m := (limiter_calls New Allow l ∅).2 in
  Z.of_nat (size m) <= maxTrackedIPs /\
  forall c, call_order c ≡ₚ map_to_list m -> m !! call_key c = None -> Z.of_nat (size m) = maxTrackedIPs ->
    exists ip e e', m !! ip = Some e /\ map_Forall (fun _ e' => lastUsed e <= lastUsed e') m /\
      (limiter_call New Allow c m).2 = <[call_key c := e']> (delete ip m).
Proof.
  intros Hk Ho m. assert (Hok : limiter_ok m).
  { apply limiter_calls_ok; [|exact Hk|exact Ho]. split; [now rewrite map_size_empty|apply lookup_empty]. }
  split; [apply Hok|]. intros c Hp Hnew Hfull. destruct (evict_spec (call_order c) m Hp (proj2 Hok)) as (ip & e & Hip & Ee & Hmin).
  { intros E. rewrite E, map_size_empty in Hfull. discriminate. }
  exists ip, e. eexists. split; [exact Hip|]. split; [exact Hmin|]. rewrite limiter_call_eq. rewrite Hnew. cbn [snd].
  unfold make_room. rewrite Hfull, Z.leb_refl, Ee. reflexivity.
Qed.

(** ** A sliding window that logs the calls it let through *)

Module SampleWindow.
Record Log := mkLog { limit : Z; window : Z; granted : list Z }.
Definition New (limit window : Z) : Log := mkLog limit window [].
Definition Allow (t : Z) (l : Log) : bool * Log :=
  let recent := filter (fun x => t - window l < x) (granted l) in
  if len recent <? limit l then (true, mkLog (limit l) (window l) (t :: recent)) else (false, mkLog (limit l) (window l) recent).

Definition within (t w : Z) (log : list Z) : Z := len (filter (fun x => t - w < x <= t) log).
Lemma within_recent u t w log : u <= t -> within t w (filter (fun x => u - w < x) log) = within t w log.
Proof.
  intros Hu. unfold within. f_equal. induction log as [|x log IH]; [done|]. rewrite !filter_cons.
  destruct (decide (u - w < x)); rewrite ?filter_cons; destruct (decide (t - w < x <= t)); try lia; now rewrite IH.
Qed.
Lemma len_filter_le {A} (P : A -> Prop) `{forall x, Decision (P x)} l : len (filter P l) <= len l.
Proof. unfold len. pose proof (length_filter P l). lia. Qed.
Lemma run_capped lim w t ts : forall log, len log <= lim -> StronglySorted Z.le ts ->
  within t w log + allowed_within t w ts (window_run Allow ts (mkLog lim w log)) <= lim.
Proof.
  induction ts as [|u ts IH]; intros log Hl Hs.
  - cbn. pose proof (len_filter_le (fun x => t - w < x <= t) log). unfold within. change (allowed_within t w [] []) with 0. lia.
  - apply StronglySorted_inv in Hs as [Hs Hu]. cbn [window_run]. unfold Allow at 1. cbn [limit window granted].
    set (recent := filter (fun x => u - w < x) log). pose proof (len_filter_le (fun x => u - w < x) log) as Hrec. fold recent in Hrec.
    destruct (Z.leb_spec u t) as [Hut|Hut].
    + pose proof (within_recent u t w log Hut) as Hw. fold recent in Hw. destruct (Z.ltb_spec (len recent) lim) as [Hlt|Hge].
      * specialize (IH (u :: recent) ltac:(rewrite len_cons; lia) Hs). unfold allowed_within in *. cbn [zip]. rewrite filter_cons. cbn [fst snd].
        unfold within in IH, Hw |- *. rewrite filter_cons in IH. destruct (decide (t - w < u <= t)) as [Hin|Hout].
        -- rewrite decide_True by auto. rewrite !len_cons in *. lia.
        -- rewrite decide_False by tauto. lia.
      * specialize (IH recent ltac:(lia) Hs). unfold allowed_within in *. cbn [zip]. rewrite filter_cons. cbn [fst snd].
        rewrite decide_False by (intros [_ ?]; discriminate). lia.
    + assert (Hnone : forall bs, allowed_within t w (u :: ts) bs = 0).
      { intros bs. unfold allowed_within. assert (E : filter (fun x : Z * bool => t - w < x.1 <= t /\ x.2 = true) (zip (u :: ts) bs) = []); [|now rewrite E].
        destruct (filter _ (zip (u :: ts) bs)) as [|[x b] l] eqn:E; [done|exfalso].
        assert (Hx : (x, b) ∈ filter (fun x : Z * bool => t - w < x.1 <= t /\ x.2 = true) (zip (u :: ts) bs)) by (rewrite E; left).
        apply list_elem_of_filter in Hx as [[[_ Hx] _] Hin]. apply elem_of_zip_l in Hin. cbn [fst] in Hx.
        apply elem_of_cons in Hin as [->|Hin]; [lia|]. rewrite Forall_forall in Hu. specialize (Hu x Hin). lia. }
      rewrite Hnone. pose proof (len_filter_le (fun x => t - w < x <= t) log). unfold within. lia.
Qed.
#[export] Instance sliding : SlidingWindow New Allow.
Proof.
  intros lim w ts t Hlim Hs. pose proof (run_capped lim w t ts [] Hlim Hs) as H. change (within t w []) with 0 in H. exact H.
Qed.
End SampleWindow.
Export (hints) SampleWindow.

(** A blank key is no candidate: visited last it is the oldest entry, and
    nothing is evicted. *)
Example blank_key_blocks_eviction :
  let old := mkEntry tt 1 in let recent := mkEntry tt 2 in
  evictOldestLocked [("a", recent); ("", old)]%string {[ "" := old; "a" := recent ]}%string = {[ "" := old; "a" := recent ]}%string.
Proof. vm_compute. reflexivity. Qed.
(** The two tables of one client share a map: an address that ends in
    [:compare] is the other client's tighter limiter. *)
Example compare_key_clash : call_key (mkCall (Limiter := unit) "10.0.0.1:compare" false 0 0 []) = call_key (mkCall (Limiter := unit) "10.0.0.1" true 0 0 []).
Proof. reflexivity. Qed.

Definition request_from (addr : string) : HttpRequest := mkHttp addr (fun _ => EmptyString).
Lemma clientIPFor_trust_witness :
  peerTrusted (loadTrustedProxies (str_join "," ["10.0.0.1"; "::1"]%string)) (remoteIP (request_from "[::1]:4000")) = true.
Proof.
  apply (clientIPFor_trust ["10.0.0.1"; "::1"]%string (request_from "[::1]:4000")).
  - discriminate.
  - apply Forall_cons; split; [|apply Forall_cons; split; [|apply Forall_nil_2]].
    + do 3 (split; [vm_compute; reflexivity|]). exists (of4 (10 * 2 ^ 24 + 1)), 32. split; [vm_compute; reflexivity|now left].
    + do 3 (split; [vm_compute; reflexivity|]). exists 1, 128. split; [vm_compute; reflexivity|right; vm_compute; reflexivity].
  - exists "::1"%string, 1. split; [cbn; auto|]. vm_compute. auto.
Defined.

(** Three calls of two clients, the first client's last one on the tighter
    endpoints. *)
Definition three_calls : list (LimiterCall (Limiter := SampleWindow.Log)) :=
  [mkCall "a" false 0 0 []; mkCall "b" false 1 1 []; mkCall "a" true 2 2 []]%string.
Lemma rate_limits_witness :
  client_answers "a" false three_calls (limiter_calls SampleWindow.New SampleWindow.Allow three_calls ∅).1 = [true] /\
  allowed_within 2 minute [0] [true] <= 60.
Proof.
  destruct (rate_limits SampleWindow.New SampleWindow.Allow three_calls "a" false 2) as [H1 H2].
  - vm_compute. discriminate.
  - repeat constructor; intros [|d p] H; try discriminate; destruct p; discriminate.
  - split; [exact H1|]. apply H2. vm_compute. repeat constructor.
Defined.
Lemma limiter_table_bounded_witness :
  Z.of_nat (size (limiter_calls SampleWindow.New SampleWindow.Allow [mkCall "a" false 0 0 []]%string ∅).2) <= 10000.
Proof.
  apply (limiter_table_bounded SampleWindow.New SampleWindow.Allow [mkCall "a" false 0 0 []]%string).
  - repeat constructor. discriminate.
  - split; [|exact I]. rewrite map_to_list_empty. reflexivity.
Defined.
