(* ===== verification/Webhook.v ===== *)
(** * The webhook dispatcher (telemetry/webhook.go, and its callers in agent/agent.go)

    [Fire] posts an event to the configured URL from a goroutine of its own;
    a semaphore of [maxInFlightWebhookFires] slots bounds the goroutines, and a
    fire that finds it full is dropped, with a warning at most once a second.
    The dispatcher's state is the URL, the slots in use and the time of the
    last warning; a fire and the end of a post are steps of it, in any
    interleaving.  (Two fires that drop at once race for one compare-and-swap;
    as steps, the second one sees the first one's time.)  The post itself is
    I/O: [Post] carries its URL and body.  The RFC 3339 text of a time depends
    on the process's time zone and is the parameter [time_json]. *)
From S2P Require Import Prelude Float64 GoStrings Strconv Json Breaker.
From S2P Require Orchestrator.
From Stdlib Require Import ZArith Lia String Sorted.
From stdpp Require Import base tactics list strings.
#[local] Open Scope Z_scope.

Record WebhookEvent := mkEvent {
  Event : string; Model : string; PrevState : string; NewState : string; ev_Reason : string; AvgQuality : f64; Timestamp : Z;
}.
Definition maxInFlightWebhookFires : Z := 32.
Record WebhookDispatcher := mkDispatcher { url : string; in_flight : Z; lastDropLogNano : Z }.
Definition NewWebhookDispatcher : WebhookDispatcher := mkDispatcher EmptyString 0 0.
Definition SetURL (u : string) (d : WebhookDispatcher) : WebhookDispatcher := mkDispatcher u (in_flight d) (lastDropLogNano d).
Definition ClearURL (d : WebhookDispatcher) : WebhookDispatcher := mkDispatcher EmptyString (in_flight d) (lastDropLogNano d).
Definition URL (d : WebhookDispatcher) : string := url d.

(** What a fire does: nothing, drop the event (with a warning or without), or
    start the goroutine. *)
Inductive FireResult := Ignored | Dropped (warned : bool) | Started (url : string).
Definition Fire (now : Z) (d : WebhookDispatcher) : FireResult * WebhookDispatcher :=
  if String.eqb (url d) EmptyString then (Ignored, d)
  else if in_flight d <? maxInFlightWebhookFires then
    (Started (url d), mkDispatcher (url d) (in_flight d + 1) (lastDropLogNano d))
  else if second <? wrap64 (now - lastDropLogNano d) then (Dropped true, mkDispatcher (url d) (in_flight d) now)
  else (Dropped false, d).
(** The goroutine's end gives its slot back. *)
Definition finish_post (d : WebhookDispatcher) : WebhookDispatcher := mkDispatcher (url d) (in_flight d - 1) (lastDropLogNano d).

Section Body.
Context (time_json : Z -> string).

(** The body the goroutine posts; [None]: it does not marshal, nothing is sent. *)
Definition webhook_body (e : WebhookEvent) : option string :=
  marshal (JObj ([("event", JStr (Event e)); ("model", JStr (Model e)); ("prev_state", JStr (PrevState e)); ("new_state", JStr (NewState e))]%string ++
    (if String.eqb (ev_Reason e) EmptyString then [] else [("reason"%string, JStr (ev_Reason e))]) ++
    [("avg_quality", JNum (AvgQuality e)); ("timestamp", JStr (time_json (Timestamp e)))]%string)).
End Body.

(** The callback [newAgent] installs in a semantic breaker. *)
Definition transition_event (model : string) (now : Z) (c : StateChange) : WebhookEvent :=
  mkEvent ("semantic_cb_" +:+ Orchestrator.sb_string (sc_next c)) model (Orchestrator.sb_string (sc_prev c))
    (Orchestrator.sb_string (sc_next c)) (sc_reason c) (sc_avg c) now.

(** ** Runs *)

(** [OFinish] is the end of a running post. *)
Inductive HookOp := OFire (now : Z) | OFinish | OSetURL (u : string) | OClear.
Definition hook_op (o : HookOp) (d : WebhookDispatcher) : option (list (Z * FireResult) * WebhookDispatcher) :=
  match o with
  | OFire now => let '(r, d) := Fire now d in Some ([(now, r)], d)
  | OFinish => if 0 <? in_flight d then Some ([], finish_post d) else None
  | OSetURL u => Some ([], SetURL u d)
  | OClear => Some ([], ClearURL d)
  end.
(** The results of the fires with their times. *)
Fixpoint hook_run (l : list HookOp) (d : WebhookDispatcher) : option (list (Z * FireResult) * WebhookDispatcher) :=
  match l with
  | [] => Some ([], d)
  | o :: l => '(r, d) ← hook_op o d; '(rs, d) ← hook_run l d; Some (r ++ rs, d)
  end.
Definition fire_times (l : list HookOp) : list Z := omap (fun o => match o with OFire now => Some now | _ => None end) l.
Definition started_in (rs : list (Z * FireResult)) : Z := len (omap (fun r => match r.2 with Started u => Some u | _ => None end) rs).
Definition finished_in (l : list HookOp) : Z := len (omap (fun o => match o with OFinish => Some tt | _ => None end) l).
Definition warnings (rs : list (Z * FireResult)) : list Z :=
  omap (fun r => match r.2 with Dropped true => Some r.1 | _ => None end) rs.
(** Warnings are more than a second apart, the first one from [last]. *)
Fixpoint spaced (last : Z) (l : list Z) : Prop := match l with [] => True | t :: l => second < t - last /\ spaced t l end.

Definition hook_ok (d : WebhookDispatcher) : Prop := 0 <= in_flight d <= maxInFlightWebhookFires.

Lemma hook_op_ok o d r d' : hook_ok d -> hook_op o d = Some (r, d') -> hook_ok d' /\
  in_flight d' = in_flight d + started_in r - finished_in [o].
Proof.
  unfold hook_ok, maxInFlightWebhookFires. intros Hd E. destruct o as [now| |u|]; cbn [hook_op] in E.
  - unfold Fire, maxInFlightWebhookFires in E. destruct (String.eqb (url d) EmptyString); [injection E as <- <-; unfold started_in, finished_in; cbn [omap list_omap snd fst]; unfold len; cbn; lia|].
    destruct (Z.ltb_spec (in_flight d) 32); [injection E as <- <-; unfold started_in, finished_in; cbn [omap list_omap snd fst]; unfold len; cbn; lia|].
    destruct (second <? _); injection E as <- <-; unfold started_in, finished_in; cbn [omap list_omap snd fst]; unfold len; cbn; lia.
  - destruct (Z.ltb_spec 0 (in_flight d)); [|discriminate]. injection E as <- <-. unfold started_in, finished_in; cbn [omap list_omap snd fst]; unfold len; cbn; lia.
  - injection E as <- <-. unfold started_in, finished_in; cbn [omap list_omap snd fst]; unfold len; cbn; lia.
  - injection E as <- <-. unfold started_in, finished_in; cbn [omap list_omap snd fst]; unfold len; cbn; lia.
Qed.
Lemma started_app r rs : started_in (r ++ rs) = started_in r + started_in rs.
Proof. unfold started_in. now rewrite omap_app, len_app. Qed.
Lemma finished_cons o l : finished_in (o :: l) = finished_in [o] + finished_in l.
Proof. unfold finished_in. change (o :: l) with ([o] ++ l). now rewrite omap_app, len_app. Qed.
Lemma hook_run_ok l : forall d rs d', hook_ok d -> hook_run l d = Some (rs, d') ->
  hook_ok d' /\ in_flight d' = in_flight d + started_in rs - finished_in l.
Proof.
  induction l as [|o l IH]; intros d rs d' Hd E; cbn [hook_run] in E; [injection E as <- <-; split; [exact Hd|unfold started_in, finished_in; cbn [omap list_omap snd fst]; unfold len; cbn; lia]|].
  destruct (hook_op o d) as [[r d1]|] eqn:E1; cbn [mbind option_bind] in E; [|discriminate].
  destruct (hook_run l d1) as [[rs1 d2]|] eqn:E2; cbn [mbind option_bind] in E; [|discriminate]. injection E as <- <-.
  destruct (hook_op_ok o d r d1 Hd E1) as [Hd1 H1]. destruct (IH d1 rs1 d2 Hd1 E2) as [Hd2 H2]. split; [exact Hd2|].
  rewrite started_app, finished_cons. lia.
Qed.
Lemma warnings_spaced l : forall d rs d', hook_run l d = Some (rs, d') ->
  Forall (fun t => 0 <= t <= int64_max /\ lastDropLogNano d <= t) (fire_times l) -> StronglySorted Z.le (fire_times l) ->
  0 <= lastDropLogNano d -> spaced (lastDropLogNano d) (warnings rs).
Proof.
  induction l as [|o l IH]; intros d rs d' E Ht Hs H0; cbn [hook_run] in E; [now injection E as <- <-|].
  destruct (hook_op o d) as [[r d1]|] eqn:E1; cbn [mbind option_bind] in E; [|discriminate].
  destruct (hook_run l d1) as [[rs1 d2]|] eqn:E2; cbn [mbind option_bind] in E; [|discriminate]. injection E as <- <-.
  destruct o as [now| |u|]; cbn [hook_op] in E1.
  - cbn [fire_times omap list_omap] in Ht, Hs. fold (fire_times l) in Ht, Hs.
    apply Forall_cons in Ht as [[Hnow Hlast] Ht]. apply StronglySorted_inv in Hs as [Hs Hmin].
    assert (Hsame : lastDropLogNano d1 = lastDropLogNano d -> warnings r = [] -> spaced (lastDropLogNano d) (warnings (r ++ rs1))).
    { intros El Ew. unfold warnings in *. rewrite omap_app, Ew. cbn [app]. rewrite <- El. apply (IH d1 rs1 d2 E2); [now rewrite El|exact Hs|lia]. }
    unfold Fire in E1. destruct (String.eqb (url d) EmptyString); [injection E1 as <- <-; now apply Hsame|].
    destruct (in_flight d <? maxInFlightWebhookFires); [injection E1 as <- <-; now apply Hsame|].
    destruct (Z.ltb_spec second (wrap64 (now - lastDropLogNano d))) as [Hw|Hw]; injection E1 as <- <-; [|now apply Hsame].
    rewrite wrap64_id in Hw by (unfold int64_min, int64_max in *; lia). cbn [app warnings omap list_omap spaced snd fst].
    split; [lia|]. apply (IH _ rs1 d2 E2); cbn [lastDropLogNano]; [|exact Hs|lia].
    rewrite Forall_forall in *. intros t Hin. split; [apply Ht; exact Hin|]. apply Hmin. exact Hin.
  - destruct (0 <? in_flight d); [|discriminate]. injection E1 as <- <-. cbn [app]. now apply (IH _ rs1 d2 E2).
  - injection E1 as <- <-. cbn [app]. now apply (IH _ rs1 d2 E2).
  - injection E1 as <- <-. cbn [app]. now apply (IH _ rs1 d2 E2).
Qed.
Lemma hook_run_app l1 l2 : forall d, hook_run (l1 ++ l2) d = ('(r1, d) ← hook_run l1 d; '(r2, d) ← hook_run l2 d; Some (r1 ++ r2, d)).
Proof.
  induction l1 as [|o l1 IH]; intros d; cbn [app hook_run mbind option_bind]; [now destruct (hook_run l2 d) as [[]|]|].
  destruct (hook_op o d) as [[r d1]|]; cbn [mbind option_bind]; [|done]. rewrite IH.
  destruct (hook_run l1 d1) as [[r1 d2]|]; cbn [mbind option_bind]; [|done]. destruct (hook_run l2 d2) as [[r2 d3]|]; cbn; [|done].
  now rewrite app_assoc.
Qed.

(** The dispatcher is bounded and honest: in any interleaving of fires,
    ends of posts and changes of the URL at most 32 posts run at once, exactly
    those started and not ended; the next event is ignored without a URL,
    dropped exactly when all 32 slots are taken, and posted to the current URL
    otherwise; and the warnings about drops are more than a second apart. *)
Theorem webhook_bounded l rs d : hook_run l NewWebhookDispatcher = Some (rs, d) ->
  0 <= in_flight d <= 32 /\ in_flight d = started_in rs - finished_in l /\
  (forall now, (Fire now d).1 =
     if String.eqb (url d) EmptyString then Ignored
     else if decide (in_flight d = 32) then Dropped (second <? wrap64 (now - lastDropLogNano d)) else Started (url d)) /\
  (Forall (fun t => 0 <= t <= int64_max) (fire_times l) -> StronglySorted Z.le (fire_times l) -> spaced 0 (warnings rs)).
Proof.
  intros E. destruct (hook_run_ok l NewWebhookDispatcher rs d) as [Hok Hn]; [split; vm_compute; discriminate|exact E|].
  unfold hook_ok, maxInFlightWebhookFires in Hok. cbn [in_flight NewWebhookDispatcher] in Hn. split; [exact Hok|]. split; [lia|]. split.
  - intros now. unfold Fire, maxInFlightWebhookFires. destruct (String.eqb (url d) EmptyString); [done|].
    destruct (Z.ltb_spec (in_flight d) 32); case_decide; try lia; [done|]. now destruct (second <? _).
  - intros Ht Hs. apply (warnings_spaced l NewWebhookDispatcher rs d E); [|exact Hs|cbn; lia].
    eapply Forall_impl; [exact Ht|]. intros t Hti. cbn in Hti. split; [exact Hti|]. apply Hti.
Qed.

(** A burst of 34 fires: 32 posts, one warned drop, one silent one. *)
Definition burst : list HookOp := OSetURL "https://hooks.example.com"%string :: replicate 34 (OFire (10 * second)).
Example burst_results : option_map (fun x => drop 31 (map snd x.1)) (hook_run burst NewWebhookDispatcher)
  = Some [Started "https://hooks.example.com"; Dropped true; Dropped false]%string.
Proof. vm_compute. reflexivity. Qed.
Lemma webhook_bounded_witness : exists rs d, hook_run burst NewWebhookDispatcher = Some (rs, d) /\ 0 <= in_flight d <= 32.
Proof.
  destruct (hook_run burst NewWebhookDispatcher) as [[rs d]|] eqn:E; [|vm_compute in E; discriminate].
  exists rs, d. split; [reflexivity|]. apply (webhook_bounded burst rs d E).
Defined.
