(* ===== verification/Demo.v ===== *)
(** * The demo (agent/agent.go [Compare], agent/chaos.go)

    [Compare] sends one prompt through the whole agent and, next to it,
    straight to the primary provider, and scores both texts with a fresh
    evaluator.  The two calls are goroutines: [raw_first] says which one runs
    first (a request runs without another one in between, as in Agent.v).
    [RunChaos] is the scripted outage: the list of its steps (an event, a
    pause, a request, a switch), which a goroutine takes one by one; between
    two of them the callback of an auto-restore timer may run, which puts a
    switch off that was killed five minutes before (Chaos.v), and in the whole
    service (Service.v) anything else.  A step reads the agent as the switches
    of that moment make it ([agent_at]); [idle] is how the world moves while
    the script sleeps, until the time is over or the context ends; [takes]
    says of an event whether the channel took it or, its context having ended,
    the [select] dropped it.  The deadline of a request is not modelled. *)
From S2P Require Import Prelude Float64 GoStrings Evaluator Strconv Provider Chaos Telemetry Memory Orchestrator Guarded Agent.
From S2P Require SemanticCache.
From Stdlib Require Import ZArith Lia String.
From stdpp Require Import base tactics list gmap strings.
#[local] Open Scope Z_scope.

(** ** The agent's switches *)

Section Switches.
Context {W : Type} (a : Agent W).
Notation P := (Prog (AState W)).

Definition with_chaos {S} (c : Chaos) (s : OState S) : OState S :=
  mkOState (world s) (breakers s) (eval s) (Orchestrator.sc s) (tel s) c (trace s) (started s).
Definition update_chaos (f : Chaos -> Chaos) : P unit := update_st (fun s => with_os (with_chaos (f (chaos (os s))) (os s)) s).
(** A kill reads the clock for its timer. *)
Definition kill (f : Z -> Chaos -> Chaos) : P unit := t ← now_ a; update_chaos (f t).

Definition Agent_KillPrimary : P unit := kill KillPrimary.
Definition Agent_RestorePrimary : P unit := update_chaos RestorePrimary.
Definition Agent_KillFallback : P unit := kill KillFallback.
Definition Agent_RestoreFallback : P unit := update_chaos RestoreFallback.
Definition EnableDegradeMode : P unit := kill EnableDegrade.
Definition DisableDegradeMode : P unit := update_chaos DisableDegrade.
End Switches.

Definition tier_text (t : option Tier) : string :=
  match t with
  | Some TierPrimary => "primary" | Some TierFallback => "fallback" | Some TierCache => "cache" | Some TierDegraded => "degraded"
  | None => EmptyString
  end.

(** ** Compare *)

Record CompareResult := mkCompare {
  cmp_Text : string; cmp_Tier : string; cmp_LatencyMS : Z; cmp_QualityScore : f64; cmp_Cached : bool; cmp_TraceID : string; cmp_Error : string;
}.
Record ComparePair := mkPair { pair_Prompt : string; Shielded : CompareResult; Raw : CompareResult; DurationMS : Z }.

Section Compare.
Context {W : Type} `{Unicode} (a : Agent W) (embed : option Embedder).
Notation P := (Prog (AState W)).

(** The two goroutines: the result and the time it took. *)
Definition shielded_call (prompt : string) : P (AgentResponse * option GoError * Z) :=
  t ← now_ a; '(resp, err) ← Ask a prompt; t' ← now_ a; mret (resp, err, time_sub t' t).
Definition raw_generate (prompt : string) : P (GoError + string) := fun s =>
  let '(r, w) := generate (orch a) (primaryModel (orch a)) prompt (world (os s)) in Some (r, putw w s).
Definition raw_call (prompt : string) : P ((GoError + string) * Z) :=
  t ← now_ a; r ← raw_generate prompt; t' ← now_ a; mret (r, time_sub t' t).
Definition both_calls (raw_first : bool) (prompt : string) : P ((AgentResponse * option GoError * Z) * ((GoError + string) * Z)) :=
  if raw_first then r ← raw_call prompt; s ← shielded_call prompt; mret (s, r)
  else s ← shielded_call prompt; r ← raw_call prompt; mret (s, r).

(** The score of an answer; an empty one is not evaluated. *)
Definition score_text (e : QualityEvaluator) (prompt text : string) : option (f64 * QualityEvaluator) :=
  if String.eqb text EmptyString then Some (f0, e) else '(qr, e) ← Evaluate e prompt text; Some (res_Score qr, e).

Definition Compare (raw_first : bool) (prompt : string) : P ComparePair :=
  start ← now_ a;
  '((resp, err, dur), (raw, raw_dur)) ← both_calls raw_first prompt;
  '(q, e) ← query_st (fun _ => match err with Some _ => Some (f0, NewEvaluator embed) | None => score_text (NewEvaluator embed) prompt (ans_Text resp) end);
  '(rq, _) ← query_st (fun _ => match raw with inl _ => Some (f0, e) | inr text => score_text e prompt text end);
  t ← now_ a;
  mret (mkPair prompt
    (mkCompare (ans_Text resp) (tier_text (ans_Tier resp)) (milliseconds dur) q (ans_Cached resp) (ans_TraceID resp)
       (match err with Some _ => "shielded call failed" | None => EmptyString end))
    (mkCompare (match raw with inl _ => EmptyString | inr text => text end) EmptyString (milliseconds raw_dur) rq false EmptyString
       (match raw with inl _ => "raw call failed" | inr _ => EmptyString end))
    (milliseconds (time_sub t start))).
End Compare.

(** ** The scripted outage *)

Record ChaosEvent := mkChaosEvent { ev_Type : string; ev_Message : string; ev_Tier : string; ev_Latency : Z; ev_Timestamp : Z }.
Definition chaosPrompts : list string :=
  ["What is the circuit breaker pattern?"; "Calculate 2^10 + 42"; "What is the circuit breaker pattern?"; "What time is it in UTC?"]%string.
Definition tierEmoji (t : option Tier) : string :=
  match t with
  | Some TierPrimary => "🧠" | Some TierFallback => "⚡" | Some TierCache => "💾" | Some TierDegraded => "🔕" | None => EmptyString
  end.

(** ** The steps of the script *)

Inductive ScriptStep :=
| Emits (type msg : string)
| Sleeps (ms : Z)
| Sends (prompt : string)
| Kills (primary : bool)
| Restores (primary : bool).
Definition Log (msg : string) : ScriptStep := Emits "log" msg.
Definition send_all (l : list string) : list ScriptStep := concat (map (fun p => [Sends p; Sleeps 300]) l).

Definition phase1 : list ScriptStep :=
  [Log "🎬 Phase 1 — Baseline: all systems nominal"; Sleeps 500] ++ send_all (take 2 chaosPrompts).
Definition phase2 : list ScriptStep :=
  [Sleeps 800; Log "💀 Phase 2 — Killing primary model (llama3.2)..."; Emits "action" "kill_primary"; Kills true; Sleeps 500;
   Log "📡 Sending requests — circuit breaker should route to fallback"] ++ send_all (take 2 chaosPrompts).
Definition phase3 : list ScriptStep :=
  [Sleeps 800; Log "💀 Phase 3 — Killing fallback model (llama3.2:1b)..."; Emits "action" "kill_fallback"; Kills false; Sleeps 500;
   Log "📡 Both models down — sending cached and uncached prompts";
   Sends (nth 2 chaosPrompts EmptyString); Sleeps 300; Sends (nth 3 chaosPrompts EmptyString)].
Definition phase4 : list ScriptStep :=
  [Sleeps 800; Log "✅ Phase 4 — Restoring primary model..."; Emits "action" "restore_primary"; Restores true; Sleeps 500;
   Log "📡 Primary back — verifying auto-recovery"] ++ send_all (take 2 chaosPrompts).
Definition phase5 : list ScriptStep :=
  [Sleeps 500; Emits "action" "restore_fallback"; Restores false; Log "✅ Phase 5 — All systems restored. Chaos demo complete.";
   Emits "done" "Scenario finished"].
Definition RunChaos : list ScriptStep := phase1 ++ phase2 ++ phase3 ++ phase4 ++ phase5.

(** What surrounds a step: the timers' callbacks that run before it, how the
    world moves in a pause, which events the channel takes. *)
Record Turn (W : Type) := mkTurn { fired : list Switch; idle : Z -> W -> W; takes : ChaosEvent -> bool }.
Arguments mkTurn {W}.
Arguments fired {W}.
Arguments idle {W}.
Arguments takes {W}.

Section Script.
Context {W : Type} `{Unicode} (agent_at : Chaos -> Agent W).
(** The agent's state, and the events of the script so far, each with whether
    the channel took it. *)
Notation CState := (AState W * list (ChaosEvent * bool))%type.
Notation C := (Prog CState).

Definition at_agent {A} (m : Agent W -> Prog (AState W) A) : C A := fun '(s, l) =>
  '(x, s) ← m (agent_at (chaos (os s))) s; Some (x, (s, l)).

Definition response_text (resp : AgentResponse) (lat : Z) : string :=
  "← " +:+ tierEmoji (ans_Tier resp) +:+ " " +:+ tier_text (ans_Tier resp) +:+
  (if ans_Cached resp then " (cached)" else EmptyString) +:+ " (" +:+ itoa lat +:+ "ms)".

Section Step.
Context (idle : Z -> W -> W) (takes : ChaosEvent -> bool).

Definition emit (type msg tier : string) (latency : Z) : C unit :=
  t ← at_agent (fun a => now_ a);
  update_st (fun '(s, l) => let e := mkChaosEvent type msg tier latency (t / millisecond) in (s, l ++ [(e, takes e)])).
Definition sleep (ms : Z) : C unit := at_agent (fun _ => update_st (fun s => putw (idle (ms * millisecond) (world (os s))) s)).
Definition send (prompt : string) : C unit :=
  _ ← emit "prompt" ("→ " +:+ prompt) EmptyString 0;
  start ← at_agent (fun a => now_ a);
  '(resp, err) ← at_agent (fun a => Ask a prompt);
  t ← at_agent (fun a => now_ a);
  let lat := milliseconds (time_sub t start) in
  match err with
  | Some e => emit "response" ("✗ Error: " +:+ err_msg e) "degraded" lat
  | None => emit "response" (response_text resp lat) (tier_text (ans_Tier resp)) lat
  end.
Definition script_step (st : ScriptStep) : C unit :=
  match st with
  | Emits type msg => emit type msg EmptyString 0
  | Sleeps ms => sleep ms
  | Sends prompt => send prompt
  | Kills true => at_agent Agent_KillPrimary
  | Kills false => at_agent Agent_KillFallback
  | Restores true => at_agent (fun _ => Agent_RestorePrimary)
  | Restores false => at_agent (fun _ => Agent_RestoreFallback)
  end.
End Step.

Definition callback (sw : Switch) : C unit := t ← at_agent (fun a => now_ a); at_agent (fun _ => update_chaos (restore_due sw t)).
Fixpoint callbacks (l : list Switch) : C unit :=
  match l with [] => mret tt | sw :: l => _ ← callback sw; callbacks l end.
Fixpoint run_script (turns : nat -> Turn W) (i : nat) (l : list ScriptStep) : C unit :=
  match l with
  | [] => mret tt
  | st :: l => _ ← callbacks (fired (turns i)); _ ← script_step (idle (turns i)) (takes (turns i)) st; run_script turns (S i) l
  end.

(** [StartChaos]: [None] is the error that a scenario is already running; the
    goroutine runs it to the end and frees the flag. *)
Definition StartChaos (turns : nat -> Turn W) : Prog (AState W) (option (list (ChaosEvent * bool))) := fun s =>
  match TryStart (chaos (os s)) with
  | (false, _) => Some (None, s)
  | (true, c) =>
      '(_, (s, l)) ← run_script turns 0 RunChaos (with_os (with_chaos c (os s)) s, []);
      Some (Some l, with_os (with_chaos (Done (chaos (os s))) (os s)) s)
  end.
End Script.
(** The capacity of the channel, and what it was given. *)
Definition chaos_buffer : Z := 64.
Definition delivered (l : list (ChaosEvent * bool)) : list ChaosEvent := omap (fun x => if x.2 : bool then Some x.1 else None) l.

(** ** A request leaves the switches alone *)

Section AskKeeps.
Context {W : Type} `{Unicode} (a : Agent W) {Hlaws : AgentLaws a}.
Definition same_switches (s s' : AState W) : Prop := chaos (os s') = chaos (os s).
#[local] Instance same_switches_preorder : PreOrder same_switches.
Proof. split; [intros s; reflexivity|]. intros s1 s2 s3 H1 H2. unfold same_switches in *. congruence. Qed.

Lemma keeps_lift {A} (R : AState W -> AState W -> Prop) (m : Prog (OState W) A) :
  (forall s, keeps (fun o o' => R (with_os o s) (with_os o' s)) m) -> keeps R (lift_os m).
Proof.
  intros Hm s x s' E. unfold lift_os in E. destruct (m (os s)) as [[y o]|] eqn:E1; [|discriminate].
  injection E as <- <-. specialize (Hm s (os s) y o E1). now destruct s.
Qed.
Lemma keeps_now_switches : keeps same_switches (now_ a).
Proof. apply keeps_lift. intros s o x o' E. unfold now in E. destruct (clock_read _ _). now injection E as _ <-. Qed.
Lemma keeps_degrade prompt : keeps same_switches (degrade a prompt).
Proof.
  apply keeps_bind; [typeclasses eauto| |intros r; apply keeps_ret; typeclasses eauto].
  apply keeps_lift. intros s. assert (PreOrder (fun o o' : OState W => same_switches (with_os o s) (with_os o' s)))
    by (split; [intros ?; reflexivity|intros ? ? ? ? ?; unfold same_switches in *; congruence]).
  apply Degrade_keeps; easy.
Qed.
Lemma keeps_guarded (g : Guard W) `{!CallsOnce g} (zero : AgentResponse) (body : Body (AState W) AgentResponse) :
  keeps same_switches body -> keeps same_switches (guarded g zero body).
Proof.
  intros Hb s x s' E. destruct (guarded_once g zero body s) as [(e & w & E1)|(w0 & w & E1)]; rewrite E1 in E.
  - now injection E as _ <-.
  - destruct (body (putw w0 s)) as [[r s1]|] eqn:E2; [|discriminate]. injection E as _ <-. exact (Hb _ _ _ E2).
Qed.
Lemma keeps_trace prompt : keeps same_switches (new_trace a prompt).
Proof.
  unfold new_trace. apply keeps_bind; [typeclasses eauto| |].
  { intros s x s' E. unfold read_random in E. destruct (random_bytes _ _). now injection E as _ <-. }
  keeps_with ltac:(apply keeps_now_switches). unfold same_switches. case_match. reflexivity.
Qed.
Lemma ask_switches prompt batch : keeps same_switches (ask a prompt batch).
Proof.
  assert (Hf : forall resp, keeps same_switches (finish a resp)).
  { intros resp. unfold finish, sync_trace. keeps_with ltac:(apply keeps_now_switches); easy. }
  assert (Hr : forall text, keeps same_switches (refuse text prompt ≫= finish a)).
  { intros text. apply keeps_bind; [typeclasses eauto| |exact Hf]. unfold refuse.
    keeps_with ltac:(apply keeps_lift; intros; apply keeps_update; easy). }
  unfold ask. apply keeps_bind; [typeclasses eauto|now apply keeps_update|]. intros _.
  apply keeps_bind; [typeclasses eauto|apply keeps_trace|]. intros _. apply keeps_bind; [typeclasses eauto| |].
  { assert (CallsOnce (if batch then batchBH a else interactiveBH a)) by (destruct batch; typeclasses eauto).
    unfold guarded_degrade. do 2 (apply keeps_guarded; [typeclasses eauto|]). intros s x s' E. unfold ask_body in E.
    destruct (degrade a prompt s) as [[r s1]|] eqn:E1; [|discriminate]. injection E as _ <-. exact (keeps_degrade _ _ _ _ E1). }
  intros [[e|] resp]; [|apply Hf]. destruct (is_ErrShed a e); [apply Hr|]. destruct (is_ErrFull a e); [apply Hr|].
  unfold sync_trace. keeps_steps. easy.
Qed.
(** What a request does, with the switches. *)
Lemma ask_runs_switches prompt batch s : orch_ok (os s) ->
  runs (ask a prompt batch) s (fun x s' => ask_post a prompt s x s' /\ chaos (os s') = chaos (os s)).
Proof. intros Hok. destruct (ask_runs a prompt batch s Hok) as (x & s' & E & Hx). exists x, s'. split; [exact E|]. split; [exact Hx|]. exact (ask_switches _ _ _ _ _ E). Qed.

(** The tier of an answer is one whose switch is off. *)
Definition tier_allowed (k : bool * bool) (tier : string) : Prop :=
  tier = "primary"%string /\ k.1 = false \/ tier = "fallback"%string /\ k.2 = false \/ tier = "cache"%string \/ tier = "degraded"%string.
Definition switches (s : AState W) : bool * bool := (IsPrimaryKilled (chaos (os s)), IsFallbackKilled (chaos (os s))).
Lemma tier_run_alive prim prompt c u u' st text : tier_run (orch a) prim prompt c u u' st (Some text) -> killed prim c = false.
Proof. inversion 1; assumption. Qed.
Lemma ask_tier prompt s x s' : ask_post a prompt s x s' -> x.2 = None -> tier_allowed (switches s) (tier_text (ans_Tier x.1)).
Proof.
  intros (_ & _ & _ & _ & Hx) Ex. rewrite Ex in Hx. destruct Hx as (steps & Hr & _). unfold tier_allowed, switches. cbn [fst snd].
  destruct Hr as [steps r tier Hc Et|r _ Et _ _]; rewrite Et; [|cbn; auto].
  inversion Hc; subst; cbn [tier_text]; auto;
    match goal with H : tier_run _ _ _ _ _ _ _ (Some _) |- _ => apply tier_run_alive in H; cbn [killed] in H; auto end.
Qed.
End AskKeeps.

(** ** The scenario *)

(** What the script announces, step by step: where the switches are put, the
    requests, the events' types, and where the switches are at each request. *)
Record Announced := mkAnnounced { an_switches : bool * bool; an_requests : Z; an_types : list string; an_asked_at : list (bool * bool) }.
Definition set_switch (primary on : bool) (k : bool * bool) : bool * bool := if primary then (on, k.2) else (k.1, on).
Definition announce (p : Announced) (st : ScriptStep) : Announced :=
  match st with
  | Emits type _ => mkAnnounced (an_switches p) (an_requests p) (an_types p ++ [type]) (an_asked_at p)
  | Sleeps _ => p
  | Sends _ => mkAnnounced (an_switches p) (an_requests p + 1) (an_types p ++ ["prompt"; "response"]%string) (an_asked_at p ++ [an_switches p])
  | Kills prim => mkAnnounced (set_switch prim true (an_switches p)) (an_requests p) (an_types p) (an_asked_at p)
  | Restores prim => mkAnnounced (set_switch prim false (an_switches p)) (an_requests p) (an_types p) (an_asked_at p)
  end.
(** The event types of the script. *)
Definition script_phase : list string := ["log"; "action"; "log"; "prompt"; "response"; "prompt"; "response"]%string.
Definition script : list string :=
  ["log"; "prompt"; "response"; "prompt"; "response"]%string ++ script_phase ++ script_phase ++ script_phase ++ ["action"; "log"; "done"]%string.
Definition asked_at (k : bool * bool) : list (bool * bool) := [k; k; (true, k.2); (true, k.2); (true, true); (true, true); (false, true); (false, true)].
Lemma RunChaos_announces k : foldl announce (mkAnnounced k 0 [] []) RunChaos = mkAnnounced (false, false) 8 script (asked_at k).
Proof. reflexivity. Qed.

Section Scenario.
Context {W : Type} `{Unicode} (agent_at : Chaos -> Agent W) {Hlaws : forall c, AgentLaws (agent_at c)}.
Notation CState := (AState W * list (ChaosEvent * bool))%type.

Definition responses (l : list ChaosEvent) : list ChaosEvent := filter (fun e => ev_Type e = "response"%string) l.
Lemma wrap64_add m n : wrap64 (wrap64 m + n) = wrap64 (m + n).
Proof.
  unfold wrap64. replace ((m + 2 ^ 63) mod 2 ^ 64 - 2 ^ 63 + n + 2 ^ 63) with ((m + 2 ^ 63) mod 2 ^ 64 + n) by lia.
  rewrite Zplus_mod_idemp_l. do 2 f_equal. lia.
Qed.

(** No switch is on that the script has not put on; an auto-restore alone
    takes one off that the script has not. *)
Definition at_most (k k' : bool * bool) : Prop := (k.1 = true -> k'.1 = true) /\ (k.2 = true -> k'.2 = true).

(** [undisturbed sw]: no callback of that switch's timer runs. [live]: no event
    is dropped. [run]: the scenario's flag.  [ks]: where the switches were at
    each request. *)
Context (start : Z) (undisturbed : Switch -> Prop) (live : Prop) (run : bool).
Definition follows (k k' : bool * bool) : Prop :=
  at_most k k' /\ (undisturbed PrimarySwitch -> k.1 = k'.1) /\ (undisturbed FallbackSwitch -> k.2 = k'.2).
Lemma follows_refl k : follows k k.
Proof. repeat split; auto. Qed.
Definition progress (p : Announced) (ks : list (bool * bool)) (x : CState) : Prop :=
  agent_ok x.1 /\ IsRunning (chaos (os x.1)) = run /\ follows (switches x.1) (an_switches p) /\ totalRequests x.1 = wrap64 (start + an_requests p) /\
  map ev_Type (map fst x.2) = an_types p /\ (live -> Forall (fun e => e.2 = true) x.2) /\
  Forall2 follows ks (an_asked_at p) /\ Forall2 tier_allowed ks (map ev_Tier (responses (map fst x.2))).

Lemma progress_start s : start = totalRequests s -> run = IsRunning (chaos (os s)) -> agent_ok s -> progress (mkAnnounced (switches s) 0 [] []) [] (s, []).
Proof.
  intros Et Er Hok. split; [exact Hok|]. split; [now symmetry|]. split; [apply follows_refl|]. split; [cbn; rewrite Z.add_0_r, Et, wrap64_id; [done|exact (proj2 (proj2 Hok))]|].
  split; [done|]. split; [constructor|]. split; constructor.
Qed.
Lemma at_agent_runs {A} (m : Agent W -> Prog (AState W) A) s l (Q : A -> CState -> Prop) :
  runs (m (agent_at (chaos (os s)))) s (fun x s' => Q x (s', l)) -> runs (at_agent agent_at m) (s, l) Q.
Proof. intros (x & s' & E & HQ). exists x, (s', l). unfold at_agent. rewrite E. auto. Qed.
Lemma progress_world p ks s l w : progress p ks (s, l) -> progress p ks (putw w s, l).
Proof. intros ([Ho Hh] & Hrest). split; [split; [revert Ho; now apply orch_ok_parts|exact Hh]|exact Hrest]. Qed.
Lemma now_progress p ks x (Q : Z -> CState -> Prop) :
  progress p ks x -> (forall t w, progress p ks (putw w x.1, x.2) -> Q t (putw w x.1, x.2)) -> runs (at_agent agent_at (fun a => now_ a)) x Q.
Proof. destruct x as [s l]. intros Hp HQ. apply at_agent_runs, now_runs_. intros t w. apply HQ. now apply progress_world. Qed.

(** One event. *)
Lemma emit_progress takes type msg tier lat k n tys ann ks x : (live -> forall e, takes e = true) ->
  progress (mkAnnounced k n tys ann) ks x -> (type = "response"%string -> tier_allowed (switches x.1) tier) ->
  runs (emit agent_at takes type msg tier lat) x (fun _ x' => switches x'.1 = switches x.1 /\
    let answers := String.eqb type "response" in
    progress (mkAnnounced k n (tys ++ [type]) (if answers then ann ++ [k] else ann)) (if answers then ks ++ [switches x.1] else ks) x').
Proof.
  intros Htakes Hp Hk. unfold emit. apply runs_bind, (now_progress _ _ _ _ Hp). intros t w (Hok & Hr & Hs & Ht & Hty & Hlive & Hks & Hf).
  apply runs_update. split; [reflexivity|]. cbv zeta. split; [exact Hok|]. split; [exact Hr|]. split; [exact Hs|]. split; [exact Ht|]. cbn [fst snd an_types an_asked_at] in *.
  split; [now rewrite !map_app, Hty|]. split; [intros Hl; apply Forall_app; split; [now apply Hlive|constructor; [now apply Htakes|constructor]]|].
  unfold responses in *. rewrite map_app, filter_app. cbn [map fst]. rewrite filter_cons. cbn [ev_Type].
  destruct (String.eqb_spec type "response") as [Et|Hne]; case_decide; try easy.
  - split; [apply Forall2_app; [exact Hks|constructor; [exact Hs|constructor]]|].
    rewrite map_app. apply Forall2_app; [exact Hf|]. constructor; [|constructor]. now apply Hk.
  - now rewrite app_nil_r.
Qed.
Lemma switch_progress f prim on p ks s l : progress p ks (s, l) ->
  (forall c, (IsPrimaryKilled (f c), IsFallbackKilled (f c)) = set_switch prim on (IsPrimaryKilled c, IsFallbackKilled c) /\ IsRunning (f c) = IsRunning c) ->
  runs (at_agent agent_at (fun _ => update_chaos f)) (s, l) (fun _ =>
    progress (mkAnnounced (set_switch prim on (an_switches p)) (an_requests p) (an_types p) (an_asked_at p)) ks).
Proof.
  intros (Hok & Hr & [[H1 H2] [Hu1 Hu2]] & Hrest) Hf. apply at_agent_runs, runs_update. split; [exact Hok|]. destruct (Hf (chaos (os s))) as [Hsw Hrun].
  split; [cbn in *; congruence|]. split; [|exact Hrest].
  unfold switches in *. cbn [fst snd an_switches chaos with_chaos with_os os] in *. rewrite Hsw. unfold set_switch. split.
  - destruct prim; split; cbn [fst snd]; auto.
  - destruct prim; split; cbn [fst snd]; auto.
Qed.
Lemma kill_progress f prim p ks s l : progress p ks (s, l) ->
  (forall t c, (IsPrimaryKilled (f t c), IsFallbackKilled (f t c)) = set_switch prim true (IsPrimaryKilled c, IsFallbackKilled c) /\ IsRunning (f t c) = IsRunning c) ->
  runs (at_agent agent_at (fun a => kill a f)) (s, l) (fun _ =>
    progress (mkAnnounced (set_switch prim true (an_switches p)) (an_requests p) (an_types p) (an_asked_at p)) ks).
Proof.
  intros Hp Hf. apply at_agent_runs. unfold kill. apply runs_bind, now_runs_. intros t w.
  destruct (switch_progress (f t) prim true p ks (putw w s) l (progress_world _ _ _ _ w Hp) (Hf t)) as (u & [s' l'] & E & Hp').
  unfold at_agent in E. destruct (update_chaos (f t) (putw w s)) as [[y s1]|] eqn:E1; [|discriminate]. injection E as <- <- <-.
  exists y, s1. auto.
Qed.
Lemma slot_kill_flag t sl : flag (slot_kill t sl) = true.
Proof. unfold slot_kill, scheduleAutoRestore. cbn [slot store]. now destruct (slot sl). Qed.
Lemma slot_fire_flag t sl : flag (slot_fire t sl) = true -> flag sl = true.
Proof. unfold slot_fire, fire, callback_check. repeat (case_match; simplify_eq; cbn in *); auto; discriminate. Qed.

Lemma send_progress takes prompt p ks x : (live -> forall e, takes e = true) -> progress p ks x ->
  runs (send agent_at takes prompt) x (fun _ => progress (announce p (Sends prompt)) (ks ++ [switches x.1])).
Proof.
  intros Htakes Hp. destruct p as [k n tys ann]. unfold send. apply runs_bind.
  eapply runs_mono; [apply (emit_progress takes _ _ _ _ _ _ _ _ _ _ Htakes Hp); discriminate|].
  intros ? x1 [E1 Hp1]. apply runs_bind, (now_progress _ _ _ _ Hp1). intros t w Hp2.
  apply runs_bind, at_agent_runs. destruct Hp2 as (Hok & Hr & Hs & Ht & Hty & Hlive & Hks & Hf). cbn [fst snd an_requests an_types an_asked_at an_switches] in *.
  eapply runs_mono; [apply (ask_runs_switches (agent_at _)), Hok|].
  intros [resp err] s3 [Hpost Hc]. pose proof (ask_post_ok (agent_at _) _ _ _ _ Hpost Hok) as Hok3. assert (Htier := ask_tier (agent_at _) _ _ _ _ Hpost).
  destruct Hpost as (_ & _ & _ & Ht3 & _). cbn [fst snd] in Htier.
  assert (Esw : switches s3 = switches x.1) by (rewrite <- E1; unfold switches; now rewrite Hc).
  change (switches (putw w x1.1)) with (switches x1.1) in *. rewrite E1 in Hs, Htier.
  assert (Hp3 : progress (mkAnnounced k (n + 1) (tys ++ ["prompt"%string]) ann) ks (s3, x1.2)).
  { split; [exact Hok3|]. split; [cbn; now rewrite Hc|]. split; [change (follows (switches s3) k); now rewrite Esw|]. split; [cbn; rewrite Ht3, Ht, wrap64_add; f_equal; lia|]. auto. }
  apply runs_bind, (now_progress _ _ _ _ Hp3). intros t' w' Hp4. cbn [announce an_switches an_requests an_types an_asked_at fst snd] in *.
  replace (tys ++ ["prompt"; "response"]%string) with ((tys ++ ["prompt"%string]) ++ ["response"%string]) by now rewrite <- app_assoc.
  assert (Hemit : forall msg tier lat, tier_allowed (switches x.1) tier ->
    runs (emit agent_at takes "response" msg tier lat) (putw w' s3, x1.2) (fun _ =>
      progress (mkAnnounced k (n + 1) ((tys ++ ["prompt"%string]) ++ ["response"%string]) (ann ++ [k])) (ks ++ [switches x.1]))).
  { intros msg tier lat Hk. eapply runs_mono.
    - apply (emit_progress takes "response" _ _ _ _ _ _ _ _ _ Htakes Hp4). intros _. change (tier_allowed (switches s3) tier). now rewrite Esw.
    - intros ? x' [_ Hx']. change (switches (putw w' s3, x1.2).1) with (switches s3) in Hx'. rewrite Esw in Hx'. exact Hx'. }
  destruct err as [e|]; apply Hemit; [unfold tier_allowed; auto|now apply Htier].
Qed.
Definition plain_step (st : ScriptStep) : bool := match st with Emits type _ => negb (String.eqb type "response") | _ => true end.
Ltac flip_switch :=
  intros; unfold IsPrimaryKilled, IsFallbackKilled, KillPrimary, KillFallback, RestorePrimary, RestoreFallback, set_switch; cbn; rewrite ?slot_kill_flag; split; reflexivity.
(** The switches, if the step is a request. *)
Definition at_request (st : ScriptStep) (x : CState) : list (bool * bool) := match st with Sends _ => [switches x.1] | _ => [] end.
Lemma step_progress idle takes st p ks x : (live -> forall e, takes e = true) -> plain_step st = true -> progress p ks x ->
  runs (script_step agent_at idle takes st) x (fun _ => progress (announce p st) (ks ++ at_request st x)).
Proof.
  intros Htakes Hst Hp. destruct st as [type msg|ms|prompt|[|]|[|]]; cbn [script_step at_request]; rewrite ?app_nil_r.
  - destruct p as [k n tys ann]. cbn in Hst. apply negb_true_iff in Hst.
    eapply runs_mono; [apply (emit_progress takes type msg EmptyString 0 _ _ _ _ _ _ Htakes Hp)|].
    + intros ->. discriminate.
    + intros ? x' [_ Hx']. cbv zeta in Hx'. now rewrite Hst in Hx'.
  - destruct x as [s l]. apply at_agent_runs, runs_update. now apply progress_world.
  - now apply send_progress.
  - destruct x as [s l]. apply (kill_progress KillPrimary true); [exact Hp|flip_switch].
  - destruct x as [s l]. apply (kill_progress KillFallback false); [exact Hp|flip_switch].
  - destruct x as [s l]. apply (switch_progress RestorePrimary true false); [exact Hp|flip_switch].
  - destruct x as [s l]. apply (switch_progress RestoreFallback false false); [exact Hp|flip_switch].
Qed.
(** A callback takes its own switch off. *)
Lemma callback_progress sw p ks x : ~ undisturbed sw -> progress p ks x ->
  runs (callback agent_at sw) x (fun _ => progress p ks).
Proof.
  intros Hsw Hp. unfold callback. apply runs_bind, (now_progress _ _ _ _ Hp). intros t w (Hok & Hr & [[H1 H2] [Hu1 Hu2]] & Hrest).
  apply at_agent_runs, runs_update. split; [exact Hok|]. split; [rewrite <- Hr; now destruct sw|]. split; [|exact Hrest].
  unfold switches, IsPrimaryKilled, IsFallbackKilled in *. cbn [fst snd chaos with_chaos with_os os] in *. split.
  - destruct sw; cbn [restore_due prim fall]; split; intros E; cbn [fst snd] in *; try apply slot_fire_flag in E; auto.
  - destruct sw; cbn [restore_due prim fall fst snd]; split; auto; contradiction.
Qed.
Lemma callbacks_progress l p ks : Forall (fun sw => ~ undisturbed sw) l -> forall x, progress p ks x ->
  runs (callbacks agent_at l) x (fun _ => progress p ks).
Proof.
  induction 1 as [|sw l Hsw _ IH]; intros x Hp; cbn [callbacks]; [now apply runs_ret|]. apply runs_bind.
  eapply runs_mono; [exact (callback_progress sw p ks x Hsw Hp)|]. intros ? x1 Hp1. now apply IH.
Qed.
(** Where the switches are when each request of the script is sent. *)
Fixpoint request_switches (turns : nat -> Turn W) (i : nat) (l : list ScriptStep) (x : CState) : list (bool * bool) :=
  match l with
  | [] => []
  | st :: l =>
      match callbacks agent_at (fired (turns i)) x with
      | None => []
      | Some (_, x) => at_request st x ++
          match script_step agent_at (idle (turns i)) (takes (turns i)) st x with
          | None => []
          | Some (_, x) => request_switches turns (S i) l x
          end
      end
  end.
Lemma script_progress turns l : (live -> forall i e, takes (turns i) e = true) ->
  (forall i : nat, Forall (fun sw => ~ undisturbed sw) (fired (turns i))) ->
  Forall (fun st => plain_step st = true) l -> forall i p ks x, progress p ks x ->
  runs (run_script agent_at turns i l) x (fun _ => progress (foldl announce p l) (ks ++ request_switches turns i l x)).
Proof.
  intros Htakes Hfired. induction 1 as [|st l Hst _ IH]; intros i p ks x Hp; cbn [run_script foldl request_switches];
    [apply runs_ret; now rewrite app_nil_r|].
  destruct (callbacks_progress _ p ks (Hfired i) x Hp) as (u & x1 & E1 & Hp1). apply runs_bind. exists u, x1. split; [exact E1|]. rewrite E1.
  destruct (step_progress (idle (turns i)) (takes (turns i)) st p ks x1 (fun Hl => Htakes Hl i) Hst Hp1) as (u' & x2 & E2 & Hp2).
  apply runs_bind. exists u', x2. split; [exact E2|]. rewrite E2. eapply runs_mono; [exact (IH (S i) _ _ x2 Hp2)|]. intros ? x3. now rewrite <- app_assoc.
Qed.
End Scenario.
Lemma RunChaos_plain : Forall (fun st => plain_step st = true) RunChaos.
Proof. repeat constructor. Qed.
Lemma delivered_all l : Forall (fun e => e.2 = true) l -> delivered l = map fst l.
Proof. induction 1 as [|[e b] l Hb _ IH]; [done|]. cbn in *. subst b. unfold delivered in *. cbn. now f_equal. Qed.

(** The state a scenario begins in. *)
Definition scenario_start {W} (s : AState W) : AState W := with_os (with_chaos (TryStart (chaos (os s))).2 (os s)) s.

(** C34.  The chaos scenario does what it announces: [StartChaos] refuses,
    changing nothing, while one runs; otherwise, from any well-formed state,
    with no other request in between but whichever auto-restore timers fire
    between its steps and whichever events an ended context drops, the scenario
    runs to its last event without a panic.  Its events are the script's, no
    more than the channel holds, and all are delivered when none is dropped.
    Eight requests are counted, and each is answered by a tier whose switch was
    off when it was sent.  No switch is ever on then that the script announces
    off, and a switch whose timer does not fire on the way (one armed by an
    earlier kill can) is exactly as announced: so if neither fires, in phase 2
    no answer is the primary's, in phase 3 none is either model's, in phase 4
    none is the fallback's.  At the end both switches are off and another
    scenario may start. *)
Theorem StartChaos_spec {W} `{Unicode} (agent_at : Chaos -> Agent W) {Hlaws : forall c, AgentLaws (agent_at c)} turns s :
  agent_ok s ->
  if IsRunning (chaos (os s)) then StartChaos agent_at turns s = Some (None, s)
  else exists l s', StartChaos agent_at turns s = Some (Some l, s') /\ agent_ok s' /\
    switches s' = (false, false) /\ IsRunning (chaos (os s')) = false /\
    totalRequests s' = wrap64 (totalRequests s + 8) /\
    map ev_Type (map fst l) = script /\ len l <= chaos_buffer /\
    ((forall i e, takes (turns i) e = true) -> delivered l = map fst l) /\
    let sent_at := request_switches agent_at turns 0 RunChaos (scenario_start s, []) in
    Forall2 tier_allowed sent_at (map ev_Tier (responses (map fst l))) /\
    let k := switches s in
    let announced := [k; k; (true, k.2); (true, k.2); (true, true); (true, true); (false, true); (false, true)] in
    Forall2 at_most sent_at announced /\
    ((forall i, PrimarySwitch ∉ fired (turns i)) -> map fst sent_at = map fst announced) /\
    ((forall i, FallbackSwitch ∉ fired (turns i)) -> map snd sent_at = map snd announced).
Proof.
  intros Hok. unfold StartChaos, scenario_start, TryStart, IsRunning. destruct (chaosRunning (chaos (os s))); [reflexivity|]. cbn [snd].
  set (s0 := with_os _ s). set (undisturbed := fun sw => forall i, sw ∉ fired (turns i)).
  set (live := forall i e, takes (turns i) e = true).
  assert (Hp : progress (totalRequests s) undisturbed live true (mkAnnounced (switches s) 0 [] []) [] (s0, [])).
  { apply (progress_start (totalRequests s) undisturbed live true s0); [reflexivity..|exact Hok]. }
  assert (Hfired : forall i : nat, Forall (fun sw => ~ undisturbed sw) (fired (turns i))).
  { intros i. apply Forall_forall. intros sw Hin Hn. exact (Hn i Hin). }
  destruct (script_progress agent_at (totalRequests s) undisturbed live true turns RunChaos (fun Hl => Hl) Hfired RunChaos_plain 0 _ _ _ Hp)
    as (u & [s' l] & E & Hend).
  rewrite E. clear E. rewrite RunChaos_announces in Hend. cbn [app] in Hend. set (ks := request_switches _ _ _ _ _) in *.
  destruct Hend as (Hok' & _ & [[H1 H2] _] & Ht & Hty & Hlive & Hks & Hf).
  cbn [mbind option_bind fst snd an_switches an_requests an_types an_asked_at] in *.
  exists l, (with_os (with_chaos (Done (chaos (os s'))) (os s')) s'). split; [reflexivity|]. split; [exact Hok'|].
  split. { unfold switches in *. cbn in *. destruct (IsPrimaryKilled (chaos (os s'))) eqn:E1, (IsFallbackKilled (chaos (os s'))) eqn:E2;
    unfold IsPrimaryKilled, IsFallbackKilled in *; cbn; rewrite E1, E2; try reflexivity; (now discriminate H1) || (now discriminate H2). }
  split; [reflexivity|]. split; [exact Ht|]. split; [exact Hty|].
  split. { apply (f_equal length) in Hty. rewrite !length_map in Hty. unfold len. rewrite Hty. vm_compute. discriminate. }
  split; [intros Hl; apply delivered_all, Hlive, Hl|]. cbv zeta. split; [exact Hf|]. change [_; _; _; _; _; _; _; _] with (asked_at (switches s)).
  clear -Hks. split; [eapply Forall2_impl; [exact Hks|]; now intros ? ? [? _]|].
  split; intros Hn; induction Hks as [|k k' ks ks' [_ [Hk1 Hk2]] _ IH]; [done| |done|]; cbn [map]; f_equal; auto.
Qed.

(** ** The comparison *)

Section CompareFacts.
Context {W : Type} `{Unicode} (a : Agent W) {Hlaws : AgentLaws a} (embed : option Embedder).

(** What the shielded call leaves, and the text of the raw one. *)
Definition shielded_post prompt (s : AState W) (resp : AgentResponse) (err : option GoError) (s' : AState W) : Prop :=
  ask_post a prompt s (resp, err) s' /\ chaos (os s') = chaos (os s).
Definition raw_post prompt (raw : GoError + string) : Prop :=
  match raw with inl _ => True | inr text => generated (orch a) true prompt text end.

Lemma shielded_world prompt s w w' resp err s' :
  shielded_post prompt (putw w s) resp err s' -> shielded_post prompt s resp err (putw w' s').
Proof.
  intros [(Hok & Hs & Hh & Ht & Hx) Hc]. split; [|exact Hc]. split; [revert Hok; now apply orch_ok_parts|].
  do 3 (split; [assumption|]). cbn [fst snd] in *. destruct err as [e|].
  - destruct Hx as (-> & Hp & He). split; [done|]. split; [|exact He]. exact Hp.
  - destruct Hx as (steps & Hr & Hst). exists steps. split; [|exact Hst].
    destruct Hr as [steps r tier Hr Et|r Htext Et Ec Hp]; [|now apply ask_refused].
    eapply ask_answered; [|exact Et]. revert Hr. now apply chain_run_parts.
Qed.

Lemma shielded_call_runs prompt s (Q : _ -> AState W -> Prop) : orch_ok (os s) ->
  (forall resp err d s', shielded_post prompt s resp err s' -> Q (resp, err, d) s') -> runs (shielded_call a prompt) s Q.
Proof.
  intros Hok HQ. unfold shielded_call. apply runs_bind, now_runs_. intros t w. apply runs_bind.
  eapply runs_mono; [apply (ask_runs_switches a); revert Hok; now apply orch_ok_parts|]. intros [resp err] s' Hpost.
  apply runs_bind, now_runs_. intros t' w'. apply runs_ret, HQ. eapply shielded_world. exact Hpost.
Qed.
Lemma raw_call_runs prompt s (Q : _ -> AState W -> Prop) :
  (forall raw d w, raw_post prompt raw -> Q (raw, d) (putw w s)) -> runs (raw_call a prompt) s Q.
Proof.
  intros HQ. unfold raw_call. apply runs_bind, now_runs_. intros t w. apply runs_bind. unfold runs at 1, raw_generate.
  destruct (generate (orch a) (primaryModel (orch a)) prompt (world (os (putw w s)))) as [r w1] eqn:E.
  eexists _, _. split; [reflexivity|]. apply runs_bind, now_runs_. intros t' w'. apply runs_ret.
  apply (HQ r _ w'). unfold generate in E. destruct (Generate _ _ _) as [[e|x] w2] eqn:Eg; injection E as <- <-; [exact I|].
  cbn. eexists _, _, _. split; [exact Eg|reflexivity].
Qed.
Lemma both_calls_runs raw_first prompt s (Q : _ -> AState W -> Prop) : orch_ok (os s) ->
  (forall resp err d raw d' s', shielded_post prompt s resp err s' -> raw_post prompt raw -> Q ((resp, err, d), (raw, d')) s') ->
  runs (both_calls a raw_first prompt) s Q.
Proof.
  intros Hok HQ. unfold both_calls. destruct raw_first.
  - apply runs_bind, raw_call_runs. intros raw d w Hraw. apply runs_bind, shielded_call_runs; [revert Hok; now apply orch_ok_parts|].
    intros resp err d' s' Hs. apply runs_ret, HQ; [|exact Hraw]. apply (shielded_world _ _ w (world (os s'))) in Hs. now destruct s' as [[]].
  - apply runs_bind, shielded_call_runs; [exact Hok|]. intros resp err d s' Hs. apply runs_bind, raw_call_runs.
    intros raw d' w Hraw. apply runs_ret, HQ; [|exact Hraw]. apply (shielded_world _ _ (world (os s))). now destruct s as [[]].
Qed.

(** Answers are short, the cached ones too. *)
Lemma chain_short prompt o o' steps r : chain_run (orch a) prompt o o' steps r -> SemanticCache.texts_ok (Orchestrator.sc o) -> slen (res_Text r) < max_text.
Proof.
  destruct 1; intros Hcache; cbn [res_Text]; try (eapply (tier_run_short (orch a)); eassumption);
    [eapply SemanticCache.Get_texts; eassumption|vm_compute; reflexivity].
Qed.
Lemma answer_short prompt s resp s' : shielded_post prompt s resp None s' -> orch_ok (os s) -> slen (ans_Text resp) < max_text.
Proof.
  intros [(_ & _ & _ & _ & steps & Hr & _) _] (_ & _ & [_ Hcache] & _). cbn [fst] in Hr.
  destruct Hr as [steps r tier Hr Et|r [-> | ->] _ _ _]; [exact (chain_short _ _ _ _ _ Hr Hcache)|vm_compute; reflexivity..].
Qed.
Lemma score_text_total e prompt text : eval_ok e -> slen text < max_text ->
  exists q e', score_text e prompt text = Some (q, e') /\ eval_ok e' /\ in_unit q.
Proof.
  intros He Ht. unfold score_text. destruct (String.eqb text EmptyString).
  - exists f0, e. split; [done|]. split; [exact He|]. apply in_unit_0.
  - destruct (Evaluate_chain _ prompt text He Ht) as (ls & coh & e' & -> & Hl & Hc & He' & _).
    destruct (evaluate_acc_ok prompt text ls coh Ht Hl Hc) as (F & B & _).
    eexists _, e'. split; [reflexivity|]. split; [exact He'|]. apply clip0_unit; [exact F|apply B].
Qed.

(** What the pair shows of the two results; [e] is the evaluator after the
    shielded side. *)
Definition compare_shows prompt (p : ComparePair) (resp : AgentResponse) (err : option GoError) (raw : GoError + string)
    (e e' : QualityEvaluator) : Prop :=
  let sh := Shielded p in let rw := Raw p in
  (cmp_Text sh, cmp_Tier sh, cmp_Cached sh, cmp_TraceID sh) = (ans_Text resp, tier_text (ans_Tier resp), ans_Cached resp, ans_TraceID resp) /\
  match err with
  | None => cmp_Error sh = EmptyString /\ score_text (NewEvaluator embed) prompt (ans_Text resp) = Some (cmp_QualityScore sh, e)
  | Some _ => cmp_Error sh = "shielded call failed"%string /\ cmp_QualityScore sh = f0 /\ e = NewEvaluator embed
  end /\
  match raw with
  | inr text => cmp_Error rw = EmptyString /\ cmp_Text rw = text /\ score_text e prompt text = Some (cmp_QualityScore rw, e')
  | inl _ => cmp_Error rw = "raw call failed"%string /\ cmp_Text rw = EmptyString /\ cmp_QualityScore rw = f0
  end.
End CompareFacts.


(** A comparison's run. *)
Lemma Compare_runs {W} `{Unicode} (a : Agent W) {Hlaws : AgentLaws a} embed raw_first prompt s :
  orch_ok (os s) -> (forall f, embed = Some f -> embed_valid f) ->
  runs (Compare a embed raw_first prompt) s (fun p s' => exists resp err raw e e', pair_Prompt p = prompt /\
    ask_post a prompt s (resp, err) s' /\ chaos (os s') = chaos (os s) /\ raw_post a prompt raw /\
    compare_shows embed prompt p resp err raw e e' /\ in_unit (cmp_QualityScore (Shielded p)) /\ in_unit (cmp_QualityScore (Raw p))).
Proof.
  intros Hok He.
  unfold Compare. apply runs_bind, now_runs_. intros start w. apply runs_bind, (both_calls_runs a); [revert Hok; now apply orch_ok_parts|].
  intros resp err d raw d' s1 Hs Hraw. assert (Hs' := fun w' => shielded_world a _ _ w w' _ _ _ Hs).
  assert (Hsh : exists q e, match err with Some _ => Some (f0, NewEvaluator embed) | None => score_text (NewEvaluator embed) prompt (ans_Text resp) end = Some (q, e)
    /\ eval_ok e /\ in_unit q).
  { destruct err; [|apply score_text_total; [now apply NewEvaluator_ok|exact (answer_short a _ _ _ _ (Hs' w) Hok)]].
    exists f0, (NewEvaluator embed). split; [done|]. split; [now apply NewEvaluator_ok|apply in_unit_0]. }
  destruct Hsh as (q & e & Eq & Hok_e & Hq). apply runs_bind. exists (q, e), s1. split; [unfold query_st; now rewrite Eq|].
  assert (Hrw : exists rq e', match raw with inl _ => Some (f0, e) | inr text => score_text e prompt text end = Some (rq, e') /\ in_unit rq).
  { destruct raw as [x|text]; [exists f0, e; split; [done|apply in_unit_0]|].
    destruct (score_text_total e prompt text Hok_e (generated_short (orch a) true prompt text Hraw)) as (rq & e' & E & _ & Hu). eauto. }
  destruct Hrw as (rq & e' & Erq & Hrq). apply runs_bind. exists (rq, e'), s1. split; [unfold query_st; now rewrite Erq|].
  apply runs_bind, now_runs_. intros t w'. apply runs_ret. exists resp, err, raw, e, e'. split; [done|].
  destruct (Hs' w') as [Hpost Hc]. split; [exact Hpost|]. split; [exact Hc|]. split; [exact Hraw|].
  split; [|split; [exact Hq|exact Hrq]]. split; [reflexivity|]. cbn.
  split; [destruct err; [injection Eq as <- <-|]|destruct raw; [injection Erq as <- <-|]]; auto.
Qed.

(** The comparison is sound and safe to show: from a well-formed state
    [Compare] returns, whichever call runs first.  It counts one request; the
    shielded side is that request's response (its text, tier and trace, as the
    specification of [ask] says), the raw side a text the primary generated
    for the prompt with nothing in between; both scores are what one fresh
    evaluator gives, between 0 and 1, and 0 for a call that failed; the text
    of an error never shows, only that the call failed. *)
Theorem Compare_spec {W} `{Unicode} (a : Agent W) {Hlaws : AgentLaws a} embed raw_first prompt s :
  orch_ok (os s) -> (forall f, embed = Some f -> embed_valid f) ->
  exists p s' resp err raw e e', Compare a embed raw_first prompt s = Some (p, s') /\ pair_Prompt p = prompt /\
    ask_post a prompt s (resp, err) s' /\ chaos (os s') = chaos (os s) /\ raw_post a prompt raw /\
    compare_shows embed prompt p resp err raw e e' /\
    in_unit (cmp_QualityScore (Shielded p)) /\ in_unit (cmp_QualityScore (Raw p)).
Proof.
  intros Hok He. destruct (Compare_runs a embed raw_first prompt s Hok He) as (p & s' & E & resp & err & raw & e & e' & Hp).
  now exists p, s', resp, err, raw, e, e'.
Qed.

(** ** On the sample agent *)

Definition sample_idle (ms : Z) (w : Z) : Z := w + ms.
Definition quiet_turn : Turn Z := mkTurn [] sample_idle (fun _ => true).
(** A timer armed before the scenario is due in phase 2, and the context ends
    with the fourth phase. *)
Definition rough_turn (i : nat) : Turn Z :=
  mkTurn (if decide (i = 11%nat) then [PrimarySwitch] else []) sample_idle (fun _ => bool_decide (i < 30)%nat).
Definition tiers_of (turns : nat -> Turn Z) (c : Chaos) : option (list string * list string) :=
  '(l, _) ← StartChaos (fun _ => SampleAgent.healthy) turns (SampleAgent.state c); l ← l;
  Some (map ev_Tier (responses (map fst l)), map ev_Tier (responses (delivered l))).
(** A kill five minutes before the clock of the sample agent starts. *)
Definition killed_before : Chaos := KillPrimary (- 5 * minute) (NewChaos true).
Lemma StartChaos_spec_witness : exists l s',
  StartChaos (fun _ => SampleAgent.healthy) rough_turn (SampleAgent.state killed_before) = Some (Some l, s') /\
  totalRequests s' = 8 /\ map ev_Type (map fst l) = script.
Proof.
  destruct (StartChaos_spec (fun _ => SampleAgent.healthy) rough_turn _ (SampleAgent.state_ok killed_before))
    as (l & s' & E & _ & _ & _ & Ht & Hty & _).
  exists l, s'. split; [exact E|]. split; [exact Ht|exact Hty].
Defined.
(** The answers of the scenario with a primary that answers and a fallback
    that is down: the prompts asked before come out of the cache, the new one
    is denied.  With the early timer the primary answers in phase 2, and the
    answers after the context's end are dropped. *)
Example scenario_tiers : tiers_of (fun _ => quiet_turn) (NewChaos true) =
  let l := ["primary"; "primary"; "cache"; "cache"; "cache"; "degraded"; "primary"; "primary"]%string in Some (l, l).
Proof. vm_compute. reflexivity. Qed.
Example disturbed_tiers : tiers_of rough_turn killed_before =
  Some (["degraded"; "degraded"; "primary"; "primary"; "primary"; "primary"; "primary"; "primary"]%string,
        ["degraded"; "degraded"; "primary"; "primary"; "primary"; "primary"]%string).
Proof. vm_compute. reflexivity. Qed.
Lemma Compare_spec_witness : exists p s', Compare SampleAgent.healthy None true "q" (SampleAgent.state (NewChaos true)) = Some (p, s') /\
  in_unit (cmp_QualityScore (Shielded p)).
Proof.
  destruct (Compare_spec SampleAgent.healthy None true "q" (SampleAgent.state (NewChaos true)) (Sample.state0_ok _))
    as (p & s' & resp & err & raw & e & e' & E & _ & _ & _ & _ & _ & Hq & _).
  - discriminate.
  - exists p, s'. split; [exact E|exact Hq].
Defined.
