(* ===== verification/Decode.v ===== *)
(** * Typed decoding of JSON (the [Decode] and [Unmarshal] calls of the provider)

    Package encoding/json decodes into a Go value: each member of an object
    goes to the field its key names, up to case folding, on top of what the
    field holds; [null] leaves a field alone (a slice or a pointer becomes
    nil); a literal of another type is an error, after which the rest is still
    decoded.  The callers drop the value when there was an error, so a decoder
    ([decoder T]) is a partial function of the document and the value decoded
    into.  Numbers go to fields by their literal, which the scanner of Json.v
    has turned into a float: [leaves] reads the literals of a text in order,
    and [relabel] puts them back into the value ([raw]). *)
From S2P Require Import Prelude Float64 GoStrings Utf8 Lines Strconv Json.
From Stdlib Require Import ZArith Lia String Ascii SpecFloat.
From stdpp Require Import base tactics list strings.
#[local] Open Scope Z_scope.

Inductive raw :=
| RNull | RBool (b : bool) | RNum (literal : list Z) | RStr (s : string)
| RArr (l : list raw) | RObj (m : list (string * raw)).

(** The numbers ([Some literal]) and the [null]s ([None]) of a text. *)
Fixpoint leaves (t : string) (s : scanner) : list (option (list Z)) :=
  match t with
  | EmptyString => match scan_mode s with MNum _ acc => [Some (rev acc)] | _ => [] end
  | String c t =>
      (match scan_mode s with
       | MNum n acc => match num_step n (byte_val c) with Some _ => [] | None => [Some (rev acc)] end
       | MBegin | MBeginArr => if byte_val c =? 110 then [None] else []
       | _ => []
       end) ++ match scan_step s c with Some s => leaves t s | None => [] end
  end.
Definition leaf (ts : list (option (list Z))) : raw * list (option (list Z)) :=
  match ts with Some l :: ts => (RNum l, ts) | None :: ts => (RNull, ts) | [] => (RNull, []) end.
Fixpoint relabel (v : jvalue) (ts : list (option (list Z))) : raw * list (option (list Z)) :=
  match v with
  | JNull | JNum _ => leaf ts
  | JBool b => (RBool b, ts)
  | JStr s => (RStr s, ts)
  | JArr l =>
      let '(l, ts) := (fix go l ts := match l with [] => ([], ts) | v :: l => let '(v, ts) := relabel v ts in let '(l, ts) := go l ts in (v :: l, ts) end) l ts in
      (RArr l, ts)
  | JObj m =>
      let '(m, ts) := (fix go (m : list (string * jvalue)) ts := match m with [] => ([], ts) | e :: m => let '(v, ts) := relabel e.2 ts in let '(m, ts) := go m ts in ((e.1, v) :: m, ts) end) m ts in
      (RObj m, ts)
  end.
Definition init : scanner := mkScanner MBegin [] false.
(** The document of a whole text, and the first one of a stream. *)
Definition raw_parse (t : string) : option raw := '(v, _) ← parse_json t; Some (relabel v (leaves t init)).1.
Definition raw_first (t : string) : option raw := '(v, _) ← decode_first t; Some (relabel v (leaves t init)).1.

(** ** Decoders *)

Definition decoder (T : Type) : Type := raw -> T -> option T.

Definition into_string : decoder string := fun r s => match r with RStr t => Some t | RNull => Some s | _ => None end.
Definition into_bool : decoder bool := fun r b => match r with RBool b => Some b | RNull => Some b | _ => None end.
Definition into_int : decoder Z := fun r n => match r with RNum l => Atoi (str_of l) | RNull => Some n | _ => None end.
Definition into_float : decoder f64 := fun r x =>
  match r with RNum l => let '(y, bad) := ParseFloat_literal l in if bad then None else Some y | RNull => Some x | _ => None end.
(** A struct: its fields by name. *)
Definition into_struct {T} (fields : list (string * decoder T)) : decoder T := fun r x =>
  match r with
  | RNull => Some x
  | RObj m =>
      foldl (fun acc e => x ← acc;
        match List.find (fun f => same_name e.1 f.1) fields with Some f => f.2 e.2 x | None => Some x end) (Some x) m
  | _ => None
  end.
Definition field {S T} (name : string) (get : S -> T) (set : T -> S -> S) (d : decoder T) : string * decoder S :=
  (name, fun r s => x ← d r (get s); Some (set x s)).
(** A pointer: [null] is nil, otherwise a new zero value is decoded into. *)
Definition into_pointer {T} (zero : T) (d : decoder T) : decoder (option T) := fun r p =>
  match r with RNull => Some None | _ => x ← d r (default zero p); Some (Some x) end.
(** A slice reuses its array: the elements up to its length, and behind them
    those it once had. *)
Record slice_of (T : Type) := mkSlice { backing : list T; length_of : nat }.
Arguments mkSlice {T}.
Arguments backing {T}.
Arguments length_of {T}.
Definition slice_elements {T} (s : slice_of T) : list T := take (length_of s) (backing s).
Definition nil_slice {T} : slice_of T := mkSlice [] 0.
Fixpoint into_elements {T} (zero : T) (d : decoder T) (l : list raw) (old : list T) : option (list T) :=
  match l with
  | [] => Some old
  | r :: l =>
      x ← d r (hd zero old);
      rest ← into_elements zero d l (tl old);
      Some (x :: rest)
  end.
Definition into_slice {T} (zero : T) (d : decoder T) : decoder (slice_of T) := fun r s =>
  match r with
  | RNull | RArr [] => Some nil_slice
  | RArr l => b ← into_elements zero d l (backing s); Some (mkSlice b (length l))
  | _ => None
  end.

(** ** Facts *)

(** [Decode] reads a whole text as [Unmarshal] does. *)
Lemma scan_space t : forall v bad s, scan t (mkScanner (MEnd v) [] bad) = Some s -> s = mkScanner (MEnd v) [] bad.
Proof.
  induction t as [|c t IH]; intros v bad s E; cbn [scan] in E; [congruence|].
  cbn [scan_step scan_mode] in E. unfold end_value in E. destruct (json_space (byte_val c)); cbn in E; [now apply IH|]. destruct v; discriminate.
Qed.
Lemma scan_first_whole t : forall s s' r, scan t s = Some s' -> scan_eof s' = Some r -> scan_first t s = Some r.
Proof.
  induction t as [|c t IH]; intros s s' r Es Er; cbn [scan] in Es.
  - injection Es as <-. cbn [scan_first]. unfold scan_eof in *. repeat case_match; congruence.
  - destruct (scan_step s c) as [s1|] eqn:E1; cbn [mbind option_bind] in Es; [|discriminate].
    cbn [scan_first]. rewrite E1. cbn [mbind option_bind]. pose proof (IH s1 s' r Es Er) as Hrec. rewrite Hrec.
    destruct s as [m st bad]. cbn [stack scan_mode out_of_range] in *. destruct st as [|f st]; [|reflexivity].
    destruct m; try reflexivity; unfold scan_step in E1; cbn [scan_mode] in E1.
    + destruct (num_step n (byte_val c)); [reflexivity|]. destruct (num_done n) eqn:Ed; [|discriminate].
      unfold scan_eof, end_number in *. cbn [scan_mode stack out_of_range] in *. rewrite Ed.
      destruct (ParseFloat_literal (rev acc)) as [x b]. unfold end_value in E1. cbn [stack] in E1.
      destruct (json_space (byte_val c)); [|destruct b; discriminate]. injection E1 as <-. apply scan_space in Es as ->. exact Er.
    + unfold end_value in E1. cbn [stack] in E1. destruct (json_space (byte_val c)); [|destruct v; discriminate].
      injection E1 as <-. apply scan_space in Es as ->. exact Er.
Qed.
Lemma decode_first_parse t r : parse_json t = Some r -> decode_first t = Some r.
Proof.
  unfold parse_json, decode_first. intros E. destruct (scan t _) as [s|] eqn:Es; [|discriminate]. eapply scan_first_whole; [exact Es|exact E].
Qed.
(** What was marshalled is read. *)
Lemma raw_marshal v t : marshal v = Some t -> json_text v = true -> depth v <= maxNestingDepth ->
  raw_parse t = Some (relabel v (leaves t init)).1 /\ raw_first t = Some (relabel v (leaves t init)).1.
Proof.
  intros E Hok Hd. pose proof (parse_marshal v t E Hok Hd) as Hp. unfold raw_parse, raw_first. rewrite Hp, (decode_first_parse _ _ Hp). auto.
Qed.

Definition sample_doc : string := "{" +:+ quote +:+ "a" +:+ quote +:+ ":[1, null,2.5e3,1e999]," +:+ quote +:+ "b" +:+ quote +:+ ":null} 7".
Example raw_doc : raw_first sample_doc
  = Some (RObj [("a", RArr [RNum [49]; RNull; RNum [50; 46; 53; 101; 51]; RNum [49; 101; 57; 57; 57]]); ("b", RNull)]%string).
Proof. vm_compute. reflexivity. Qed.
