(* ===== verification/Backends.v ===== *)
(** * The LLM backends (provider/ollama.go, provider/openai.go)

    The two implementations of [LLMProvider]: an HTTP exchange per call, JSON
    both ways.  [http_do] is net/http with the client's timeout: what the
    exchange ends in, a [Reply] being a status with the body as far as it was
    read and the error that ended the reading.  [decode_error] is the text of
    encoding/json's errors and [ctx] what the i-th look at the call's context
    finds ([None]: not done); a context that ends the exchange itself is an
    error of [http_do].  Tracing is not modelled. *)
From S2P Require Import Prelude Float64 GoStrings Utf8 Lines Strconv Json Decode Provider.
From S2P Require Config.
From Stdlib Require Import ZArith Reals Lia String Ascii.
From stdpp Require Import base tactics list strings.
#[local] Open Scope Z_scope.

Record ApiCall := mkCall { call_Method : string; call_URL : string; call_Headers : list (string * string); call_Body : option string }.
Inductive Exchange :=
| BadRequest (e : GoError)
| CallFailed (e : GoError)
| Reply (status : Z) (body : string) (read_err : option string).

Definition plain_error (msg : string) : GoError := mkError msg false None.
(** [fmt.Errorf(prefix + ": %w", err)]. *)
Definition wrap_error (prefix : string) (e : GoError) : GoError := mkError (prefix +:+ ": " +:+ err_msg e) (err_refused e) (err_dns e).

(** ** bufio.Scanner over a body *)

Definition drop_cr (line : string) : string :=
  match String.get (String.length line - 1) line with
  | Some c => if Ascii.eqb c (byte_of 13) then str_take (String.length line - 1) line else line
  | None => line
  end.
(** The lines, up to one that does not fit the buffer of [max] bytes. *)
Fixpoint take_lines (max : Z) (pieces : list string) : list string * bool :=
  match pieces with
  | [] => ([], false)
  | [piece] => if max <=? slen piece then ([], true) else if String.eqb piece EmptyString then ([], false) else ([drop_cr piece], false)
  | piece :: pieces => if max <=? slen piece then ([], true) else let '(l, long) := take_lines max pieces in (drop_cr piece :: l, long)
  end.
Definition newline : ascii := byte_of 10.
Definition scan_lines (max : Z) (body : string) (read_err : option string) : list string * option GoError :=
  let '(l, long) := take_lines max (split_byte newline body) in
  (l, if long then Some (plain_error "bufio.Scanner: token too long") else option_map plain_error read_err).
Definition MaxScanTokenSize : Z := 64 * 1024.

Section Backends.
Context {W : Type} (http_do : Z -> ApiCall -> W -> Exchange * W) (decode_error : string -> option string -> string)
  (ctx : nat -> option GoError).

(** The steps every call shares: the exchange, the status, the body. *)
Definition exchange (name : string) (timeout : Z) (c : ApiCall) (w : W) : (GoError + (string * option string)) * W :=
  let '(x, w) := http_do timeout c w in
  (match x with
   | BadRequest e => inl (wrap_error (name +:+ " request") e)
   | CallFailed e => inl (wrap_error (name +:+ " call") e)
   | Reply status body read_err =>
       if negb (status =? 200) then inl (plain_error (name +:+ " status " +:+ itoa status)) else inr (body, read_err)
   end, w).
Definition decode_body {T} (name : string) (zero : T) (d : decoder T) (body : string * option string) : GoError + T :=
  match r ← raw_first body.1; d r zero with
  | Some x => inr x
  | None => inl (plain_error (name +:+ " decode: " +:+ decode_error body.1 body.2))
  end.
Definition ping (name : string) (timeout : Z) (c : ApiCall) (w : W) : option GoError * W :=
  let '(x, w) := http_do timeout c w in
  (match x with
   | BadRequest e | CallFailed e => Some e
   | Reply status _ _ => if negb (status =? 200) then Some (plain_error (name +:+ " ping status " +:+ itoa status)) else None
   end, w).
Definition timeout_or_default (d : Z) : Z := if d =? 0 then 60 * second else d.
Definition json_header : string * string := ("Content-Type", "application/json")%string.
(** A request body: the members with the texts of their values. *)
Definition json_object (m : list (string * string)) : string := "{" +:+ str_join "," (map member_text m) +:+ "}".
Definition json_bool (b : bool) : string := if b then "true" else "false".

(** ** Ollama *)

Definition defaultOllamaEmbedModel : string := "nomic-embed-text".
Record OllamaProvider := mkOllama { ol_timeout : Z; ol_streamTimeout : Z; ol_baseURL : string; ol_embedModel : string }.
Definition NewOllama (cfg : Config.ProviderConfig) : OllamaProvider :=
  mkOllama (timeout_or_default (Config.prov_Timeout cfg)) (120 * second) (Config.BaseURL cfg)
    (if String.eqb (Config.EmbedModel cfg) EmptyString then defaultOllamaEmbedModel else Config.EmbedModel cfg).

Record ollamaResponse := mkOllamaResponse { or_Response : string; or_Done : bool }.
Definition into_ollama_response : decoder ollamaResponse := into_struct
  [field "response" or_Response (fun s r => mkOllamaResponse s (or_Done r)) into_string;
   field "done" or_Done (fun b r => mkOllamaResponse (or_Response r) b) into_bool]%string.
Definition zero_ollama_response : ollamaResponse := mkOllamaResponse EmptyString false.
Definition ollamaRequest (model prompt : string) (stream : bool) : string :=
  json_object [("model", quote_json model); ("prompt", quote_json prompt); ("stream", json_bool stream)]%string.
Definition into_ollama_embed : decoder (slice_of f64) := into_struct
  [field "embedding" (fun s => s) (fun s _ => s) (into_slice f0 into_float)].

Section Ollama.
Context (o : OllamaProvider).
Definition ollama_call (path body : string) : ApiCall := mkCall "POST" (ol_baseURL o +:+ path) [json_header] (Some body).

Definition ollama_Generate (req : Request) (w : W) : (GoError + Response) * W :=
  let '(x, w) := exchange "ollama" (ol_timeout o) (ollama_call "/api/generate" (ollamaRequest (Model req) (Prompt req) false)) w in
  match x with
  | inl e => (inl e, w)
  | inr body =>
      match decode_body "ollama" zero_ollama_response into_ollama_response body with
      | inl e => (inl e, w)
      | inr out => (inr (mkResponse (or_Response out) 0 0 "stop"), w)
      end
  end.

(** The loop over the lines: the chunks sent, and the error returned. *)
Fixpoint ollama_scan (i : nat) (lines : list string) (scan_err : option GoError) : list string * option GoError :=
  match lines with
  | [] => ([], scan_err)
  | line :: lines =>
      match ctx i with
      | Some e => ([], Some e)
      | None =>
          match r ← raw_parse line; into_ollama_response r zero_ollama_response with
          | None => ollama_scan (S i) lines scan_err
          | Some chunk =>
              let sent := if String.eqb (or_Response chunk) EmptyString then [] else [or_Response chunk] in
              if or_Done chunk then (sent, None)
              else let '(cs, e) := ollama_scan (S i) lines scan_err in (sent ++ cs, e)
          end
      end
  end.
Definition ollama_Stream (req : Request) (w : W) : list ChanOp * option GoError * W :=
  let '(x, w) := exchange "ollama stream" (ol_streamTimeout o) (ollama_call "/api/generate" (ollamaRequest (Model req) (Prompt req) true)) w in
  match x with
  | inl e => ([Close], Some e, w)
  | inr (body, read_err) =>
      let '(lines, scan_err) := scan_lines MaxScanTokenSize body read_err in
      let '(cs, e) := ollama_scan 0 lines scan_err in
      (map Send cs ++ [Close], e, w)
  end.
Definition ollama_Embed (text : string) (w : W) : (GoError + list f64) * W :=
  let '(x, w) := exchange "embed" (ol_timeout o)
    (ollama_call "/api/embeddings" (json_object [("model", quote_json (ol_embedModel o)); ("prompt", quote_json text)]%string)) w in
  match x with
  | inl e => (inl e, w)
  | inr body => (match decode_body "embed" nil_slice into_ollama_embed body with inl e => inl e | inr out => inr (slice_elements out) end, w)
  end.
Definition ollama_Ping (w : W) : option GoError * W :=
  ping "ollama" (ol_timeout o) (mkCall "GET" (ol_baseURL o +:+ "/api/tags") [] None) w.
End Ollama.

(** ** OpenAI-compatible servers *)

Record OpenAIProvider := mkOpenAI { oa_timeout : Z; oa_baseURL : string; oa_apiKey : string; oa_embedModel : string; oa_displayName : string }.
Definition trim_right_slash (s : string) : string :=
  string_of_list_ascii (rev ((fix drop l := match l with c :: l' => if Ascii.eqb c "/"%char then drop l' else l | [] => [] end)
    (rev (list_ascii_of_string s)))).
Definition NewOpenAI (cfg : Config.ProviderConfig) : OpenAIProvider :=
  mkOpenAI (timeout_or_default (Config.prov_Timeout cfg)) (trim_right_slash (Config.BaseURL cfg)) (Config.APIKey cfg)
    (Config.EmbedModel cfg) (Config.Kind cfg).
Definition ErrEmbedNotSupported : GoError := plain_error "provider: embeddings not configured".

Record openAIMessage := mkMessage { om_Role : string; om_Content : string }.
Definition zero_message : openAIMessage := mkMessage EmptyString EmptyString.
Definition into_message : decoder openAIMessage := into_struct
  [field "role" om_Role (fun s m => mkMessage s (om_Content m)) into_string;
   field "content" om_Content (fun s m => mkMessage (om_Role m) s) into_string]%string.
Record openAIChatChoice := mkChoice { oc_Message : openAIMessage; oc_FinishReason : string; oc_Delta : option openAIMessage }.
Definition zero_choice : openAIChatChoice := mkChoice zero_message EmptyString None.
Definition into_choice : decoder openAIChatChoice := into_struct
  [field "message" oc_Message (fun m c => mkChoice m (oc_FinishReason c) (oc_Delta c)) into_message;
   field "finish_reason" oc_FinishReason (fun s c => mkChoice (oc_Message c) s (oc_Delta c)) into_string;
   field "delta" oc_Delta (fun d c => mkChoice (oc_Message c) (oc_FinishReason c) d) (into_pointer zero_message into_message)]%string.
Record openAIChatResponse := mkChatResponse { oc_Choices : slice_of openAIChatChoice; oc_Usage : Z * Z }.
Definition zero_chat_response : openAIChatResponse := mkChatResponse nil_slice (0, 0).
Definition into_usage : decoder (Z * Z) := into_struct
  [field "prompt_tokens" fst (fun n u => (n, u.2)) into_int; field "completion_tokens" snd (fun n u => (u.1, n)) into_int]%string.
Definition into_chat_response : decoder openAIChatResponse := into_struct
  [field "choices" oc_Choices (fun c r => mkChatResponse c (oc_Usage r)) (into_slice zero_choice into_choice);
   field "usage" oc_Usage (fun u r => mkChatResponse (oc_Choices r) u) into_usage]%string.
(** A chunk of a stream: the deltas of its choices. *)
Definition into_chunk : decoder (slice_of openAIMessage) := into_struct
  [field "choices" (fun s => s) (fun s _ => s)
     (into_slice zero_message (into_struct [field "delta" (fun m => m) (fun m _ => m) into_message]%string))]%string.
Definition into_embed_data : decoder (slice_of (slice_of f64)) := into_struct
  [field "data" (fun s => s) (fun s _ => s)
     (into_slice nil_slice (into_struct [field "embedding" (fun s => s) (fun s _ => s) (into_slice f0 into_float)]%string))]%string.

Definition json_message (m : openAIMessage) : string :=
  json_object [("role", quote_json (om_Role m)); ("content", quote_json (om_Content m))]%string.
Definition json_list (l : list string) : string := "[" +:+ str_join "," l +:+ "]".
Definition buildMessages (req : Request) : list openAIMessage :=
  (if String.eqb (System req) EmptyString then [] else [mkMessage "system" (System req)]) ++ [mkMessage "user" (Prompt req)].
Definition openAIChatRequest (req : Request) (stream : bool) : string :=
  json_object ([("model", quote_json (Model req)); ("messages", json_list (map json_message (buildMessages req)))]%string ++
    (if stream then [("stream", "true")]%string else []) ++
    (if MaxTokens req =? 0 then [] else [("max_tokens"%string, itoa (MaxTokens req))]) ++
    (match Stop req with [] => [] | l => [("stop"%string, json_list (map quote_json l))] end)).

Section OpenAI.
Context (o : OpenAIProvider).
Definition openai_Name : string := if String.eqb (oa_displayName o) EmptyString then "openai" else oa_displayName o.
Definition bearer : list (string * string) :=
  if String.eqb (oa_apiKey o) EmptyString then [] else [("Authorization"%string, "Bearer " +:+ oa_apiKey o)].
Definition openai_call (path body : string) : ApiCall := mkCall "POST" (oa_baseURL o +:+ path) (bearer ++ [json_header]) (Some body).
Definition accept_events (c : ApiCall) : ApiCall :=
  mkCall (call_Method c) (call_URL c) (call_Headers c ++ [("Accept", "text/event-stream")]%string) (call_Body c).

Definition openai_Generate (req : Request) (w : W) : (GoError + Response) * W :=
  let '(x, w) := exchange "openai" (oa_timeout o) (openai_call "/chat/completions" (openAIChatRequest req false)) w in
  match x with
  | inl e => (inl e, w)
  | inr body =>
      match decode_body "openai" zero_chat_response into_chat_response body with
      | inl e => (inl e, w)
      | inr out =>
          match slice_elements (oc_Choices out) with
          | [] => (inl (plain_error "openai: empty choices"), w)
          | c :: _ => (inr (mkResponse (om_Content (oc_Message c)) (oc_Usage out).1 (oc_Usage out).2 (oc_FinishReason c)), w)
          end
      end
  end.

(** The deltas of a chunk, each behind a look at the context: those sent, the
    looks so far and the error. *)
Fixpoint send_deltas (i : nat) (l : list openAIMessage) : list string * nat * option GoError :=
  match l with
  | [] => ([], i, None)
  | m :: l =>
      if String.eqb (om_Content m) EmptyString then send_deltas i l
      else match ctx i with
           | Some e => ([], S i, Some e)
           | None => let '(cs, j, e) := send_deltas (S i) l in (om_Content m :: cs, j, e)
           end
  end.
Definition data_prefix : string := "data: ".
Fixpoint openai_scan (i : nat) (lines : list string) (scan_err : option GoError) : list string * option GoError :=
  match lines with
  | [] => ([], match ctx i with Some e => Some e | None => scan_err end)
  | line :: lines =>
      match ctx i with
      | Some e => ([], Some e)
      | None =>
          if negb (String.prefix data_prefix line) then openai_scan (S i) lines scan_err
          else
            let payload := str_drop 6 line in
            if String.eqb payload "[DONE]" then ([], None)
            else match r ← raw_parse payload; into_chunk r nil_slice with
                 | None => openai_scan (S i) lines scan_err
                 | Some chunk =>
                     match send_deltas (S i) (slice_elements chunk) with
                     | (cs, _, Some e) => (cs, Some e)
                     | (cs, j, None) => let '(cs', e) := openai_scan j lines scan_err in (cs ++ cs', e)
                     end
                 end
      end
  end.
Definition openai_Stream (req : Request) (w : W) : list ChanOp * option GoError * W :=
  let '(x, w) := exchange "openai stream" (oa_timeout o) (accept_events (openai_call "/chat/completions" (openAIChatRequest req true))) w in
  match x with
  | inl e => ([Close], Some e, w)
  | inr (body, read_err) =>
      let '(lines, scan_err) := scan_lines (1024 * 1024) body read_err in
      let '(cs, e) := openai_scan 0 lines scan_err in
      (map Send cs ++ [Close], e, w)
  end.
Definition openai_Embed (text : string) (w : W) : (GoError + list f64) * W :=
  if String.eqb (oa_embedModel o) EmptyString then (inl ErrEmbedNotSupported, w)
  else
    let '(x, w) := exchange "openai embed" (oa_timeout o)
      (openai_call "/embeddings" (json_object [("model", quote_json (oa_embedModel o)); ("input", quote_json text)]%string)) w in
    match x with
    | inl e => (inl e, w)
    | inr body =>
        (match decode_body "openai embed" nil_slice into_embed_data body with
         | inl e => inl e
         | inr out => match slice_elements out with [] => inl (plain_error "openai embed: empty data") | v :: _ => inr (slice_elements v) end
         end, w)
    end.
Definition openai_Ping (w : W) : option GoError * W :=
  ping "openai" (oa_timeout o) (mkCall "GET" (oa_baseURL o +:+ "/models") bearer None) w.
End OpenAI.

(** ** As providers *)

(** The embedding of a text as the evaluator and the cache read it: the
    answers of the embedding service do not depend on the time; [w] is any
    world to read them in. *)
Definition embedding_at (embed : string -> W -> (GoError + list f64) * W) (w : W) (text : string) : option (list f64) :=
  match (embed text w).1 with inr v => Some v | inl _ => None end.
Definition ollama_provider (w : W) (o : OllamaProvider) : LLMProvider W :=
  mkProvider (ollama_Generate o) (ollama_Stream o) (embedding_at (ollama_Embed o) w) (ollama_Ping o) "ollama".
Definition openai_provider (w : W) (o : OpenAIProvider) : LLMProvider W :=
  mkProvider (openai_Generate o) (openai_Stream o) (embedding_at (openai_Embed o) w) (openai_Ping o) (openai_Name o).

#[export] Instance ollama_closes w o : StreamContract (ollama_provider w o).
Proof.
  intros req w'. cbn. unfold ollama_Stream. destruct (exchange _ _ _ _) as [[e|[body err]] w1]; [now exists []|].
  destruct (scan_lines _ _ _) as [lines serr]. destruct (ollama_scan _ _ _) as [cs e]. now exists cs.
Qed.
#[export] Instance openai_closes w o : StreamContract (openai_provider w o).
Proof.
  intros req w'. cbn. unfold openai_Stream. destruct (exchange _ _ _ _) as [[e|[body err]] w1]; [now exists []|].
  destruct (scan_lines _ _ _) as [lines serr]. destruct (openai_scan _ _ _) as [cs e]. now exists cs.
Qed.
End Backends.

(** ** What is sent is read back *)

Lemma json_object_marshal (m : list (string * jvalue)) (l : list (string * string)) :
  Forall2 (fun e x => e.1 = x.1 /\ marshal e.2 = Some x.2) m l -> marshal (JObj m) = Some (json_object l).
Proof.
  intros Hm. cbn [marshal]. unfold json_object. assert (E : mapM (fun e : string * jvalue => t ← marshal e.2; Some (quote_json e.1 +:+ ":" +:+ t)) m
    = Some (map (fun e => quote_json e.1 +:+ ":" +:+ e.2) l)); [|now rewrite E].
  induction Hm as [|[k v] [k' t] m l [Ek Ev] _ IH]; [reflexivity|]. cbn [mapM map fst snd] in *. subst. rewrite Ev. cbn [mbind option_bind].
  now rewrite IH.
Qed.
Lemma json_list_marshal (l : list jvalue) (ts : list string) :
  Forall2 (fun v t => marshal v = Some t) l ts -> marshal (JArr l) = Some (json_list ts).
Proof.
  intros Hl. cbn [marshal]. unfold json_list. assert (E : mapM marshal l = Some ts); [|now rewrite E].
  induction Hl as [|v t l ts Ev _ IH]; [reflexivity|]. cbn [mapM]. rewrite Ev. cbn [mbind option_bind]. now rewrite IH.
Qed.

(** The document behind a request's body. *)
Definition ollama_doc (model prompt : string) (stream : bool) : jvalue :=
  JObj [("model", JStr model); ("prompt", JStr prompt); ("stream", JBool stream)]%string.
Lemma ollama_request_marshal model prompt stream : marshal (ollama_doc model prompt stream) = Some (ollamaRequest model prompt stream).
Proof. apply json_object_marshal. repeat constructor. Qed.

Definition message_doc (m : openAIMessage) : jvalue := JObj [("role", JStr (om_Role m)); ("content", JStr (om_Content m))]%string.
Definition messages_doc (req : Request) : list jvalue :=
  (if decide (System req = EmptyString) then [] else [JObj [("role", JStr "system"); ("content", JStr (System req))]%string]) ++
  [JObj [("role", JStr "user"); ("content", JStr (Prompt req))]%string].
Lemma messages_doc_eq req : messages_doc req = map message_doc (buildMessages req).
Proof. unfold messages_doc, buildMessages. destruct (String.eqb_spec (System req) EmptyString); [rewrite decide_True by done|rewrite decide_False by done]; reflexivity. Qed.
(** [x] is the number [max_tokens] is written as. *)
Definition openai_doc (req : Request) (x : f64) (stream : bool) : jvalue :=
  JObj ([("model", JStr (Model req)); ("messages", JArr (messages_doc req))]%string ++
    (if stream then [("stream", JBool true)]%string else []) ++
    (if decide (MaxTokens req = 0) then [] else [("max_tokens"%string, JNum x)]) ++
    (match Stop req with [] => [] | l => [("stop"%string, JArr (map JStr l))] end)).
Lemma messages_marshal req : marshal (JArr (messages_doc req)) = Some (json_list (map json_message (buildMessages req))).
Proof.
  rewrite messages_doc_eq. apply json_list_marshal. induction (buildMessages req) as [|m l IH]; cbn [map]; [constructor|].
  constructor; [|exact IH]. apply json_object_marshal. now repeat constructor.
Qed.
Lemma strings_marshal l : marshal (JArr (map JStr l)) = Some (json_list (map quote_json l)).
Proof. apply json_list_marshal. induction l as [|x l IH]; cbn [map]; constructor; auto. Qed.

Lemma message_text m : ValidString (om_Role m) = true -> ValidString (om_Content m) = true -> json_text (message_doc m) = true.
Proof. intros H1 H2. cbn -[ValidString]. now rewrite H1, H2. Qed.
Lemma text_strings l : forallb json_text (map JStr l) = forallb ValidString l.
Proof. induction l as [|s l IH]; [reflexivity|]. cbn -[ValidString]. now rewrite IH. Qed.
Lemma messages_text req : ValidString (Prompt req) = true -> ValidString (System req) = true -> json_text (JArr (messages_doc req)) = true.
Proof.
  intros Hp Hs. rewrite messages_doc_eq. apply forallb_forall. intros v Hv.
  apply in_map_iff in Hv as (m & <- & Hin). unfold buildMessages in Hin. apply message_text;
    apply in_app_iff in Hin as [Hin|[<-|[]]]; try (destruct (String.eqb (System req) EmptyString); [destruct Hin|destruct Hin as [<-|[]]]); easy.
Qed.
Lemma depth_strings l : foldr (fun v n => Z.max (depth v) n) 0 (map JStr l) = 0.
Proof. induction l as [|s l IH]; cbn; [done|]. now rewrite IH. Qed.
Lemma openai_doc_depth req x stream : depth (openai_doc req x stream) <= maxNestingDepth.
Proof.
  unfold maxNestingDepth, openai_doc. rewrite messages_doc_eq. assert (Hm : foldr (fun v n => Z.max (depth v) n) 0 (map message_doc (buildMessages req)) <= 1).
  { induction (buildMessages req) as [|m l IH]; cbn in *; lia. }
  cbn [depth app foldr snd]. rewrite !foldr_app.
  destruct stream, (decide (MaxTokens req = 0)), (Stop req) as [|s l]; cbn [foldr snd depth]; rewrite ?depth_strings; lia.
Qed.
(** The body's members are read as the document's. *)
Lemma reads_text k v t : ValidString k = true -> marshal v = Some t -> json_text v = true -> member_reads (k, v) (k, t).
Proof. intros Hk E Ht. split; [done|]. split; [exact Hk|]. now apply reads_all. Qed.
Lemma openai_request_reads req x stream : ValidString (Model req) = true -> ValidString (Prompt req) = true -> ValidString (System req) = true ->
  forallb ValidString (Stop req) = true -> (MaxTokens req <> 0 -> reads_as (JNum x) (itoa (MaxTokens req))) ->
  reads_as (openai_doc req x stream) (openAIChatRequest req stream).
Proof.
  intros Hm Hp Hs Hst Hx. apply reads_members; [|discriminate]. apply Forall2_app; [|apply Forall2_app; [|apply Forall2_app]].
  - constructor; [now apply reads_text|]. constructor; [|constructor]. apply reads_text; [done|apply messages_marshal|now apply messages_text].
  - destruct stream; [|constructor]. constructor; [now apply reads_text|constructor].
  - destruct (Z.eqb_spec (MaxTokens req) 0) as [H|H]; [rewrite decide_True by done; constructor|rewrite decide_False by done].
    constructor; [|constructor]. split; [done|]. split; [done|]. now apply Hx.
  - destruct (Stop req) as [|s l]; [constructor|]. constructor; [|constructor]. apply reads_text; [done|apply strings_marshal|].
    cbn [json_text]. rewrite <- Hst. apply text_strings.
Qed.

(** A document without numbers and nulls is relabelled as it is. *)
Fixpoint plain_doc (v : jvalue) : option raw :=
  match v with
  | JNull | JNum _ => None
  | JBool b => Some (RBool b)
  | JStr s => Some (RStr s)
  | JArr l => r ← (fix go l := match l with [] => Some [] | v :: l => x ← plain_doc v; r ← go l; Some (x :: r) end) l; Some (RArr r)
  | JObj m =>
      r ← (fix go (m : list (string * jvalue)) := match m with [] => Some [] | e :: m => x ← plain_doc e.2; r ← go m; Some ((e.1, x) :: r) end) m;
      Some (RObj r)
  end.
Lemma relabel_plain v : forall r ts, plain_doc v = Some r -> relabel v ts = (r, ts).
Proof.
  induction v as [|b|x|s|l IH|m IH] using jvalue_rect'; intros r ts E; cbn [plain_doc relabel] in *; try discriminate; try (injection E as <-; reflexivity).
  - destruct ((fix go l := match l with [] => Some [] | v :: l => x ← plain_doc v; r ← go l; Some (x :: r) end) l) as [rs|] eqn:El; [|discriminate].
    injection E as <-. assert (Hgo : forall ts, (fix go l ts := match l with [] => ([], ts) | v :: l => let '(v, ts) := relabel v ts in let '(l, ts) := go l ts in (v :: l, ts) end) l ts = (rs, ts)).
    { clear ts. revert rs El. induction IH as [|v l Hv _ IHl]; intros rs El ts; [now injection El as <-|].
      destruct (plain_doc v) as [x|] eqn:Ex; [|discriminate]. cbn [mbind option_bind] in El.
      destruct (_ l) as [rs'|] eqn:El' in El; [|discriminate]. injection El as <-. rewrite (Hv x ts eq_refl), (IHl rs' El'). reflexivity. }
    now rewrite Hgo.
  - destruct ((fix go (m : list (string * jvalue)) := match m with [] => Some [] | e :: m => x ← plain_doc e.2; r ← go m; Some ((e.1, x) :: r) end) m) as [rs|] eqn:El; [|discriminate].
    injection E as <-. assert (Hgo : forall ts, (fix go (m : list (string * jvalue)) ts := match m with [] => ([], ts) | e :: m => let '(v, ts) := relabel e.2 ts in let '(m, ts) := go m ts in ((e.1, v) :: m, ts) end) m ts = (rs, ts)).
    { clear ts. revert rs El. induction IH as [|[k v] m Hv _ IHl]; intros rs El ts; [now injection El as <-|]. cbn [fst snd] in *.
      destruct (plain_doc v) as [x|] eqn:Ex; [|discriminate]. cbn [mbind option_bind] in El.
      destruct (_ m) as [rs'|] eqn:El' in El; [|discriminate]. injection El as <-. rewrite (Hv x ts eq_refl), (IHl rs' El'). reflexivity. }
    now rewrite Hgo.
Qed.
Lemma plain_marshal v t r : marshal v = Some t -> json_text v = true -> depth v <= maxNestingDepth -> plain_doc v = Some r ->
  raw_parse t = Some r /\ raw_first t = Some r.
Proof. intros E Ht Hd Hr. destruct (raw_marshal v t E Ht Hd) as [-> ->]. now rewrite (relabel_plain v r _ Hr). Qed.

(** ** Lines are split as they were joined *)

Fixpoint lines_text (l : list string) : string :=
  match l with [] => EmptyString | line :: l => line +:+ String newline (lines_text l) end.
Definition line_ok (max : Z) (line : string) : Prop :=
  slen line < max /\ ~ In newline (list_ascii_of_string line) /\ drop_cr line = line.
Lemma split_byte_cons c s : exists p l, split_byte c s = p :: l.
Proof. destruct (split_byte c s) as [|p l] eqn:E; [|eauto]. destruct s; cbn in E; [discriminate|]. repeat case_match; discriminate. Qed.
Lemma scan_lines_text max l rest read_err : 0 < max -> Forall (line_ok max) l ->
  exists more e, scan_lines max (lines_text l +:+ rest) read_err = (l ++ more, e).
Proof.
  intros Hm Hl. unfold scan_lines. assert (E : exists more long, take_lines max (split_byte newline (lines_text l +:+ rest)) = (l ++ more, long)).
  { induction Hl as [|line l (Hs & Hn & Hcr) _ (more & long & IH)]; cbn [lines_text].
    - destruct (take_lines _ _) as [more long]. now exists more, long.
    - rewrite str_app_assoc. change (String newline ?x +:+ rest) with (String newline (x +:+ rest)). rewrite split_byte_app by exact Hn.
      destruct (split_byte_cons newline (lines_text l +:+ rest)) as (p & ps & Ep). rewrite Ep in *.
      change (take_lines max (line :: p :: ps)) with
        (if max <=? slen line then ([], true) else let '(l, long) := take_lines max (p :: ps) in (drop_cr line :: l, long)).
      rewrite IH, Hcr. destruct (Z.leb_spec max (slen line)); [lia|]. now exists more, long. }
  destruct E as (more & long & ->). eauto.
Qed.
Lemma drop_cr_end s c : c <> byte_of 13 -> drop_cr (s +:+ String c EmptyString) = s +:+ String c EmptyString.
Proof.
  intros Hc. unfold drop_cr. assert (Hg : String.get (String.length (s +:+ String c EmptyString) - 1) (s +:+ String c EmptyString) = Some c).
  { rewrite str_length_app. cbn [String.length]. replace (String.length s + 1 - 1)%nat with (String.length s) by lia.
    induction s as [|d s IH]; [reflexivity|]. exact IH. }
  rewrite Hg. destruct (Ascii.eqb_spec c (byte_of 13)); [contradiction|reflexivity].
Qed.
Lemma printed_line max s c : printed (s +:+ String c EmptyString) -> c <> byte_of 13 -> slen (s +:+ String c EmptyString) < max ->
  line_ok max (s +:+ String c EmptyString).
Proof.
  intros Hp Hc Hl. split; [exact Hl|]. split; [|now apply drop_cr_end]. intros Hin. unfold printed in Hp. rewrite Forall_forall in Hp.
  specialize (Hp newline ltac:(now apply list_elem_of_In)). vm_compute in Hp. now apply Hp.
Qed.
(** Marshalled objects are such lines. *)
Lemma object_line max pre m t : marshal (JObj m) = Some t -> printed pre -> slen (pre +:+ t) < max -> line_ok max (pre +:+ t).
Proof.
  intros E Hpre Hl. assert (Hend : exists s, t = s +:+ "}").
  { cbn [marshal] in E. destruct (mapM _ m) as [r|]; [|discriminate]. injection E as <-. exists ("{" +:+ str_join "," r). now rewrite str_app_assoc. }
  pose proof (printed_marshal _ _ E) as Hp. destruct Hend as [s ->]. rewrite <- str_app_assoc in *.
  apply printed_line; [|discriminate|exact Hl]. rewrite str_app_assoc. now apply printed_app.
Qed.

(** ** The servers' side *)

Definition ollama_reply_doc (text : string) (done : bool) : jvalue := JObj [("response", JStr text); ("done", JBool done)]%string.
Definition ollama_reply (text : string) (done : bool) : string :=
  json_object [("response", quote_json text); ("done", json_bool done)]%string.
Definition completion_doc (text finish : string) : jvalue :=
  JObj [("choices", JArr [JObj [("message", message_doc (mkMessage "assistant" text)); ("finish_reason", JStr finish)]])]%string.
Definition completion (text finish : string) : string :=
  json_object [("choices", json_list [json_object [("message", json_message (mkMessage "assistant" text)); ("finish_reason", quote_json finish)]])]%string.
Definition chunk_members (text : string) : object :=
  [("choices", JArr [JObj [("delta", JObj [("content", JStr text)])]])]%string.
Definition chunk_text (text : string) : string :=
  json_object [("choices", json_list [json_object [("delta", json_object [("content", quote_json text)])]])]%string.
Lemma ollama_reply_marshal text done : marshal (ollama_reply_doc text done) = Some (ollama_reply text done).
Proof. reflexivity. Qed.
Lemma completion_marshal text finish : marshal (completion_doc text finish) = Some (completion text finish).
Proof. reflexivity. Qed.
Lemma chunk_marshal text : marshal (JObj (chunk_members text)) = Some (chunk_text text).
Proof. reflexivity. Qed.

Lemma ollama_reply_read text done : ValidString text = true ->
  (r ← raw_parse (ollama_reply text done); into_ollama_response r zero_ollama_response) = Some (mkOllamaResponse text done) /\
  (r ← raw_first (ollama_reply text done); into_ollama_response r zero_ollama_response) = Some (mkOllamaResponse text done).
Proof.
  intros Ht. destruct (plain_marshal _ _ (RObj [("response", RStr text); ("done", RBool done)]%string) (ollama_reply_marshal text done)) as [-> ->].
  - cbn -[ValidString]. now rewrite Ht.
  - vm_compute. discriminate.
  - reflexivity.
  - split; reflexivity.
Qed.
Lemma completion_read text finish : ValidString text = true -> ValidString finish = true ->
  exists out, (r ← raw_first (completion text finish); into_chat_response r zero_chat_response) = Some out /\
    slice_elements (oc_Choices out) = [mkChoice (mkMessage "assistant" text) finish None] /\ oc_Usage out = (0, 0).
Proof.
  intros Ht Hf. destruct (plain_marshal _ _ (RObj [("choices", RArr [RObj [("message", RObj [("role", RStr "assistant"); ("content", RStr text)]); ("finish_reason", RStr finish)]])]%string)
    (completion_marshal text finish)) as [_ ->].
  - cbn -[ValidString]. now rewrite Ht, Hf.
  - vm_compute. discriminate.
  - reflexivity.
  - eexists. split; [reflexivity|]. split; reflexivity.
Qed.
Lemma chunk_read text : ValidString text = true ->
  exists s, (r ← raw_parse (chunk_text text); into_chunk r nil_slice) = Some s /\ slice_elements s = [mkMessage EmptyString text].
Proof.
  intros Ht. destruct (plain_marshal _ _ (RObj [("choices", RArr [RObj [("delta", RObj [("content", RStr text)])]])]%string) (chunk_marshal text)) as [-> _].
  - cbn -[ValidString]. now rewrite Ht.
  - vm_compute. discriminate.
  - reflexivity.
  - eexists. split; reflexivity.
Qed.

(** The bodies a server of either kind streams: a document per line; events
    with a blank line behind each and an end mark. *)
Definition ndjson (chunks : list string) : list string := map (fun c => ollama_reply c false) chunks ++ [ollama_reply EmptyString true].
Definition events (chunks : list string) : list string :=
  concat (map (fun c => [data_prefix +:+ chunk_text c; EmptyString]) chunks) ++ [data_prefix +:+ "[DONE]"; EmptyString].
Definition nonempty (l : list string) : list string := filter (fun c => c <> EmptyString) l.

Section Streams.
Context {W : Type} (http_do : Z -> ApiCall -> W -> Exchange * W) (decode_error : string -> option string -> string).
(** The context is never done. *)
Notation running := (fun _ : nat => @None GoError).

Lemma nonempty_cons c l : nonempty (c :: l) = (if String.eqb c EmptyString then [] else [c]) ++ nonempty l.
Proof. unfold nonempty. rewrite filter_cons. destruct (String.eqb_spec c EmptyString); case_decide; easy. Qed.

Lemma ollama_scan_chunks chunks more err : Forall (fun c => ValidString c = true) chunks ->
  forall i, ollama_scan running i (ndjson chunks ++ more) err = (nonempty chunks, None).
Proof.
  induction 1 as [|c chunks Hc _ IH]; intros i; cbn [ndjson map app].
  - cbn [ollama_scan]. destruct (ollama_reply_read EmptyString true eq_refl) as [-> _]. reflexivity.
  - cbn [ollama_scan]. destruct (ollama_reply_read c false Hc) as [-> _]. cbn [or_Response or_Done].
    fold (ndjson chunks). rewrite IH, nonempty_cons. reflexivity.
Qed.
Lemma prefix_append p s : String.prefix p (p +:+ s) = true.
Proof.
  induction p as [|c p IH]; [now destruct s|]. change (String c p +:+ s) with (String c (p +:+ s)). cbn [String.prefix].
  destruct (ascii_dec c c); [exact IH|contradiction].
Qed.
Lemma openai_scan_events chunks more err : Forall (fun c => ValidString c = true) chunks ->
  forall i, openai_scan running i (events chunks ++ more) err = (nonempty chunks, None).
Proof.
  induction 1 as [|c chunks Hc _ IH]; intros i; [reflexivity|].
  unfold events. cbn [map concat app]. fold (events chunks). cbn [openai_scan]. rewrite prefix_append. cbn [negb].
  change (str_drop 6 (data_prefix +:+ chunk_text c)) with (chunk_text c).
  destruct (String.eqb_spec (chunk_text c) "[DONE]") as [Ed|_]; [discriminate Ed|].
  destruct (chunk_read c Hc) as (s & -> & ->). cbn [send_deltas om_Content]. rewrite nonempty_cons.
  destruct (String.eqb c EmptyString); cbn; now rewrite IH.
Qed.
Lemma ndjson_lines chunks : Forall (fun c => slen (ollama_reply c false) < MaxScanTokenSize) chunks ->
  Forall (line_ok MaxScanTokenSize) (ndjson chunks).
Proof.
  intros Hc. unfold ndjson. apply Forall_app. split.
  - apply Forall_fmap. eapply Forall_impl; [exact Hc|]. intros c Hl. cbn.
    apply (object_line _ EmptyString _ _ (ollama_reply_marshal c false)); [now constructor|exact Hl].
  - constructor; [|constructor]. apply (object_line _ EmptyString _ _ (ollama_reply_marshal EmptyString true)); [now constructor|reflexivity].
Qed.
Lemma events_lines chunks : Forall (fun c => slen (data_prefix +:+ chunk_text c) < 1024 * 1024) chunks ->
  Forall (line_ok (1024 * 1024)) (events chunks).
Proof.
  assert (Hempty : line_ok (1024 * 1024) EmptyString) by (split; [reflexivity|split; [now intros []|reflexivity]]).
  intros Hc. unfold events. apply Forall_app. split.
  - induction Hc as [|c chunks Hl _ IH]; [constructor|]. cbn [map concat app]. constructor; [|now constructor].
    apply (object_line _ data_prefix _ _ (chunk_marshal c)); [now apply printed_const|exact Hl].
  - constructor; [|now constructor]. split; [reflexivity|]. split; [|reflexivity]. vm_compute. intuition discriminate.
Qed.
End Streams.

(** C35.  A call survives both trips over JSON: for a request of UTF-8 texts
    and a token limit from 0 to 2^53, the body either backend posts is read
    back as the document it stands for: Ollama's with the model and the prompt,
    the OpenAI one with the model, the system text and the prompt as messages,
    the stop texts and the limit (the member [max_tokens], there just when the
    limit is not 0, is the number itself); and when the server answers 200 with the document of a completion, [Generate]
    returns exactly the UTF-8 text in it (and the finish reason). *)
Theorem Generate_roundtrip {W} (http_do : Z -> ApiCall -> W -> Exchange * W) decode_error ol oa req text finish err w w1 w2 :
  ValidString (Model req) = true -> ValidString (Prompt req) = true -> ValidString (System req) = true ->
  forallb ValidString (Stop req) = true -> 0 <= MaxTokens req <= 2 ^ 53 -> ValidString text = true -> ValidString finish = true ->
  http_do (ol_timeout ol) (ollama_call ol "/api/generate" (ollamaRequest (Model req) (Prompt req) false)) w
    = (Reply 200 (ollama_reply text true) err, w1) ->
  http_do (oa_timeout oa) (openai_call oa "/chat/completions" (openAIChatRequest req false)) w
    = (Reply 200 (completion text finish) err, w2) ->
  parse_json (ollamaRequest (Model req) (Prompt req) false) = Some (ollama_doc (Model req) (Prompt req) false, false) /\
  (exists limit, B2R limit = IZR (MaxTokens req) /\ parse_json (openAIChatRequest req false) = Some (openai_doc req limit false, false)) /\
  ollama_Generate http_do decode_error ol req w = (inr (mkResponse text 0 0 "stop"), w1) /\
  openai_Generate http_do decode_error oa req w = (inr (mkResponse text 0 0 finish), w2).
Proof.
  intros Hm Hp Hs Hst Hmax Ht Hf E1 E2. split; [|split; [|split]].
  - apply (parse_marshal _ _ (ollama_request_marshal _ _ _)); [|vm_compute; discriminate]. cbn -[ValidString]. now rewrite Hm, Hp.
  - destruct (decide (MaxTokens req = 0)) as [H0|H0].
    + exists f0. split; [now rewrite H0|]. apply parse_reads; [now apply openai_request_reads|apply openai_doc_depth].
    + destruct (reads_int (MaxTokens req) ltac:(lia)) as (x & Hx & Hr). exists x. split; [exact Hx|].
      apply parse_reads; [now apply openai_request_reads|apply openai_doc_depth].
  - unfold ollama_Generate, exchange. rewrite E1. change (negb (200 =? 200)) with false. cbv iota. unfold decode_body. cbn [fst].
    destruct (ollama_reply_read text true Ht) as [_ ->]. reflexivity.
  - unfold openai_Generate, exchange. rewrite E2. change (negb (200 =? 200)) with false. cbv iota. unfold decode_body. cbn [fst].
    destruct (completion_read text finish Ht Hf) as (out & -> & -> & ->). reflexivity.
Qed.

(** C36.  A stream is forwarded in full and in order: when the server streams
    the UTF-8 chunks of an answer (as JSON lines, or as events with an end
    mark) in lines that fit the scanner's buffer and the context stays live,
    [Stream] sends exactly the nonempty chunks, closes the channel once and
    reports no error, whatever bytes come after the end mark and whatever ends
    the body. *)
Theorem Stream_forwards {W} (http_do : Z -> ApiCall -> W -> Exchange * W) ol oa req chunks rest err w w1 w2 :
  Forall (fun c => ValidString c = true) chunks ->
  Forall (fun c => slen (ollama_reply c false) < 64 * 1024) chunks ->
  Forall (fun c => slen (data_prefix +:+ chunk_text c) < 1024 * 1024) chunks ->
  http_do (ol_streamTimeout ol) (ollama_call ol "/api/generate" (ollamaRequest (Model req) (Prompt req) true)) w
    = (Reply 200 (lines_text (ndjson chunks) +:+ rest) err, w1) ->
  http_do (oa_timeout oa) (accept_events (openai_call oa "/chat/completions" (openAIChatRequest req true))) w
    = (Reply 200 (lines_text (events chunks) +:+ rest) err, w2) ->
  ollama_Stream http_do (fun _ => None) ol req w = (map Send (nonempty chunks) ++ [Close], None, w1) /\
  openai_Stream http_do (fun _ => None) oa req w = (map Send (nonempty chunks) ++ [Close], None, w2).
Proof.
  intros Hv Hl1 Hl2 E1 E2. split.
  - unfold ollama_Stream, exchange. rewrite E1. change (negb (200 =? 200)) with false. cbv iota.
    destruct (scan_lines_text MaxScanTokenSize _ rest err eq_refl (ndjson_lines _ Hl1)) as (more & e & ->).
    rewrite ollama_scan_chunks by exact Hv. reflexivity.
  - unfold openai_Stream, exchange. rewrite E2. change (negb (200 =? 200)) with false. cbv iota.
    destruct (scan_lines_text (1024 * 1024) _ rest err eq_refl (events_lines _ Hl2)) as (more & e & ->).
    rewrite openai_scan_events by exact Hv. reflexivity.
Qed.

(** A server for the witnesses: it answers each path as both kinds do. *)
Module SampleServer.
Definition ol : OllamaProvider := mkOllama minute (2 * minute) "http://o" "e".
Definition oa : OpenAIProvider := mkOpenAI minute "http://a/v1" "key" EmptyString "groq".
Definition req : Request := mkRequest "m" ("say " +:+ quote +:+ "hi" +:+ quote +:+ " & bye") "be brief" 250 ["stop"%string].
Definition chunks : list string := ["Hel"; ""; "lo <é>"]%string.
Definition server (_ : Z) (c : ApiCall) (w : nat) : Exchange * nat :=
  (Reply 200
    (match String.prefix "http://o" (call_URL c), negb (bool_decide (call_Body c = Some (openAIChatRequest req false) \/ call_Body c = Some (ollamaRequest (Model req) (Prompt req) false))) with
     | true, false => ollama_reply "hi & bye" true
     | true, true => lines_text (ndjson chunks) +:+ "{"
     | false, false => completion "hi & bye" "stop"
     | false, true => lines_text (events chunks) +:+ "{"
     end) None, S w).
End SampleServer.

Lemma Generate_roundtrip_witness :
  ollama_Generate SampleServer.server (fun _ _ => EmptyString) SampleServer.ol SampleServer.req 0%nat = (inr (mkResponse "hi & bye" 0 0 "stop"), 1%nat) /\
  openai_Generate SampleServer.server (fun _ _ => EmptyString) SampleServer.oa SampleServer.req 0%nat = (inr (mkResponse "hi & bye" 0 0 "stop"), 1%nat).
Proof.
  destruct (Generate_roundtrip SampleServer.server (fun _ _ => EmptyString) SampleServer.ol SampleServer.oa SampleServer.req "hi & bye" "stop" None
    0%nat 1%nat 1%nat) as (_ & _ & H1 & H2); try (vm_compute; reflexivity). { vm_compute. split; discriminate. } split; assumption.
Defined.
Lemma Stream_forwards_witness :
  ollama_Stream SampleServer.server (fun _ => None) SampleServer.ol SampleServer.req 0%nat = ([Send "Hel"; Send "lo <é>"; Close], None, 1%nat) /\
  openai_Stream SampleServer.server (fun _ => None) SampleServer.oa SampleServer.req 0%nat = ([Send "Hel"; Send "lo <é>"; Close], None, 1%nat).
Proof.
  apply (Stream_forwards SampleServer.server SampleServer.ol SampleServer.oa SampleServer.req SampleServer.chunks "{" None 0%nat 1%nat 1%nat);
    repeat constructor; vm_compute; reflexivity.
Defined.
