(* ===== verification/Wiring.v ===== *)
(** * Putting an agent together (agent/agent.go [newAgent], [New])

    [newAgent] selects the backend and the embedder, wraps the primary in the
    degrade switch's decorator, and builds guards, breakers, evaluator, cache
    and stores from the configuration.  Here its fixed parts are an [Agent]
    and its mutable ones an [AState].  The constructors of flowguard's guards
    are the parameter [fg]; http_do, decode_error and ctx are those of
    Backends.v, [w0] the world embeddings are read in.  The decorator's flag
    is the degrade switch: [newAgent ... c] is the agent while the switches
    are [c]. *)
From S2P Require Import Prelude Float64 GoStrings Json Decode Evaluator Breaker Provider Chaos Telemetry Memory Orchestrator Guarded Agent Backends.
From S2P Require SemanticCache Config.
From Stdlib Require Import ZArith Lia Reals Lra String SpecFloat.
From stdpp Require Import base tactics list gmap strings.
#[local] Open Scope Z_scope.

Definition ModelPrimary : string := "llama3.2".
Definition ModelFallback : string := "llama3.2:1b".
Definition or_default (s d : string) : string := if String.eqb s EmptyString then d else s.
Definition primary_model (cfg : Config.Config) : string := or_default (Config.PrimaryModel (Config.cfg_Models cfg)) ModelPrimary.
Definition fallback_model (cfg : Config.Config) : string := or_default (Config.FallbackModel (Config.cfg_Models cfg)) ModelFallback.

(** The fallback's semantic breaker. *)
Definition fallback_breaker_config : SemanticBreakerConfig :=
  mkSBConfig 6 2 (flit 55 100) (flit 35 100) (30 * second) 2.

(** What flowguard builds, and what of it the agent reads. *)
Record Flowguard (W : Type) := mkFlowguard {
  new_bulkhead : Z -> Z -> Guard W;                    (** slots, max wait *)
  new_shedder : Z -> Z -> Guard W;                     (** start, window *)
  new_adaptive : Z -> f64 -> Z -> Z -> Z -> Guard W;   (** window, error rate, minimum, open timeout, success threshold *)
  new_breaker : Z -> Z -> Guard W;                     (** failure threshold, open timeout *)
  new_hedge : Z -> Z -> Guard W;                       (** delay, max hedges *)
  new_retry : (option GoError -> bool) -> Z -> Z -> Guard W;
  fg_state : W -> bool -> string;
  fg_ErrShed : GoError -> bool;
  fg_ErrFull : GoError -> bool;
  fg_gauges : W -> f64 * (Z * Z) * (Z * Z);
}.
Arguments new_bulkhead {W}.
Arguments new_shedder {W}.
Arguments new_adaptive {W}.
Arguments new_breaker {W}.
Arguments new_hedge {W}.
Arguments new_retry {W}.
Arguments fg_state {W}.
Arguments fg_ErrShed {W}.
Arguments fg_ErrFull {W}.
Arguments fg_gauges {W}.

Section NewAgent.
Context {W : Type} (http_do : Z -> ApiCall -> W -> Exchange * W) (decode_error : string -> option string -> string)
  (ctx : nat -> option GoError) (w0 : W) (fg : Flowguard W) (clock : W -> Z * W) (rand : W -> list Z * W).

(** The chat backend and the embedder. *)
Definition chat_provider (cfg : Config.Config) : LLMProvider W :=
  let p := Config.cfg_Provider cfg in
  if String.eqb (Config.Kind p) "openai" then openai_provider http_do decode_error ctx w0 (NewOpenAI p)
  else ollama_provider http_do decode_error ctx w0 (NewOllama (Config.set_EmbedModel (Config.EmbeddingModel (Config.cfg_Models cfg)) p)).
Definition embed_provider (cfg : Config.Config) : LLMProvider W :=
  let p := Config.cfg_Provider cfg in
  if String.eqb (Config.Kind p) "openai" && String.eqb (Config.EmbedModel p) EmptyString then
    ollama_provider http_do decode_error ctx w0
      (NewOllama (Config.mkProvider "ollama" "http://localhost:11434" EmptyString (Config.EmbeddingModel (Config.cfg_Models cfg)) (Config.prov_Timeout p)))
  else chat_provider cfg.

Definition new_orchestrator (cfg : Config.Config) (c : Chaos) : Orchestrator W :=
  let l := Config.cfg_Limits cfg in
  mkOrch (wrapper_provider (degraded_wrapper (chat_provider cfg) c)) (chat_provider cfg) (primary_model cfg) (fallback_model cfg)
    (new_adaptive fg (Config.PrimaryCBWindow l) (Config.PrimaryCBErrorRate l) 5 (15 * second) 2)
    (new_breaker fg (Config.FallbackCBThreshold l) (30 * second))
    (new_hedge fg (Config.HedgeDelay l) 1) (new_retry fg) (fg_state fg) clock
    (default_retryMax (Config.RetryMax l)) (default_retryBackoff (Config.RetryBaseBackoff l)).
Definition newAgent (cfg : Config.Config) (c : Chaos) : Agent W :=
  let l := Config.cfg_Limits cfg in
  mkAgent (new_orchestrator cfg c) (new_shedder fg (Config.LoadshedStart l) (Config.LoadshedWindow l))
    (new_bulkhead fg (Config.InteractiveSlots l) (2 * second)) (new_bulkhead fg (Config.BatchSlots l) 0)
    (fg_ErrShed fg) (fg_ErrFull fg) rand (fg_gauges fg).

(** The state it starts in; [None]: it panics. *)
Definition newAgent_state (cfg : Config.Config) (w : W) : option (AState W) :=
  let embed := Some (Embed (embed_provider cfg)) in
  let c := Config.cfg_Cache cfg in
  ps ← NewSemanticBreaker DefaultSBConfig;
  fs ← NewSemanticBreaker fallback_breaker_config;
  m ← NewStore (Config.HistorySize (Config.cfg_Score cfg));
  Some (mkAState
    (mkOState w (mkBreakers (WithStateChangeCallback ps true) (WithStateChangeCallback fs true)) (NewEvaluator embed)
       (SemanticCache.New (Config.TTL c) embed (Config.SimilarityThreshold c) (Config.cache_MaxEntries c))
       (mkTel NewCostTracker NewLatencyTracker) (NewChaos true) (mkTrace EmptyString EmptyString 0 None [] time_zero time_zero) [])
    m 0).

(** [New]: the configuration comes from the environment; an invalid one panics. *)
Definition New `{Unicode} (Getenv : string -> string) (w : W) : option (Config.Config * AState W) :=
  match Config.LoadFromEnv Getenv with
  | inl _ => None
  | inr cfg => s ← newAgent_state cfg w; Some (cfg, s)
  end.

(** The agent of the tests: fresh stores without cleanup goroutines, and a
    cache of its own next to the one the orchestrator got (the second result;
    [Status] counts that one). *)
Definition NewTestTraceStore : TraceStore := NewTraceStore.
Definition NewTestSessionStore : SessionStore := NewSessionStore.
Definition NewTestStore (scoreHistorySize : Z) : option Store :=
  h ← NewScoreHistory scoreHistorySize; Some (mkStore NewTestSessionStore NewTestTraceStore h).
Definition NewWithOllamaURL (url : string) (w : W) : option (AState W * SemanticCache.SemanticCache) :=
  let set_BaseURL := fun p => Config.mkProvider (Config.Kind p) url (Config.APIKey p) (Config.EmbedModel p) (Config.prov_Timeout p) in
  s ← newAgent_state (Config.with_Provider set_BaseURL Config.Defaults) w;
  Some (with_mem (mkStore NewTestSessionStore NewTestTraceStore (History (mem s))) s,
        SemanticCache.New (10 * minute) None SemanticCache.defaultSimilarityThreshold SemanticCache.defaultMaxEntries).
End NewAgent.

(** [Stop]: the cleanup of traces and sessions ends, and doing it twice is safe;
    the lifecycle context it cancels is not part of the state. *)
Definition Agent_Stop {W} (s : AState W) : AState W := with_mem (Stop_store (mem s)) s.
Lemma Agent_Stop_idem {W} (s : AState W) : Agent_Stop (Agent_Stop s) = Agent_Stop s.
Proof. now destruct s as [o [[] [] ?] n]. Qed.
Lemma Agent_Stop_ok {W} (s : AState W) : agent_ok s -> agent_ok (Agent_Stop s).
Proof. intros [Ho Hh]. split; assumption. Qed.

(** The values of the breakers' gauges (telemetry/metrics.go). *)
Definition CBStateValue (s : string) : f64 :=
  if String.eqb s "closed" then f0 else if String.eqb s "half-open" then f1 else f64_of_Z 2.
Definition updateCBMetrics {W} (o : Orchestrator W) (w : W) : f64 * f64 :=
  (CBStateValue (transport_state o w true), CBStateValue (transport_state o w false)).
Definition SBStateValue (s : SBState) : f64 := match s with SBHealthy => f0 | SBDegraded => f1 | SBFailing => f64_of_Z 2 end.
Lemma SBStateValue_inj s s' : feq (SBStateValue s) (SBStateValue s') = true -> s = s'.
Proof. destruct s, s'; reflexivity || discriminate. Qed.

(** ** Embeddings are floats *)

Lemma decimal_value_valid neg m e : valid (decimal_value neg m e) = true.
Proof.
  assert (Hr : forall n d, valid (fratio n d) = true) by (intros n d; eapply rounds_valid, fratio_rounds).
  unfold decimal_value. destruct m as [|p|p]; [destruct neg; reflexivity| |destruct neg; reflexivity].
  destruct (0 <=? e); match goal with |- context [fratio ?n ?d] => specialize (Hr n d); destruct (fratio n d), neg; cbn; exact Hr || reflexivity end.
Qed.
(** Decoders whose results keep a property. *)
Definition decodes_to {T} (P : T -> Prop) (d : decoder T) : Prop := forall r x y, P x -> d r x = Some y -> P y.
Lemma into_float_valid : decodes_to (fun x => valid x = true) into_float.
Proof.
  intros r x y Hx E. destruct r; try discriminate; cbn in E; [congruence|]. unfold ParseFloat_literal in E.
  destruct (match literal with [] => _ | _ => _ end) as [neg l]. destruct (mantissa l 0 0 false) as [[m k] rest].
  destruct (is_inf _ neg); [discriminate|]. injection E as <-. apply decimal_value_valid.
Qed.
Lemma into_elements_keeps {T} (P : T -> Prop) zero (d : decoder T) : P zero -> decodes_to P d ->
  forall l old y, Forall P old -> into_elements zero d l old = Some y -> Forall P y.
Proof.
  intros Hz Hd. induction l as [|r l IH]; intros old y Ho E; cbn [into_elements] in E; [now injection E as <-|].
  destruct (d r (hd zero old)) as [x|] eqn:Ex; [|discriminate]. cbn [mbind option_bind] in E.
  destruct (into_elements zero d l (tl old)) as [rest|] eqn:El; [|discriminate]. injection E as <-.
  assert (Hho : P (hd zero old)) by (destruct Ho; assumption).
  constructor; [eapply Hd; [|exact Ex]; exact Hho|]. eapply IH; [|exact El]. destruct Ho; [constructor|assumption].
Qed.
Lemma into_slice_keeps {T} (P : T -> Prop) zero (d : decoder T) : P zero -> decodes_to P d ->
  decodes_to (fun s => Forall P (backing s)) (into_slice zero d).
Proof.
  intros Hz Hd r x y Hx E. destruct r; try discriminate; cbn [into_slice] in E; [now injection E as <-|].
  destruct l as [|r l]; [now injection E as <-|]. destruct (into_elements zero d (r :: l) (backing x)) as [b|] eqn:Eb; [|discriminate].
  injection E as <-. exact (into_elements_keeps P zero d Hz Hd _ _ _ Hx Eb).
Qed.
Lemma into_struct_keeps {T} (P : T -> Prop) (fields : list (string * decoder T)) :
  Forall (fun f => decodes_to P f.2) fields -> decodes_to P (into_struct fields).
Proof.
  intros Hf r x y Hx E. destruct r; try discriminate; cbn [into_struct] in E; [congruence|].
  assert (Hgo : forall m acc, (forall z, acc = Some z -> P z) -> forall z,
    foldl (fun acc e => x ← acc; match List.find (fun f : string * decoder T => same_name e.1 f.1) fields with Some f => f.2 e.2 x | None => Some x end) acc m = Some z -> P z).
  { induction m0 as [|e m0 IH]; intros acc Hacc z Ez; [exact (Hacc z Ez)|]. cbn [foldl] in Ez. apply IH in Ez; [exact Ez|].
    intros z' Ez'. destruct acc as [a|]; [|discriminate]. cbn in Ez'. specialize (Hacc a eq_refl).
    destruct (List.find _ fields) as [f|] eqn:Ef; [|congruence]. apply List.find_some in Ef as [Hin _].
    rewrite Forall_forall in Hf. eapply (Hf f); [now apply list_elem_of_In|exact Hacc|exact Ez']. }
  eapply Hgo; [|exact E]. congruence.
Qed.
Lemma field_id_keeps {T} (P : T -> Prop) name (d : decoder T) : decodes_to P d -> decodes_to P (field name (fun s => s) (fun s _ => s) d).2.
Proof. intros Hd r x y Hx E. cbn in E. destruct (d r x) as [z|] eqn:Ez; [|discriminate]. injection E as <-. exact (Hd r x z Hx Ez). Qed.

Definition floats_valid (s : slice_of f64) : Prop := Forall (fun x => valid x = true) (backing s).
Lemma floats_decoder : decodes_to floats_valid (into_slice f0 into_float).
Proof. apply (into_slice_keeps (fun x => valid x = true)); [reflexivity|exact into_float_valid]. Qed.
Lemma embedding_field : decodes_to floats_valid (into_struct [field "embedding" (fun s => s) (fun s _ => s) (into_slice f0 into_float)]).
Proof. apply into_struct_keeps. constructor; [|constructor]. apply field_id_keeps, floats_decoder. Qed.
Lemma data_field : decodes_to (fun s => Forall floats_valid (backing s)) into_embed_data.
Proof.
  apply into_struct_keeps. constructor; [|constructor]. apply (field_id_keeps (fun s => Forall floats_valid (backing s))).
  apply (into_slice_keeps floats_valid); [constructor|exact embedding_field].
Qed.

Section Embeddings.
Context {W : Type} (http_do : Z -> ApiCall -> W -> Exchange * W) (decode_error : string -> option string -> string)
  (ctx : nat -> option GoError).

Lemma elements_valid s : floats_valid s -> Forall (fun x => valid x = true) (slice_elements s).
Proof. intros Hs. now apply Forall_take. Qed.
Lemma decode_keeps {T} (P : T -> Prop) name zero (d : decoder T) body x : decodes_to P d -> P zero ->
  decode_body decode_error name zero d body = inr x -> P x.
Proof.
  intros Hd Hz E. unfold decode_body in E. destruct (raw_first body.1) as [r|]; cbn [mbind option_bind] in E; [|discriminate].
  destruct (d r zero) as [y|] eqn:Ed; [|discriminate]. injection E as <-. exact (Hd r zero y Hz Ed).
Qed.
Lemma ollama_embed_valid w o : embed_valid (Embed (ollama_provider http_do decode_error ctx w o)).
Proof.
  intros t v E. cbn in E. unfold embedding_at, ollama_Embed in E. destruct (exchange _ _ _ _ _) as [[e|body] w1]; [discriminate|].
  destruct (decode_body _ _ _ _ _) as [e|s] eqn:Ed; [discriminate|]. injection E as <-. apply elements_valid.
  exact (decode_keeps floats_valid _ nil_slice _ _ _ embedding_field (Forall_nil_2 _) Ed).
Qed.
Lemma openai_embed_valid w o : embed_valid (Embed (openai_provider http_do decode_error ctx w o)).
Proof.
  intros t v E. cbn in E. unfold embedding_at, openai_Embed in E. destruct (String.eqb (oa_embedModel o) EmptyString); [discriminate|].
  destruct (exchange _ _ _ _ _) as [[e|body] w1]; [discriminate|].
  destruct (decode_body _ _ _ _ _) as [e|s] eqn:Ed; [discriminate|]. cbn in E.
  assert (Hs : Forall floats_valid (backing s)) by exact (decode_keeps (fun s => Forall floats_valid (backing s)) _ nil_slice _ _ _ data_field (Forall_nil_2 _) Ed).
  destruct (slice_elements s) as [|x l] eqn:Es; [discriminate|]. injection E as <-. apply elements_valid.
  apply (Forall_take _ (length_of s)) in Hs. unfold slice_elements in Es. rewrite Es in Hs. now apply Forall_cons in Hs as [? _].
Qed.
End Embeddings.

(** ** A new agent is well formed *)

Lemma fallback_breaker_config_ok : config_ok fallback_breaker_config.
Proof.
  split; [cbn; lia|]. split; [|cbn; unfold int64_max; lia].
  fval (flit 55 100). fval (flit 35 100). destruct Hval as [F V], Hval0 as [F' V'].
  unfold thresholds_ok, in_unit. cbn [fallback_breaker_config DegradedThreshold FailingThreshold].
  rewrite V, V'. repeat split; auto; lra.
Qed.
Lemma NewSemanticBreaker_ok c : config_ok c -> exists sb, NewSemanticBreaker c = Some sb /\ sb_ok (WithStateChangeCallback sb true).
Proof.
  intros Hc. destruct (NewSemanticBreakerWithCalibN_ok c 20 Hc ltac:(lia)) as (sb & E & Hok & _).
  unfold NewSemanticBreakerWithCalibN in E. destruct (NewSemanticBreaker c) as [s|] eqn:Es; [|discriminate].
  exists s. split; [reflexivity|]. unfold NewSemanticBreaker in Es. destruct (make_slice f0 (WindowSize c)) as [l|]; [|discriminate].
  injection Es as <-. injection E as <-. exact Hok.
Qed.

Section Fresh.
Context {W : Type} (http_do : Z -> ApiCall -> W -> Exchange * W) (decode_error : string -> option string -> string)
  (ctx : nat -> option GoError) (w0 : W).

Lemma embed_provider_valid cfg : embed_valid (Embed (embed_provider http_do decode_error ctx w0 cfg)).
Proof.
  unfold embed_provider, chat_provider. repeat case_bool; try apply ollama_embed_valid; apply openai_embed_valid.
Qed.
Lemma newAgent_state_ok cfg w : 0 < Config.HistorySize (Config.cfg_Score cfg) <= 2 ^ 32 ->
  exists s, newAgent_state http_do decode_error ctx w0 cfg w = Some s /\ agent_ok s /\ world (os s) = w /\ totalRequests s = 0 /\
    chaos (os s) = NewChaos true /\ SemanticCache.Size (Orchestrator.sc (os s)) = 0 /\ tel_Costs (tel (os s)) = NewCostTracker.
Proof.
  intros Hh. unfold newAgent_state. destruct (NewSemanticBreaker_ok _ DefaultSBConfig_ok) as (ps & -> & Hps).
  destruct (NewSemanticBreaker_ok _ fallback_breaker_config_ok) as (fs & -> & Hfs). cbn [mbind option_bind].
  unfold NewStore, NewScoreHistory, make_slice. rewrite (proj2 (Z.leb_le 0 _)) by lia. cbn [mbind option_bind].
  eexists. split; [reflexivity|]. split; [|now repeat split]. split.
  - split; [split; assumption|]. split; [|split].
    + apply NewEvaluator_ok. intros f [= <-]. apply embed_provider_valid.
    + split; [|constructor]. split; [constructor|]. cbn. change (len []) with 0. lia.
    + intros t. unfold tracker_ok. cbn. now rewrite lookup_empty.
  - split; [|split; discriminate]. split; [|cbn; lia]. cbn. split; [apply len_replicate; lia|unfold int64_max; lia].
Qed.
End Fresh.

Lemma New_starts {W} `{Unicode} (http_do : Z -> ApiCall -> W -> Exchange * W) decode_error ctx w0 Getenv w :
  exists cfg s, New http_do decode_error ctx w0 Getenv w = Some (cfg, s) /\ Config.loaded cfg /\ agent_ok s /\
    totalRequests s = 0 /\ chaos (os s) = NewChaos true /\ SemanticCache.Size (Orchestrator.sc (os s)) = 0 /\ tel_Costs (tel (os s)) = NewCostTracker.
Proof.
  unfold New, Config.LoadFromEnv. set (cfg := Config.override_all _ Config.Defaults).
  assert (Hl : Config.loaded cfg) by apply Config.Load_loaded. rewrite (Config.loaded_valid cfg Hl).
  destruct (newAgent_state_ok http_do decode_error ctx w0 cfg w) as (s & -> & Hok & _ & Hrest);
    [rewrite (Config.loaded_Score cfg Hl); cbn; lia|].
  exists cfg, s. split; [reflexivity|]. split; [exact Hl|]. split; [exact Hok|]. exact Hrest.
Qed.

(** The tests' agent is well formed too. *)
Lemma NewWithOllamaURL_ok {W} (http_do : Z -> ApiCall -> W -> Exchange * W) decode_error ctx w0 url w :
  exists s c, NewWithOllamaURL http_do decode_error ctx w0 url w = Some (s, c) /\ agent_ok s /\ SemanticCache.Size c = 0.
Proof.
  unfold NewWithOllamaURL. cbv zeta. set (cfg := Config.with_Provider _ _).
  destruct (newAgent_state_ok http_do decode_error ctx w0 cfg w) as (s & -> & (Ho & Hh & Hn) & _); [vm_compute; split; [reflexivity|discriminate]|].
  eexists _, _. split; [reflexivity|]. split; [|reflexivity]. split; [exact Ho|]. split; [exact Hh|exact Hn].
Qed.

(** Every start is clean: whatever the environment, [New] does not
    panic, and the agent it builds satisfies the invariants all the other
    theorems ask for (breakers, evaluator, cache, latencies, score history),
    with nothing counted, killed or cached, and its providers keep the
    [Stream] contract, whichever backend was chosen. *)
Theorem New_well_formed {W} `{Unicode} (http_do : Z -> ApiCall -> W -> Exchange * W) decode_error ctx w0 Getenv w :
  exists cfg s, New http_do decode_error ctx w0 Getenv w = Some (cfg, s) /\ Config.Validate cfg = None /\ agent_ok s /\
    totalRequests s = 0 /\ chaos (os s) = NewChaos true /\ SemanticCache.Size (Orchestrator.sc (os s)) = 0 /\
    Forall (fun n => n = 0) (counters (tel_Costs (tel (os s)))) /\
    StreamContract (chat_provider http_do decode_error ctx w0 cfg) /\
    (forall c, StreamContract (wrapper_provider (degraded_wrapper (chat_provider http_do decode_error ctx w0 cfg) c))) /\
    primary_model cfg <> EmptyString /\ fallback_model cfg <> EmptyString.
Proof.
  destruct (New_starts http_do decode_error ctx w0 Getenv w) as (cfg & s & -> & Hl & Hok & H0 & Hc & Hs & Ht).
  exists cfg, s. split; [reflexivity|]. split; [exact (Config.loaded_valid cfg Hl)|]. do 4 (split; [assumption|]).
  split; [rewrite Ht; repeat constructor|].
  assert (Hchat : StreamContract (chat_provider http_do decode_error ctx w0 cfg)) by (unfold chat_provider; case_bool; typeclasses eauto).
  split; [exact Hchat|]. split; [typeclasses eauto|]. unfold primary_model, fallback_model, or_default.
  destruct (String.eqb_spec (Config.PrimaryModel (Config.cfg_Models cfg)) EmptyString); [now apply (Config.loaded_Primary cfg Hl) in e|].
  destruct (String.eqb_spec (Config.FallbackModel (Config.cfg_Models cfg)) EmptyString); [now apply (Config.loaded_Fallback cfg Hl) in e|]. auto.
Qed.
