(* ===== verification/Api.v ===== *)
(** * The HTTP API (api/handler.go, api/auth.go, the middlewares of api/ratelimit.go)

    The handlers work on [HState]: the agent's state, the rate limiters' table
    and the webhook dispatcher.  A request ([ApiRequest]) has been routed by
    net/http: it carries the values of its path and query, and [Register] is
    the table of patterns with the middlewares around each handler, outermost
    first.  A [Reply] is the status with the value or the text that is
    written; the texts of the event streams are in Wire.v, headers and
    deadlines are not modelled.  What answers "GET /metrics" and
    "GET /static/" is code of libraries (promhttp, [http.FileServer]), and so
    is the template engine behind the dashboard: the functions of [Pages].
    A chaos scenario is a goroutine that outlives the request that started it:
    [hs_scenarios] has the steps each one has before it.  The per-request
    parameters of the agent's parts: [order] of the range over the limiters,
    [raw_first] of [Compare], [client] of the chat stream. *)
From S2P Require Import Prelude Float64 GoStrings Evaluator Breaker Calculator Strconv Json Decode Provider Chaos Telemetry Memory Orchestrator Stream Guarded Tools Agent Toolset React Net WebhookUrl RateLimit Webhook Demo.
From S2P Require SemanticCache Config.
From Stdlib Require Import ZArith Lia String.
From stdpp Require Import base tactics list gmap strings.
#[local] Open Scope Z_scope.

Definition MaxPromptBytes : Z := 32 * 1024.

Record ApiRequest := mkRequest {
  req_http : HttpRequest; path_id : string; query_prompt : string; req_body : string;
}.

(** What a handler writes: [jsonError], [http.Error], a JSON value, events. *)
Inductive Payload :=
| JsonError (msg : string) | PlainText (msg : string)
| OkResponse (r : AgentResponse) | OkReact (r : ReactResponse) | OkCompare (p : ComparePair)
| OkSessions (l : list Session) | OkSession (s : Session)
| OkStatus (s : Status) | OkHistory (l : list ScorePoint) | OkResult (m : list (string * string))
| OkRequired (b : bool) | OkConfigured (url : option string)
| OkTrace (id prompt : string) (total : Z) (tier : option Tier) (steps : list TraceStep) (created : Z)
| Tokens (l : list StreamToken) | EventStream | Page (body : string).
Record Reply := mkReply { code : Z; payload : Payload }.
Definition jsonOK (p : Payload) : Reply := mkReply 200 p.
Definition jsonError (msg : string) (c : Z) : Reply := mkReply c (JsonError msg).
Definition http_Error (msg : string) (c : Z) : Reply := mkReply c (PlainText msg).
Definition result (msg : string) : Reply := jsonOK (OkResult [("result"%string, msg)]).

Definition validatePrompt (prompt : string) : option (Z * string) :=
  if String.eqb prompt EmptyString then Some (400, "prompt is required"%string)
  else if MaxPromptBytes <? slen prompt then Some (413, "prompt exceeds maximum size of " +:+ itoa MaxPromptBytes +:+ " bytes")
  else None.

Record chatRequest := mkChat { chat_Prompt : string; chat_SessionID : string }.
Definition into_chat : decoder chatRequest := into_struct
  [field "prompt" chat_Prompt (fun p r => mkChat p (chat_SessionID r)) into_string;
   field "session_id" chat_SessionID (fun i r => mkChat (chat_Prompt r) i) into_string]%string.
(** The body is read up to a limit. *)
Definition decode_chat (body : string) : option chatRequest :=
  r ← raw_first (str_take (Z.to_nat (MaxPromptBytes + 1024)) body); into_chat r (mkChat EmptyString EmptyString).
Definition into_hook : decoder string := into_struct [field "url" (fun u => u) (fun u _ => u) into_string]%string.

(** ** State *)

Record HState (W L : Type) := mkHState {
  hs_agent : AState W; hs_limits : gmap string (ipEntry L); hs_hook : WebhookDispatcher; hs_scenarios : list (list ScriptStep);
}.
Arguments mkHState {W L}.
Arguments hs_agent {W L}.
Arguments hs_limits {W L}.
Arguments hs_hook {W L}.
Arguments hs_scenarios {W L}.

(** The third-party handlers, with the status and the body they write, and
    [ExecuteTemplate]: the bytes it wrote and its error. *)
Record Pages (W : Type) := mkPages {
  metrics_page : ApiRequest -> W -> (Z * string) * W;
  static_page : ApiRequest -> W -> (Z * string) * W;
  dashboard_template : W -> (string * option string) * W;
}.
Arguments mkPages {W}.
Arguments metrics_page {W}.
Arguments static_page {W}.
Arguments dashboard_template {W}.

(** The handlers' fixed parts. *)
Record Handler (W L : Type) := mkHandler {
  h_agent : Agent W;
  h_cfg : Config.Config;
  h_embed : option Embedder;
  NewWindow : Z -> Z -> L;
  AllowWindow : Z -> L -> bool * L;
  h_tool_breaker : string -> Guard W;
  h_tools : list (Tool (AState W) ToolArgs);
  url_parse : string -> string + (string * string);
  lookup_ip : string -> option (list IP);
  h_pages : Pages W;
}.
Arguments mkHandler {W L}.
Arguments h_agent {W L}.
Arguments h_cfg {W L}.
Arguments h_embed {W L}.
Arguments NewWindow {W L}.
Arguments AllowWindow {W L}.
Arguments h_tool_breaker {W L}.
Arguments h_tools {W L}.
Arguments url_parse {W L}.
Arguments lookup_ip {W L}.
Arguments h_pages {W L}.

Section Handlers.
Context {W L : Type} `{Unicode} `{Printable} `{FloatToInt} (h : Handler W L).
Context (order : gmap string (ipEntry L) -> list (string * ipEntry L)) (raw_first : bool) (client : Client).
Notation HS := (HState W L).
Notation P := (Prog HS).
Notation a := (h_agent h).

Definition with_agent (s : AState W) (x : HS) : HS := mkHState s (hs_limits x) (hs_hook x) (hs_scenarios x).
Definition with_limits (m : gmap string (ipEntry L)) (x : HS) : HS := mkHState (hs_agent x) m (hs_hook x) (hs_scenarios x).
Definition with_hook (d : WebhookDispatcher) (x : HS) : HS := mkHState (hs_agent x) (hs_limits x) d (hs_scenarios x).
Definition with_scenarios (l : list (list ScriptStep)) (x : HS) : HS := mkHState (hs_agent x) (hs_limits x) (hs_hook x) l.
Definition on_agent {A} (m : Prog (AState W) A) : P A := fun x => '(r, s) ← m (hs_agent x); Some (r, with_agent s x).

(** ** Authentication and rate limits *)

Definition AuthEnabled : bool := negb (String.eqb (Config.AuthToken (h_cfg h)) EmptyString).
Definition bearer_prefix : string := "Bearer ".
Definition requireAuth (next : ApiRequest -> P Reply) (r : ApiRequest) : P Reply :=
  let token := Config.AuthToken (h_cfg h) in
  if String.eqb token EmptyString then next r
  else
    let auth := Header (req_http r) "Authorization" in
    if negb (String.prefix bearer_prefix auth) then mret (http_Error "missing or invalid Authorization header" 401)
    else if negb (String.eqb (str_drop (String.length bearer_prefix) auth) token) then mret (http_Error "invalid token" 401)
    else next r.

Definition trusted_proxies : list IPNet := loadTrustedProxies (Config.TrustedProxies (h_cfg h)).
(** [middleware] and [compareMiddleware]. *)
Definition limited (compare : bool) (next : ApiRequest -> P Reply) (r : ApiRequest) : P Reply :=
  now ← on_agent (now_ a); now' ← on_agent (now_ a);
  x ← get_st;
  let check := if compare then allow_compare (NewWindow h) (AllowWindow h) else allow (NewWindow h) (AllowWindow h) in
  let '(allowed, m) := check now now' (order (hs_limits x)) (clientIPFor trusted_proxies (req_http r)) (hs_limits x) in
  _ ← update_st (with_limits m);
  if allowed : bool then next r else mret (http_Error "rate limit exceeded" 429).

(** ** Chat *)

(** The prompt of a request body, or the reply that refuses it. *)
Definition chat_body (r : ApiRequest) : Reply + chatRequest :=
  match decode_chat (req_body r) with
  | None => inl (jsonError "invalid request body" 400)
  | Some c => match validatePrompt (chat_Prompt c) with Some (status, msg) => inl (jsonError msg status) | None => inr c end
  end.
Definition request_failed : Reply := jsonError "request failed" 500.

Definition chat (r : ApiRequest) : P Reply :=
  match chat_body r with
  | inl reply => mret reply
  | inr c =>
      let batch := String.eqb (Header (req_http r) "X-Priority") "batch" in
      '(resp, err) ← on_agent (if batch then AskBatch a (chat_Prompt c) else Ask a (chat_Prompt c));
      mret (match err with Some _ => request_failed | None => jsonOK (OkResponse resp) end)
  end.

Definition done_token (tier : Tier) : StreamToken := mkToken EmptyString true tier false EmptyString.
Definition chatStream (r : ApiRequest) : P Reply :=
  match validatePrompt (query_prompt r) with
  | Some (status, msg) => mret (http_Error msg status)
  | None =>
      '(tier, gone, tokens) ← on_agent (lift_os (StreamWithQualityGate (orch a) client (query_prompt r)));
      mret (jsonOK (Tokens (tokens ++ if gone : bool then [] else [done_token tier])))
  end.

(** Since Go 1.24 crypto/rand.Read returns no error (go.mod asks for 1.25):
    the branch with the tagged timestamp is dead. *)
Definition generateSessionID : P string := b ← on_agent (read_random a); mret ("s" +:+ Sha256.hex b).
Definition react (r : ApiRequest) : P Reply :=
  match chat_body r with
  | inl reply => mret reply
  | inr c =>
      let id := if String.eqb (chat_SessionID c) EmptyString then Header (req_http r) "X-Session-ID" else chat_SessionID c in
      id ← (if String.eqb id EmptyString then generateSessionID else mret id);
      resp ← on_agent (React a (Some (h_cfg h)) (h_tool_breaker h) (h_tools h) (h_tools h) (chat_Prompt c) id);
      mret (jsonOK (OkReact resp))
  end.

(** ** Sessions, traces, status, health *)

Definition listSessions (r : ApiRequest) : P Reply :=
  x ← get_st; mret (jsonOK (OkSessions (List_sessions (Sessions (mem (hs_agent x)))))).
Definition getSession (r : ApiRequest) : P Reply :=
  x ← get_st;
  mret (match Get_session (path_id r) (Sessions (mem (hs_agent x))) with
        | None => jsonError "session not found" 404
        | Some s => jsonOK (OkSession s)
        end).
Definition deleteSession (r : ApiRequest) : P Reply :=
  _ ← on_agent (update_st (fun s => with_mem (with_sessions (Memory.Delete (path_id r) (Sessions (mem s))) (mem s)) s));
  mret (result "deleted").
Definition getTrace (r : ApiRequest) : P Reply :=
  x ← get_st;
  mret (match Get_trace (path_id r) (Traces (mem (hs_agent x))) with
        | None => jsonError "trace not found" 404
        | Some t => jsonOK (OkTrace (tr_ID t) (if AuthEnabled then tr_Prompt t else EmptyString) (TotalMS t) (FinalTier t) (Steps t) (CreatedAt t))
        end).
Definition get_status (r : ApiRequest) : P Reply := st ← on_agent (status a); mret (jsonOK (OkStatus st)).
Definition scoreHistory (r : ApiRequest) : P Reply :=
  l ← query_st (fun x => Snapshot_history (History (mem (hs_agent x)))); mret (jsonOK (OkHistory l)).
Definition healthLive (r : ApiRequest) : P Reply := mret (jsonOK (OkResult [("status", "alive")]%string)).
Definition agent_Ping : P (option string) := fun x =>
  let '(err, w) := Ping (primary (orch a)) (world (os (hs_agent x))) in
  Some (option_map (fun e => Name (primary (orch a)) +:+ " provider unreachable: " +:+ err_msg e) err, with_agent (putw w (hs_agent x)) x).
Definition healthReady (r : ApiRequest) : P Reply :=
  err ← agent_Ping;
  mret (match err with Some msg => jsonError msg 503 | None => jsonOK (OkResult [("status", "ready")]%string) end).

(** ** Demo controls *)

Definition killPrimary (r : ApiRequest) : P Reply := _ ← on_agent (Agent_KillPrimary a); mret (result "primary model killed").
Definition restorePrimary (r : ApiRequest) : P Reply := _ ← on_agent Agent_RestorePrimary; mret (result "primary model restored").
Definition killFallback (r : ApiRequest) : P Reply := _ ← on_agent (Agent_KillFallback a); mret (result "fallback model killed").
Definition restoreFallback (r : ApiRequest) : P Reply := _ ← on_agent Agent_RestoreFallback; mret (result "fallback model restored").
Definition enableDegrade (r : ApiRequest) : P Reply :=
  _ ← on_agent (EnableDegradeMode a); mret (result "degrade mode ON — primary returns low-quality responses").
Definition disableDegrade (r : ApiRequest) : P Reply :=
  _ ← on_agent DisableDegradeMode; mret (result "degrade mode OFF — primary restored").
Definition compare (r : ApiRequest) : P Reply :=
  match chat_body r with
  | inl reply => mret reply
  | inr c => p ← on_agent (Compare a (h_embed h) raw_first (chat_Prompt c)); mret (jsonOK (OkCompare p))
  end.
Definition chaos_conflict : Reply := jsonError "chaos scenario already running" 409.
(** [StartChaos]: the goroutine and its channel outlive the request. *)
Definition start_scenario : P bool :=
  x ← get_st;
  let '(started, c) := TryStart (chaos (os (hs_agent x))) in
  if started : bool then
    _ ← on_agent (update_chaos (fun _ => c)); _ ← update_st (fun x => with_scenarios (hs_scenarios x ++ [RunChaos]) x); mret true
  else mret false.
Definition startChaos (r : ApiRequest) : P Reply :=
  started ← start_scenario;
  mret (if started : bool then result "chaos scenario started — stream at /demo/chaos/stream" else chaos_conflict).
(** The stream is open; what its loop writes of the scenario's events is
    [chaos_loop] of Wire.v. *)
Definition chaosStream (r : ApiRequest) : P Reply :=
  started ← start_scenario; mret (if started : bool then jsonOK EventStream else chaos_conflict).

(** ** Webhook configuration *)

Definition setWebhook (r : ApiRequest) : P Reply :=
  match d ← Decode.raw_first (req_body r); into_hook d EmptyString with
  | None | Some EmptyString => mret (jsonError "url is required" 400)
  | Some url =>
      match validateWebhookURL (url_parse h) (lookup_ip h) url (h_cfg h) with
      | Some err => mret (jsonError err 400)
      | None => _ ← update_st (fun x => with_hook (SetURL url (hs_hook x)) x);
                mret (jsonOK (OkResult [("result", "webhook configured"); ("url", url)]%string))
      end
  end.
Definition getWebhook (r : ApiRequest) : P Reply :=
  x ← get_st;
  let url := URL (hs_hook x) in
  mret (jsonOK (OkConfigured (if String.eqb url EmptyString then None else Some url))).
Definition clearWebhook (r : ApiRequest) : P Reply :=
  _ ← update_st (fun x => with_hook (ClearURL (hs_hook x)) x); mret (result "webhook cleared").
Definition authRequired (r : ApiRequest) : P Reply := mret (jsonOK (OkRequired AuthEnabled)).

(** ** The dashboard and the handlers of libraries *)

Definition in_world {A} (f : W -> A * W) : P A := fun x => let '(y, w) := f (world (os (hs_agent x))) in Some (y, with_agent (putw w (hs_agent x)) x).
(** [http.Error] after a part of the page has been written: the status is out,
    the text follows. *)
Definition dashboard (r : ApiRequest) : P Reply :=
  '(written, err) ← in_world (dashboard_template (h_pages h));
  mret (match err with
        | None => jsonOK (Page written)
        | Some _ => if String.eqb written EmptyString then http_Error "internal error" 500
                    else jsonOK (Page (written +:+ "internal error" +:+ nl))
        end).
Definition library_page (f : ApiRequest -> W -> (Z * string) * W) (r : ApiRequest) : P Reply :=
  '(status, body) ← in_world (f r); mret (mkReply status (Page body)).

(** ** The routes *)

Inductive Middleware := Limit | CompareLimit | Auth.
Definition around (m : Middleware) (next : ApiRequest -> P Reply) : ApiRequest -> P Reply :=
  match m with Limit => limited false next | CompareLimit => limited true next | Auth => requireAuth next end.

Record RouteEntry := mkRoute { pattern : string; wrappers : list Middleware; handler : ApiRequest -> P Reply }.
Definition Register : list RouteEntry := [
  mkRoute "POST /chat" [Limit] chat;
  mkRoute "GET /chat/stream" [Limit] chatStream;
  mkRoute "POST /react" [Limit] react;
  mkRoute "GET /sessions" [Auth] listSessions;
  mkRoute "GET /sessions/{id}" [Auth] getSession;
  mkRoute "DELETE /sessions/{id}" [Auth] deleteSession;
  mkRoute "GET /status" [] get_status;
  mkRoute "GET /score/history" [] scoreHistory;
  mkRoute "GET /health" [] healthReady;
  mkRoute "GET /health/live" [] healthLive;
  mkRoute "GET /health/ready" [] healthReady;
  mkRoute "GET /metrics" [] (library_page (metrics_page (h_pages h)));
  mkRoute "POST /demo/compare" [CompareLimit] compare;
  mkRoute "POST /demo/kill" [CompareLimit; Auth] killPrimary;
  mkRoute "POST /demo/restore" [CompareLimit; Auth] restorePrimary;
  mkRoute "POST /demo/kill-fallback" [CompareLimit; Auth] killFallback;
  mkRoute "POST /demo/restore-fallback" [CompareLimit; Auth] restoreFallback;
  mkRoute "POST /demo/chaos" [CompareLimit; Auth] startChaos;
  mkRoute "GET /demo/chaos/stream" [CompareLimit; Auth] chaosStream;
  mkRoute "POST /demo/degrade" [CompareLimit; Auth] enableDegrade;
  mkRoute "POST /demo/restore-quality" [CompareLimit; Auth] disableDegrade;
  mkRoute "GET /auth/required" [] authRequired;
  mkRoute "GET /trace/{id}" [Auth] getTrace;
  mkRoute "POST /config/webhook" [Auth] setWebhook;
  mkRoute "GET /config/webhook" [Auth] getWebhook;
  mkRoute "DELETE /config/webhook" [Auth] clearWebhook;
  mkRoute "GET /" [] dashboard;
  mkRoute "GET /static/" [] (library_page (static_page (h_pages h))) ]%string.
Definition serve (e : RouteEntry) : ApiRequest -> P Reply := foldr around (handler e) (wrappers e).
(** The routes whose whole answer is a library's. *)
Definition library_route (e : RouteEntry) : option (ApiRequest -> W -> (Z * string) * W) :=
  if String.eqb (pattern e) "GET /metrics" then Some (metrics_page (h_pages h))
  else if String.eqb (pattern e) "GET /static/" then Some (static_page (h_pages h)) else None.
End Handlers.

(** ** Every handler answers from a well-formed state *)

(** The agent is well formed, and the webhook goes nowhere or to a URL that
    passed validation, with at most 32 posts at once. *)
Definition hook_target `{Unicode} `{Printable} {W L} (h : Handler W L) (u : string) : Prop :=
  u = EmptyString \/ validateWebhookURL (url_parse h) (lookup_ip h) u (h_cfg h) = None.
Definition hook_valid `{Unicode} `{Printable} {W L} (h : Handler W L) (d : WebhookDispatcher) : Prop :=
  hook_ok d /\ hook_target h (URL d).
Definition hs_ok `{Unicode} `{Printable} {W L} (h : Handler W L) (x : HState W L) : Prop :=
  agent_ok (hs_agent x) /\ hook_valid h (hs_hook x).
(** The statuses the API answers with. *)
Definition statuses : list Z := [200; 400; 401; 404; 409; 413; 429; 500; 503].

(** What the handlers rely on. *)
Class HandlerLaws {W L} `{Unicode} (h : Handler W L) : Prop := {
  handler_agent : AgentLaws (h_agent h);
  handler_breakers : forall n, CallsOnce (h_tool_breaker h n);
  handler_tools : Forall SafeTool (h_tools h);
  handler_embed : forall f, h_embed h = Some f -> embed_valid f;
  handler_primary : StreamContract (primary (orch (h_agent h)));
  handler_fallback : StreamContract (fallback (orch (h_agent h)));
  handler_chunks : forall prompt w, len (chunks_of (primary_out (orch (h_agent h)) prompt w).1.1) <= int64_max;
}.
#[export] Existing Instances handler_agent handler_primary handler_fallback.

Section Facts.
Context {W L : Type} `{Unicode} `{Printable} `{FloatToInt} (h : Handler W L) {Hlaws : HandlerLaws h}.
Context (order : gmap string (ipEntry L) -> list (string * ipEntry L)) (raw_first : bool) (client : Client).
Notation HS := (HState W L).
Notation a := (h_agent h).
Implicit Types (x : HS).

Lemma on_agent_runs {A} (m : Prog (AState W) A) x (Q : A -> HS -> Prop) :
  runs m (hs_agent x) (fun r s => Q r (with_agent s x)) -> runs (on_agent m) x Q.
Proof. intros (r & s & E & HQ). exists r, (with_agent s x). unfold on_agent. rewrite E. auto. Qed.
Definition answers_ok (reply : Reply) (x : HS) : Prop := hs_ok h x /\ In (code reply) statuses.
Lemma keep_agent s x : hs_ok h x -> agent_ok s -> hs_ok h (with_agent s x).
Proof. intros [_ Hh] Hs. now split. Qed.
Lemma answers_ret reply x : hs_ok h x -> In (code reply) statuses -> runs (mret reply) x answers_ok.
Proof. intros Hx Hc. apply runs_ret. now split. Qed.

Lemma chat_body_refused r reply : chat_body r = inl reply -> In (code reply) statuses.
Proof.
  unfold chat_body, validatePrompt. intros E. destruct (decode_chat (req_body r)) as [c|]; [|injection E as <-; cbn; auto].
  destruct (String.eqb (chat_Prompt c) EmptyString); [injection E as <-; cbn; auto|].
  destruct (MaxPromptBytes <? slen (chat_Prompt c)); [injection E as <-; cbn; auto 10|discriminate].
Qed.
Lemma chat_ok r x : hs_ok h x -> runs (chat h r) x answers_ok.
Proof.
  intros Hx. unfold chat. destruct (chat_body r) as [reply|c] eqn:E; [apply answers_ret; [exact Hx|now apply chat_body_refused in E]|].
  apply runs_bind, on_agent_runs.
  replace (if String.eqb (Header (req_http r) "X-Priority") "batch" then AskBatch a (chat_Prompt c) else Ask a (chat_Prompt c))
    with (ask a (chat_Prompt c) (String.eqb (Header (req_http r) "X-Priority") "batch")) by now destruct (String.eqb _ "batch").
  eapply runs_mono; [apply (ask_runs a), Hx|]. intros [resp err] s Hpost.
  apply answers_ret; [apply keep_agent; [exact Hx|exact (ask_post_ok a _ _ _ _ Hpost (proj1 Hx))]|destruct err; cbn; auto 10].
Qed.
Lemma chatStream_ok r x : hs_ok h x -> runs (chatStream h client r) x answers_ok.
Proof.
  intros Hx. pose proof Hx as [[Ho Hh] _]. unfold chatStream. destruct (validatePrompt (query_prompt r)) as [[st msg]|] eqn:E.
  { apply answers_ret; [exact Hx|]. unfold validatePrompt in E. repeat case_match; simplify_eq; cbn; auto 10. }
  apply runs_bind, on_agent_runs, runs_lift.
  destruct (stream_runs (orch a) client (query_prompt r) (os (hs_agent x))) as (usable & s1 & s2 & Ec & Es & Eb & Ee & Esc & Et & _);
    [apply handler_chunks|].
  eexists _, s2. split; [exact Es|]. apply answers_ret; [|cbn; auto].
  apply keep_agent; [exact Hx|]. split; [|exact Hh]. destruct Ho as (Hb & He & Hsc & Hl). cbn [os with_os].
  unfold orch_ok. rewrite Eb, Ee, Esc, Et. split; [|auto].
  destruct (canUsePrimary_runs (orch a) (os (hs_agent x))) as (u & s1' & Ec' & _ & _ & _ & _ & _ & _ & Hbr). rewrite Ec in Ec'. injection Ec' as <- <-.
  destruct Hbr as [->|(t & sb & Hs & ->)]; [exact Hb|]. apply set_semantic_ok; [exact Hb|].
  pose proof (ShouldBlock_ok t _ (proj1 Hb)) as Hsb. now rewrite Hs in Hsb.
Qed.
Lemma react_ok r x : hs_ok h x -> runs (react h r) x answers_ok.
Proof.
  intros Hx. unfold react. destruct (chat_body r) as [reply|c] eqn:E; [apply answers_ret; [exact Hx|now apply chat_body_refused in E]|].
  cbv zeta. assert (Hid : runs (if String.eqb (if String.eqb (chat_SessionID c) EmptyString then Header (req_http r) "X-Session-ID" else chat_SessionID c) EmptyString
    then generateSessionID h else mret (if String.eqb (chat_SessionID c) EmptyString then Header (req_http r) "X-Session-ID" else chat_SessionID c)) x
    (fun _ x' => hs_ok h x')).
  { case_bool; [|now apply runs_ret]. unfold generateSessionID. apply runs_bind, on_agent_runs. unfold runs at 1, read_random.
    destruct (random_bytes a _) as [b w]. eexists _, _. split; [reflexivity|]. apply runs_ret, keep_agent; [exact Hx|]. apply agent_ok_putw, Hx. }
  apply runs_bind. eapply runs_mono; [exact Hid|]. intros id x1 Hx1. apply runs_bind, on_agent_runs.
  eapply runs_mono; [apply (React_runs a); [apply handler_breakers|apply handler_tools|apply Hx1]|].
  intros resp s (s0 & t & _ & _ & _ & _ & _ & Hok & _). apply answers_ret; [now apply keep_agent|cbn; auto].
Qed.
Lemma status_ok r x : hs_ok h x -> runs (get_status h r) x answers_ok.
Proof.
  intros Hx. apply runs_bind, on_agent_runs. eapply runs_mono; [apply (status_runs a), Hx|].
  intros st s (_ & _ & _ & _ & _ & Hok). apply answers_ret; [now apply keep_agent|cbn; auto].
Qed.
Lemma scoreHistory_ok r x : hs_ok h x -> runs (scoreHistory (W := W) (L := L) r) x answers_ok.
Proof.
  intros Hx. pose proof Hx as [(_ & Hh & _) _]. apply runs_bind. exists (history (History (mem (hs_agent x)))), x. unfold query_st.
  rewrite Snapshot_history_spec by exact Hh. split; [reflexivity|]. apply answers_ret; [exact Hx|cbn; auto].
Qed.
Lemma healthReady_ok r x : hs_ok h x -> runs (healthReady h r) x answers_ok.
Proof.
  intros Hx. apply runs_bind. unfold runs at 1, agent_Ping. destruct (Ping _ _) as [err w]. eexists _, _. split; [reflexivity|].
  apply answers_ret; [apply keep_agent; [exact Hx|apply agent_ok_putw, Hx]|destruct err; cbn; auto 10].
Qed.
(** The handlers that only read, and those that only throw a switch. *)
Lemma getSession_ok r x : hs_ok h x -> runs (getSession r) x answers_ok.
Proof. intros Hx. apply runs_bind, runs_get, answers_ret; [exact Hx|]. destruct (Get_session _ _); cbn; auto 10. Qed.
Lemma getTrace_ok r x : hs_ok h x -> runs (getTrace h r) x answers_ok.
Proof. intros Hx. apply runs_bind, runs_get, answers_ret; [exact Hx|]. destruct (Get_trace _ _); cbn; auto 10. Qed.
Lemma switch_ok (m : Prog (AState W) unit) msg x : hs_ok h x ->
  runs m (hs_agent x) (fun _ s => exists c w, s = with_os (with_chaos c (with_world w (os (hs_agent x)))) (hs_agent x)) ->
  runs (_ ← on_agent m; mret (result msg)) x answers_ok.
Proof.
  intros Hx Hm. apply runs_bind, on_agent_runs. eapply runs_mono; [exact Hm|]. intros _ s (c & w & ->).
  apply answers_ret; [|cbn; auto]. apply keep_agent; [exact Hx|]. destruct Hx as [[Ho Hh] _]. now split.
Qed.
Lemma kill_runs f (s : AState W) : runs (kill a f) s (fun _ s' => exists c w, s' = with_os (with_chaos c (with_world w (os s))) s).
Proof. apply runs_bind, now_runs_. intros t w. apply runs_update. now exists (f t (chaos (os s))), w. Qed.
Lemma update_chaos_runs f (s : AState W) : runs (update_chaos f) s (fun _ s' => exists c w, s' = with_os (with_chaos c (with_world w (os s))) s).
Proof. apply runs_update. exists (f (chaos (os s))), (world (os s)). reflexivity. Qed.
Lemma start_scenario_runs x (Q : bool -> HS -> Prop) :
  (IsRunning (chaos (os (hs_agent x))) = true -> Q false x) ->
  (forall c x', IsRunning (chaos (os (hs_agent x))) = false -> TryStart (chaos (os (hs_agent x))) = (true, c) ->
     x' = with_scenarios (hs_scenarios x ++ [RunChaos]) (with_agent (with_os (with_chaos c (os (hs_agent x))) (hs_agent x)) x) -> Q true x') ->
  runs (start_scenario (W := W) (L := L)) x Q.
Proof.
  intros Hf Ht. apply runs_bind, runs_get. unfold TryStart, IsRunning in *. destruct (chaosRunning _); [now apply runs_ret, Hf|].
  apply runs_bind, on_agent_runs, runs_update, runs_bind, runs_update, runs_ret. now eapply Ht.
Qed.
Lemma start_scenario_ok x : hs_ok h x -> runs (start_scenario (W := W) (L := L)) x (fun _ x' => hs_ok h x').
Proof.
  intros Hx. apply start_scenario_runs; [auto|]. intros c x' _ _ ->. destruct Hx as [[Ho Hh] Hk]. split; [now split|exact Hk].
Qed.
Lemma startChaos_ok r x : hs_ok h x -> runs (startChaos (W := W) (L := L) r) x answers_ok.
Proof.
  intros Hx. apply runs_bind. eapply runs_mono; [now apply start_scenario_ok|]. intros [|] x' Hx'; (apply answers_ret; [exact Hx'|cbn; auto 10]).
Qed.
Lemma chaosStream_ok r x : hs_ok h x -> runs (chaosStream (W := W) (L := L) r) x answers_ok.
Proof.
  intros Hx. apply runs_bind. eapply runs_mono; [now apply start_scenario_ok|]. intros [|] x' Hx'; (apply answers_ret; [exact Hx'|cbn; auto 10]).
Qed.
Lemma in_world_runs {A} (f : W -> A * W) x (Q : A -> HS -> Prop) :
  (forall w, (f (world (os (hs_agent x)))).2 = w -> Q (f (world (os (hs_agent x)))).1 (with_agent (putw w (hs_agent x)) x)) -> runs (in_world f) x Q.
Proof. intros HQ. unfold runs, in_world. destruct (f _) as [y w]. eexists _, _. split; [reflexivity|]. now apply HQ. Qed.
Lemma hs_ok_putw w x : hs_ok h x -> hs_ok h (with_agent (putw w (hs_agent x)) x).
Proof. intros Hx. apply keep_agent; [exact Hx|]. apply agent_ok_putw, Hx. Qed.
Lemma dashboard_ok r x : hs_ok h x -> runs (dashboard h r) x answers_ok.
Proof.
  intros Hx. apply runs_bind, in_world_runs. intros w _. apply hs_ok_putw with (w := w) in Hx. destruct (dashboard_template _ _).1 as [written [err|]];
    [case_bool|]; (apply answers_ret; [exact Hx|cbn; auto 10]).
Qed.
Lemma setWebhook_ok r x : hs_ok h x -> runs (setWebhook h r) x answers_ok.
Proof.
  intros Hx. unfold setWebhook. destruct (_ ≫= _) as [[|c u]|]; try (apply answers_ret; [exact Hx|cbn; auto 10]).
  destruct (validateWebhookURL _ _ _ _) as [err|] eqn:E; [apply answers_ret; [exact Hx|cbn; auto 10]|].
  apply runs_bind, runs_update, answers_ret; [|cbn; auto]. split; [apply Hx|]. split; [apply Hx|now right].
Qed.
Lemma compare_ok r x : hs_ok h x -> runs (compare h raw_first r) x answers_ok.
Proof.
  intros Hx. unfold compare.
  destruct (chat_body r) as [reply|c] eqn:E; [apply answers_ret; [exact Hx|now apply chat_body_refused in E]|].
  apply runs_bind, on_agent_runs. eapply runs_mono; [apply (Compare_runs a); [apply Hx|apply handler_embed]|].
  intros p s (resp & err & raw & e & e' & _ & Hpost & _).
  apply answers_ret; [apply keep_agent; [exact Hx|exact (ask_post_ok a _ _ _ _ Hpost (proj1 Hx))]|cbn; auto].
Qed.

Lemma ok_world x w m : hs_ok h x -> hs_ok h (with_limits m (with_agent (putw w (hs_agent x)) x)).
Proof. intros [Ha Hh]. split; [now apply agent_ok_putw|exact Hh]. Qed.

Lemma limited_ok b next r x : (forall x, hs_ok h x -> runs (next r) x answers_ok) -> hs_ok h x ->
  runs (limited h order b next r) x answers_ok.
Proof.
  intros Hn Hx. unfold limited. apply runs_bind, on_agent_runs, now_runs_. intros t w. apply runs_bind, on_agent_runs, now_runs_. intros t' w'.
  apply runs_bind, runs_get. cbv zeta. match goal with |- context [let '(_, _) := ?p in _] => destruct p as [ok m] end.
  apply runs_bind, runs_update. pose proof (ok_world x w' m Hx) as Hx'.
  destruct ok; [now apply Hn|apply answers_ret; [exact Hx'|cbn; auto 10]].
Qed.
Lemma requireAuth_ok next r x : runs (next r) x answers_ok -> hs_ok h x -> runs (requireAuth h next r) x answers_ok.
Proof.
  intros Hn Hx. unfold requireAuth. destruct (String.eqb _ EmptyString); [exact Hn|].
  destruct (negb (String.prefix _ _)); [apply answers_ret; [exact Hx|cbn; auto 10]|].
  destruct (negb (String.eqb _ _)); [apply answers_ret; [exact Hx|cbn; auto 10]|exact Hn].
Qed.
Lemma handlers_ok : Forall (fun e => library_route h e = None -> forall r x, hs_ok h x -> runs (handler e r) x answers_ok)
  (Register h raw_first client).
Proof.
  assert (Hread : forall (f : HS -> Payload) (r : ApiRequest) x, hs_ok h x -> runs (x ← get_st; mret (jsonOK (f x))) x answers_ok).
  { intros f r x Hx. apply runs_bind, runs_get, answers_ret; [apply Hx|cbn; auto]. }
  assert (Hpage : forall p x, hs_ok h x -> runs (mret (jsonOK p)) x answers_ok) by (intros; apply answers_ret; [assumption|cbn; auto]).
  assert (Hsw : forall f msg (r : ApiRequest) x, hs_ok h x -> runs (_ ← on_agent (kill a f); mret (result msg)) x answers_ok).
  { intros f msg r x Hx. apply switch_ok; [apply Hx|apply kill_runs]. }
  assert (Hsw' : forall f msg (r : ApiRequest) x, hs_ok h x -> runs (_ ← on_agent (update_chaos f); mret (result msg)) x answers_ok).
  { intros f msg r x Hx. apply switch_ok; [apply Hx|apply update_chaos_runs]. }
  unfold Register. repeat (apply Forall_cons; split); try apply Forall_nil_2; cbn [handler]; intros Hlib r x Hx; try discriminate Hlib; clear Hlib;
    unfold killPrimary, restorePrimary, killFallback, restoreFallback, enableDegrade, disableDegrade,
      Agent_KillPrimary, Agent_RestorePrimary, Agent_KillFallback, Agent_RestoreFallback, EnableDegradeMode, DisableDegradeMode;
    first [now apply chat_ok | now apply chatStream_ok | now apply react_ok | now apply getSession_ok | now apply status_ok
          | now apply scoreHistory_ok | now apply healthReady_ok | now apply Hpage | now apply compare_ok | now apply startChaos_ok
          | now apply chaosStream_ok | now apply getTrace_ok | now apply setWebhook_ok | now apply dashboard_ok
          | exact (Hsw _ _ r x Hx) | exact (Hsw' _ _ r x Hx) | exact (Hread _ r x Hx) | idtac ].
  apply runs_bind, runs_update, answers_ret; [|cbn; auto]. split; [apply Hx|]. split; [apply Hx|now left].
Qed.
(** The library's answer, and nothing in front of it. *)
Lemma library_handler e f : In e (Register h raw_first client) -> library_route h e = Some f ->
  wrappers e = [] /\ handler e = library_page f.
Proof.
  intros He Hf. assert (Hall : Forall (fun e => forall f, library_route h e = Some f -> wrappers e = [] /\ handler e = library_page f) (Register h raw_first client)).
  { unfold Register. repeat (apply Forall_cons; split); try apply Forall_nil_2; intros f' E; try discriminate E; injection E as <-; split; reflexivity. }
  rewrite Forall_forall in Hall. apply (Hall e); [now apply list_elem_of_In|exact Hf].
Qed.
Lemma library_runs e f r x : In e (Register h raw_first client) -> library_route h e = Some f ->
  runs (serve h order e r) x (fun reply x' => reply = mkReply (f r (world (os (hs_agent x)))).1.1 (Page (f r (world (os (hs_agent x)))).1.2) /\
    exists w, x' = with_agent (putw w (hs_agent x)) x).
Proof.
  intros He Hf. destruct (library_handler e f He Hf) as [Hw Hh]. unfold serve. rewrite Hw, Hh. cbn [foldr].
  apply runs_bind, in_world_runs. intros w _. destruct (f r _).1 as [status body]. apply runs_ret. eauto.
Qed.
Lemma serve_ok e r x : In e (Register h raw_first client) -> hs_ok h x ->
  runs (serve h order e r) x (fun reply x' => hs_ok h x' /\ match library_route h e with
    | None => In (code reply) statuses
    | Some f => reply = mkReply (f r (world (os (hs_agent x)))).1.1 (Page (f r (world (os (hs_agent x)))).1.2)
    end).
Proof.
  intros He Hx. destruct (library_route h e) as [f|] eqn:Hlib.
  { eapply runs_mono; [exact (library_runs e f r x He Hlib)|]. intros reply x' [-> [w ->]]. split; [now apply hs_ok_putw|done]. }
  pose proof handlers_ok as Hall. rewrite Forall_forall in Hall. specialize (Hall e (proj2 (list_elem_of_In _ _) He) Hlib).
  change (runs (serve h order e r) x answers_ok).
  unfold serve. clear Hlib He. revert x Hx. induction (wrappers e) as [|m ms IH]; intros x Hx; cbn [foldr]; [now apply Hall|].
  destruct m; cbn [around]; [apply limited_ok; auto..|]. apply requireAuth_ok; [now apply IH|apply Hx].
Qed.
End Facts.
