(* ===== verification/Wire.v ===== *)
(** * What goes over the connection (api/handler.go)

    The JSON of the tokens, events, answers and errors, and the loop that
    writes the chat stream as server-sent events: each token is a [data:]
    line, a comment every fifteen seconds keeps the connection alive, and the
    request's deadline ends it.  Which of the three a [select] takes is the
    list of [Pick]s.  [read_stream] is a reader of such a text: its events,
    decoded.  The encoder escapes as encoding/json does (Json.v), so a payload
    is one line. *)
From S2P Require Import Prelude Float64 GoStrings Utf8 Lines Strconv Json Decode Evaluator Breaker Provider Chaos Telemetry Memory Orchestrator Stream Agent React Net RateLimit Webhook Demo Backends Wiring Api.
From Stdlib Require Import ZArith Lia String Ascii.
From stdpp Require Import base tactics list strings.
#[local] Open Scope Z_scope.

(** ** JSON documents *)

Definition omit_empty (name s : string) : list (string * jvalue) := if String.eqb s EmptyString then [] else [(name, JStr s)].
Definition omit_false (name : string) (b : bool) : list (string * jvalue) := if b then [(name, JBool true)] else [].
Definition token_doc (t : StreamToken) : jvalue :=
  JObj (omit_empty "token" (Token t) ++ omit_false "done" (Done t) ++ [("tier"%string, JStr (tier_text (Some (tok_Tier t))))] ++
    omit_false "switched" (Switched t) ++ omit_empty "reason" (Reason t)).
Definition answer_doc (r : AgentResponse) : jvalue :=
  JObj ([("text", JStr (ans_Text r)); ("tier", JStr (tier_text (ans_Tier r))); ("cached", JBool (ans_Cached r))]%string ++ omit_empty "trace_id" (ans_TraceID r)).
Definition error_doc (msg : string) : jvalue := JObj [("error", JStr msg)]%string.
(** [json.Marshal]; these documents have no number that could fail. *)
Definition json_text_of (v : jvalue) : string := default EmptyString (marshal v).
(** Its integers as they are written. *)
Definition chaos_event_json (e : ChaosEvent) : string :=
  json_object ([("type", quote_json (ev_Type e)); ("message", quote_json (ev_Message e))]%string ++
    (if String.eqb (ev_Tier e) EmptyString then [] else [("tier"%string, quote_json (ev_Tier e))]) ++
    (if ev_Latency e =? 0 then [] else [("latency_ms"%string, itoa (ev_Latency e))]) ++ [("ts"%string, itoa (ev_Timestamp e))]).

(** ** Server-sent events *)

Inductive Frame := Data (text : string) | Heartbeat.
Definition frame_text (f : Frame) : string :=
  match f with Data text => "data: " +:+ text +:+ nl +:+ nl | Heartbeat => ":heartbeat" +:+ nl +:+ nl end.
Definition sse_text (l : list Frame) : string := String.concat EmptyString (map frame_text l).

(** What the [select] of the loop takes: from the channel, the ticker, or the
    context. *)
Inductive Pick := Receive | Beat | Expired.
#[export] Instance Pick_eq : EqDecision Pick.
Proof. solve_decision. Defined.
(** [out] is what the stream sends before its channel is closed; the flag says
    whether the loop has returned. *)
Fixpoint chat_loop (picks : list Pick) (out : list StreamToken) (tier : Tier) : list Frame * bool :=
  match picks with
  | [] => ([], false)
  | Receive :: picks =>
      match out with
      | [] => ([Data (json_text_of (token_doc (done_token tier)))], true)
      | t :: out => let '(l, ended) := chat_loop picks out tier in (Data (json_text_of (token_doc t)) :: l, ended)
      end
  | Beat :: picks => let '(l, ended) := chat_loop picks out tier in (Heartbeat :: l, ended)
  | Expired :: _ => ([], true)
  end.
(** The loop over the scenario's events has no ticker: the flags say whether
    the [select] receives or finds the context ended.  It ends with the first
    [done]. *)
Fixpoint chaos_loop (receives : list bool) (out : list ChaosEvent) : list Frame * bool :=
  match receives with
  | [] => ([], false)
  | true :: receives =>
      match out with
      | [] => ([], true)
      | e :: out =>
          let '(l, ended) := if String.eqb (ev_Type e) "done" then ([], true) else chaos_loop receives out in
          (Data (chaos_event_json e) :: l, ended)
      end
  | false :: _ => ([], true)
  end.

(** ** Reading it *)

Definition data_prefix : string := "data: ".
Definition data_of (line : string) : option string := if String.prefix data_prefix line then Some (str_drop (String.length data_prefix) line) else None.
(** The events of a text: an empty line ends one, the data lines before it are
    its payload, other lines (comments) are skipped; what no empty line ends is
    not an event. *)
Fixpoint sse_events (lines : list string) (pending : list string) : list string :=
  match lines with
  | [] => []
  | EmptyString :: lines => match pending with [] => sse_events lines [] | _ => str_join nl pending :: sse_events lines [] end
  | line :: lines => sse_events lines (pending ++ option_list (data_of line))
  end.
Definition sse_payloads (text : string) : list string := sse_events (split_byte newline text) [].
Lemma data_of_data text : data_of (data_prefix +:+ text) = Some text.
Proof. unfold data_of. assert (Hp : String.prefix data_prefix (data_prefix +:+ text) = true) by (apply prefix_app_iff; eauto). now rewrite Hp, str_drop_app. Qed.
Record WireToken := mkWire { w_token : string; w_done : bool; w_tier : string; w_switched : bool; w_reason : string }.
Definition wire_token (t : StreamToken) : WireToken := mkWire (Token t) (Done t) (tier_text (Some (tok_Tier t))) (Switched t) (Reason t).
Definition into_wire_token : decoder WireToken := into_struct
  [field "token" w_token (fun s t => mkWire s (w_done t) (w_tier t) (w_switched t) (w_reason t)) into_string;
   field "done" w_done (fun b t => mkWire (w_token t) b (w_tier t) (w_switched t) (w_reason t)) into_bool;
   field "tier" w_tier (fun s t => mkWire (w_token t) (w_done t) s (w_switched t) (w_reason t)) into_string;
   field "switched" w_switched (fun b t => mkWire (w_token t) (w_done t) (w_tier t) b (w_reason t)) into_bool;
   field "reason" w_reason (fun s t => mkWire (w_token t) (w_done t) (w_tier t) (w_switched t) s) into_string]%string.
Definition read_token (text : string) : option WireToken := r ← raw_first text; into_wire_token r (mkWire EmptyString false EmptyString false EmptyString).
Definition read_stream (text : string) : option (list WireToken) := mapM read_token (sse_payloads text).

Definition token_utf8 (t : StreamToken) : Prop := ValidString (Token t) = true /\ ValidString (Reason t) = true.

Lemma token_marshal t : exists text, marshal (token_doc t) = Some text /\ json_text_of (token_doc t) = text.
Proof.
  unfold json_text_of. destruct (marshal (token_doc t)) as [text|] eqn:E; [now exists text|].
  unfold token_doc, omit_empty, omit_false in E. repeat case_match; discriminate E.
Qed.
Lemma read_token_doc t : token_utf8 t -> read_token (json_text_of (token_doc t)) = Some (wire_token t).
Proof.
  intros [Ht Hr]. destruct (token_marshal t) as (text & E & ->). unfold read_token.
  assert (Hd : json_text (token_doc t) = true /\ depth (token_doc t) <= maxNestingDepth /\ exists r, plain_doc (token_doc t) = Some r /\
    into_wire_token r (mkWire EmptyString false EmptyString false EmptyString) = Some (wire_token t)).
  { destruct t as [text' done tier switched reason]. cbn [Token Reason] in *. unfold token_doc, omit_empty, omit_false, wire_token. cbn [Token Done tok_Tier Switched Reason].
    destruct (String.eqb_spec text' EmptyString) as [->|_]; destruct (String.eqb_spec reason EmptyString) as [->|_]; destruct done, switched, tier;
      (split; [cbn -[ValidString]; rewrite ?Ht, ?Hr; reflexivity|split; [vm_compute; discriminate|eexists; split; reflexivity]]). }
  destruct Hd as (Hjt & Hdepth & r & Hp & Hw). destruct (plain_marshal _ _ r E Hjt Hdepth Hp) as [_ ->]. exact Hw.
Qed.

(** A frame's text is its line and an empty one. *)
Definition frame_line (f : Frame) : string := match f with Data text => data_prefix +:+ text | Heartbeat => ":heartbeat" end.
Definition frame_one_line (f : Frame) : Prop := ~ In newline (list_ascii_of_string (frame_line f)).
Lemma sse_split l : Forall frame_one_line l ->
  split_byte newline (sse_text l) = concat (map (fun f => [frame_line f; EmptyString]) l) ++ [EmptyString].
Proof.
  induction 1 as [|f l Hf _ IH]; [reflexivity|]. unfold sse_text in *. cbn [map concat app].
  assert (E : String.concat EmptyString (frame_text f :: map frame_text l) = frame_line f +:+ String newline (String newline (String.concat EmptyString (map frame_text l)))).
  { destruct f as [text|]; cbn [frame_text frame_line]; destruct (map frame_text l); cbn [String.concat]; rewrite <- ?str_app_assoc; unfold data_prefix; try reflexivity.
    all: rewrite ?str_app_assoc; reflexivity. }
  rewrite E, split_byte_app by exact Hf. change (split_byte newline (String newline ?t)) with (EmptyString :: split_byte newline t). now rewrite IH.
Qed.
Lemma sse_payloads_text l : Forall frame_one_line l ->
  sse_payloads (sse_text l) = omap (fun f => match f with Data text => Some text | Heartbeat => None end) l.
Proof.
  intros Hl. unfold sse_payloads. rewrite sse_split by exact Hl. clear Hl.
  induction l as [|[text|] l IH]; [reflexivity| |exact IH]; cbn [map concat app omap list_omap frame_line].
  assert (E : forall rest, sse_events ((data_prefix +:+ text) :: EmptyString :: rest) [] = text :: sse_events rest []).
  { intros rest. pose proof (data_of_data text) as Hd. unfold data_prefix in *. cbn -[data_of] in Hd |- *. now rewrite Hd. }
  rewrite E. now f_equal.
Qed.
Lemma payload_one_line v : frame_one_line (Data (json_text_of v)).
Proof.
  unfold frame_one_line, json_text_of, frame_line. destruct (marshal v) as [t|] eqn:E; [|vm_compute; intuition discriminate].
  assert (Hp : printed (data_prefix +:+ t)) by (apply printed_app; [now apply printed_const|exact (printed_marshal v t E)]).
  unfold printed in Hp. rewrite List.Forall_forall in Hp. intros Hin. apply Hp in Hin. vm_compute in Hin. contradiction.
Qed.

(** What the loop has written is a part, from the start, of the tokens and the
    closing one; all of it when it could receive them all. *)
Lemma chat_loop_sends picks : forall out tier, let '(frames, ended) := chat_loop picks out tier in
  exists sent rest, out ++ [done_token tier] = sent ++ rest /\
    omap (fun f => match f with Data text => Some text | Heartbeat => None end) frames = map (fun t => json_text_of (token_doc t)) sent /\
    Forall frame_one_line frames /\
    (Expired ∉ picks -> (length out < length (filter (fun p => p = Receive) picks))%nat -> rest = [] /\ ended = true).
Proof.
  induction picks as [|p picks IH]; intros out tier; cbn [chat_loop].
  - exists [], (out ++ [done_token tier]). split; [done|]. split; [done|]. split; [constructor|]. cbn. lia.
  - destruct p; [destruct out as [|t out]|..].
    + exists [done_token tier], []. split; [done|]. split; [done|]. split; [repeat constructor; apply payload_one_line|easy].
    + specialize (IH out tier). destruct (chat_loop picks out tier) as [l ended]. destruct IH as (sent & rest & E & Hm & Hl & Hall).
      exists (t :: sent), rest. split; [cbn; now rewrite E|]. split; [cbn; now f_equal|]. split; [constructor; [apply payload_one_line|exact Hl]|].
      rewrite not_elem_of_cons. intros [_ Hn] Hlen. rewrite filter_cons_True in Hlen by done. apply Hall; [exact Hn|cbn in Hlen; lia].
    + specialize (IH out tier). destruct (chat_loop picks out tier) as [l ended]. destruct IH as (sent & rest & E & Hm & Hl & Hall).
      exists sent, rest. split; [exact E|]. split; [exact Hm|]. split; [constructor; [vm_compute; intuition discriminate|exact Hl]|].
      rewrite not_elem_of_cons. intros [_ Hn] Hlen. rewrite filter_cons_False in Hlen by done. now apply Hall.
    + exists [], (out ++ [done_token tier]). split; [done|]. split; [done|]. split; [constructor|]. rewrite not_elem_of_cons. tauto.
Qed.
Lemma done_token_utf8 tier : token_utf8 (done_token tier).
Proof. split; reflexivity. Qed.

(** C29.  What the handler of a chat stream writes is read back: whatever the
    [select] takes and however often the connection is kept alive, the events of
    the text, decoded, are the tokens the stream sent, in order and
    none left out, up to the point where the deadline ended the loop; and when
    it could receive them all, the last is the closing token with the tier that
    answered, and the loop has returned. *)
Theorem stream_reads_back (picks : list Pick) (out : list StreamToken) (tier : Tier) :
  Forall token_utf8 out ->
  let '(frames, ended) := chat_loop picks out tier in
  exists sent rest, out ++ [done_token tier] = sent ++ rest /\
    read_stream (sse_text frames) = Some (map wire_token sent) /\
    (Expired ∉ picks -> (length out < length (filter (fun p => p = Receive) picks))%nat -> rest = [] /\ ended = true).
Proof.
  intros Hout. pose proof (chat_loop_sends picks out tier) as H. destruct (chat_loop picks out tier) as [frames ended].
  destruct H as (sent & rest & E & Hm & Hl & Hall). exists sent, rest. split; [exact E|]. split; [|exact Hall].
  unfold read_stream. rewrite sse_payloads_text, Hm by exact Hl.
  assert (Hs : Forall token_utf8 sent).
  { assert (Ha : Forall token_utf8 (out ++ [done_token tier])) by (apply Forall_app; split; [exact Hout|repeat constructor; apply done_token_utf8]).
    rewrite E, Forall_app in Ha. tauto. }
  clear -Hs. induction Hs as [|t sent Ht _ IH]; [reflexivity|]. cbn [map mapM]. now rewrite read_token_doc, IH.
Qed.
Lemma stream_reads_back_witness :
  Forall token_utf8 [mkToken "hel" false TierPrimary false EmptyString; mkToken ("l" +:+ String (byte_of 10) "o") false TierPrimary false EmptyString] /\
  (let '(frames, ended) := chat_loop [Receive; Beat; Receive; Receive] [mkToken "hel" false TierPrimary false EmptyString; mkToken ("l" +:+ String (byte_of 10) "o") false TierPrimary false EmptyString] TierPrimary in
   exists sent rest, [mkToken "hel" false TierPrimary false EmptyString; mkToken ("l" +:+ String (byte_of 10) "o") false TierPrimary false EmptyString] ++ [done_token TierPrimary] = sent ++ rest /\
     read_stream (sse_text frames) = Some (map wire_token sent) /\
     (Expired ∉ [Receive; Beat; Receive; Receive] -> (length [mkToken "hel" false TierPrimary false EmptyString; mkToken ("l" +:+ String (byte_of 10) "o") false TierPrimary false EmptyString] <
        length (filter (fun p => p = Receive) [Receive; Beat; Receive; Receive]))%nat -> rest = [] /\ ended = true)).
Proof.
  assert (H : Forall token_utf8 [mkToken "hel" false TierPrimary false EmptyString; mkToken ("l" +:+ String (byte_of 10) "o") false TierPrimary false EmptyString]) by (repeat constructor).
  split; [exact H|]. exact (stream_reads_back [Receive; Beat; Receive; Receive] _ TierPrimary H).
Defined.
Example stream_text : sse_text (fst (chat_loop [Receive; Beat; Receive] [mkToken "hi" false TierPrimary false EmptyString] TierPrimary)) =
  str_join nl ["data: {" +:+ str_join "," [quote_json "token" +:+ ":" +:+ quote_json "hi"; quote_json "tier" +:+ ":" +:+ quote_json "primary"] +:+ "}"; EmptyString;
    ":heartbeat"; EmptyString;
    "data: {" +:+ str_join "," [quote_json "done" +:+ ":true"; quote_json "tier" +:+ ":" +:+ quote_json "primary"] +:+ "}"; EmptyString; EmptyString]%string.
Proof. vm_compute. reflexivity. Qed.
