(* ===== verification/ApiSpec.v ===== *)
(** * What the HTTP API promises

    Theorems about the whole surface of [Api.Register]: every route answers
    from a well-formed state, the token gate, the chat routes' errors, and a
    request's trace read back over HTTP; then a sample server they are run
    on. *)
From S2P Require Import Prelude Float64 GoStrings Evaluator Breaker Calculator Strconv Json Decode Provider Chaos Telemetry Memory Orchestrator Stream Guarded Tools Agent Toolset React Net WebhookUrl RateLimit Webhook Demo Api.
From S2P Require SemanticCache Config.
From Stdlib Require Import ZArith Lia String.
From stdpp Require Import base tactics list gmap strings.
#[local] Open Scope Z_scope.

Section Promises.
Context {W L : Type} `{Unicode} `{Printable} `{FloatToInt} (h : Handler W L).
Context (order : gmap string (ipEntry L) -> list (string * ipEntry L)) (raw_first : bool) (client : Client).
Notation HS := (HState W L).
Notation a := (h_agent h).
Notation routes := (Register h raw_first client).
Implicit Types (x : HS).

(** ** The token gate *)

Definition authorized (r : ApiRequest) : Prop :=
  Header (req_http r) "Authorization" = bearer_prefix +:+ Config.AuthToken (h_cfg h).
(** Only the clock and the limiters' table moved. *)
Definition only_limiters x x' : Prop := exists w m, x' = with_limits m (with_agent (putw w (hs_agent x)) x).
#[export] Instance only_limiters_refl : Reflexive only_limiters.
Proof. intros [s m d]. exists (world (os s)), m. destruct s as [[] ? ?]. reflexivity. Qed.
#[export] Instance only_limiters_trans : Transitive only_limiters.
Proof. intros x y z (w & m & ->) (w' & m' & ->). now exists w', m'. Qed.

Lemma limited_runs b next r x (Q : Reply -> HS -> Prop) :
  (forall x', only_limiters x x' -> runs (next r) x' Q) ->
  (forall x', only_limiters x x' -> Q (http_Error "rate limit exceeded" 429) x') ->
  runs (limited h order b next r) x Q.
Proof.
  intros Hn Hr. unfold limited. apply runs_bind, on_agent_runs, now_runs_. intros t w. apply runs_bind, on_agent_runs, now_runs_. intros t' w'.
  apply runs_bind, runs_get. cbv zeta. match goal with |- context [let '(_, _) := ?p in _] => destruct p as [ok m] end.
  apply runs_bind, runs_update.
  assert (Hx : only_limiters x (with_limits m (with_agent (putw w' (hs_agent x)) x))) by now exists w', m.
  destruct ok; [now apply Hn|apply runs_ret; now apply Hr].
Qed.
Lemma requireAuth_refuses next r x : AuthEnabled h = true -> ~ authorized r ->
  exists msg, requireAuth h next r x = Some (http_Error msg 401, x).
Proof.
  unfold AuthEnabled, requireAuth, authorized. intros Ht Hr. destruct (String.eqb (Config.AuthToken (h_cfg h)) EmptyString); [discriminate|].
  destruct (String.prefix bearer_prefix _) eqn:Ep; cbn [negb]; [|eexists; reflexivity].
  apply prefix_app_iff in Ep as [b Eb]. rewrite Eb, str_drop_app.
  destruct (String.eqb_spec b (Config.AuthToken (h_cfg h))) as [->|_]; cbn [negb]; [contradiction|eexists; reflexivity].
Qed.
Lemma requireAuth_passes next r : authorized r -> requireAuth h next r = next r.
Proof.
  unfold requireAuth, authorized. intros ->. destruct (String.eqb _ EmptyString); [done|].
  rewrite (proj2 (prefix_app_iff _ _)) by eauto. cbn [negb]. now rewrite str_drop_app, String.eqb_refl.
Qed.

(** Refused by the gate or a limiter in front of it. *)
Definition turned_away x (reply : Reply) x' : Prop := only_limiters x x' /\ exists msg, reply = http_Error msg (code reply) /\ (code reply = 401 \/ code reply = 429).
Lemma gate_runs ms next r : AuthEnabled h = true -> ~ authorized r -> In Auth ms ->
  forall x0 x, only_limiters x0 x -> runs (foldr (around h order) next ms r) x (turned_away x0).
Proof.
  intros Ht Hr. induction ms as [|m ms IH]; intros Hin; [destruct Hin|]. intros x0 x Hx. cbn [foldr].
  assert (Hlim : forall b, In Auth ms -> runs (limited h order b (foldr (around h order) next ms) r) x (turned_away x0)).
  { intros b Hms. apply limited_runs; intros x' Hx'; assert (only_limiters x0 x') by now transitivity x.
    - now apply IH.
    - split; [assumption|]. eexists. split; [reflexivity|now right]. }
  destruct m; cbn [around]; [apply Hlim; now destruct Hin..|].
  destruct (requireAuth_refuses (foldr (around h order) next ms) r x Ht Hr) as [msg E]. exists (http_Error msg 401), x. split; [exact E|].
  split; [exact Hx|]. eexists. split; [reflexivity|now left].
Qed.
Definition gated (e : RouteEntry (W := W) (L := L)) : bool := existsb (fun m => match m with Auth => true | _ => false end) (wrappers e).
Lemma gated_in (e : RouteEntry (W := W) (L := L)) : gated e = true -> In Auth (wrappers e).
Proof. unfold gated. intros Hg. apply existsb_exists in Hg as ([] & Hin & E); (discriminate || exact Hin). Qed.
(** With the token the gate is transparent. *)
Lemma bind_ext {S A B} (m : Prog S A) (k k' : A -> Prog S B) (z : S) :
  (forall v y, k v y = k' v y) -> (m ≫= k) z = (m ≫= k') z.
Proof. intros Hk. unfold mbind, prog_bind. destruct (m z) as [[v y]|]; [apply Hk|done]. Qed.
Lemma limited_ext b next next' r x : (forall x, next r x = next' r x) -> limited h order b next r x = limited h order b next' r x.
Proof.
  intros Hn. unfold limited. apply bind_ext. intros t y. apply bind_ext. intros t' y'. apply bind_ext. intros z y''. cbv zeta.
  match goal with |- context [let '(_, _) := ?p in _] => destruct p as [ok m] end. apply bind_ext. intros u v. destruct ok; [apply Hn|done].
Qed.
#[export] Instance Middleware_eq : EqDecision Middleware.
Proof. solve_decision. Defined.
Definition open_wrappers (ms : list Middleware) : list Middleware := filter (fun m => m <> Auth) ms.
Lemma gate_transparent ms next r : authorized r -> forall x,
  foldr (around h order) next ms r x = foldr (around h order) next (open_wrappers ms) r x.
Proof.
  intros Hr. induction ms as [|m ms IH]; intros x; [done|]. unfold open_wrappers. rewrite filter_cons. destruct m; cbn [foldr around].
  - rewrite decide_True by discriminate. cbn [foldr around]. now apply limited_ext.
  - rewrite decide_True by discriminate. cbn [foldr around]. now apply limited_ext.
  - rewrite decide_False by (intros []; reflexivity). rewrite requireAuth_passes by exact Hr. apply IH.
Qed.

(** The patterns anyone may call. *)
Definition open_patterns : list string := [
  "POST /chat"; "GET /chat/stream"; "POST /react"; "GET /status"; "GET /score/history"; "GET /health"; "GET /health/live";
  "GET /health/ready"; "GET /metrics"; "POST /demo/compare"; "GET /auth/required"; "GET /"; "GET /static/" ]%string.

(** ** The routes of the core: chat, sessions and traces *)

(** What the trace endpoint shows of a stored trace: the prompt only when
    tokens are in use. *)
Definition shows_trace id prompt tier (q : ApiRequest) x : Prop :=
  exists total steps created, getTrace h q x =
    Some (jsonOK (OkTrace id (if AuthEnabled h then prompt else EmptyString) total tier steps created), x).
Lemma shows_trace_of id prompt tier q x tr : path_id q = id -> traces (Traces (mem (hs_agent x))) !! id = Some tr ->
  tr_ID tr = id -> tr_Prompt tr = prompt -> FinalTier tr = tier -> shows_trace id prompt tier q x.
Proof.
  intros Hq Htr <- <- <-. exists (TotalMS tr), (Steps tr), (CreatedAt tr). unfold getTrace, Get_trace, mbind, prog_bind, get_st. now rewrite Hq, Htr.
Qed.
Definition shows_session (msgs : list Message) (q : ApiRequest) x : Prop :=
  exists s, getSession q x = Some (jsonOK (OkSession s), x) /\ Messages s = msgs.
Lemma shows_session_of id s0 q x msgs : path_id q = id -> session_now s0 (hs_agent x) id msgs -> shows_session msgs q x.
Proof.
  intros Hq (<- & [s Hs] & _). exists s. unfold getSession, Get_session, conversation, Messages_of, mbind, prog_bind, get_st. now rewrite Hq, Hs.
Qed.
End Promises.

Section Theorems.
Context {W L : Type} `{Unicode} `{Printable} `{FloatToInt} (h : Handler W L) {Hlaws : HandlerLaws h}.
Context (order : gmap string (ipEntry L) -> list (string * ipEntry L)) (raw_first : bool) (client : Client).
Notation HS := (HState W L).
Notation a := (h_agent h).
Notation routes := (Register h raw_first client).

(** What every answer keeps: one of the nine statuses, or exactly what the
    library behind the route writes from this state; the agent's invariant, and
    a webhook that is off or at a URL that passed validation. *)
Definition good_answer (e : RouteEntry (W := W) (L := L)) (r : ApiRequest) (x : HS) (reply : Reply) (x' : HS) : Prop :=
  match library_route h e with
  | None => In (code reply) [200; 400; 401; 404; 409; 413; 429; 500; 503]
  | Some f => (pattern e = "GET /metrics" \/ pattern e = "GET /static/") /\
      let '(status, body) := (f r (world (os (hs_agent x)))).1 in reply = mkReply status (Page body)
  end%string /\
  agent_ok (hs_agent x') /\
  (URL (hs_hook x') = EmptyString \/ validateWebhookURL (url_parse h) (lookup_ip h) (URL (hs_hook x')) (h_cfg h) = None).

(** C25.  The whole API answers: any request to any of the registered routes,
    from a well-formed state, is answered without a panic, and leaves the agent
    well formed and the webhook either off or at a URL that passed validation;
    the answer has one of nine statuses, except on the two routes of library
    handlers (the metrics and the static files), where it is whatever the
    library writes. *)
Theorem serve_total e r (x : HS) : In e routes -> hs_ok h x ->
  exists reply x', serve h order e r x = Some (reply, x') /\ good_answer e r x reply x'.
Proof.
  intros He Hx. destruct (serve_ok h order raw_first client e r x He Hx) as (reply & x' & E & [Ha Hh] & Hc).
  exists reply, x'. split; [exact E|]. split; [|split; [exact Ha|apply Hh]].
  destruct (library_route h e) as [f|] eqn:Hf; [|exact Hc]. destruct (f r (world (os (hs_agent x)))).1 as [status body]. split; [|exact Hc].
  unfold library_route in Hf. destruct (String.eqb_spec (pattern e) "GET /metrics"); [auto|].
  destruct (String.eqb_spec (pattern e) "GET /static/"); [auto|discriminate].
Qed.

(** The token gate: with a token configured, a request to a gated route
    without exactly [Bearer <token>] is turned away with 401 or 429 and changes
    nothing but the clock and the limiters' table, whatever it asks for; with
    the token the gate is transparent; and the routes not gated are the
    thirteen of the list, none of which is a demo switch, a session, a trace or
    the webhook's configuration. *)
Theorem auth_gate r (x : HS) : AuthEnabled h = true ->
  (~ authorized h r -> forall e, In e routes -> gated e = true ->
    exists msg status x', serve h order e r x = Some (http_Error msg status, x') /\ (status = 401 \/ status = 429) /\ only_limiters x x') /\
  (authorized h r -> forall e, In e routes ->
    serve h order e r x = foldr (around h order) (handler e) (open_wrappers (wrappers e)) r x) /\
  map pattern (filter (fun e => gated e = false) routes) = open_patterns.
Proof.
  intros Ht. split; [|split].
  - intros Hr e _ Hg. destruct (gate_runs h order (wrappers e) (handler e) r Ht Hr (gated_in e Hg) x x) as (reply & x' & E & Hx & msg & Er & Hc);
      [reflexivity|]. exists msg, (code reply), x'. unfold serve. rewrite E, <- Er. auto.
  - intros Hr e _. now apply gate_transparent.
  - reflexivity.
Qed.

(** C28.  A chat request: a body that does not decode or an empty prompt is
    400, a prompt of more than 32768 bytes 413, with nothing changed; any other
    request runs [Ask] (or [AskBatch], by the priority header) exactly once
    from this state, and answers 200 with its response or 500 with a fixed text
    that says nothing of the error; and the trace of a 200 can be read back at
    its ID, with the request's prompt only when tokens are in use. *)
Theorem chat_spec r (x : HS) : hs_ok h x ->
  match decode_chat (req_body r) with
  | None => chat h r x = Some (jsonError "invalid request body" 400, x)
  | Some c =>
      let prompt := chat_Prompt c in
      if decide (prompt = EmptyString) then exists msg, chat h r x = Some (jsonError msg 400, x)
      else if decide (32768 < slen prompt) then exists msg, chat h r x = Some (jsonError msg 413, x)
      else exists resp err s', ask a prompt (String.eqb (Header (req_http r) "X-Priority") "batch") (hs_agent x) = Some ((resp, err), s') /\
        let x' := with_agent s' x in
        match err with
        | Some _ => chat h r x = Some (jsonError "request failed" 500, x')
        | None => chat h r x = Some (jsonOK (OkResponse resp), x') /\
            forall q, path_id q = ans_TraceID resp -> shows_trace h (ans_TraceID resp) prompt (ans_Tier resp) q x'
        end
  end.
Proof.
  intros [[Ho _] _]. unfold chat, chat_body. destruct (decode_chat (req_body r)) as [c|]; [|reflexivity]. cbv zeta. unfold validatePrompt.
  destruct (decide (chat_Prompt c = EmptyString)) as [->|Hne]; [eexists; reflexivity|]. rewrite (proj2 (String.eqb_neq _ _) Hne).
  change MaxPromptBytes with 32768. destruct (decide (32768 < slen (chat_Prompt c))) as [Hl|Hl];
    [rewrite (proj2 (Z.ltb_lt _ _) Hl); eexists; reflexivity|]. rewrite (proj2 (Z.ltb_ge _ _)) by lia.
  destruct (ask_runs a (chat_Prompt c) (String.eqb (Header (req_http r) "X-Priority") "batch") (hs_agent x) Ho) as ([resp err] & s' & E & Hp).
  exists resp, err, s'. split; [exact E|].
  assert (Eb : on_agent (if String.eqb (Header (req_http r) "X-Priority") "batch" then AskBatch a (chat_Prompt c) else Ask a (chat_Prompt c)) x
    = Some ((resp, err), with_agent s' x)) by (unfold on_agent, AskBatch, Ask; destruct (String.eqb _ "batch"); now rewrite E).
  unfold mbind, prog_bind. rewrite Eb. destruct err; [reflexivity|]. split; [reflexivity|]. intros q Hq.
  destruct Hp as (_ & _ & _ & _ & steps & _ & tr & T1 & T2 & T3 & T4 & _). now apply (shows_trace_of h _ _ _ q (with_agent s' x) tr).
Qed.

(** C30.  A conversation over HTTP: a valid ReAct request is always answered
    200, after one to six turns, under the session it named in its body, else
    in its header, else under a fresh one; the session endpoint then shows the
    session's former messages followed by the prompt and the answer, cut to
    the last twenty messages, and the trace endpoint the call's trace, with
    the prompt only when tokens are in use. *)
Theorem react_roundtrip r (x : HS) c : hs_ok h x -> chat_body r = inr c ->
  let requested := if String.eqb (chat_SessionID c) EmptyString then Header (req_http r) "X-Session-ID" else chat_SessionID c in
  exists id resp x', react h r x = Some (jsonOK (OkReact resp), x') /\ hs_ok h x' /\
    1 <= Turns resp <= 6 /\ SessionID resp = id /\ (requested <> EmptyString -> id = requested) /\
    (requested = EmptyString -> exists b, id = "s" +:+ Sha256.hex b) /\
    forall q, (path_id q = id -> exists t t', shows_session (lastn 20 (conversation (hs_agent x) id ++
        [mkMessage "user" (chat_Prompt c) None t; mkMessage "assistant" (react_Answer resp) (react_Tier resp) t'])) q x') /\
      (path_id q = react_TraceID resp -> shows_trace h (react_TraceID resp) (chat_Prompt c) (react_Tier resp) q x').
Proof.
  intros Hx Hc. cbv zeta. set (requested := if String.eqb (chat_SessionID c) EmptyString then _ else _).
  assert (Hid : runs (if String.eqb requested EmptyString then generateSessionID h else mret requested) x (fun id x1 =>
    (exists w, x1 = with_agent (putw w (hs_agent x)) x) /\ (requested <> EmptyString -> id = requested) /\
    (requested = EmptyString -> exists b, id = "s" +:+ Sha256.hex b))).
  { destruct (String.eqb_spec requested EmptyString) as [Er|Er].
    - unfold generateSessionID. apply runs_bind, on_agent_runs. unfold runs at 1, read_random.
      destruct (random_bytes a _) as [b w]. eexists _, _. split; [reflexivity|]. apply runs_ret. split; [eauto|]. split; [contradiction|eauto].
    - apply runs_ret. split; [|split; [done|contradiction]]. exists (world (os (hs_agent x))). destruct x as [[[] ? ?] ? ?]. reflexivity. }
  destruct Hid as (id & x1 & E1 & [w ->] & Hreq & Hgen).
  destruct (React_runs a (Some (h_cfg h)) (h_tool_breaker h) (h_tools h) (h_tools h) (chat_Prompt c) id (putw w (hs_agent x)))
    as (resp & s' & E & s0 & t & E3 & _ & E2 & Ep & Hses & Hok' & Etot & Hturns & Hsid & Hans & Hcosts & [t' Hses'] & tr & Htr & T1 & T2 & T3);
    [apply handler_breakers|apply handler_tools|apply agent_ok_putw, Hx|].
  exists id, resp, (with_agent s' x). split.
  { unfold react. rewrite Hc. cbv zeta. fold requested. unfold mbind at 1, prog_bind at 1. rewrite E1.
    unfold mbind, prog_bind, on_agent. cbn [hs_agent with_agent]. now rewrite E. }
  split; [now apply keep_agent|]. do 4 (split; [assumption|]). intros q. split; intros Hq.
  - exists t, t'. apply (shows_session_of id (hs_agent x) q (with_agent s' x)); [exact Hq|]. eapply session_now_trans; [exact Hses|].
    destruct Hses as (Hconv & _). rewrite Hconv, lastn_lastn_app, <- app_assoc in Hses'. exact Hses'.
  - apply (shows_trace_of h _ _ _ q (with_agent s' x) tr); [exact Hq|exact Htr|exact T1|now rewrite T2|exact T3].
Qed.
End Theorems.

(** ** A sample server *)

Module SampleApi.
Definition config (token : string) : Config.Config :=
  let d := Config.Defaults in
  Config.mkConfig (Config.Port d) token (Config.TrustedProxies d) (Config.cfg_Logger d) (Config.cfg_Provider d) (Config.cfg_Models d)
    (Config.cfg_Limits d) (Config.cfg_Quality d) (Config.cfg_Cache d) (Config.cfg_Webhook d) (Config.cfg_Score d) (Config.cfg_MCP d)
    (Config.cfg_OTel d) (Config.cfg_ToolCache d) (Config.cfg_ReAct d).
(** Two routes of a library's and a template that is always rendered. *)
Definition pages : Pages Z :=
  mkPages (fun _ w => ((200, "agentshield_requests_total 0"%string), w))
    (fun r w => ((if String.eqb (path_id r) "dashboard.js" then 200 else 404, EmptyString), w)) (fun w => (("<html>"%string, None), w)).
Definition server (token : string) : Handler Z SampleWindow.Log :=
  mkHandler SampleAgent.healthy (config token) None SampleWindow.New SampleWindow.Allow (fun _ => Sample.direct)
    (agent_tools SampleAgent.healthy (fun _ _ w => (CallFailed "no server", w)) (fun _ => EmptyString) SampleReact.clock None)
    sample_parse sample_lookup pages.
Definition state : HState Z SampleWindow.Log := mkHState SampleReact.state0 ∅ NewWebhookDispatcher [].
Definition reads (m : gmap string (ipEntry SampleWindow.Log)) := map_to_list m.
(** A request with a token, a path value and a body. *)
Definition request (auth id body : string) : ApiRequest :=
  mkRequest (mkHttp "10.0.0.7:1" (fun k => if String.eqb k "Authorization" then auth else EmptyString)) id EmptyString body.

#[export] Instance answering_stream text : StreamContract (Sample.answering text).
Proof. intros req w. now exists [text]. Qed.
#[export] Instance down_stream : StreamContract Sample.down.
Proof. intros req w. now exists []. Qed.
#[export] Instance server_laws token : HandlerLaws (server token).
Proof.
  split.
  - apply SampleAgent.healthy_laws.
  - intros n. cbn. typeclasses eauto.
  - apply agent_tools_safe. typeclasses eauto.
  - discriminate.
  - apply answering_stream.
  - apply down_stream.
  - intros. vm_compute. discriminate.
Qed.
Lemma sample_state_ok token : hs_ok (server token) state.
Proof. split; [apply SampleReact.state0_agent_ok|]. split; [split; vm_compute; discriminate|now left]. Qed.
Definition chat_body_text : string := marshalArgs (Some [("prompt", JStr "q")])%string.
Definition answer (token : string) (n : nat) (r : ApiRequest) (x : HState Z SampleWindow.Log) : option (Reply * HState Z SampleWindow.Log) :=
  e ← Register (server token) true (fun _ => true) !! n; serve (server token) reads e r x.
End SampleApi.
Export (hints) SampleApi.

(** The routes by position: 0 is chat, 2 ReAct, 13 the kill switch. *)
Definition kill_reply (token auth : string) : option (Reply * bool) :=
  x ← SampleApi.answer token 13 (SampleApi.request auth EmptyString EmptyString) SampleApi.state;
  Some (x.1, IsPrimaryKilled (chaos (os (hs_agent x.2)))).
Example kill_needs_the_token :
  map (kill_reply "secret") ["Bearer wrong"; "secret"; "Bearer secret"]%string =
  [Some (http_Error "invalid token" 401, false); Some (http_Error "missing or invalid Authorization header" 401, false);
   Some (result "primary model killed", true)].
Proof. vm_compute. reflexivity. Qed.
(** Only the first ten calls of a minute get through to the switches. *)
Fixpoint kills (n : nat) (x : HState Z SampleWindow.Log) : list Z :=
  match n with
  | O => []
  | S n => match SampleApi.answer EmptyString 13 (SampleApi.request EmptyString EmptyString EmptyString) x with
           | Some (reply, x') => code reply :: kills n x'
           | None => []
           end
  end.
Example eleventh_kill_is_limited : kills 11 SampleApi.state = replicate 10 200 ++ [429].
Proof. vm_compute. reflexivity. Qed.
Example chat_tier :
  option_map (fun x => match payload x.1 with OkResponse a => ans_Tier a | _ => None end)
    (SampleApi.answer "secret" 0 (SampleApi.request EmptyString EmptyString SampleApi.chat_body_text) SampleApi.state) = Some (Some TierPrimary).
Proof. vm_compute. reflexivity. Qed.

Lemma serve_total_witness : exists reply x',
  SampleApi.answer "secret" 0 (SampleApi.request EmptyString EmptyString SampleApi.chat_body_text) SampleApi.state = Some (reply, x') /\ In (code reply) statuses.
Proof.
  destruct (serve_total (SampleApi.server "secret") SampleApi.reads true (fun _ => true)
    (mkRoute "POST /chat" [Limit] (chat (SampleApi.server "secret")))
    (SampleApi.request EmptyString EmptyString SampleApi.chat_body_text) SampleApi.state) as (reply & x' & E & Hc & _).
  - left. reflexivity.
  - apply SampleApi.sample_state_ok.
  - exists reply, x'. split; [exact E|exact Hc].
Defined.
Lemma auth_gate_witness : exists msg status x',
  SampleApi.answer "secret" 13 (SampleApi.request "Bearer wrong" EmptyString EmptyString) SampleApi.state = Some (http_Error msg status, x') /\
  (status = 401 \/ status = 429).
Proof.
  destruct (auth_gate (SampleApi.server "secret") SampleApi.reads true (fun _ => true)
    (SampleApi.request "Bearer wrong" EmptyString EmptyString) SampleApi.state eq_refl) as (Hgate & _ & _).
  destruct (Hgate ltac:(discriminate) (mkRoute "POST /demo/kill" [CompareLimit; Auth] (killPrimary (SampleApi.server "secret"))))
    as (msg & status & x' & E & Hs & _).
  - do 13 right. left. reflexivity.
  - reflexivity.
  - exists msg, status, x'. split; [exact E|exact Hs].
Defined.
Lemma chat_spec_witness : exists resp x',
  chat (SampleApi.server "secret") (SampleApi.request EmptyString EmptyString SampleApi.chat_body_text) SampleApi.state = Some (jsonOK (OkResponse resp), x') /\
  shows_trace (SampleApi.server "secret") (ans_TraceID resp) "q" (ans_Tier resp) (SampleApi.request EmptyString (ans_TraceID resp) EmptyString) x'.
Proof.
  pose proof (chat_spec (SampleApi.server "secret") (SampleApi.request EmptyString EmptyString SampleApi.chat_body_text) SampleApi.state (SampleApi.sample_state_ok _)) as Hc.
  assert (Ed : decode_chat SampleApi.chat_body_text = Some (mkChat "q" EmptyString)) by (vm_compute; reflexivity).
  change (req_body _) with SampleApi.chat_body_text in Hc. rewrite Ed in Hc. cbv zeta in Hc. cbn [chat_Prompt] in Hc.
  rewrite decide_False in Hc by discriminate. rewrite decide_False in Hc by (vm_compute; discriminate).
  destruct Hc as (resp & err & s' & E & Hc).
  assert (Ee : option_map (fun y => y.1.2) (ask (h_agent (SampleApi.server "secret")) "q" false (hs_agent SampleApi.state)) = Some None) by (vm_compute; reflexivity).
  change (String.eqb _ "batch") with false in E. rewrite E in Ee. injection Ee as Ee. cbn in Ee. subst err.
  destruct Hc as [Hc Ht]. eexists resp, _. split; [exact Hc|]. now apply Ht.
Defined.
Lemma react_roundtrip_witness : exists resp x',
  react (SampleApi.server "secret") (SampleApi.request EmptyString EmptyString SampleApi.chat_body_text) SampleApi.state = Some (jsonOK (OkReact resp), x') /\
  1 <= Turns resp <= 6 /\ exists b, SessionID resp = "s" +:+ Sha256.hex b.
Proof.
  destruct (react_roundtrip (SampleApi.server "secret") (SampleApi.request EmptyString EmptyString SampleApi.chat_body_text) SampleApi.state
    (mkChat "q" EmptyString) (SampleApi.sample_state_ok _) ltac:(vm_compute; reflexivity)) as (id & resp & x' & E & _ & Ht & Hid & _ & Hgen & _).
  exists resp, x'. split; [exact E|]. split; [exact Ht|]. rewrite Hid. now apply Hgen.
Defined.
