(* ===== verification/Footprint.v ===== *)
(** * What a request can touch

    The handlers of the routes that need no token leave the demo switches, the
    webhook and the scenarios alone ([quiet]); no handler but the two that
    start a scenario touches the scenarios or their flag ([calm]).  Both pass
    through the limiters and the token gate. *)
From S2P Require Import Prelude Float64 GoStrings Json Strconv Evaluator Breaker Calculator Provider Chaos Telemetry Memory Orchestrator Stream Guarded Tools Agent Toolset GetTime React Net WebhookUrl RateLimit Webhook Demo Backends Wiring Api ApiSpec.
From S2P Require SemanticCache Config.
From Stdlib Require Import ZArith Lia String.
From stdpp Require Import base tactics list gmap strings.
#[local] Open Scope Z_scope.

(** The switches, the webhook and the scenarios are as before. *)
Definition quiet {W L} (x x' : HState W L) : Prop :=
  chaos (os (hs_agent x')) = chaos (os (hs_agent x)) /\ hs_hook x' = hs_hook x /\ hs_scenarios x' = hs_scenarios x.
#[export] Instance quiet_preorder {W L} : PreOrder (@quiet W L).
Proof. split; [intros x; repeat split|]. intros x y z (H1 & H2 & H3) (H4 & H5 & H6). repeat split; congruence. Qed.
Lemma only_limiters_quiet {W L} (x x' : HState W L) : only_limiters x x' -> quiet x x'.
Proof. intros (w & m & ->). repeat split. Qed.

Section Routes.
Context {W L : Type} `{Unicode} `{Printable} `{FloatToInt} (h : Handler W L) {Hlaws : HandlerLaws h}.
Context (order : gmap string (ipEntry L) -> list (string * ipEntry L)) (raw_first : bool) (client : Client).
Notation HS := (HState W L).
Notation a := (h_agent h).
Notation routes := (Register h raw_first client).
Implicit Types (x : HS).

Definition leaves_quiet (m : Prog HS Reply) x : Prop := runs m x (fun _ x' => quiet x x').
Lemma quiet_ret reply x : leaves_quiet (mret reply) x.
Proof. apply runs_ret. reflexivity. Qed.
Lemma quiet_agent {A} (m : Prog (AState W) A) (k : A -> Prog HS Reply) x :
  runs m (hs_agent x) (fun y s => chaos (os s) = chaos (os (hs_agent x)) /\ runs (k y) (with_agent s x) (fun _ x' => quiet (with_agent s x) x')) ->
  leaves_quiet (on_agent m ≫= k) x.
Proof.
  intros Hm. apply runs_bind, on_agent_runs. eapply runs_mono; [exact Hm|]. intros y s [Hc Hk]. eapply runs_mono; [exact Hk|].
  intros reply x' Hx'. etransitivity; [|exact Hx']. now repeat split.
Qed.
Lemma only_limiters_ok x x' : only_limiters x x' -> hs_ok h x -> hs_ok h x'.
Proof. intros (w & m & ->). apply ok_world. Qed.

Lemma chat_quiet r x : hs_ok h x -> leaves_quiet (chat h r) x.
Proof.
  intros [[Ho _] _]. unfold chat. destruct (chat_body r) as [reply|c]; [apply quiet_ret|]. apply quiet_agent.
  replace (if String.eqb (Header (req_http r) "X-Priority") "batch" then AskBatch a (chat_Prompt c) else Ask a (chat_Prompt c))
    with (ask a (chat_Prompt c) (String.eqb (Header (req_http r) "X-Priority") "batch")) by now destruct (String.eqb _ "batch").
  eapply runs_mono; [now apply (ask_runs_switches a)|]. intros [resp err] s [_ Hc]. split; [exact Hc|apply quiet_ret].
Qed.
Lemma chatStream_quiet r x : hs_ok h x -> leaves_quiet (chatStream h client r) x.
Proof.
  intros Hx. unfold chatStream. destruct (validatePrompt (query_prompt r)) as [[st msg]|]; [apply quiet_ret|]. apply quiet_agent, runs_lift.
  destruct (stream_runs (orch a) client (query_prompt r) (os (hs_agent x))) as (usable & s1 & s2 & _ & Es & _ & _ & _ & _ & _ & Ec); [apply handler_chunks|].
  eexists _, s2. split; [exact Es|]. split; [exact Ec|apply quiet_ret].
Qed.
Lemma react_quiet r x : hs_ok h x -> leaves_quiet (react h r) x.
Proof.
  intros Hx. unfold react. destruct (chat_body r) as [reply|c]; [apply quiet_ret|]. cbv zeta.
  set (id := if String.eqb (chat_SessionID c) EmptyString then _ else _).
  assert (Hid : runs (if String.eqb id EmptyString then generateSessionID h else mret id) x (fun _ x' => only_limiters x x')).
  { case_bool; [|apply runs_ret; reflexivity]. apply runs_bind, on_agent_runs. unfold runs at 1, read_random.
    destruct (random_bytes a _) as [b w]. eexists _, _. split; [reflexivity|]. apply runs_ret. exists w, (hs_limits x). now destruct x. }
  apply runs_bind. eapply runs_mono; [exact Hid|]. intros id' x1 Hx1. eapply (runs_mono _ _ (fun _ x' => quiet x1 x'));
    [|intros reply x' Hq; etransitivity; [apply only_limiters_quiet, Hx1|exact Hq]].
  apply quiet_agent. eapply runs_mono; [apply (React_runs a); [apply handler_breakers|apply handler_tools|now apply (only_limiters_ok x x1)]|].
  intros resp s (s0 & t & _ & Hc0 & _ & _ & _ & _ & [_ Hc] & _). split; [congruence|apply quiet_ret].
Qed.
Lemma compare_quiet r x : hs_ok h x -> leaves_quiet (Api.compare h raw_first r) x.
Proof.
  intros [[Ho _] _]. unfold Api.compare. destruct (chat_body r) as [reply|c]; [apply quiet_ret|]. apply quiet_agent.
  eapply runs_mono; [apply (Compare_runs a); [exact Ho|apply handler_embed]|].
  intros p s (resp & err & raw & e & e' & _ & _ & Hc & _). split; [exact Hc|apply quiet_ret].
Qed.
Lemma status_quiet r x : hs_ok h x -> leaves_quiet (get_status h r) x.
Proof.
  intros Hx. apply quiet_agent. eapply runs_mono; [apply (status_runs a), Hx|].
  intros st s (_ & _ & _ & _ & Hs & _). destruct Hs as (Hp & _). apply parts_inv in Hp as (_ & _ & _ & _ & Hc). split; [exact Hc|apply quiet_ret].
Qed.
Lemma scoreHistory_quiet r x : hs_ok h x -> leaves_quiet (scoreHistory (W := W) (L := L) r) x.
Proof.
  intros [(_ & Hh & _) _]. apply runs_bind. exists (history (History (mem (hs_agent x)))), x. unfold query_st.
  rewrite Snapshot_history_spec by exact Hh. split; [reflexivity|apply quiet_ret].
Qed.
Lemma healthReady_quiet r x : leaves_quiet (healthReady h r) x.
Proof.
  apply runs_bind. unfold runs at 1, agent_Ping. destruct (Ping _ _) as [err w]. eexists _, _. split; [reflexivity|].
  apply runs_ret. repeat split.
Qed.
Lemma in_world_quiet {A} (f : W -> A * W) (k : A -> Reply) x : leaves_quiet (y ← in_world f; mret (k y)) x.
Proof. apply runs_bind, in_world_runs. intros w _. apply runs_ret. repeat split. Qed.
Lemma dashboard_quiet r x : leaves_quiet (dashboard h r) x.
Proof. apply runs_bind, in_world_runs. intros w _. destruct (dashboard_template _ _).1 as [written err]. apply runs_ret. repeat split. Qed.
Lemma library_page_quiet f r x : leaves_quiet (library_page f r) x.
Proof. apply runs_bind, in_world_runs. intros w _. destruct (f r _).1 as [status body]. apply runs_ret. repeat split. Qed.

Lemma open_handlers_quiet : Forall (fun e => gated e = false -> forall r x, hs_ok h x -> leaves_quiet (handler e r) x) routes.
Proof.
  unfold Register. repeat (apply Forall_cons; split); try apply Forall_nil_2; intros Hg; try discriminate Hg; intros r x Hx; cbn [handler];
    first [now apply chat_quiet | now apply chatStream_quiet | now apply react_quiet | now apply status_quiet | now apply scoreHistory_quiet
          | apply healthReady_quiet | apply dashboard_quiet | apply library_page_quiet | now apply compare_quiet | apply quiet_ret].
Qed.

(** The limiters in front of a handler move only their table. *)
Lemma limiters_quiet ms next r : ~ In Auth ms -> (forall x, hs_ok h x -> leaves_quiet (next r) x) ->
  forall x, hs_ok h x -> leaves_quiet (foldr (around h order) next ms r) x.
Proof.
  intros Hms Hn. induction ms as [|m ms IH]; intros x Hx; cbn [foldr]; [now apply Hn|].
  assert (Hlim : forall b, leaves_quiet (limited h order b (foldr (around h order) next ms) r) x).
  { intros b. apply limited_runs; intros x1 Hx1; [|now apply only_limiters_quiet].
    eapply runs_mono; [apply IH; [intros Hin; apply Hms; now right|now apply (only_limiters_ok x)]|].
    intros reply x' Hq. etransitivity; [apply only_limiters_quiet, Hx1|exact Hq]. }
  destruct m; cbn [around]; [apply Hlim..|]. exfalso. apply Hms. now left.
Qed.
Lemma gated_not_in (e : RouteEntry (W := W) (L := L)) : gated e = false -> ~ In Auth (wrappers e).
Proof. unfold gated. intros Hg Hin. assert (Ht : existsb (fun m => match m with Auth => true | _ => false end) (wrappers e) = true) by (apply existsb_exists; now exists Auth). congruence. Qed.

(** One request without the token. *)
Lemma stranger_quiet e r x : AuthEnabled h = true -> ~ authorized h r -> In e routes -> hs_ok h x ->
  runs (serve h order e r) x (fun reply x' => quiet x x' /\
    (gated e = true -> exists msg status, reply = http_Error msg status /\ (status = 401 \/ status = 429))).
Proof.
  intros Ht Hr He Hx. destruct (gated e) eqn:Hg.
  - eapply runs_mono; [apply (gate_runs h order (wrappers e) (handler e) r Ht Hr (gated_in e Hg) x x); reflexivity|].
    intros reply x' (Hq & msg & Er & Hc). split; [now apply only_limiters_quiet|]. intros _. now exists msg, (code reply).
  - pose proof open_handlers_quiet as Hall. rewrite Forall_forall in Hall.
    eapply runs_mono; [apply limiters_quiet; [now apply gated_not_in| |exact Hx]|intros reply x' Hq; split; [exact Hq|discriminate]].
    intros x1 Hx1. apply Hall; [now apply list_elem_of_In|exact Hg|exact Hx1].
Qed.

(** ** The scenarios *)

(** No scenario starts or ends, or one starts. *)
Definition running x : bool := IsRunning (chaos (os (hs_agent x))).
Definition calm x x' : Prop := running x' = running x /\ hs_scenarios x' = hs_scenarios x.
Definition begins x x' : Prop := running x = false /\ running x' = true /\ hs_scenarios x' = hs_scenarios x ++ [RunChaos].
Definition scenario_moves x x' : Prop := calm x x' \/ begins x x'.
Lemma quiet_calm x x' : quiet x x' -> calm x x'.
Proof. intros (Hc & _ & Hs). split; [unfold running; now rewrite Hc|exact Hs]. Qed.
Lemma calm_moves x x1 x2 : calm x x1 -> scenario_moves x1 x2 -> scenario_moves x x2.
Proof. intros [Er Es] [[Er' Es']|(E1 & E2 & E3)]; [left; split; congruence|right; repeat split; congruence]. Qed.
Definition moves_scenario (m : Prog HS Reply) x : Prop := runs m x (fun _ x' => scenario_moves x x').
Lemma calm_runs m x : leaves_quiet m x -> moves_scenario m x.
Proof. intros Hm. eapply runs_mono; [exact Hm|]. intros reply x' Hq. left. now apply quiet_calm. Qed.
Lemma start_scenario_moves (k : bool -> Reply) x : moves_scenario (b ← start_scenario (W := W) (L := L); mret (k b)) x.
Proof.
  apply runs_bind, start_scenario_runs; [intros _; apply runs_ret; left; now split|].
  intros c x' Hr Ht ->. apply runs_ret. right. split; [exact Hr|]. split; [|reflexivity].
  unfold TryStart in Ht. destruct (chaosRunning _); [discriminate|]. injection Ht as <-. reflexivity.
Qed.
Lemma switch_moves (m : Prog (AState W) unit) reply x :
  runs m (hs_agent x) (fun _ s => IsRunning (chaos (os s)) = running x) -> moves_scenario (_ ← on_agent m; mret reply) x.
Proof.
  intros Hm. apply runs_bind, on_agent_runs. eapply runs_mono; [exact Hm|]. intros ? s Hs. apply runs_ret. left. now split.
Qed.
Lemma kill_running f s : (forall t c, IsRunning (f t c) = IsRunning c) -> runs (kill a f) s (fun _ s' => IsRunning (chaos (os s')) = IsRunning (chaos (os s))).
Proof. intros Hf. apply runs_bind, now_runs_. intros t w. apply runs_update. cbn. apply Hf. Qed.
Lemma update_running f (s : AState W) : (forall c, IsRunning (f c) = IsRunning c) -> runs (update_chaos f) s (fun _ s' => IsRunning (chaos (os s')) = IsRunning (chaos (os s))).
Proof. intros Hf. apply runs_update. cbn. apply Hf. Qed.
Lemma setWebhook_moves r x : moves_scenario (setWebhook h r) x.
Proof.
  unfold setWebhook. destruct (_ ≫= _) as [[|c u]|]; try (apply runs_ret; left; now split).
  destruct (validateWebhookURL _ _ _ _); [apply runs_ret; left; now split|]. apply runs_bind, runs_update, runs_ret. left. now split.
Qed.
Lemma handlers_move : Forall (fun e => forall r x, hs_ok h x -> moves_scenario (handler e r) x) routes.
Proof.
  pose proof open_handlers_quiet as Hopen.
  assert (Hread : forall (f : HS -> Reply) x, moves_scenario (x ← get_st; mret (f x)) x).
  { intros f x. apply runs_bind, runs_get, runs_ret. left. now split. }
  unfold Register in *. repeat (apply Forall_cons in Hopen as [Hq Hopen]; apply Forall_cons; split;
    [first [intros r x Hx; now apply calm_runs, Hq | clear Hq]|clear Hq]); try apply Forall_nil_2; cbn [handler]; intros r x Hx;
    unfold killPrimary, restorePrimary, killFallback, restoreFallback, enableDegrade, disableDegrade,
      Agent_KillPrimary, Agent_RestorePrimary, Agent_KillFallback, Agent_RestoreFallback, EnableDegradeMode, DisableDegradeMode;
    first [exact (Hread _ x) | apply start_scenario_moves | apply setWebhook_moves
          | apply switch_moves, kill_running; intros; unfold EnableDegrade; first [reflexivity | now case_match]
          | apply switch_moves, update_running; reflexivity
          | apply switch_moves, runs_update; reflexivity
          | apply runs_bind, runs_update, runs_ret; left; now split ].
Qed.
Lemma serve_moves e r x : In e routes -> hs_ok h x -> moves_scenario (serve h order e r) x.
Proof.
  intros He. pose proof handlers_move as Hall. rewrite Forall_forall in Hall. specialize (Hall e (proj2 (list_elem_of_In _ _) He)).
  unfold serve. revert x. induction (wrappers e) as [|m ms IH]; intros x Hx; cbn [foldr]; [now apply Hall|].
  assert (Hlim : forall b, moves_scenario (limited h order b (foldr (around h order) (handler e) ms) r) x).
  { intros b. apply limited_runs; intros x1 Hx1; [|left; now apply quiet_calm, only_limiters_quiet].
    eapply runs_mono; [now apply IH, (only_limiters_ok x)|]. intros reply x'. apply calm_moves. now apply quiet_calm, only_limiters_quiet. }
  destruct m; cbn [around]; [apply Hlim..|]. unfold requireAuth. repeat case_bool; first [now apply IH | apply runs_ret; left; now split].
Qed.
End Routes.
