(* ===== verification/Service.v ===== *)
(** * The whole service (main.go, agent/agent.go, api/handler.go put together)

    [service cfg c] is the handler [api.New] builds around the agent
    [newAgent] builds from one configuration, while the switches are [c] (the
    primary's decorator reads the degrade switch).  What happens to a running
    process is a list of [ServiceEvent]s: routed requests, and the steps of the
    goroutines and timers the code starts: the two cleanup tickers, the
    auto-restore timers, the embedding jobs, the chaos scenarios one step at a
    time, the breakers' callbacks with their webhook posts, and the shutdown.
    Each event runs without another one in between; the goroutines inside a
    request are in Chaos.v and EvalConc.v.  The constructors of flowguard's
    guards, the HTTP client and resolver, the time zones, the clock and the
    libraries behind the pages are the parameters they are in the components'
    files. *)
From S2P Require Import Prelude Float64 GoStrings Json Strconv Evaluator Breaker Calculator Provider Chaos Telemetry Memory Orchestrator Stream Guarded Tools Agent Toolset GetTime React Net WebhookUrl RateLimit Webhook Demo Backends Wiring Api ApiSpec Footprint.
From S2P Require SemanticCache Config.
From Stdlib Require Import ZArith Lia String.
From stdpp Require Import base tactics list gmap strings.
#[local] Open Scope Z_scope.

(** What the service needs of flowguard's guards. *)
Class FlowguardLaws {W} (fg : Flowguard W) : Prop := {
  fg_bulkhead : forall slots wait, CallsOnce (new_bulkhead fg slots wait);
  fg_shedder : forall start window, CallsOnce (new_shedder fg start window);
  fg_adaptive : forall window rate minimum timeout successes, GuardLaws (new_adaptive fg window rate minimum timeout successes);
  fg_breaker : forall threshold timeout, GuardLaws (new_breaker fg threshold timeout);
  fg_hedge : forall delay extra, GuardLaws (new_hedge fg delay extra);
  fg_retry : forall retryIf attempts backoff, GuardLaws (new_retry fg retryIf attempts backoff);
}.
#[export] Existing Instances fg_bulkhead fg_shedder fg_adaptive fg_breaker fg_hedge fg_retry.
(** And of a backend: no answer of a terabyte, no stream of [2^63] chunks. *)
Class Upstream {W} (p : LLMProvider W) : Prop := {
  upstream_text : forall req w r w', Generate p req w = (inr r, w') -> slen (Text r) < max_text;
  upstream_chunks : forall req w, len (chunks_of (Stream p req w).1.1) <= int64_max;
}.
#[export] Instance wrapper_upstream {W} (p : LLMProvider W) c `{!Upstream p} : Upstream (wrapper_provider (degraded_wrapper p c)).
Proof.
  split; intros req w; cbn [wrapper_provider Generate Stream]; unfold degraded_Generate, degraded_Stream;
    cbn [degraded_wrapper enabled inner]; destruct (flag (Chaos.degrade c)).
  - intros r w' [= <- <-]. cbn [Text]. unfold degradedText. repeat case_bool; vm_compute; reflexivity.
  - apply upstream_text.
  - vm_compute. discriminate.
  - apply upstream_chunks.
Qed.

(** What the scheduler and the runtime choose for a request. *)
Record Schedule (W L : Type) := mkSchedule {
  range_order : gmap string (ipEntry L) -> list (string * ipEntry L); sch_raw_first : bool; sch_client : Client;
}.
Arguments mkSchedule {W L}.
Arguments range_order {W L}.
Arguments sch_raw_first {W L}.
Arguments sch_client {W L}.

Inductive ServiceEvent (W L : Type) :=
| Requested (route : nat) (r : ApiRequest) (sched : Schedule W L)
| SessionsSwept | TracesSwept                 (** a tick of a cleanup goroutine *)
| RestoreDue (sw : Switch)                    (** a timer's callback *)
| EmbeddingDone (job : nat)                   (** an embedding job of the cache *)
| ScenarioStepped (i : nat) (idle : Z -> W -> W) (takes : ChaosEvent -> bool)  (** a step of a scenario *)
| TransitionReported (primary : bool) (i : nat)  (** a breaker's callback *)
| PostEnded                                   (** a webhook post *)
| Stopped.                                    (** [Agent.Stop] *)
Arguments Requested {W L}.
Arguments SessionsSwept {W L}.
Arguments TracesSwept {W L}.
Arguments RestoreDue {W L}.
Arguments EmbeddingDone {W L}.
Arguments ScenarioStepped {W L}.
Arguments TransitionReported {W L}.
Arguments PostEnded {W L}.
Arguments Stopped {W L}.

(** What an event shows to the outside: a reply, an event at the webhook, or
    events of a scenario and whether its channel took them. *)
Inductive Outcome :=
| Answered (reply : Reply) | Reported (e : WebhookEvent) (r : FireResult) | Emitted (l : list (ChaosEvent * bool)) | Silent.

Section Service.
Context {W L : Type} `{Unicode} `{Printable} `{MathFun} `{FloatToInt}.
Context (http_do : Z -> ApiCall -> W -> Backends.Exchange * W) (decode_error : string -> option string -> string)
  (ctx : nat -> option GoError) (w0 : W) (fg : Flowguard W) (clock : W -> Z * W) (rand : W -> list Z * W).
Context (tool_breaker : string -> Z -> Z -> Guard W) (http_post : string -> string -> W -> Toolset.Exchange * W)
  (mcp_decode_error : string -> string) (zone : string -> W -> (string + (Z -> Z)) * W).
Context (new_window : Z -> Z -> L) (allow_window : Z -> L -> bool * L)
  (parse : string -> string + (string * string)) (lookup_host : string -> option (list IP)) (pages : Pages W).
Notation HS := (HState W L).
Notation P := (Prog HS).

Definition service_agent (cfg : Config.Config) (c : Chaos) : Agent W := newAgent http_do decode_error ctx w0 fg clock rand cfg c.
Definition service (cfg : Config.Config) (c : Chaos) : Handler W L :=
  let a := service_agent cfg c in
  mkHandler a cfg (Some (Embed (embed_provider http_do decode_error ctx w0 cfg))) new_window allow_window
    (fun name => tool_breaker name 3 (20 * second)) (built_in_tools a http_post mcp_decode_error zone (Some cfg)) parse lookup_host pages.

(** The state a start leaves; [None]: it panics. *)
Definition start_service (Getenv : string -> string) (w : W) : option (Config.Config * HS) :=
  '(cfg, s) ← New http_do decode_error ctx w0 Getenv w; Some (cfg, mkHState s ∅ NewWebhookDispatcher []).

Section Step.
Context (cfg : Config.Config).
Definition switches_now (x : HS) : Chaos := chaos (os (hs_agent x)).
Definition update_agent (f : AState W -> AState W) : P unit := on_agent (update_st f).
Definition sweep (x : HS) (f : Z -> Store -> Store) : P Outcome :=
  t ← on_agent (now_ (service_agent cfg (switches_now x))); _ ← update_agent (fun s => with_mem (f t (mem s)) s); mret Silent.

Definition routed (route : nat) (r : ApiRequest) (sched : Schedule W L) (x : HS) : P Outcome :=
  let h := service cfg (switches_now x) in
  match Register h (sch_raw_first sched) (sch_client sched) !! route with
  | None => mret Silent
  | Some e => reply ← serve h (range_order sched) e r; mret (Answered reply)
  end.
(** [Set]'s goroutine comes back with the embedding. *)
Definition embedding_done (i : nat) : P Outcome :=
  _ ← update_agent (fun s =>
    let c := Orchestrator.sc (os s) in
    match SemanticCache.jobs c !! i with
    | None => s
    | Some j => with_os (with_sc (SemanticCache.finish_job j (SemanticCache.with_jobs c (delete i (SemanticCache.jobs c)))) (os s)) s
    end); mret Silent.
(** A goroutine of [StartChaos]: a step of its script, and [Done] at the
    end. *)
Definition scenario_step (i : nat) (idle : Z -> W -> W) (takes : ChaosEvent -> bool) (x : HS) : P Outcome :=
  match hs_scenarios x !! i with
  | None => mret Silent
  | Some [] =>
      _ ← on_agent (update_chaos Chaos.Done); _ ← update_st (fun x => with_scenarios (delete i (hs_scenarios x)) x); mret Silent
  | Some (st :: rest) =>
      events ← on_agent (fun s => '(_, (s, l)) ← script_step (service_agent cfg) idle takes st (s, []); Some (l, s));
      _ ← update_st (fun x => with_scenarios (<[i := rest]> (hs_scenarios x)) x); mret (Emitted events)
  end.
(** The callback of a breaker fires the webhook. *)
Definition report_transition (prim : bool) (i : nat) (x : HS) : P Outcome :=
  match started (os (hs_agent x)) !! i with
  | None => mret Silent
  | Some change =>
      t ← on_agent (now_ (service_agent cfg (switches_now x)));
      t' ← on_agent (now_ (service_agent cfg (switches_now x)));
      _ ← update_agent (fun s => with_os (with_started (delete i (started (os s))) (os s)) s);
      x ← get_st;
      let '(result, d) := Fire t' (hs_hook x) in
      _ ← update_st (with_hook d);
      mret (Reported (transition_event (if prim then primary_model cfg else fallback_model cfg) t change) result)
  end.

Definition service_step (e : ServiceEvent W L) : P Outcome :=
  x ← get_st;
  match e with
  | Requested route r sched => routed route r sched x
  | SessionsSwept => if done (Sessions (mem (hs_agent x))) then mret Silent
                     else sweep x (fun t m => with_sessions (cleanup_tick t (Sessions m)) m)
  | TracesSwept => if trace_done (Traces (mem (hs_agent x))) then mret Silent
                   else sweep x (fun t m => with_traces (cleanup_traces t (Traces m)) m)
  | RestoreDue sw => t ← on_agent (now_ (service_agent cfg (switches_now x))); _ ← on_agent (update_chaos (restore_due sw t)); mret Silent
  | EmbeddingDone i => embedding_done i
  | ScenarioStepped i idle takes => scenario_step i idle takes x
  | TransitionReported prim i => report_transition prim i x
  | PostEnded => _ ← update_st (fun x => if 0 <? in_flight (hs_hook x) then with_hook (finish_post (hs_hook x)) x else x); mret Silent
  | Stopped => _ ← update_agent Agent_Stop; mret Silent
  end.
Fixpoint run_service (l : list (ServiceEvent W L)) : P (list Outcome) :=
  match l with [] => mret [] | e :: l => o ← service_step e; outcomes ← run_service l; mret (o :: outcomes) end.
End Step.
End Service.

(** ** The service never stops answering *)

(** The routes of library handlers, by position: the metrics, the static
    files. *)
Definition library_routes : list nat := [11; 27]%nat.

Section Facts.
Context {W L : Type} `{Unicode} `{Printable} `{MathFun} `{FloatToInt}.
Context (http_do : Z -> ApiCall -> W -> Backends.Exchange * W) (decode_error : string -> option string -> string)
  (ctx : nat -> option GoError) (w0 : W) (fg : Flowguard W) (clock : W -> Z * W) (rand : W -> list Z * W).
Context (tool_breaker : string -> Z -> Z -> Guard W) (http_post : string -> string -> W -> Toolset.Exchange * W)
  (mcp_decode_error : string -> string) (zone : string -> W -> (string + (Z -> Z)) * W).
Context (new_window : Z -> Z -> L) (allow_window : Z -> L -> bool * L)
  (parse : string -> string + (string * string)) (lookup_host : string -> option (list IP)) (pages : Pages W).
Context {Hfg : FlowguardLaws fg} {Htools : forall name threshold timeout, CallsOnce (tool_breaker name threshold timeout)}
  {Hup : forall cfg, Upstream (chat_provider http_do decode_error ctx w0 cfg)}.
Notation HS := (HState W L).
Notation service := (service http_do decode_error ctx w0 fg clock rand tool_breaker http_post mcp_decode_error zone new_window allow_window parse lookup_host pages).
Notation service_agent := (service_agent http_do decode_error ctx w0 fg clock rand).
Notation service_step := (service_step http_do decode_error ctx w0 fg clock rand tool_breaker http_post mcp_decode_error zone new_window allow_window parse lookup_host pages).
Notation run_service := (run_service http_do decode_error ctx w0 fg clock rand tool_breaker http_post mcp_decode_error zone new_window allow_window parse lookup_host pages).
Implicit Types (x : HS).

#[local] Instance chat_stream cfg : StreamContract (chat_provider http_do decode_error ctx w0 cfg).
Proof. unfold chat_provider. case_bool; typeclasses eauto. Qed.
#[local] Instance service_agent_laws cfg c : AgentLaws (service_agent cfg c).
Proof.
  split; try typeclasses eauto. split; try typeclasses eauto; apply upstream_text.
Qed.
#[local] Instance service_laws cfg c : HandlerLaws (service cfg c).
Proof.
  split.
  - typeclasses eauto.
  - intros name. cbn. typeclasses eauto.
  - apply built_in_tools_safe.
  - intros f [= <-]. apply embed_provider_valid.
  - cbn. typeclasses eauto.
  - cbn. typeclasses eauto.
  - intros prompt w. apply (upstream_chunks (p := wrapper_provider _)).
Qed.

(** At most one scenario runs, what is left of it is an end of the script, and
    its flag is set just while it runs. *)
Definition scenarios_ok x : Prop :=
  (running x = false /\ hs_scenarios x = []) \/ (running x = true /\ exists before rest, RunChaos = before ++ rest /\ hs_scenarios x = [rest]).
Lemma scenarios_ok_calm x x' : calm x x' -> scenarios_ok x -> scenarios_ok x'.
Proof. unfold calm, scenarios_ok. intros [-> ->]. auto. Qed.
Lemma scenarios_ok_moves x x' : scenario_moves x x' -> scenarios_ok x -> scenarios_ok x'.
Proof.
  intros [Hc|(Hr & Hr' & Es)] Hx; [now apply (scenarios_ok_calm x)|]. right. split; [exact Hr'|]. exists [], RunChaos. split; [done|].
  destruct Hx as [[_ E]|[E _]]; [now rewrite Es, E|congruence].
Qed.
(** The invariant; the handlers' part does not depend on the switches. *)
Definition service_ok cfg x : Prop := hs_ok (service cfg (NewChaos true)) x /\ scenarios_ok x.
Lemma service_ok_agent cfg s x : service_ok cfg x -> agent_ok s -> IsRunning (chaos (os s)) = running x -> service_ok cfg (with_agent s x).
Proof. intros [[_ Hh] Hsc] Hs Hr. split; [split; assumption|]. revert Hsc. now apply scenarios_ok_calm. Qed.
Lemma service_ok_agent_ok cfg x : service_ok cfg x -> agent_ok (hs_agent x).
Proof. intros [[Ha _] _]. exact Ha. Qed.

Definition outcome_ok cfg (e : ServiceEvent W L) (o : Outcome) : Prop :=
  match e with
  | Requested route _ _ => if (route <? 28)%nat then exists reply, o = Answered reply /\ (~ In route library_routes -> In (code reply) statuses) else o = Silent
  | ScenarioStepped _ _ _ => o = Silent \/ exists l, o = Emitted l /\ forall e, In e (map fst l) -> In (ev_Type e) script
  | TransitionReported _ _ => o = Silent \/ exists ev r, o = Reported ev r /\ forall u, r = Started u -> validateWebhookURL parse lookup_host u cfg = None
  | _ => o = Silent
  end.
Definition stays_ok cfg (e : ServiceEvent W L) (o : Outcome) x : Prop := service_ok cfg x /\ outcome_ok cfg e o.

(** Steps on the agent that only move the world, or what no invariant reads. *)
Lemma tick_runs cfg c x (Q : Z -> HS -> Prop) : service_ok cfg x ->
  (forall t x', service_ok cfg x' -> hs_hook x' = hs_hook x -> parts (os (hs_agent x')) = parts (os (hs_agent x)) -> Q t x') ->
  runs (on_agent (now_ (service_agent cfg c))) x Q.
Proof.
  intros Hx HQ. apply on_agent_runs, now_runs_. intros t w. apply HQ; [|reflexivity..].
  apply service_ok_agent; [exact Hx| |reflexivity]. apply agent_ok_putw, Hx.
Qed.
Lemma update_runs cfg f x (Q : unit -> HS -> Prop) : service_ok cfg x -> (agent_ok (hs_agent x) -> agent_ok (f (hs_agent x))) ->
  IsRunning (chaos (os (f (hs_agent x)))) = running x ->
  (forall x', service_ok cfg x' -> hs_hook x' = hs_hook x -> Q tt x') -> runs (update_agent f) x Q.
Proof. intros Hx Hf Hr HQ. apply on_agent_runs, runs_update, HQ; [|reflexivity]. apply service_ok_agent; [exact Hx| |exact Hr]. apply Hf, Hx. Qed.
Lemma silent_runs cfg e x : service_ok cfg x -> outcome_ok cfg e Silent -> runs (mret Silent) x (stays_ok cfg e).
Proof. intros Hx He. apply runs_ret. now split. Qed.

Lemma library_routes_are h b c n e : Register (W := W) (L := L) h b c !! n = Some e -> ~ In n library_routes -> library_route h e = None.
Proof.
  intros E Hn. do 28 (destruct n as [|n]; [injection E as <-; first [reflexivity|exfalso; apply Hn; cbn; auto]|]). discriminate.
Qed.
Lemma routed_ok cfg route r sched x : service_ok cfg x ->
  runs (routed http_do decode_error ctx w0 fg clock rand tool_breaker http_post mcp_decode_error zone new_window allow_window parse lookup_host pages
    cfg route r sched x) x (stays_ok cfg (Requested route r sched)).
Proof.
  intros Hx. unfold routed. cbv zeta. set (h := service cfg (switches_now x)).
  destruct (Register h (sch_raw_first sched) (sch_client sched) !! route) as [e|] eqn:E.
  - assert (Hin : In e (Register h (sch_raw_first sched) (sch_client sched))) by (apply list_elem_of_In; eapply list_elem_of_lookup_2, E).
    destruct Hx as [Hx Hsc]. apply runs_bind. eapply runs_mono.
    + apply runs_both; [exact (serve_ok h (range_order sched) (sch_raw_first sched) (sch_client sched) e r x Hin Hx)|].
      exact (serve_moves h (range_order sched) (sch_raw_first sched) (sch_client sched) e r x Hin Hx).
    + intros reply x' [[Hx' Hc] Hm]. apply runs_ret. split; [split; [exact Hx'|now apply (scenarios_ok_moves x)]|]. unfold outcome_ok.
      pose proof (library_routes_are h _ _ _ _ E) as Hlib. apply lookup_lt_Some in E. change (length (Register _ _ _)) with 28%nat in E.
      rewrite (proj2 (Nat.ltb_lt _ _) E). exists reply. split; [done|]. intros Hn. now rewrite (Hlib Hn) in Hc.
  - apply silent_runs; [exact Hx|]. unfold outcome_ok. apply lookup_ge_None in E. change (length (Register _ _ _)) with 28%nat in E.
    now rewrite (proj2 (Nat.ltb_ge _ _) E).
Qed.
Lemma sweep_ok cfg e f x : service_ok cfg x -> outcome_ok cfg e Silent -> (forall t m, History (f t m) = History m) ->
  runs (sweep http_do decode_error ctx w0 fg clock rand cfg x f) x (stays_ok cfg e).
Proof.
  intros Hx He Hf. apply runs_bind, (tick_runs cfg); [exact Hx|]. intros t x1 Hx1 _ _. apply runs_bind, (update_runs cfg); [exact Hx1| |reflexivity|].
  - intros Hok. revert Hok. apply agent_ok_parts; [reflexivity|cbn; apply Hf|reflexivity].
  - intros x2 Hx2 _. now apply silent_runs.
Qed.
Lemma chaos_update_ok cfg f x (Q : unit -> HS -> Prop) : service_ok cfg x -> (forall c, IsRunning (f c) = IsRunning c) ->
  (forall x', service_ok cfg x' -> Q tt x') -> runs (on_agent (update_chaos f)) x Q.
Proof. intros Hx Hf HQ. apply on_agent_runs, runs_update, HQ, service_ok_agent; [exact Hx| |apply Hf]. exact (service_ok_agent_ok cfg x Hx). Qed.
Lemma embedding_done_ok cfg i x : service_ok cfg x -> runs (embedding_done i) x (stays_ok cfg (EmbeddingDone i)).
Proof.
  intros Hx. apply runs_bind, (update_runs cfg); [exact Hx| |cbv zeta; now case_match|intros x' Hx' _; now apply silent_runs].
  intros Hok. cbv zeta. destruct (SemanticCache.jobs (Orchestrator.sc (os (hs_agent x))) !! i) as [j|]; [|exact Hok]. destruct Hok as [(Hb & He & [Hc Ht] & Hl) Hh].
  split; [|exact Hh]. split; [exact Hb|]. split; [exact He|]. split; [|exact Hl]. cbn.
  split; [now apply SemanticCache.finish_job_ok|now apply SemanticCache.finish_job_texts].
Qed.
(** The events of the script's steps. *)
Lemma script_types : Forall (fun st => plain_step st = true /\ forall k, Forall (fun type => In type script) (an_types (announce (mkAnnounced k 0 [] []) st))) RunChaos.
Proof. repeat (constructor; [split; [reflexivity|intros k; repeat constructor; vm_compute; tauto]|]). constructor. Qed.
Lemma scenario_step_ok cfg i idle takes x : service_ok cfg x ->
  runs (scenario_step http_do decode_error ctx w0 fg clock rand cfg i idle takes x) x (stays_ok cfg (ScenarioStepped i idle takes)).
Proof.
  intros Hx. unfold scenario_step. destruct (hs_scenarios x !! i) as [[|st rest]|] eqn:E; [| |apply silent_runs; [exact Hx|now left]].
  - destruct Hx as [Hx Hsc]. destruct Hsc as [[_ Es]|(Hr & before & rest & Er & Es)]; rewrite Es in E; [discriminate|].
    destruct i as [|i]; [|discriminate]. apply runs_bind, on_agent_runs, runs_update, runs_bind, runs_update, silent_runs; [|now left].
    split; [exact Hx|]. left. split; [reflexivity|]. cbn. now rewrite Es.
  - pose proof (service_ok_agent_ok cfg x Hx) as Hok. destruct Hx as [Hx Hsc].
    destruct Hsc as [[_ Es]|(Hr & before & rest' & Er & Es)]; rewrite Es in E; [discriminate|]. destruct i as [|i]; [|discriminate].
    injection E as ->. pose proof script_types as Hall. rewrite Er, Forall_app, Forall_cons in Hall. destruct Hall as (_ & [Hplain Htypes] & _).
    destruct (step_progress (service_agent cfg) (totalRequests (hs_agent x)) (fun _ => True) False (running x) idle takes st _ [] (hs_agent x, []) ltac:(done) Hplain
      (progress_start _ (fun _ => True) False _ (hs_agent x) eq_refl eq_refl Hok)) as (u & [s l] & E & Hp).
    apply runs_bind, on_agent_runs. exists l, s. split; [now rewrite E|]. apply runs_bind, runs_update, runs_ret.
    destruct Hp as (Hs & Hrun & _ & _ & Hty & _). cbn [fst snd] in *. split.
    + split; [apply keep_agent; [exact Hx|exact Hs]|]. right. split; [unfold running in *; cbn; congruence|].
      exists (before ++ [st]), rest. rewrite <- app_assoc. split; [exact Er|]. cbn. now rewrite Es.
    + right. exists l. split; [reflexivity|]. intros e He. specialize (Htypes (switches (hs_agent x))). rewrite <- Hty in Htypes.
      rewrite List.Forall_forall in Htypes. apply Htypes. now apply in_map.
Qed.
Lemma report_transition_ok cfg prim i x : service_ok cfg x ->
  runs (report_transition http_do decode_error ctx w0 fg clock rand cfg prim i x) x (stays_ok cfg (TransitionReported prim i)).
Proof.
  intros Hx. unfold report_transition. destruct (started (os (hs_agent x)) !! i) as [change|]; [|apply silent_runs; [exact Hx|now left]].
  apply runs_bind, (tick_runs cfg); [exact Hx|]. intros t x1 Hx1 _ _. apply runs_bind, (tick_runs cfg); [exact Hx1|]. intros t' x2 Hx2 _ _.
  apply runs_bind, (update_runs cfg); [exact Hx2|intros Hok; revert Hok; now apply agent_ok_parts|reflexivity|]. intros x3 Hx3 _.
  apply runs_bind, runs_get. destruct (Fire t' (hs_hook x3)) as [result d] eqn:E. apply runs_bind, runs_update, runs_ret.
  destruct Hx3 as [(Ha & Hk & Hu) Hsc].
  assert (Hd : hook_ok d) by (apply (hook_op_ok (OFire t') (hs_hook x3) [(t', result)] d Hk); cbn [hook_op]; now rewrite E).
  assert (Ed : url d = url (hs_hook x3) /\ forall u, result = Started u -> u = url (hs_hook x3) /\ u <> EmptyString).
  { unfold Fire in E. destruct (String.eqb_spec (url (hs_hook x3)) EmptyString); [injection E as <- <-; split; [done|discriminate]|].
    destruct (in_flight _ <? _); [injection E as <- <-; split; [done|intros u [= <-]; auto]|]. destruct (second <? _); injection E as <- <-; split; (done || discriminate). }
  split.
  - split; [|exact Hsc]. split; [exact Ha|]. split; [exact Hd|]. unfold hook_target, URL. cbn [hs_hook with_hook]. rewrite (proj1 Ed). exact Hu.
  - right. eexists _, _. split; [reflexivity|]. intros u Eu. destruct (proj2 Ed u Eu) as [-> Hne]. destruct Hu as [Hu|Hu]; [contradiction|exact Hu].
Qed.

Lemma service_step_ok cfg e x : service_ok cfg x -> runs (service_step cfg e) x (stays_ok cfg e).
Proof.
  intros Hx. apply runs_bind, runs_get. destruct e as [route r sched| | |sw|i|i idle takes|prim i| |].
  - now apply routed_ok.
  - case_bool; [now apply silent_runs|]. now apply sweep_ok.
  - case_bool; [now apply silent_runs|]. now apply sweep_ok.
  - apply runs_bind, (tick_runs cfg); [exact Hx|]. intros t x1 Hx1 _ _. apply runs_bind, (chaos_update_ok cfg); [exact Hx1|now destruct sw|].
    intros x2 Hx2. now apply silent_runs.
  - now apply embedding_done_ok.
  - now apply scenario_step_ok.
  - now apply report_transition_ok.
  - apply runs_bind, runs_update, silent_runs; [|reflexivity]. destruct Hx as [(Ha & Hk & Hu) Hsc]. destruct (Z.ltb_spec 0 (in_flight (hs_hook x))) as [Hp|]; [|split; [split; [exact Ha|now split]|exact Hsc]].
    split; [|exact Hsc]. split; [exact Ha|]. split; [|exact Hu]. unfold hook_ok in *. cbn. lia.
  - apply runs_bind, (update_runs cfg); [exact Hx|apply Agent_Stop_ok|reflexivity|]. intros x' Hx' _. now apply silent_runs.
Qed.
Lemma run_service_ok cfg l : forall x, service_ok cfg x ->
  runs (run_service cfg l) x (fun outcomes x' => service_ok cfg x' /\ Forall2 (outcome_ok cfg) l outcomes).
Proof.
  induction l as [|e l IH]; intros x Hx; cbn [Service.run_service]; [apply runs_ret; now split|].
  apply runs_bind. eapply runs_mono; [now apply service_step_ok|]. intros o x1 [Hx1 Ho]. apply runs_bind.
  eapply runs_mono; [now apply IH|]. intros outcomes x2 [Hx2 Hl]. apply runs_ret. split; [exact Hx2|now constructor].
Qed.
End Facts.

(** C26.  The service runs: from any environment the process starts, and then
    answers whatever happens, in any order and number: requests to any route
    with any body, cleanups, auto-restore timers, embedding jobs, the steps of
    a chaos scenario, webhook reports, the shutdown.  Nothing panics; every
    routed request is answered, with one of the API's nine statuses except by
    the two library handlers (the metrics and the static files); an event goes
    to the webhook only at a URL that passed validation, at most 32 at once; at
    most one scenario runs at a time, its flag is set just while it does and
    what it has before it is an end of the script; and every invariant the
    other theorems ask for holds at the end. *)
Theorem service_total {W L} `{Unicode} `{Printable} `{MathFun} `{FloatToInt} http_do decode_error ctx w0 (fg : Flowguard W) clock rand
    tool_breaker http_post mcp_decode_error zone (new_window : Z -> Z -> L) allow_window parse lookup_host (pages : Pages W) :
  FlowguardLaws fg -> (forall name threshold timeout, CallsOnce (tool_breaker name threshold timeout)) ->
  (forall cfg, Upstream (chat_provider http_do decode_error ctx w0 cfg)) ->
  forall Getenv w l, exists cfg x0 outcomes x,
    start_service http_do decode_error ctx w0 Getenv w = Some (cfg, x0) /\ Config.Validate cfg = None /\
    run_service http_do decode_error ctx w0 fg clock rand tool_breaker http_post mcp_decode_error zone new_window allow_window parse lookup_host pages
      cfg l x0 = Some (outcomes, x) /\
    Forall2 (outcome_ok parse lookup_host cfg) l outcomes /\
    agent_ok (hs_agent x) /\ 0 <= in_flight (hs_hook x) <= 32 /\
    (URL (hs_hook x) = EmptyString \/ validateWebhookURL parse lookup_host (URL (hs_hook x)) cfg = None) /\
    (IsRunning (chaos (os (hs_agent x))) = true <-> hs_scenarios x <> []) /\
    (hs_scenarios x = [] \/ exists before rest, RunChaos = before ++ rest /\ hs_scenarios x = [rest]).
Proof.
  intros Hfg Htools Hup Getenv w l. unfold start_service.
  destruct (New_starts http_do decode_error ctx w0 Getenv w) as (cfg & s & -> & Hl & Hok & _ & Hc0 & _). cbn [mbind option_bind].
  set (x0 := mkHState s ∅ NewWebhookDispatcher [] : HState W L).
  assert (Hx0 : service_ok http_do decode_error ctx w0 fg clock rand tool_breaker http_post mcp_decode_error zone new_window allow_window parse lookup_host pages cfg x0).
  { split; [split; [exact Hok|]; split; [split; vm_compute; discriminate|now left]|]. left. split; [|done]. unfold running. cbn. now rewrite Hc0. }
  destruct (run_service_ok http_do decode_error ctx w0 fg clock rand tool_breaker http_post mcp_decode_error zone new_window allow_window parse lookup_host pages
    cfg l x0 Hx0) as (outcomes & x & E & [(Ha & Hk & Hu) Hsc] & Ho).
  exists cfg, x0, outcomes, x. split; [reflexivity|]. split; [exact (Config.loaded_valid cfg Hl)|].
  split; [exact E|]. split; [exact Ho|]. split; [exact Ha|]. split; [exact Hk|]. split; [exact Hu|]. change (IsRunning _) with (running x).
  destruct Hsc as [[-> ->]|(-> & before & rest & Er & ->)]; [split; [split; [discriminate|contradiction]|now left]|split; [split; [discriminate|done]|right; eauto]].
Qed.

(** ** A sample service

    Every backend is down: each request is still answered. *)

Module SampleService.
Definition no_server {E X} (call_failed : E -> X) (e : E) : Z -> X * Z := fun w => (call_failed e, w).
Definition flowguard : Flowguard Z :=
  mkFlowguard Z (fun _ _ => Sample.direct) (fun _ _ => Sample.direct) (fun _ _ _ _ _ => Sample.direct) (fun _ _ => Sample.direct)
    (fun _ _ => Sample.direct) Sample.retry (fun _ _ => "closed"%string) (fun _ => false) (fun _ => false) (fun _ => (f0, (10, 0), (0, 0))).
#[export] Instance flowguard_laws : FlowguardLaws flowguard.
Proof. split; intros; first [exact direct_once | exact Sample.direct_laws | exact (Sample.retry_laws _ _ _)]. Qed.
Definition down : Z -> ApiCall -> Z -> Backends.Exchange * Z := fun _ _ => no_server Backends.CallFailed (plain_error "connection refused").
Definition decode_text : string -> option string -> string := fun _ _ => EmptyString.
Definition live : nat -> option GoError := fun _ => None.
#[export] Instance down_upstream cfg : Upstream (chat_provider down decode_text live 0 cfg).
Proof.
  unfold chat_provider. case_bool; split.
  - intros req w r w'. cbn. unfold openai_Generate. cbn. discriminate.
  - intros req w. vm_compute. discriminate.
  - intros req w r w'. cbn. unfold ollama_Generate. cbn. discriminate.
  - intros req w. vm_compute. discriminate.
Qed.
Definition run (Getenv : string -> string) (l : list (ServiceEvent Z SampleWindow.Log)) : option (list Outcome * HState Z SampleWindow.Log) :=
  '(cfg, x) ← start_service down decode_text live 0 Getenv 0;
  run_service down decode_text live 0 flowguard (fun w => (w, w + second)) (fun w => ([w mod 256], w))
    (fun _ _ _ => Sample.direct) (fun _ _ => no_server Toolset.CallFailed "no server"%string) (fun _ => EmptyString) sample_zone
    SampleWindow.New SampleWindow.Allow sample_parse sample_lookup SampleApi.pages cfg l x.
Definition sched : Schedule Z SampleWindow.Log := mkSchedule map_to_list true (fun _ => true).
Definition request (body : string) : ApiRequest := mkRequest (mkHttp "10.0.0.7:1" (fun _ => EmptyString)) EmptyString "q" body.
Definition chat_q : string := marshalArgs (Some [("prompt", JStr "q")])%string.
Definition hook_body : string := marshalArgs (Some [("url", JStr "https://hooks.example.com")])%string.
Definition scenario_steps (n : nat) : list (ServiceEvent Z SampleWindow.Log) := repeat (ScenarioStepped 0 sample_idle (fun _ => true)) n.
(** A chat, the webhook, a stream, a kill, a scenario in the background; in
    its midst a chat, a timer and the attempt to start another one; at last
    the status and the shutdown. *)
Definition day : list (ServiceEvent Z SampleWindow.Log) :=
  [Requested 0 (request chat_q) sched; Requested 23 (request hook_body) sched; Requested 1 (request EmptyString) sched;
   Requested 13 (request EmptyString) sched; Requested 17 (request EmptyString) sched] ++ scenario_steps 14 ++
  [Requested 0 (request chat_q) sched; RestoreDue PrimarySwitch; Requested 18 (request EmptyString) sched] ++ scenario_steps 27 ++
  [EmbeddingDone 0; TransitionReported true 0; PostEnded; SessionsSwept;
   Requested 6 (request EmptyString) sched; Requested 8 (request EmptyString) sched; Stopped; TracesSwept; Requested 28 (request EmptyString) sched].
Definition answered (o : Outcome) : option Z := match o with Answered reply => Some (code reply) | _ => None end.
End SampleService.
Export (hints) SampleService.

Example day_answers : option_map (fun x => omap SampleService.answered x.1) (SampleService.run (fun _ => EmptyString) SampleService.day) =
  Some [200; 200; 200; 200; 200; 200; 409; 200; 503].
Proof. vm_compute. reflexivity. Qed.
Lemma service_total_witness : exists outcomes x, SampleService.run (fun _ => EmptyString) SampleService.day = Some (outcomes, x) /\
  agent_ok (hs_agent x) /\ 0 <= in_flight (hs_hook x) <= 32.
Proof.
  destruct (service_total SampleService.down SampleService.decode_text SampleService.live 0 SampleService.flowguard (fun w => (w, w + second))
    (fun w => ([w mod 256], w)) (fun _ _ _ => Sample.direct) (fun _ _ => SampleService.no_server Toolset.CallFailed "no server"%string)
    (fun _ => EmptyString) sample_zone SampleWindow.New SampleWindow.Allow sample_parse sample_lookup SampleApi.pages
    SampleService.flowguard_laws (fun _ _ _ => direct_once) SampleService.down_upstream (fun _ => EmptyString) 0 SampleService.day)
    as (cfg & x0 & outcomes & x & E0 & _ & E & _ & Ha & Hk & _).
  exists outcomes, x. split; [|split; [exact Ha|exact Hk]]. unfold SampleService.run. rewrite E0. exact E.
Defined.
