(* ===== verification/Lockdown.v ===== *)
(** * What a stranger cannot do (api/auth.go over the whole service)

    With a token configured, requests that do not carry it leave the demo
    switches and the webhook as they are, whatever they ask for and whatever
    the service's own goroutines do in between: Footprint.v shows it for one
    route, here it is shown for every run of Service.v. *)
From S2P Require Import Prelude Float64 GoStrings Json Strconv Evaluator Breaker Calculator Provider Chaos Telemetry Memory Orchestrator Stream Guarded Tools Agent Toolset GetTime React Net WebhookUrl RateLimit Webhook Demo Backends Wiring Api ApiSpec Footprint Service.
From S2P Require SemanticCache Config.
From Stdlib Require Import ZArith Lia String.
From stdpp Require Import base tactics list gmap strings.
#[local] Open Scope Z_scope.

(** ** Over the life of the service *)

Section Life.
Context {W L : Type} `{Unicode} `{Printable} `{MathFun} `{FloatToInt}.
Context (http_do : Z -> ApiCall -> W -> Backends.Exchange * W) (decode_error : string -> option string -> string)
  (ctx : nat -> option GoError) (w0 : W) (fg : Flowguard W) (clock : W -> Z * W) (rand : W -> list Z * W).
Context (tool_breaker : string -> Z -> Z -> Guard W) (http_post : string -> string -> W -> Toolset.Exchange * W)
  (mcp_decode_error : string -> string) (zone : string -> W -> (string + (Z -> Z)) * W).
Context (new_window : Z -> Z -> L) (allow_window : Z -> L -> bool * L)
  (parse : string -> string + (string * string)) (lookup_host : string -> option (list IP)) (pages : Pages W).
Context {Hfg : FlowguardLaws fg} {Htools : forall name threshold timeout, CallsOnce (tool_breaker name threshold timeout)}
  {Hup : forall cfg, Upstream (chat_provider http_do decode_error ctx w0 cfg)}.
Notation HS := (HState W L).
Notation service := (service http_do decode_error ctx w0 fg clock rand tool_breaker http_post mcp_decode_error zone new_window allow_window parse lookup_host pages).
Notation service_agent := (service_agent http_do decode_error ctx w0 fg clock rand).
Notation service_step := (service_step http_do decode_error ctx w0 fg clock rand tool_breaker http_post mcp_decode_error zone new_window allow_window parse lookup_host pages).
Notation run_service := (run_service http_do decode_error ctx w0 fg clock rand tool_breaker http_post mcp_decode_error zone new_window allow_window parse lookup_host pages).
Notation service_ok := (service_ok http_do decode_error ctx w0 fg clock rand tool_breaker http_post mcp_decode_error zone new_window allow_window parse lookup_host pages).
Implicit Types (x : HS).
#[local] Existing Instance service_laws.

(** An event that brings no token. *)
Definition stranger (cfg : Config.Config) (e : ServiceEvent W L) : Prop :=
  match e with
  | Requested _ r _ => Header (req_http r) "Authorization" <> bearer_prefix +:+ Config.AuthToken cfg
  | _ => True
  end.
(** What it gets: a refusal on every gated route, and nothing is posted. *)
Definition turned_down (cfg : Config.Config) (c : Chaos) (e : ServiceEvent W L) (o : Outcome) : Prop :=
  match e with
  | Requested route r sched => forall entry,
      Register (service cfg c) (sch_raw_first sched) (sch_client sched) !! route = Some entry -> gated entry = true ->
      exists msg status, o = Answered (http_Error msg status) /\ (status = 401 \/ status = 429)
  | TransitionReported _ _ => o = Silent \/ exists ev, o = Reported ev Ignored
  | _ => o = Silent
  end.
(** As it was when the process started. *)
Definition locked x : Prop := chaos (os (hs_agent x)) = NewChaos true /\ hs_hook x = NewWebhookDispatcher /\ hs_scenarios x = [].
Lemma locked_quiet x x' : locked x -> quiet x x' -> locked x'.
Proof. intros (H3 & H4 & H5) (H6 & H7 & H8). repeat split; congruence. Qed.

Lemma tick_quiet cfg c x (Q : Z -> HS -> Prop) : (forall t x', quiet x x' -> started (os (hs_agent x')) = started (os (hs_agent x)) -> Q t x') ->
  runs (on_agent (now_ (service_agent cfg c))) x Q.
Proof. intros HQ. apply on_agent_runs, now_runs_. intros t w. apply HQ; [repeat split|]; reflexivity. Qed.
Lemma update_quiet f x x0 (o : Outcome) : chaos (os (f (hs_agent x))) = chaos (os (hs_agent x)) -> quiet x0 x ->
  runs (_ ← update_agent f; mret o) x (fun o' x' => quiet x0 x' /\ o' = o).
Proof.
  intros Hf Hx. apply runs_bind, on_agent_runs, runs_update, runs_ret. split; [|done].
  etransitivity; [exact Hx|]. split; [apply Hf|split; reflexivity].
Qed.
Lemma locked_step cfg e x : Config.AuthToken cfg <> EmptyString -> stranger cfg e -> service_ok cfg x -> locked x ->
  runs (service_step cfg e) x (fun o x' => locked x' /\ turned_down cfg (NewChaos true) e o).
Proof.
  intros Hauth Hs Hok Hl. pose proof Hl as (Hc & Hh & Hsc).
  assert (Hsilent : forall m, runs m x (fun o' x' => quiet x x' /\ o' = Silent) -> runs m x (fun o x' => locked x' /\ o = Silent)).
  { intros m Hm. eapply runs_mono; [exact Hm|]. intros o x' [Hq ->]. split; [now apply (locked_quiet x)|done]. }
  assert (Hsweep : forall f, runs (sweep http_do decode_error ctx w0 fg clock rand cfg x f) x (fun o x' => quiet x x' /\ o = Silent)).
  { intros f. apply runs_bind, tick_quiet. intros t x1 Hq _. now apply update_quiet. }
  apply runs_bind, runs_get. destruct e as [route r sched| | |sw|i|i idle takes|prim i| |].
  - unfold routed, switches_now. rewrite Hc. cbv zeta. set (h := service cfg (NewChaos true)).
    destruct (Register h (sch_raw_first sched) (sch_client sched) !! route) as [entry|] eqn:E.
    + apply runs_bind. eapply runs_mono; [apply (stranger_quiet h (range_order sched) (sch_raw_first sched) (sch_client sched) entry r x)|].
      * unfold AuthEnabled. cbn [h Service.service h_cfg]. now rewrite (proj2 (String.eqb_neq _ _) Hauth).
      * exact Hs.
      * apply list_elem_of_In. eapply list_elem_of_lookup_2, E.
      * exact (proj1 Hok).
      * intros reply x' [Hq Hg]. apply runs_ret. split; [now apply (locked_quiet x)|]. unfold turned_down. intros entry' E' Hg'.
        fold h in E'. rewrite E in E'. injection E' as <-. destruct (Hg Hg') as (msg & status & -> & Hst). now exists msg, status.
    + apply runs_ret. split; [exact Hl|]. intros entry' E'. fold h in E'. congruence.
  - apply Hsilent. case_bool; [apply runs_ret; now split|apply Hsweep].
  - apply Hsilent. case_bool; [apply runs_ret; now split|apply Hsweep].
  - apply Hsilent, runs_bind, tick_quiet. intros t x1 Hq _. apply update_quiet; [|exact Hq]. cbn.
    destruct (locked_quiet x x1 Hl Hq) as [-> _]. now destruct sw.
  - apply Hsilent, update_quiet; [|reflexivity]. cbv zeta. now destruct (SemanticCache.jobs _ !! i).
  - apply Hsilent. unfold scenario_step. rewrite Hsc. apply runs_ret. now split.
  - unfold report_transition. destruct (started (os (hs_agent x)) !! i) as [change|]; [|apply runs_ret; split; [exact Hl|now left]].
    apply runs_bind, tick_quiet. intros t x1 Hq1 _. apply runs_bind, tick_quiet. intros t' x2 Hq2 _.
    apply runs_bind, on_agent_runs, runs_update, runs_bind, runs_get. pose proof (locked_quiet _ _ (locked_quiet _ _ Hl Hq1) Hq2) as (Hc2 & Hh2 & Hsc2).
    cbn [hs_hook with_agent]. rewrite Hh2. cbn [Fire NewWebhookDispatcher url String.eqb]. apply runs_bind, runs_update, runs_ret.
    split; [split; [exact Hc2|split; [reflexivity|exact Hsc2]]|]. right. eexists. reflexivity.
  - apply Hsilent, runs_bind, runs_update, runs_ret. rewrite Hh. cbn. now repeat split.
  - apply Hsilent, update_quiet; reflexivity.
Qed.
Lemma locked_run cfg l : Config.AuthToken cfg <> EmptyString -> Forall (stranger cfg) l -> forall x, service_ok cfg x -> locked x ->
  runs (run_service cfg l) x (fun outcomes x' => locked x' /\ Forall2 (turned_down cfg (NewChaos true)) l outcomes).
Proof.
  intros Hauth. induction 1 as [|e l He _ IH]; intros x Hx Hl; cbn [Service.run_service]; [apply runs_ret; now split|].
  apply runs_bind. eapply runs_mono; [apply runs_both; [now apply (service_step_ok http_do decode_error ctx w0 fg clock rand)|now apply (locked_step cfg e)]|].
  intros o x1 [[Hx1 _] [Hl1 Ho]]. apply runs_bind. eapply runs_mono; [now apply IH|]. intros outcomes x2 [Hl2 Hos]. apply runs_ret.
  split; [exact Hl2|now constructor].
Qed.
End Life.

(** C27.  Without the token nothing can be broken: once the process runs with a
    token configured, no sequence of requests that do not carry it, to any
    routes, mixed in any way with the service's own timers and goroutines,
    ever throws a demo switch, starts the scenario or configures the webhook:
    at the end they are as at the start, no event was ever posted, and every
    request to a gated route (the switches, sessions, traces, the webhook) was
    turned away with 401 or 429. *)
Theorem strangers_change_nothing {W L} `{Unicode} `{Printable} `{MathFun} `{FloatToInt} http_do decode_error ctx w0 (fg : Flowguard W) clock rand
    tool_breaker http_post mcp_decode_error zone (new_window : Z -> Z -> L) allow_window parse lookup_host (pages : Pages W) :
  FlowguardLaws fg -> (forall name threshold timeout, CallsOnce (tool_breaker name threshold timeout)) ->
  (forall cfg, Upstream (chat_provider http_do decode_error ctx w0 cfg)) ->
  forall Getenv w cfg x0 l, start_service http_do decode_error ctx w0 Getenv w = Some (cfg, x0) ->
    Config.AuthToken cfg <> EmptyString -> Forall (stranger cfg) l ->
    exists outcomes x,
      run_service http_do decode_error ctx w0 fg clock rand tool_breaker http_post mcp_decode_error zone new_window allow_window parse lookup_host pages
        cfg l x0 = Some (outcomes, x) /\
      chaos (os (hs_agent x)) = NewChaos true /\ hs_hook x = NewWebhookDispatcher /\ hs_scenarios x = [] /\
      Forall2 (turned_down http_do decode_error ctx w0 fg clock rand tool_breaker http_post mcp_decode_error zone new_window allow_window parse lookup_host pages
        cfg (NewChaos true)) l outcomes.
Proof.
  intros Hfg Htools Hup Getenv w cfg x0 l E Hauth Hl. unfold start_service in E.
  destruct (New_starts http_do decode_error ctx w0 Getenv w) as (cfg' & s & Es & _ & Hok & _ & Hc & _). rewrite Es in E. injection E as -> <-.
  destruct (locked_run http_do decode_error ctx w0 fg clock rand tool_breaker http_post mcp_decode_error zone new_window allow_window parse lookup_host pages
    cfg l Hauth Hl (mkHState s ∅ NewWebhookDispatcher [])) as (outcomes & x & E & (Hc' & Hh' & Hs') & Ho).
  - split; [split; [exact Hok|]; split; [split; vm_compute; discriminate|now left]|]. left. split; [|done]. unfold running. cbn. now rewrite Hc.
  - now split.
  - exists outcomes, x. auto.
Qed.

(** A day of the sample service under a token, nobody having it: the webhook
    (401), the kill and the scenario (401) are refused, the chats go on. *)
Definition with_token (k : string) : string := if String.eqb k "AGENTSHIELD_AUTH_TOKEN" then "secret"%string else EmptyString.
Example locked_day : option_map (fun x => omap SampleService.answered x.1) (SampleService.run with_token SampleService.day) =
  Some [200; 401; 200; 401; 401; 200; 401; 200; 503].
Proof. vm_compute. reflexivity. Qed.
Lemma strangers_change_nothing_witness : exists outcomes x, SampleService.run with_token SampleService.day = Some (outcomes, x) /\
  chaos (os (hs_agent x)) = NewChaos true /\ hs_hook x = NewWebhookDispatcher.
Proof.
  destruct (start_service (L := SampleWindow.Log) SampleService.down SampleService.decode_text SampleService.live 0 with_token 0) as [[cfg x0]|] eqn:E0;
    [|vm_compute in E0; discriminate].
  assert (Et : option_map (fun y => Config.AuthToken y.1)
    (start_service (L := SampleWindow.Log) SampleService.down SampleService.decode_text SampleService.live 0 with_token 0) = Some "secret"%string)
    by (vm_compute; reflexivity).
  rewrite E0 in Et. cbn [option_map fst] in Et. injection Et as Et.
  destruct (strangers_change_nothing SampleService.down SampleService.decode_text SampleService.live 0 SampleService.flowguard (fun w => (w, w + second))
    (fun w => ([w mod 256], w)) (fun _ _ _ => Sample.direct) (fun _ _ => SampleService.no_server Toolset.CallFailed "no server"%string)
    (fun _ => EmptyString) sample_zone SampleWindow.New SampleWindow.Allow sample_parse sample_lookup SampleApi.pages
    SampleService.flowguard_laws (fun _ _ _ => direct_once) SampleService.down_upstream with_token 0 cfg x0 SampleService.day E0)
    as (outcomes & x & E & Hc & Hh & _ & _).
  - rewrite Et. discriminate.
  - unfold SampleService.day. repeat apply Forall_cons_2; try exact I; try (cbn; rewrite Et; discriminate). apply Forall_nil_2.
  - exists outcomes, x. split; [|split; [exact Hc|exact Hh]]. unfold SampleService.run. rewrite E0. exact E.
Defined.
