(* ===== verification/Startup.v ===== *)
(** * The process (main.go, telemetry/otel.go, telemetry/metrics.go, internal/logctx)

    From the environment to a listening server and back: [main] loads the
    configuration, sets up logging and tracing, builds the agent and the
    handler, listens, and ends by a signal or by the server's failure.  The
    OpenTelemetry SDK and the server are outside: whether a constructor fails,
    and how the process ends, are parameters.  Log records are their level and
    message; their attributes are not modelled. *)
From S2P Require Import Prelude Float64 GoStrings Json Strconv Evaluator Breaker Provider Chaos Telemetry Memory Orchestrator Agent Webhook RateLimit Backends Wiring Api Service.
From S2P Require SemanticCache Config.
From Stdlib Require Import ZArith Lia String Ascii SpecFloat.
From stdpp Require Import base tactics list gmap strings.
#[local] Open Scope Z_scope.

(** ** Logging *)

Inductive LogLevel := Info | Warn | Error.
Record LogEntry := mkLog { log_level : LogLevel; log_msg : string }.

(** The handler [NewLogger] picks. *)
Inductive LogHandler := TextHandler (level : Z) | JSONHandler (level : Z).
Definition NewLogger (c : Config.LoggerConfig) : LogHandler :=
  if String.eqb (Config.Format c) "json" then JSONHandler (Config.Level c) else TextHandler (Config.Level c).

(** A context carries at most one logger that is read: the last one attached.
    [None] in it is a nil pointer. *)
Section LogCtx.
Context {Logger : Type} (Default : Logger).
Definition Ctx : Type := list (option Logger).
Definition With (ctx : Ctx) (log : option Logger) : Ctx := log :: ctx.
Definition From_ctx (ctx : Ctx) : Logger := match ctx with Some log :: _ => log | _ => Default end.
Lemma From_With ctx log : From_ctx (With ctx log) = default Default log.
Proof. now destruct log. Qed.
Lemma With_idem ctx log : From_ctx (With (With ctx log) log) = From_ctx (With ctx log).
Proof. reflexivity. Qed.
End LogCtx.

(** ** Tracing *)

Record TracerProvider := mkTracer { tp_endpoint : string; tp_insecure : bool; tp_timeout : Z; tp_service : string; tp_version : string }.
(** What the function [InitOTel] returns does: nothing, or flush a provider
    within a time. *)
Inductive ShutdownFunc := NoFlush | Flush (tp : TracerProvider) (limit : Z).

Section OTel.
(** The SDK's constructors: the text of their error. *)
Context (version : string) (new_resource : string -> string -> option string) (new_exporter : string -> bool -> Z -> option string).

(** The shutdown function, the error, the records logged, and the provider
    installed globally. *)
Definition InitOTel (cfg : Config.OTelConfig) : ShutdownFunc * option string * list LogEntry * option TracerProvider :=
  if String.eqb (Config.Endpoint cfg) EmptyString then
    (NoFlush, None, [mkLog Info "OTel tracing disabled — set OTEL_EXPORTER_OTLP_ENDPOINT to enable"], None)
  else
    match new_resource "agentshield" version with
    | Some err => (NoFlush, Some ("otel resource: " +:+ err), [], None)
    | None =>
        match new_exporter (Config.Endpoint cfg) (Config.Insecure cfg) (Config.otel_Timeout cfg) with
        | Some err => (NoFlush, Some ("otel exporter: " +:+ err), [], None)
        | None =>
            let tp := mkTracer (Config.Endpoint cfg) (Config.Insecure cfg) (Config.otel_Timeout cfg) "agentshield" version in
            (Flush tp (5 * second), None,
             mkLog Info "OTel tracing enabled" :: (if Config.Insecure cfg then [mkLog Warn "OTel exporter is configured INSECURE (plaintext)"] else []), Some tp)
        end
    end.

(** Tracing is on exactly when an endpoint is set and the SDK could be built;
    what is installed is what will be flushed; an error leaves nothing on. *)
Lemma InitOTel_spec cfg : let '(shutdown, err, logs, tp) := InitOTel cfg in
  (tp = None <-> shutdown = NoFlush) /\ (forall p, tp = Some p -> shutdown = Flush p (5 * second) /\ tp_endpoint p = Config.Endpoint cfg) /\
  (is_Some err -> tp = None) /\ (Config.Endpoint cfg = EmptyString -> err = None /\ tp = None) /\
  (is_Some tp <-> Config.Endpoint cfg <> EmptyString /\ err = None).
Proof.
  unfold InitOTel, is_Some. destruct (String.eqb_spec (Config.Endpoint cfg) EmptyString) as [He|He];
    [|destruct (new_resource _ _); [|destruct (new_exporter _ _ _)]]; split_and!; naive_solver.
Qed.
End OTel.

(** Paths that are not traced ([InstrumentedHandler]). *)
Definition skipPaths : list string := ["/metrics"; "/health/live"; "/health/ready"]%string.
Definition traced (path : string) : bool := negb (bool_decide (path ∈ skipPaths)).

(** ** The collectors (telemetry/metrics.go, cache/metrics.go)

    What is registered with Prometheus while the packages are initialised,
    before [main]: registration panics on a name or label that is not a
    Prometheus identifier, on a name used twice, and on buckets that do not
    increase. *)

Inductive CollectorKind := Counter | Gauge | Histogram (buckets : list f64).
Record Collector := mkCollector { col_Name : string; col_Help : string; col_Labels : list string; col_Kind : CollectorKind }.
Definition tenths (n : Z) : f64 := flit n 10.
Definition RequestsTotal := mkCollector "agentshield_requests_total" "Total requests by tier" ["tier"%string] Counter.
Definition RequestDuration := mkCollector "agentshield_request_duration_seconds" "Request latency by tier" ["tier"%string]
  (Histogram (map tenths [1; 5; 10; 20; 50; 100; 300])).
Definition CBStateGauge := mkCollector "agentshield_cb_state" "Circuit breaker state: 0=closed 1=half-open 2=open" ["model"%string] Gauge.
Definition LoadshedTotal := mkCollector "agentshield_loadshed_total" "Requests rejected by load shedder" [] Counter.
Definition BulkheadFullTotal := mkCollector "agentshield_bulkhead_full_total" "Requests rejected by bulkhead" ["type"%string] Counter.
Definition HedgeFiresTotal := mkCollector "agentshield_hedge_fires_total" "Number of times a hedge request was fired" [] Counter.
Definition WebhookDroppedTotal := mkCollector "agentshield_webhook_dropped_total"
  "Webhook events dropped because the dispatcher in-flight cap was full" [] Counter.
Definition QualityGauge := mkCollector "agentshield_quality_score" "Latest semantic quality score per model (0=trash, 1=perfect)" ["model"%string] Gauge.
Definition SemanticCBStateGauge := mkCollector "agentshield_semantic_cb_state"
  "Semantic circuit breaker state: 0=healthy 1=degraded 2=failing" ["model"%string] Gauge.
Definition ToolCacheHitsTotal := mkCollector "agentshield_tool_cache_hits_total"
  "Per-session tool result cache hits, by tool name (lowercase)" ["tool"%string] Counter.
Definition ToolCacheMissesTotal := mkCollector "agentshield_tool_cache_misses_total"
  "Per-session tool result cache misses, by tool name (lowercase)" ["tool"%string] Counter.
Definition ReactSummarizationsTotal := mkCollector "agentshield_react_summarizations_total"
  "Number of times the ReAct transcript was summarized (threshold exceeded)" [] Counter.
Definition ReactTranscriptTokens := mkCollector "agentshield_react_transcript_tokens"
  "Estimated token count of the ReAct running transcript at each iteration" [] (Histogram (map f64_of_Z [500; 1000; 2000; 4000; 6000; 8000])).
Definition cacheSizeGauge := mkCollector "agentshield_cache_size" "Number of entries in the semantic cache" [] Gauge.
Definition cacheHitsTotal := mkCollector "agentshield_cache_hits_total" "Semantic cache hits" [] Counter.
Definition collectors : list Collector :=
  [RequestsTotal; RequestDuration; CBStateGauge; LoadshedTotal; BulkheadFullTotal; HedgeFiresTotal; WebhookDroppedTotal; QualityGauge;
   SemanticCBStateGauge; ToolCacheHitsTotal; ToolCacheMissesTotal; ReactSummarizationsTotal; ReactTranscriptTokens; cacheSizeGauge; cacheHitsTotal].

(** A letter or an underscore, then these and digits (a name's colons are not
    used here). *)
Definition ident_char (first : bool) (c : ascii) : bool :=
  let b := byte_val c in
  ((65 <=? b) && (b <=? 90)) || ((97 <=? b) && (b <=? 122)) || (b =? 95) || (negb first && (48 <=? b) && (b <=? 57)).
Definition identifier (s : string) : bool :=
  match s with EmptyString => false | String c t => ident_char true c && forallb (ident_char false) (list_ascii_of_string t) end.
(** The label [le] is a histogram's own, and a double underscore is reserved. *)
Definition good_label (k : CollectorKind) (l : string) : bool :=
  identifier l && negb (String.prefix "__" l) && match k with Histogram _ => negb (String.eqb l "le") | _ => true end.
Fixpoint increasing (l : list f64) : bool :=
  match l with x :: (y :: _) as t => flt x y && increasing t | _ => true end.
Definition good_collector (c : Collector) : bool :=
  identifier (col_Name c) && forallb (good_label (col_Kind c)) (col_Labels c) && bool_decide (NoDup (col_Labels c)) &&
  match col_Kind c with Histogram b => increasing b | _ => true end.

(** The packages initialise: nothing about the collectors makes their
    registration panic. *)
Lemma collectors_register : Forall (fun c => good_collector c = true) collectors /\ NoDup (map col_Name collectors).
Proof. split; [repeat constructor|]. apply (bool_decide_eq_true_1 (NoDup (map col_Name collectors))). vm_compute. reflexivity. Qed.

(** ** main *)

Record Server := mkServer { Addr : string; ReadTimeout : Z; WriteTimeout : Z; IdleTimeout : Z }.
Definition new_server (cfg : Config.Config) : Server := mkServer (":" +:+ Config.Port cfg) (70 * second) (70 * second) (120 * second).

Definition open_to_anyone : LogEntry := mkLog Warn
  ("AGENTSHIELD_AUTH_TOKEN is unset — /demo/*, /sessions/*, " +:+ "/trace/*, and /config/webhook are open to anonymous callers. " +:+
   "Required in any deployment a third party can reach. " +:+ "(Kill/degrade actions auto-restore after 5 minutes regardless.)").
Definition embeds_locally : LogEntry := mkLog Warn
  ("LLM_PROVIDER=openai but OPENAI_EMBED_MODEL is unset. " +:+ "Embeddings will require Ollama reachable at " +:+
   "http://localhost:11434. Set OPENAI_EMBED_MODEL=text-embedding-3-small " +:+ "to route embeddings through OpenAI instead.").
Definition startup_warnings (cfg : Config.Config) : list LogEntry :=
  (if String.eqb (Config.AuthToken cfg) EmptyString then [open_to_anyone] else []) ++
  (if String.eqb (Config.Kind (Config.cfg_Provider cfg)) "openai" && String.eqb (Config.EmbedModel (Config.cfg_Provider cfg)) EmptyString
   then [embeds_locally] else []).

Record Process (W L : Type) := mkProcess {
  p_cfg : Config.Config; p_logger : LogHandler; p_state : HState W L; p_server : Server; p_shutdown : ShutdownFunc;
}.
Arguments mkProcess {W L}.
Arguments p_cfg {W L}.
Arguments p_logger {W L}.
Arguments p_state {W L}.
Arguments p_server {W L}.
Arguments p_shutdown {W L}.

Inductive Start (W L : Type) := Exited (code : Z) (logs : list LogEntry) | Listening (p : Process W L) (logs : list LogEntry).
Arguments Exited {W L}.
Arguments Listening {W L}.
(** How a process ends: the server fails, or a signal comes and the server's
    [Shutdown] returns. *)
Inductive Ending := ServerFailed | Signalled (err : option string).
Record Exit (W L : Type) := mkExit { exit_code : Z; exit_logs : list LogEntry; exit_state : HState W L; flushed : ShutdownFunc }.
Arguments mkExit {W L}.
Arguments exit_code {W L}.
Arguments exit_logs {W L}.
Arguments exit_state {W L}.
Arguments flushed {W L}.

Section Main.
Context {W L : Type} `{Unicode}.
Context (http_do : Z -> ApiCall -> W -> Backends.Exchange * W) (decode_error : string -> option string -> string)
  (ctx : nat -> option GoError) (w0 : W).
Context (version : string) (new_resource : string -> string -> option string) (new_exporter : string -> bool -> Z -> option string).

(** [main] until it listens; [None]: the configuration or the agent panics.
    [api.New] parses the embedded template and [Register] the routes' patterns,
    the same on every start: their panics are not modelled. *)
Definition main_start (Getenv : string -> string) (w : W) : option (Start W L) :=
  match Config.LoadFromEnv Getenv with
  | inl _ => Some (Exited 1 [mkLog Error "config load failed"])
  | inr cfg =>
      let '(shutdown, err, logs, _) := InitOTel version new_resource new_exporter (Config.cfg_OTel cfg) in
      let logs := logs ++ match err with Some _ => [mkLog Warn "OTel init failed — continuing with no-op tracer"] | None => [] end in
      s ← newAgent_state http_do decode_error ctx w0 cfg w;
      Some (Listening (mkProcess cfg (NewLogger (Config.cfg_Logger cfg)) (mkHState s ∅ NewWebhookDispatcher []) (new_server cfg) shutdown)
              (logs ++ startup_warnings cfg ++ [mkLog Info "AgentShield started"]))
  end.
(** The rest of [main], from the state [x] the requests left: [os.Exit] runs
    no deferred call. *)
Definition main_end (p : Process W L) (x : HState W L) (e : Ending) : Exit W L :=
  match e with
  | ServerFailed => mkExit 1 [mkLog Error "server error"] x NoFlush
  | Signalled err =>
      mkExit 0 (match err with Some _ => [mkLog Error "shutdown error"] | None => [] end ++ [mkLog Info "AgentShield stopped"])
        (with_agent (Agent_Stop (hs_agent x)) x) (p_shutdown p)
  end.
End Main.

(** C38.  The life of the process: from every environment it comes up (it never
    exits over its configuration, and building the agent never panics) in
    exactly the state the service's theorems start from, on the configured
    port; it warns about missing authentication exactly when no token is set,
    and about the embedder exactly when an OpenAI chat is paired with the local
    Ollama; and a signal ends it with status 0, the cleanup goroutines stopped
    and the tracer flushed, but when the server fails neither is done. *)
Theorem main_spec {W L} `{Unicode} http_do decode_error ctx w0 version new_resource new_exporter Getenv (w : W) :
  exists p logs cfg, main_start (L := L) http_do decode_error ctx w0 version new_resource new_exporter Getenv w = Some (Listening p logs) /\
    p_cfg p = cfg /\ start_service http_do decode_error ctx w0 Getenv w = Some (cfg, p_state p) /\
    Addr (p_server p) = ":" +:+ Config.Port cfg /\ Config.Port cfg <> EmptyString /\
    (open_to_anyone ∈ logs <-> Config.AuthToken cfg = EmptyString) /\
    (embeds_locally ∈ logs <-> Config.Kind (Config.cfg_Provider cfg) = "openai"%string /\ Config.EmbedModel (Config.cfg_Provider cfg) = EmptyString) /\
    (embeds_locally ∈ logs -> embed_provider http_do decode_error ctx w0 cfg = ollama_provider http_do decode_error ctx w0
       (NewOllama (Config.mkProvider "ollama" "http://localhost:11434" EmptyString (Config.EmbeddingModel (Config.cfg_Models cfg))
          (Config.prov_Timeout (Config.cfg_Provider cfg))))) /\
    forall x e, let out := main_end p x e in
      (exit_code out = 0 <-> e <> ServerFailed) /\
      (e <> ServerFailed -> done (Sessions (mem (hs_agent (exit_state out)))) = true /\ trace_done (Traces (mem (hs_agent (exit_state out)))) = true /\
         flushed out = p_shutdown p) /\
      (e = ServerFailed -> exit_state out = x /\ flushed out = NoFlush).
Proof.
  destruct (New_starts http_do decode_error ctx w0 Getenv w) as (cfg & s & Es & Hl & _).
  assert (Hstart : start_service (L := L) http_do decode_error ctx w0 Getenv w = Some (cfg, mkHState s ∅ NewWebhookDispatcher []))
    by (unfold start_service; now rewrite Es).
  unfold New in Es. unfold main_start. destruct (Config.LoadFromEnv Getenv) as [e|cfg']; [discriminate|].
  destruct (newAgent_state http_do decode_error ctx w0 cfg' w) as [s'|]; [|discriminate]. injection Es as -> ->.
  destruct (InitOTel version new_resource new_exporter (Config.cfg_OTel cfg)) as [[[shutdown err] logs] tp] eqn:Eo. cbn [mbind option_bind].
  set (before := logs ++ _).
  assert (Hbefore : forall l, l ∈ before -> l <> open_to_anyone /\ l <> embeds_locally).
  { intros l. unfold before, InitOTel in *. rewrite elem_of_app. repeat case_match; simplify_eq; rewrite ?list_elem_of_In; cbn; intuition (subst; discriminate). }
  assert (Hlogs : forall l, l = open_to_anyone \/ l = embeds_locally -> l ∈ before ++ startup_warnings cfg ++ [mkLog Info "AgentShield started"] <-> l ∈ startup_warnings cfg).
  { intros l Hw. rewrite !elem_of_app, list_elem_of_singleton. split; [|auto]. intros [Hb|[Hs| ->]]; [|exact Hs|now destruct Hw].
    apply Hbefore in Hb as [? ?]. now destruct Hw. }
  eexists _, _, cfg. split; [reflexivity|]. split; [reflexivity|]. split; [exact Hstart|]. split; [reflexivity|]. split; [apply (Config.loaded_Port cfg Hl)|].
  assert (Hembed : embeds_locally ∈ startup_warnings cfg <-> Config.Kind (Config.cfg_Provider cfg) = "openai"%string /\ Config.EmbedModel (Config.cfg_Provider cfg) = EmptyString).
  { unfold startup_warnings. rewrite elem_of_app, <- !String.eqb_eq. destruct (String.eqb (Config.AuthToken cfg) EmptyString), (String.eqb (Config.Kind _) "openai"), (String.eqb (Config.EmbedModel _) EmptyString);
      cbn [andb]; rewrite !list_elem_of_In; cbn; intuition discriminate. }
  split; [|split; [|split]].
  - rewrite Hlogs by auto. unfold startup_warnings. rewrite elem_of_app, <- String.eqb_eq.
    destruct (String.eqb (Config.AuthToken cfg) EmptyString), (String.eqb (Config.Kind _) "openai"), (String.eqb (Config.EmbedModel _) EmptyString);
      cbn [andb]; rewrite !list_elem_of_In; cbn; intuition discriminate.
  - rewrite Hlogs by auto. exact Hembed.
  - rewrite Hlogs by auto. intros [Hk Hm]%Hembed. unfold embed_provider. cbv zeta. rewrite Hk, Hm. reflexivity.
  - intros x e. destruct e as [|err']; cbn; (split; [|split]); easy || (split; [discriminate|contradiction]) || idtac.
Qed.
