(* ===== verification/FakeBackend.v ===== *)
(** * The benchmark's fake backend (bench/fakebackend/server.go)

    A server that plays a failing model: the scenario of a request's header
    picks good answers, garbage, a mixture after a delay, or an error.  The
    generator of math/rand is the class [Rand]: which numbers it draws is left
    open, within their ranges.  [Sleep] advances the clock. *)
From S2P Require Import Prelude Float64 GoStrings Strconv Json Evaluator.
From Stdlib Require Import ZArith Lia String.
From stdpp Require Import base tactics list strings.
#[local] Open Scope Z_scope.

Definition goodResponses : list string := [
  "The mitochondria is the powerhouse of the cell. It generates most of the cell's supply of ATP through oxidative phosphorylation, converting energy from nutrients into a form the cell can use to power various biochemical processes.";
  "Go's concurrency model is built around goroutines and channels. Goroutines are lightweight threads managed by the Go runtime, and channels provide a mechanism for goroutines to communicate and synchronise without shared memory.";
  "Circuit breakers in distributed systems prevent cascading failures by detecting repeated errors and short-circuiting requests before they reach a degraded downstream service, giving it time to recover.";
  "Semantic search finds results based on meaning rather than exact keyword matching. It typically embeds queries and documents into a shared vector space and retrieves the nearest neighbours by cosine similarity.";
  "Kubernetes manages containerised workloads by abstracting the underlying infrastructure. Pods are the smallest deployable units, and controllers such as Deployments ensure the desired replica count is maintained."]%string.
Definition garbageResponses : list string := [
  "As an AI language model, I apologize but I cannot assist. As an AI language model, I apologize but I cannot assist. As an AI language model, I apologize but I cannot assist.";
  "I cannot and will not help. I am unable to assist with that. I cannot and will not help. I am unable to assist with that. I cannot and will not help. I am unable to assist with that.";
  "I'm just an AI and I cannot and will not assist with this request. I'm just an AI and I cannot and will not assist with this request. I'm just an AI and I cannot and will not assist with this request."]%string.

(** math/rand: a fraction in [0, 1) and an index below [n]. *)
Class Rand (R : Type) := {
  Float64 : R -> f64 * R;
  Intn : Z -> R -> Z * R;
  Intn_range : forall n r, 0 < n -> 0 <= (Intn n r).1 < n;
}.

Section Server.
Context {R : Type} `{Rand R}.

(** The server's generator and the time. *)
Record Backend := mkBackend { rng : R; clock : Z }.
Implicit Types (b : Backend).

(** A reply: status and body. *)
Definition HttpReply : Type := Z * string.
Definition Response_doc (text : string) : jvalue := JObj [("response", JStr text)]%string.
(** The encoder ends the document with a newline. *)
Definition writeJSON (v : jvalue) : HttpReply := (200, default EmptyString (marshal v) +:+ nl).
Definition draw_int (n : Z) b : Z * Backend := let '(i, r) := Intn n (rng b) in (i, mkBackend r (clock b)).
Definition draw_float b : f64 * Backend := let '(x, r) := Float64 (rng b) in (x, mkBackend r (clock b)).
(** An answer of a table. *)
Definition serve_text (texts : list string) b : HttpReply * Backend :=
  let '(i, b) := draw_int (len texts) b in (writeJSON (Response_doc (nth (Z.to_nat i) texts EmptyString)), b).
Definition serveGarbage b : HttpReply * Backend := serve_text garbageResponses b.
Definition serveGood b : HttpReply * Backend := serve_text goodResponses b.
Definition brownout_delay b : Z * Backend :=
  let '(x, b) := draw_float b in
  if flt x (flit 50 100) then let '(i, b) := draw_int 2001 b in ((7000 + i) * millisecond, b)
  else let '(i, b) := draw_int 301 b in ((200 + i) * millisecond, b).
Definition serveBrownout b : HttpReply * Backend :=
  let '(delay, b) := brownout_delay b in
  let b := mkBackend (rng b) (clock b + delay) in
  let '(x, b) := draw_float b in
  if flt x (flit 20 100) then serveGarbage b else serveGood b.
Definition handleGenerate (scenario : string) b : HttpReply * Backend :=
  if String.eqb scenario "down" then ((503, "service unavailable" +:+ nl), b)
  else if String.eqb scenario "brownout" then serveBrownout b
  else if String.eqb scenario "garbage" then serveGarbage b
  else serveGood b.
(** Sixteen zeros, whatever the request. *)
Definition handleEmbeddings b : HttpReply * Backend := (writeJSON (JObj [("embedding", JArr (replicate 16 (JNum f0)))]%string), b).
(** The server's routes; another path is the mux's own answer. *)
Definition fake_server (path scenario : string) b : HttpReply * Backend :=
  if String.eqb path "/api/generate" then handleGenerate scenario b
  else if String.eqb path "/api/embeddings" then handleEmbeddings b
  else ((404, "404 page not found" +:+ nl), b).
End Server.
Arguments Backend : clear implicits.
