(* ===== verification/Bench.v ===== *)
(** * The benchmark harness (bench/naive/client.go, bench/runner/, bench/cmd/bench/main.go)

    Two clients of one backend, request by request: the naive one, which takes
    what the model says and retries errors, and the runner's small copy of the
    degradation chain; their latencies and scores, the statistics over them
    and the rows of the report.  As in Backends.v [http_do] is net/http with
    the client's timeout and [decode_error] the texts of encoding/json's
    errors; [clock] is the time in the world.  The texts made of
    the results are in Report.v. *)
From S2P Require Import Prelude Float64 GoStrings Utf8 Lines Strconv Json Decode Evaluator Provider Backends Telemetry.
From Stdlib Require Import ZArith Lia String Ascii.
From stdpp Require Import base tactics list gmap strings.
#[local] Open Scope Z_scope.

(** ** The calls *)

Definition into_response : decoder string := into_struct [field "response" (fun s => s) (fun s _ => s) into_string]%string.
(** A POST of the prompt, with the scenario in a header. *)
Definition bench_call (baseURL model prompt scenario : string) : ApiCall :=
  mkCall "POST" (baseURL +:+ "/api/generate")
    (json_header :: if String.eqb scenario EmptyString then [] else [("X-Bench-Scenario"%string, scenario)])
    (Some (ollamaRequest model prompt false)).
(** What the two clients make of an exchange. *)
Definition read_reply (decode_error : string -> string) (name reading : string) (x : Exchange) : GoError + string :=
  match x with
  | BadRequest e => inl (wrap_error (name +:+ ": new request") e)
  | CallFailed e => inl (wrap_error (name +:+ ": http") e)
  | Reply status body err =>
      if 500 <=? status then inl (plain_error (name +:+ ": upstream " +:+ itoa status))
      else match err with
           | Some msg => inl (plain_error (name +:+ ": " +:+ reading +:+ ": " +:+ msg))
           | None => match r ← raw_parse body; into_response r EmptyString with
                     | Some text => inr text
                     | None => inl (plain_error (name +:+ ": decode: " +:+ decode_error body))
                     end
           end
  end.

(** ** The naive client *)

Definition DefaultTimeout : Z := 30 * second.
Definition defaultMaxRetries : Z := 1.
Record Client := mkClient { cl_baseURL : string; cl_model : string; cl_maxRetries : Z; cl_scenario : string }.
Definition ClientOption : Type := Client -> Client.
Definition WithScenario (s : string) : ClientOption := fun c => mkClient (cl_baseURL c) (cl_model c) (cl_maxRetries c) s.
Definition WithMaxRetries (n : Z) : ClientOption := fun c => mkClient (cl_baseURL c) (cl_model c) n (cl_scenario c).
Definition NewClient (baseURL model : string) (opts : list ClientOption) : Client :=
  foldl (fun c opt => opt c) (mkClient baseURL model defaultMaxRetries EmptyString) opts.

Section Calls.
Context {W : Type} (http_do : Z -> ApiCall -> W -> Exchange * W) (decode_error : string -> string).

Definition doGenerate (c : Client) (prompt : string) (w : W) : (GoError + string) * W :=
  let '(x, w) := http_do DefaultTimeout (bench_call (cl_baseURL c) (cl_model c) prompt (cl_scenario c)) w in
  (read_reply decode_error "naive" "read body" x, w).
Definition gave_up (n : Z) (lastErr : option GoError) : GoError :=
  let prefix := "naive: all " +:+ itoa (wrap64 (n + 1)) +:+ " attempts failed" in
  match lastErr with Some e => wrap_error prefix e | None => plain_error (prefix +:+ ": %!w(<nil>)") end.
(** The loop over the attempts: [n] of them are left. *)
Fixpoint attempts (c : Client) (prompt : string) (n : nat) (lastErr : option GoError) (w : W) : (GoError + string) * W :=
  match n with
  | O => (inl (gave_up (cl_maxRetries c) lastErr), w)
  | S n =>
      match doGenerate c prompt w with
      | (inr text, w) => (inr text, w)
      | (inl e, w) => attempts c prompt n (Some e) w
      end
  end.
Definition Generate_naive (c : Client) (prompt : string) (w : W) : (GoError + string) * W :=
  attempts c prompt (Z.to_nat (cl_maxRetries c + 1)) None w.

(** ** The shielded client *)

Definition callBackend (baseURL prompt scenario : string) (w : W) : (GoError + string) * W :=
  let '(x, w) := http_do 0 (bench_call baseURL "bench-model" prompt scenario) w in
  (read_reply decode_error "runner" "read" x, w).

Record AgentShieldClient := mkShield { sh_baseURL : string; sh_scenario : string; sh_eval : QualityEvaluator; sh_cache : gmap string string }.
Definition NewAgentShieldClient (baseURL scenario : string) : AgentShieldClient := mkShield baseURL scenario (NewEvaluator None) ∅.
Definition simpleCacheKey (prompt : string) : string := if 64 <? slen prompt then str_take 64 prompt else prompt.
Definition qualityThreshold : f64 := QualityAcceptable.
Definition denial : string := "All AI tiers are currently unavailable. Please try again shortly.".
End Calls.

Section Runner.
Context {W : Type} `{Unicode} (http_do : Z -> ApiCall -> W -> Exchange * W) (decode_error : string -> string) (now : W -> Z * W).
Implicit Types (c : AgentShieldClient) (w : W) (e : QualityEvaluator).

(** A tier's answer: evaluated, and cached if it is good enough. *)
Definition try_tier c (prompt : string) (x : GoError + string) : option (option string * AgentShieldClient) :=
  match x with
  | inl _ => Some (None, c)
  | inr text =>
      '(qr, e) ← Evaluate (sh_eval c) prompt text;
      Some (if fle qualityThreshold (res_Score qr)
            then (Some text, mkShield (sh_baseURL c) (sh_scenario c) e (<[simpleCacheKey prompt := text]> (sh_cache c)))
            else (None, mkShield (sh_baseURL c) (sh_scenario c) e (sh_cache c)))
  end.
(** The tiers below the primary. *)
Definition lower_tiers (prompt : string) c w : option ((string * string) * (AgentShieldClient * W)) :=
  let '(x, w) := callBackend http_do decode_error (sh_baseURL c) prompt EmptyString w in
  '(good, c) ← try_tier c prompt x;
  Some (match good with
        | Some text => (text, "fallback"%string)
        | None => match sh_cache c !! simpleCacheKey prompt with
                  | Some cached => (cached, "cache"%string)
                  | None => (denial, "degraded"%string)
                  end
        end, (c, w)).
(** Text and tier; the error is always nil. *)
Definition Generate_shield (prompt : string) c w : option ((string * string) * (AgentShieldClient * W)) :=
  let '(x, w) := callBackend http_do decode_error (sh_baseURL c) prompt (sh_scenario c) w in
  '(good, c) ← try_tier c prompt x;
  match good with Some text => Some ((text, "primary"%string), (c, w)) | None => lower_tiers prompt c w end.

(** ** Samples *)

Record Sample := mkSample { LatencyMS : Z; Success : bool; Useful : bool; Score : f64; sample_Tier : string }.
Record Stats := mkStats {
  st_P50 : Z; st_P95 : Z; st_P99 : Z; StdDevMS : f64; SuccessRate : f64; UsefulRate : f64; TimeToFirstUsefulMS : Z;
}.
Record PathResult := mkPath { Path : string; path_Samples : list Sample; path_Stats : Stats }.
Record ScenarioResult := mkScenario { Scenario : string; Naive : PathResult; Shield : PathResult }.

(** The shared evaluator is asked twice: for the score, and for the verdict. *)
Definition score (prompt response : string) e : option (f64 * QualityEvaluator) :=
  if String.eqb response EmptyString then Some (f0, e) else '(qr, e) ← Evaluate e prompt response; Some (res_Score qr, e).
Definition isUseful (prompt response : string) e : option (bool * QualityEvaluator) :=
  if String.eqb response EmptyString then Some (false, e) else '(qr, e) ← Evaluate e prompt response; Some (fle qualityThreshold (res_Score qr), e).

(** [generateFn]: text, tier and error of one call, over the client's state. *)
Definition generateFn (C : Type) : Type := string -> C -> W -> option ((string * string * option GoError) * (C * W)).
Definition take_sample {C} (fn : generateFn C) (prompt : string) (st : C * W * QualityEvaluator) : option (Sample * (C * W * QualityEvaluator)) :=
  let '(c, w, e) := st in
  let '(start, w) := now w in
  '((text, tier, err), (c, w)) ← fn prompt c w;
  let '(end_, w) := now w in
  let latency := milliseconds (time_sub end_ start) in
  if bool_decide (err = None) && negb (String.eqb text EmptyString) then
    '(s, e) ← score prompt text e; '(useful, e) ← isUseful prompt text e;
    Some (mkSample latency true useful s tier, (c, w, e))
  else Some (mkSample latency false false f0 tier, (c, w, e)).
(** Requests [i] and up, [k] of them. *)
Fixpoint run_samples {C} (fn : generateFn C) (prompts : list string) (k i : nat) (st : C * W * QualityEvaluator)
    : option (list Sample * (C * W * QualityEvaluator)) :=
  match k with
  | O => Some ([], st)
  | S k =>
      prompt ← prompts !! (i mod length prompts)%nat;
      '(s, st) ← take_sample fn prompt st;
      '(l, st) ← run_samples fn prompts k (S i) st;
      Some (s :: l, st)
  end.
Definition first_useful (l : list Sample) : Z :=
  foldl (fun first s => if Useful s && (first <? 0) then LatencyMS s else first) (-1) l.

(** ** Statistics *)

(** [int(math.Ceil(x))] of a finite float. *)
Definition ceil_int (x : f64) : Z := - (- f_num x / f_den x).
(** [p]: the index of a percentile. *)
Definition p (n pct : Z) : Z :=
  let idx := ceil_int (fmul (fdiv (f64_of_Z pct) (f64_of_Z 100)) (f64_of_Z n)) - 1 in
  let idx := if idx <? 0 then 0 else idx in
  if n <=? idx then n - 1 else idx.
Definition count (f : Sample -> bool) (l : list Sample) : Z := len (filter (fun s => f s = true) l).
Definition mean (l : list Z) : f64 := fdiv (foldl (fun m x => fadd m (f64_of_Z x)) f0 l) (f64_of_Z (len l)).
Definition variance (l : list Z) : f64 :=
  let m := mean l in
  fdiv (foldl (fun v x => let d := fsub (f64_of_Z x) m in fadd v (fmul d d)) f0 l) (f64_of_Z (len l)).
Definition computeStats (samples : list Sample) (firstUsefulMS : Z) : option Stats :=
  match samples with
  | [] => Some (mkStats 0 0 0 f0 f0 f0 (-1))
  | _ =>
      let latencies := sort (map LatencyMS samples) in
      let n := len latencies in
      p50 ← slice_get latencies (p n 50); p95 ← slice_get latencies (p n 95); p99 ← slice_get latencies (p n 99);
      Some (mkStats p50 p95 p99 (fsqrt (variance latencies))
        (fdiv (f64_of_Z (count Success samples)) (f64_of_Z n)) (fdiv (f64_of_Z (count Useful samples)) (f64_of_Z n)) firstUsefulMS)
  end.

(** A negative [n] or no prompts: [make] or the index panics. *)
Definition runPath {C} (pathName : string) (n : Z) (prompts : list string) (fn : generateFn C) (st : C * W * QualityEvaluator)
    : option (PathResult * (C * W * QualityEvaluator)) :=
  if n <? 0 then None
  else
    _ ← prompts !! 0%nat;
    '(l, st) ← run_samples fn prompts (Z.to_nat n) 0 st;
    s ← computeStats l (first_useful l);
    Some (mkPath pathName l s, st).

Definition naive_fn (cl : Client) : generateFn unit := fun prompt _ w =>
  let '(x, w) := Generate_naive http_do decode_error cl prompt w in
  Some (match x with inr text => (text, "naive"%string, None) | inl err => (EmptyString, "naive"%string, Some err) end, (tt, w)).
Definition shield_fn : generateFn AgentShieldClient := fun prompt c w =>
  '((text, tier), cw) ← Generate_shield prompt c w; Some ((text, tier, None), cw).
Definition RunScenario (scenario baseURL : string) (n : Z) (prompts : list string) (we : W * QualityEvaluator)
    : option (ScenarioResult * (W * QualityEvaluator)) :=
  let cl := NewClient baseURL "bench-model" [WithScenario scenario; WithMaxRetries 1] in
  '(naive, (_, w, e)) ← runPath "naive" n prompts (naive_fn cl) (tt, we.1, we.2);
  '(shield, (_, w, e)) ← runPath "agentshield" n prompts shield_fn (NewAgentShieldClient baseURL scenario, w, e);
  Some (mkScenario scenario naive shield, (w, e)).

(** ** The command *)

Definition benchPrompts : list string := [
  "Explain how a circuit breaker works in distributed systems.";
  "What is the difference between concurrency and parallelism in Go?";
  "Describe the CAP theorem and its practical implications.";
  "How does semantic search differ from keyword search?";
  "What are the main failure modes of LLM APIs in production?";
  "Explain the concept of backpressure in streaming systems.";
  "What is an LRU cache and when would you use one?";
  "Describe how JWT authentication works end to end."]%string.
Definition valid_scenarios : list string := ["garbage"; "brownout"; "down"]%string.
Definition parseMode (mode : string) : list string :=
  if String.eqb mode "all" then valid_scenarios
  else filter (fun s => s ∈ valid_scenarios) (map trim_space (split_byte ","%char mode)).
(** The warm-up's client is dropped after it. *)
Fixpoint warmup_calls (n i : nat) c w : option (AgentShieldClient * W) :=
  match n with
  | O => Some (c, w)
  | S n => prompt ← benchPrompts !! (i mod length benchPrompts)%nat; '(_, (c, w)) ← Generate_shield prompt c w; warmup_calls n (S i) c w
  end.
Definition warmup (baseURL : string) (n : Z) w : option W :=
  '(_, w) ← warmup_calls (Z.to_nat n) 0 (NewAgentShieldClient baseURL EmptyString) w; Some w.
Fixpoint run_scenarios (l : list string) (baseURL : string) (n : Z) (we : W * QualityEvaluator) : option (list ScenarioResult * (W * QualityEvaluator)) :=
  match l with
  | [] => Some ([], we)
  | s :: l => '(r, we) ← RunScenario s baseURL n benchPrompts we; '(rs, we) ← run_scenarios l baseURL n we; Some (r :: rs, we)
  end.
Definition bit (b : bool) : string := if b then "1" else "0".
Definition sampleRow (scenario path : string) (n : Z) (s : Sample) : list string :=
  [scenario; path; itoa n; itoa (LatencyMS s); bit (Success s); bit (Useful s); fmt_fixed 3 (Score s); sample_Tier s].
Definition csv_header : list string :=
  ["scenario"; "path"; "request_num"; "latency_ms"; "success"; "useful"; "quality_score"; "tier"]%string.
Definition path_rows (scenario path : string) (l : list Sample) : list (list string) :=
  imap (fun i s => sampleRow scenario path (Z.of_nat i + 1) s) l.
(** The rows [writeCSV] hands to its writer. *)
Definition csv_rows (results : list ScenarioResult) : list (list string) :=
  csv_header :: concat (map (fun r => path_rows (Scenario r) "naive" (path_Samples (Naive r)) ++ path_rows (Scenario r) "agentshield" (path_Samples (Shield r))) results).
(** [main]: the results, and the rows of the report; [None]: no valid
    scenario, or a panic. *)
Definition bench_results (mode baseURL : string) (n : Z) (w : W) : option (list ScenarioResult) :=
  match parseMode mode with
  | [] => None
  | l => w ← warmup baseURL 3 w; '(rs, _) ← run_scenarios l baseURL n (w, NewEvaluator None); Some rs
  end.
Definition bench_main (mode baseURL : string) (n : Z) (w : W) : option (list (list string)) :=
  rs ← bench_results mode baseURL n w; Some (csv_rows rs).
End Runner.
