(* ===== verification/BenchSpec.v ===== *)
(** * What the benchmark measures

    The evaluator on the fake backend's answers, the statistics of a run, and
    the harness against the fake backend: what the report shows of each
    scenario, for any draws of the generator. *)
From S2P Require Import Prelude RingBuffer Float64 GoStrings Utf8 Lines Strconv Json Decode Evaluator Provider Backends Telemetry FakeBackend Bench.
From Stdlib Require Import ZArith Lia Reals Lra String SpecFloat.
From stdpp Require Import base tactics list gmap strings.
#[local] Open Scope Z_scope.

(** ** The evaluator on the fake answers *)

(** An evaluator that has seen responses of usual length only. *)
Definition usual (n : Z) : Prop := 150 <= n <= 300.
Definition calibrated (e : QualityEvaluator) : Prop :=
  eval_ok e /\ embedder e = None /\ Forall usual (win_contents e).

Lemma calibrated_new : calibrated (NewEvaluator None).
Proof. split; [apply NewEvaluator_ok; discriminate|]. split; [reflexivity|]. constructor. Qed.

Lemma calibrated_push n e e' : usual n -> calibrated e -> recordLength n e = Some e' -> eval_ok e' -> embedder e' = None -> calibrated e'.
Proof.
  intros Hn (He & Hem & Hu) E He' Hem'. split; [exact He'|]. split; [exact Hem'|].
  assert (Hok : win_ok e) by apply He. rewrite (win_push_contents n e e' Hok E).
  apply Forall_lastn, Forall_app. split; [exact Hu|]. now constructor.
Qed.

(** The sum of usual lengths. *)
Lemma usual_sum l : Forall usual l -> forall acc, 0 <= acc -> acc + 300 * len l <= 2 ^ 53 ->
  acc + 150 * len l <= foldl (fun sum n => wrap64 (sum + n)) acc l <= acc + 300 * len l.
Proof.
  induction 1 as [|n l Hn _ IH]; intros acc H0 Hacc; cbn [foldl]; [change (len []) with 0; lia|].
  rewrite len_cons in *. unfold usual in Hn. pose proof (len_nonneg l).
  rewrite wrap64_id by (unfold int64_min, int64_max; lia). specialize (IH (acc + n)). lia.
Qed.

Lemma usual_avg e : calibrated e -> avgLength e = Some f0 \/
  exists avg, avgLength e = Some avg /\ is_fin avg = true /\ (150 <= B2R avg <= 300)%R.
Proof.
  intros (((Hl & Hi & Hc) & Hw & _ & _) & _ & Hu). unfold avgLength.
  set (n := if lenFilled e then lenWindow e else lenIdx e).
  assert (Hn : 0 <= n <= lenWindow e) by (subst n; destruct (lenFilled e); lia).
  destruct (Z.eqb_spec n 0) as [E|E]; [now left|right].
  unfold slice. rewrite Z.leb_refl, (proj2 (Z.leb_le 0 n)), (proj2 (Z.leb_le n _)) by lia.
  cbn [andb mbind option_bind]. rewrite Z.sub_0_r, drop_0. set (l := take (Z.to_nat n) (lengths e)).
  assert (Hul : Forall usual l).
  { pose proof (ring_prefix_perm (lengths e) (lenIdx e) (lenFilled e) (lenWindow e) ltac:(now split)) as Hp.
    unfold ring_count in Hp. fold n in Hp. fold l in Hp. now rewrite <- Hp. }
  assert (Hlen : len l = n) by (unfold len, l in *; rewrite length_take; lia).
  pose proof (usual_sum l Hul 0 ltac:(lia) ltac:(lia)) as Hs. rewrite Hlen in Hs.
  set (sum := foldl _ 0 l) in *.
  destruct (f64_of_Z_exact sum) as [Fs Vs]; [lia|]. destruct (f64_of_Z_exact n) as [Fn Vn]; [lia|].
  eexists. split; [reflexivity|]. apply fdiv_between; auto; rewrite ?Vs, ?Vn.
  - apply (representable_Z 150). lia.
  - apply (representable_Z 300). lia.
  - assert (1 <= IZR n)%R by (apply IZR_le; lia). lra.
  - assert (1 <= IZR n)%R by (apply IZR_le; lia). assert (150 * IZR n <= IZR sum <= 300 * IZR n)%R
      by (rewrite <- !mult_IZR; split; apply IZR_le; lia).
    split; apply Rmult_le_reg_r with (IZR n); try lra; unfold Rdiv; rewrite Rmult_assoc, Rinv_l by lra; lra.
Qed.

(** A usual length is no anomaly. *)
Lemma usual_length e n : calibrated e -> usual n -> lengthScore e n = Some (f1, EmptyString).
Proof.
  intros He Hn. unfold lengthScore. destruct (usual_avg e He) as [->|(avg & -> & Fa & Ba)]; cbn [mbind option_bind]; [reflexivity|].
  f_equal. case_bool; [done|]. unfold usual in Hn. destruct (f64_of_Z_exact n) as [Fn Vn]; [lia|].
  assert (Hx : (150 <= IZR n <= 300)%R) by (split; apply IZR_le; lia).
  assert (Hr : is_fin (fdiv (f64_of_Z n) avg) = true /\ (/ 2 <= B2R (fdiv (f64_of_Z n) avg) <= 2)%R).
  { apply fdiv_between; auto.
    - exists 1, (-1). repeat split; [lia..|]. unfold bpow. simpl. lra.
    - apply (representable_Z 2). lia.
    - lra.
    - rewrite Vn. split; apply Rmult_le_reg_r with (B2R avg); try lra; unfold Rdiv; rewrite Rmult_assoc, Rinv_l by lra; lra. }
  destruct Hr as [Fr Hr]. fval (flit 35 100). destruct Hval as [F35 V35].
  rewrite (proj2 (fle_spec _ _ F35 Fr)); [done|]. rewrite V35. lra.
Qed.

Section Verdicts.
Context `{U : Unicode}.

(** Whether a response of usual length passes, by its text. *)
Definition passes (prompt response : string) : bool :=
  fle qualityThreshold (clip0 (evaluate_acc prompt response (f1, EmptyString) None).2).
Lemma language_cases prompt r : flt (flit 50 100) (nonASCIIRatio r) = false ->
  languageMismatchScore prompt r = (f1, EmptyString) \/
  languageMismatchScore prompt r = (flit 1 2, "response may be in different language than prompt"%string).
Proof. intros Hr. unfold languageMismatchScore. rewrite Hr, andb_false_r. repeat case_bool; auto. Qed.

(** The content of a text decides, whatever the prompt and the tables. *)
Definition plain (r : string) : bool :=
  forallb is_ascii (rune_values r) && forallb is_ascii (rune_values (@to_lower latin1 r)) && negb (flt (flit 50 100) (nonASCIIRatio r)).
Definition content_score (r : string) (language : f64 * string) : f64 :=
  clip0 (penalise "language_mismatch" (flit 30 100) language
    (penalise "refusal_marker" (flit 40 100) (@RefusalMarkerScore latin1 r)
      (penalise "length_anomaly" (flit 25 100) (f1, EmptyString)
        (penalise "repetition" (flit 45 100) (@repetitionScore latin1 r) ([], f1))))).2.
Definition decided (b : bool) (r : string) : bool :=
  plain r && Bool.eqb (fle qualityThreshold (content_score r (f1, EmptyString))) b
  && Bool.eqb (fle qualityThreshold (content_score r (flit 1 2, "response may be in different language than prompt"%string))) b.
Lemma decided_passes b r prompt : decided b r = true -> passes prompt r = b.
Proof.
  unfold decided, plain. intros Hd. apply andb_prop in Hd as [Hd H2]. apply andb_prop in Hd as [Hd H1].
  apply andb_prop in Hd as [Hd H3]. apply andb_prop in Hd as [Ha Hb].
  apply Bool.eqb_prop in H1, H2. apply negb_true_iff in H3. unfold passes, evaluate_acc, coherence_step.
  destruct (signals_ascii r Ha Hb) as [-> ->]. destruct (language_cases prompt r H3) as [-> | ->]; assumption.
Qed.
Lemma answers_decided : forallb (decided true) goodResponses = true /\ forallb (decided false) garbageResponses = true.
Proof. split; vm_compute; reflexivity. Qed.
Lemma good_passes r prompt : In r goodResponses -> passes prompt r = true.
Proof. intros Hr. apply decided_passes. apply (proj1 (forallb_forall _ _) (proj1 answers_decided) r Hr). Qed.
Lemma garbage_fails r prompt : In r garbageResponses -> passes prompt r = false.
Proof. intros Hr. apply decided_passes. apply (proj1 (forallb_forall _ _) (proj2 answers_decided) r Hr). Qed.
Lemma answers_usual r : In r (goodResponses ++ garbageResponses) -> usual (slen r) /\ r <> EmptyString.
Proof.
  intros Hr. assert (Hall : forallb (fun r => (150 <=? slen r) && (slen r <=? 300)) (goodResponses ++ garbageResponses) = true) by (vm_compute; reflexivity).
  rewrite forallb_forall in Hall. specialize (Hall r Hr).
  apply andb_prop in Hall as [H1 H2]. apply Z.leb_le in H1, H2. split; [split; assumption|]. intros ->. change (slen EmptyString) with 0 in H1. lia.
Qed.

Lemma Evaluate_usual e prompt r : calibrated e -> usual (slen r) ->
  exists qr e', Evaluate e prompt r = Some (qr, e') /\ calibrated e' /\ fle qualityThreshold (res_Score qr) = passes prompt r.
Proof.
  intros He Hr. pose proof He as (Hok & Hem & _).
  destruct (Evaluate_chain e prompt r Hok) as (ls & coh & e' & E & _ & _ & Hok' & Hem' & Hrec); [unfold usual, max_text in *; lia|].
  rewrite (proj2 (Z.ltb_lt 0 (slen r))) in Hrec by (unfold usual in Hr; lia).
  assert (Es : option_map (fun x => res_Score x.1) (Evaluate e prompt r) = Some (clip0 (evaluate_acc prompt r (f1, EmptyString) None).2)).
  { unfold Evaluate. rewrite (usual_length e _ He Hr). cbn [mbind option_bind]. rewrite (proj2 (Z.ltb_ge (slen r) 10)) by (unfold usual in Hr; lia).
    cbn [andb]. rewrite (proj2 (Z.ltb_lt 0 (slen r))), Hrec by (unfold usual in Hr; lia). cbn [mbind option_bind]. rewrite Hem', Hem. reflexivity. }
  eexists _, e'. split; [exact E|]. split; [apply (calibrated_push (slen r) e); auto; congruence|].
  rewrite E in Es. injection Es as Es. unfold passes. rewrite <- Es. reflexivity.
Qed.
End Verdicts.

(** ** The clients against the fake backend *)

(** The texts a scenario draws from. *)
Definition table (scenario : string) : list string :=
  if String.eqb scenario "brownout" then goodResponses ++ garbageResponses
  else if String.eqb scenario "garbage" then garbageResponses else goodResponses.
(** What a client gets from a scenario. *)
Definition answered (scenario : string) (x : GoError + string) : Prop :=
  if String.eqb scenario "down" then exists e, x = inl e else exists text, x = inr text /\ In text (table scenario).

Section Served.
Context {R : Type} `{Rand R}.
Implicit Types (b : Backend R).

Lemma table_answers scenario text : In text (table scenario) -> In text (goodResponses ++ garbageResponses).
Proof. unfold table. rewrite in_app_iff. repeat case_bool; rewrite ?in_app_iff; tauto. Qed.
Lemma read_answer decode_error name reading text : In text (goodResponses ++ garbageResponses) ->
  read_reply decode_error name reading (Reply 200 (writeJSON (Response_doc text)).2 None) = inr text.
Proof.
  intros Hin. assert (Hall : forallb (fun t => bool_decide ((r ← raw_parse (writeJSON (Response_doc t)).2; into_response r EmptyString) = Some t))
    (goodResponses ++ garbageResponses) = true) by (vm_compute; reflexivity).
  rewrite forallb_forall in Hall. specialize (Hall text Hin). apply bool_decide_eq_true in Hall.
  unfold read_reply. change (500 <=? 200) with false. cbv iota. now rewrite Hall.
Qed.
Lemma serve_text_draws texts b : texts <> [] -> exists text b',
  serve_text texts b = (writeJSON (Response_doc text), b') /\ In text texts /\ clock b' = clock b.
Proof.
  intros Hne. unfold serve_text, draw_int. pose proof (Intn_range (len texts) (rng b)) as Hr.
  destruct (Intn (len texts) (rng b)) as [i r]. cbn [fst] in Hr. assert (Hlen : 0 < len texts) by (destruct texts; [done|unfold len; cbn; lia]).
  specialize (Hr Hlen). eexists _, _. split; [reflexivity|]. split; [|reflexivity]. apply nth_In. unfold len in *. lia.
Qed.
Lemma brownout_delay_nonneg b d b' : brownout_delay b = (d, b') -> 0 <= d /\ clock b' = clock b.
Proof.
  unfold brownout_delay, draw_float, draw_int. destruct (Float64 (rng b)) as [x r]. cbn [rng clock]. unfold millisecond.
  case_bool; [pose proof (Intn_range 2001 r ltac:(lia)) as Hr; destruct (Intn 2001 r)|pose proof (Intn_range 301 r ltac:(lia)) as Hr; destruct (Intn 301 r)];
    cbn [fst] in Hr; intros [= <- <-]; cbn [clock]; lia.
Qed.

(** Every scenario answers from its table, or is down. *)
Lemma scenario_answers scenario b decode_error name reading : exists reply b',
  handleGenerate scenario b = (reply, b') /\ clock b <= clock b' /\
  answered scenario (read_reply decode_error name reading (Reply reply.1 reply.2 None)).
Proof.
  unfold handleGenerate, answered, table. destruct (String.eqb scenario "down"); [eexists _, _; split; [reflexivity|]; split; [lia|]; eexists; reflexivity|].
  destruct (String.eqb scenario "brownout").
  - unfold serveBrownout. destruct (brownout_delay b) as [d b1] eqn:Ed. apply brownout_delay_nonneg in Ed as [Hd Hc].
    unfold draw_float. cbn [rng clock]. destruct (Float64 (rng b1)) as [x r]. case_bool;
      match goal with |- context [serve_text ?t ?s] => idtac | |- context [serveGarbage ?s] => destruct (serve_text_draws garbageResponses s) as (text & b2 & E & Hin & Hc2); [discriminate|]
        | |- context [serveGood ?s] => destruct (serve_text_draws goodResponses s) as (text & b2 & E & Hin & Hc2); [discriminate|] end;
      (exists (writeJSON (Response_doc text)), b2; split; [exact E|]; split; [rewrite Hc2; cbn [clock]; lia|]; exists text;
       split; [apply read_answer|]; rewrite in_app_iff; auto).
  - destruct (String.eqb scenario "garbage").
    + destruct (serve_text_draws garbageResponses b) as (text & b2 & E & Hin & Hc2); [discriminate|].
      exists (writeJSON (Response_doc text)), b2. split; [exact E|]. split; [lia|]. exists text. split; [apply read_answer; rewrite in_app_iff; auto|exact Hin].
    + destruct (serve_text_draws goodResponses b) as (text & b2 & E & Hin & Hc2); [discriminate|].
      exists (writeJSON (Response_doc text)), b2. split; [exact E|]. split; [lia|]. exists text. split; [apply read_answer; rewrite in_app_iff; auto|exact Hin].
Qed.
End Served.

(** The network delivers: a benchmark call reaches the handler. *)
Class Delivers {R} `{Rand R} (baseURL : string) (http_do : Z -> ApiCall -> Backend R -> Exchange * Backend R) : Prop :=
  delivers : forall t model prompt scenario b, http_do t (bench_call baseURL model prompt scenario) b
    = let '(reply, b') := handleGenerate scenario b in (Reply reply.1 reply.2 None, b').

Section Clients.
Context {R : Type} `{Rand R} `{Unicode} (http_do : Z -> ApiCall -> Backend R -> Exchange * Backend R) (decode_error : string -> string)
  (baseURL : string) {Hnet : Delivers baseURL http_do}.
Implicit Types (b : Backend R).

Lemma doGenerate_answers c prompt b : cl_baseURL c = baseURL -> exists x b',
  doGenerate http_do decode_error c prompt b = (x, b') /\ clock b <= clock b' /\ answered (cl_scenario c) x.
Proof.
  intros Hb. unfold doGenerate. rewrite Hb, delivers.
  destruct (scenario_answers (cl_scenario c) b decode_error "naive" "read body") as (reply & b' & -> & Hc & Hx). eauto.
Qed.
(** A scenario that is down stays down for every attempt; any other answers
    the first one. *)
Lemma Generate_naive_answers c prompt b : cl_baseURL c = baseURL -> 0 <= cl_maxRetries c -> exists x b',
  Generate_naive http_do decode_error c prompt b = (x, b') /\ clock b <= clock b' /\ answered (cl_scenario c) x.
Proof.
  intros Hb Hr. unfold Generate_naive. replace (Z.to_nat (cl_maxRetries c + 1)) with (S (Z.to_nat (cl_maxRetries c))) by lia.
  generalize (@None GoError). generalize (Z.to_nat (cl_maxRetries c)). intros n last. revert last b.
  induction n as [|n IH]; intros last b; cbn [attempts]; destruct (doGenerate_answers c prompt b Hb) as (x & b1 & E & Hc & Hx); rewrite E;
    (destruct x as [e|text]; [|eexists _, b1; split; [reflexivity|]; auto]).
  - eexists _, b1. split; [reflexivity|]. split; [exact Hc|]. unfold answered in *. case_bool; [eauto|]. destruct Hx as (? & [=] & _).
  - cbn [attempts] in IH. destruct (IH (Some e) b1) as (y & b2 & E2 & Hc2 & Hy). exists y, b2. split; [exact E2|]. split; [lia|exact Hy].
Qed.
Lemma callBackend_answers prompt scenario b : exists x b',
  callBackend http_do decode_error baseURL prompt scenario b = (x, b') /\ clock b <= clock b' /\ answered scenario x.
Proof.
  unfold callBackend. rewrite delivers.
  destruct (scenario_answers scenario b decode_error "runner" "read") as (reply & b' & -> & Hc & Hx). eauto.
Qed.

(** The shielded client between calls. *)
Definition shield_ok (scenario : string) (c : AgentShieldClient) : Prop :=
  sh_baseURL c = baseURL /\ sh_scenario c = scenario /\ calibrated (sh_eval c).
Lemma try_tier_runs scenario c prompt text : shield_ok scenario c -> In text (goodResponses ++ garbageResponses) ->
  exists c', try_tier c prompt (inr text) = Some (if passes prompt text then Some text else None, c') /\ shield_ok scenario c'.
Proof.
  intros (Hb & Hs & He) Hin. destruct (answers_usual text Hin) as [Hu _].
  destruct (Evaluate_usual (sh_eval c) prompt text He Hu) as (qr & e' & E & He' & Hp).
  unfold try_tier. rewrite E. cbn [mbind option_bind]. rewrite Hp.
  destruct (passes prompt text); eexists; (split; [reflexivity|]; split; [exact Hb|split; [exact Hs|exact He']]).
Qed.
Lemma lower_tiers_answers scenario prompt c b : shield_ok scenario c -> exists text c' b',
  lower_tiers http_do decode_error prompt c b = Some ((text, "fallback"%string), (c', b')) /\ shield_ok scenario c' /\ clock b <= clock b' /\
  In text goodResponses.
Proof.
  intros Hok. pose proof Hok as (Hb & _). unfold lower_tiers. rewrite Hb.
  destruct (callBackend_answers prompt EmptyString b) as (x & b2 & -> & Hc2 & text & -> & Hin).
  destruct (try_tier_runs scenario c prompt text Hok) as (c2 & -> & Hok2); [now apply (table_answers EmptyString)|].
  rewrite (good_passes text prompt Hin). cbn [mbind option_bind]. exists text, c2, b2. auto.
Qed.
(** It always comes back with a good answer, the primary's only if the
    scenario has good answers. *)
Definition tier_of (scenario tier : string) : Prop :=
  tier = "fallback"%string \/ tier = "primary"%string /\ scenario <> "down"%string /\ scenario <> "garbage"%string.
Lemma Generate_shield_answers scenario prompt c b : shield_ok scenario c -> exists text tier c' b',
  Generate_shield http_do decode_error prompt c b = Some ((text, tier), (c', b')) /\ shield_ok scenario c' /\ clock b <= clock b' /\
  In text (goodResponses ++ garbageResponses) /\ passes prompt text = true /\ tier_of scenario tier.
Proof.
  intros Hok. pose proof Hok as (Hb & Hs & _). unfold Generate_shield. rewrite Hb, Hs.
  destruct (callBackend_answers prompt scenario b) as (x & b1 & -> & Hc & Hx).
  assert (Hlow : forall c1, shield_ok scenario c1 -> exists text tier c' b',
    lower_tiers http_do decode_error prompt c1 b1 = Some ((text, tier), (c', b')) /\ shield_ok scenario c' /\ clock b <= clock b' /\
    In text (goodResponses ++ garbageResponses) /\ passes prompt text = true /\ tier_of scenario tier).
  { intros c1 Hok1. destruct (lower_tiers_answers scenario prompt c1 b1 Hok1) as (text & c2 & b2 & E & Hok2 & Hc2 & Hin).
    exists text, "fallback"%string, c2, b2. split; [exact E|]. split; [exact Hok2|]. split; [lia|].
    split; [now apply (table_answers EmptyString)|]. split; [now apply good_passes|now left]. }
  unfold answered in Hx. destruct (String.eqb_spec scenario "down") as [Hd|Hd].
  - destruct Hx as [e ->]. cbn [try_tier mbind option_bind]. apply (Hlow c Hok).
  - destruct Hx as (text & -> & Hin). destruct (try_tier_runs scenario c prompt text Hok) as (c1 & -> & Hok1); [now apply (table_answers scenario)|].
    cbn [mbind option_bind]. destruct (passes prompt text) eqn:Ep; [|apply (Hlow c1 Hok1)].
    exists text, "primary"%string, c1, b1. split; [reflexivity|]. split; [exact Hok1|]. split; [exact Hc|].
    split; [now apply (table_answers scenario)|]. split; [exact Ep|]. right. split; [done|]. split; [exact Hd|]. intros ->.
    now rewrite (garbage_fails text prompt Hin) in Ep.
Qed.
End Clients.

(** ** Samples *)

Definition now_b {R} (b : Backend R) : Z * Backend R := (clock b, b).
Lemma latency_nonneg t t' : t <= t' -> 0 <= milliseconds (time_sub t' t).
Proof. intros Ht. unfold milliseconds, time_sub, millisecond. apply Z.quot_pos; unfold int64_min, int64_max; lia. Qed.

Section Runs.
Context {R : Type} `{Rand R} `{Unicode}.
Notation W := (Backend R).

(** What a call of a client gives: an error, or a text of the tables that
    passes or not. *)
Definition call_gives {C} (fn : generateFn (W := W) C) (ok : C -> Prop) (Q : option (bool * string) -> Prop) : Prop :=
  forall prompt c b, ok c -> exists text tier err c' b', fn prompt c b = Some ((text, tier, err), (c', b')) /\ ok c' /\ clock b <= clock b' /\
    match err with
    | Some _ => text = EmptyString /\ Q None
    | None => In text (goodResponses ++ garbageResponses) /\ Q (Some (passes prompt text, tier))
    end.
(** The sample of such a call. *)
Definition sample_of (Q : option (bool * string) -> Prop) (s : Sample) : Prop :=
  0 <= LatencyMS s /\ Q (if Success s then Some (Useful s, sample_Tier s) else None) /\
  (Success s = true -> Useful s = fle qualityThreshold (Score s)) /\ (Success s = false -> Useful s = false).
Definition state_ok {C} (ok : C -> Prop) (st : C * W * QualityEvaluator) : Prop := ok st.1.1 /\ calibrated st.2.

Lemma score_usual e prompt text : calibrated e -> In text (goodResponses ++ garbageResponses) ->
  exists q e1 e2, score prompt text e = Some (q, e1) /\ isUseful prompt text e1 = Some (passes prompt text, e2) /\
    calibrated e2 /\ fle qualityThreshold q = passes prompt text.
Proof.
  intros He Hin. destruct (answers_usual text Hin) as [Hu Hne].
  destruct (Evaluate_usual e prompt text He Hu) as (qr & e1 & E1 & He1 & Hp1).
  destruct (Evaluate_usual e1 prompt text He1 Hu) as (qr2 & e2 & E2 & He2 & Hp2).
  exists (res_Score qr), e1, e2. unfold score, isUseful. rewrite (proj2 (String.eqb_neq _ _) Hne), E1, E2. cbn [mbind option_bind].
  rewrite Hp2. auto.
Qed.
Lemma take_sample_runs {C} (fn : generateFn C) ok Q prompt st : call_gives fn ok Q -> state_ok ok st ->
  exists s st', take_sample now_b fn prompt st = Some (s, st') /\ state_ok ok st' /\ sample_of Q s.
Proof.
  intros Hfn. destruct st as [[c b] e]. intros [Hok He]. cbn [fst snd] in *. unfold take_sample. cbn [now_b].
  destruct (Hfn prompt c b Hok) as (text & tier & err & c' & b' & -> & Hok' & Hc & Hq). cbn [mbind option_bind].
  pose proof (latency_nonneg _ _ Hc) as Hl. destruct err as [x|].
  - destruct Hq as [-> Hq]. cbn [bool_decide andb]. eexists _, _. split; [reflexivity|]. split; [now split|].
    split; [exact Hl|]. split; [exact Hq|]. split; [discriminate|reflexivity].
  - destruct Hq as [Hin Hq]. destruct (answers_usual text Hin) as [_ Hne].
    destruct (score_usual e prompt text He Hin) as (q & e1 & e2 & E1 & E2 & He2 & Hp).
    rewrite (proj2 (String.eqb_neq _ _) Hne). change (bool_decide (@None GoError = None) && negb false) with true. cbv iota.
    rewrite E1. cbn [mbind option_bind]. rewrite E2. cbn [mbind option_bind]. eexists _, _. split; [reflexivity|]. split; [now split|].
    split; [exact Hl|]. split; [exact Hq|]. split; [intros _; symmetry; exact Hp|discriminate].
Qed.
Lemma run_samples_runs {C} (fn : generateFn C) ok Q prompts k : call_gives fn ok Q -> prompts <> [] ->
  forall i st, state_ok ok st -> exists l st', run_samples now_b fn prompts k i st = Some (l, st') /\ state_ok ok st' /\
    len l = Z.of_nat k /\ Forall (sample_of Q) l.
Proof.
  intros Hfn Hne. induction k as [|k IH]; intros i st Hst; cbn [run_samples]; [now exists [], st|].
  destruct (lookup_lt_is_Some_2 prompts (i mod length prompts)) as [prompt ->].
  { apply Nat.mod_upper_bound. destruct prompts; [done|discriminate]. }
  cbn [mbind option_bind]. destruct (take_sample_runs fn ok Q prompt st Hfn Hst) as (s & st1 & -> & Hst1 & Hs).
  cbn [mbind option_bind]. destruct (IH (S i) st1 Hst1) as (l & st2 & -> & Hst2 & Hl & Hall). cbn [mbind option_bind].
  exists (s :: l), st2. split; [reflexivity|]. split; [exact Hst2|]. split; [rewrite len_cons; lia|now constructor].
Qed.
End Runs.

(** ** Statistics *)

Lemma p_range n pct : 0 < n -> 0 <= p n pct < n.
Proof. intros Hn. unfold p. repeat case_bool; zbool; lia. Qed.
(** Up to two thousand requests the rounding of the percentage never moves
    the index: it is the nearest rank. *)
Definition nearest_rank (n pct : Z) : Z := (pct * n + 99) / 100 - 1.
Lemma p_nearest n pct : 1 <= n <= 2000 -> In pct [50; 95; 99] -> p n pct = nearest_rank n pct.
Proof.
  intros Hn Hp. assert (Hall : forallb (fun n => forallb (fun pct => p n pct =? nearest_rank n pct) [50; 95; 99]) (map Z.of_nat (seq 1 2000)) = true)
    by (vm_compute; reflexivity).
  rewrite forallb_forall in Hall. specialize (Hall n). rewrite forallb_forall in Hall. apply Z.eqb_eq, Hall; [|exact Hp].
  apply in_map_iff. exists (Z.to_nat n). split; [lia|]. apply in_seq. lia.
Qed.

Lemma count_bounds f l : 0 <= count f l <= len l.
Proof. unfold count, len. pose proof (length_filter (fun s => f s = true) l). lia. Qed.
Lemma count_all f l : Forall (fun s => f s = true) l -> count f l = len l.
Proof. intros Hl. unfold count. now rewrite filter_Forall_id. Qed.
Lemma count_none f l : Forall (fun s => f s = false) l -> count f l = 0.
Proof.
  unfold count. induction 1 as [|s l Hs _ IH]; [reflexivity|]. rewrite filter_cons, decide_False by congruence. exact IH.
Qed.
(** A rate is a fraction of the samples. *)
Definition rate (f : Sample -> bool) (l : list Sample) : f64 := fdiv (f64_of_Z (count f l)) (f64_of_Z (len l)).
Lemma rate_between f l lo hi : 1 <= len l <= 2 ^ 53 -> representable (IZR lo) -> representable (IZR hi) ->
  lo * len l <= count f l <= hi * len l -> is_fin (rate f l) = true /\ (IZR lo <= B2R (rate f l) <= IZR hi)%R.
Proof.
  intros Hl Hlo Hhi Hc. pose proof (count_bounds f l).
  destruct (f64_of_Z_exact (count f l)) as [Fc Vc]; [lia|]. destruct (f64_of_Z_exact (len l)) as [Fn Vn]; [lia|].
  assert (1 <= IZR (len l))%R by (apply IZR_le; lia).
  assert (IZR lo * IZR (len l) <= IZR (count f l) <= IZR hi * IZR (len l))%R by (rewrite <- !mult_IZR; split; apply IZR_le; lia).
  apply fdiv_between; auto; rewrite ?Vc, ?Vn; [lra|].
  split; apply Rmult_le_reg_r with (IZR (len l)); try lra; unfold Rdiv; rewrite Rmult_assoc, Rinv_l by lra; lra.
Qed.
Lemma rate_all f l : 1 <= len l <= 2 ^ 53 -> Forall (fun s => f s = true) l -> B2R (rate f l) = 1%R.
Proof.
  intros Hl Hf. destruct (rate_between f l 1 1 Hl) as [_ B]; [apply representable_1..|rewrite count_all by exact Hf; lia|lra].
Qed.
Lemma rate_none f l : 1 <= len l <= 2 ^ 53 -> Forall (fun s => f s = false) l -> B2R (rate f l) = 0%R.
Proof.
  intros Hl Hf. destruct (rate_between f l 0 0 Hl) as [_ B]; [apply representable_0..|rewrite count_none by exact Hf; lia|lra].
Qed.

(** The statistics of some samples. *)
Definition stats_of (l : list Sample) (first : Z) (st : Stats) : Prop :=
  let n := len l in
  at_rank (map LatencyMS l) (nearest_rank n 50) (st_P50 st) /\ at_rank (map LatencyMS l) (nearest_rank n 95) (st_P95 st) /\
  at_rank (map LatencyMS l) (nearest_rank n 99) (st_P99 st) /\ st_P50 st <= st_P95 st <= st_P99 st /\
  SuccessRate st = rate Success l /\ UsefulRate st = rate Useful l /\ in_unit (SuccessRate st) /\ in_unit (UsefulRate st) /\
  TimeToFirstUsefulMS st = first.

Lemma latency_at l pct : 1 <= len l <= 2000 -> In pct [50; 95; 99] ->
  exists d, slice_get (sort (map LatencyMS l)) (p (len (sort (map LatencyMS l))) pct) = Some d /\ at_rank (map LatencyMS l) (nearest_rank (len l) pct) d.
Proof.
  intros Hl Hp. assert (Hs : len (sort (map LatencyMS l)) = len l).
  { unfold len. now rewrite (Permutation_length (sort_perm _)), length_map. }
  rewrite Hs. pose proof (p_range (len l) pct ltac:(lia)) as Hr. rewrite p_nearest in * by assumption.
  destruct (slice_get_in (sort (map LatencyMS l)) (nearest_rank (len l) pct)) as [d Hd]; [lia|]. exists d. split; [exact Hd|].
  unfold slice_get in Hd. rewrite (proj2 (Z.leb_le _ _)) in Hd by lia. apply sort_at_rank in Hd. now rewrite Z2Nat.id in Hd by lia.
Qed.
Lemma computeStats_runs l first : 1 <= len l <= 2000 -> exists st, computeStats l first = Some st /\ stats_of l first st.
Proof.
  intros Hl. assert (Hu : forall f, in_unit (rate f l)).
  { intros f. pose proof (count_bounds f l). apply (rate_between f l 0 1); [lia|apply representable_0|apply representable_1|lia]. }
  destruct (latency_at l 50 Hl) as (d1 & E1 & H1); [cbn; auto|]. destruct (latency_at l 95 Hl) as (d2 & E2 & H2); [cbn; auto|].
  destruct (latency_at l 99 Hl) as (d3 & E3 & H3); [cbn; auto|].
  assert (Hs : len (sort (map LatencyMS l)) = len l) by (unfold len; now rewrite (Permutation_length (sort_perm _)), length_map).
  destruct l as [|s l]; [change (len []) with 0 in Hl; lia|]. cbn [computeStats]. set (k := s :: l) in *.
  rewrite E1, E2, E3. cbn [mbind option_bind]. rewrite Hs. eexists. split; [reflexivity|]. unfold stats_of. cbn.
  do 3 (split; [assumption|]). split.
  - unfold nearest_rank in *. split; [apply (at_rank_mono _ _ _ _ _ H1 H2)|apply (at_rank_mono _ _ _ _ _ H2 H3)];
      apply Z.sub_le_mono_r, Z.div_le_mono; lia.
  - fold (rate Success k) (rate Useful k). auto.
Qed.

Lemma first_useful_none l : Forall (fun s => Useful s = false) l -> first_useful l = -1.
Proof. unfold first_useful. generalize (-1). induction 1 as [|s l Hs _ IH]; cbn [foldl]; [done|]. rewrite Hs. apply IH. Qed.
Lemma first_useful_keep l : forall first, 0 <= first -> foldl (fun first s => if Useful s && (first <? 0) then LatencyMS s else first) first l = first.
Proof. induction l as [|s l IH]; intros first Hf; cbn [foldl]; [done|]. rewrite (proj2 (Z.ltb_ge first 0)), andb_false_r by lia. now apply IH. Qed.
Lemma first_useful_head s l : Useful s = true -> 0 <= LatencyMS s -> first_useful (s :: l) = LatencyMS s.
Proof. intros Hs Hl. unfold first_useful. cbn [foldl]. rewrite Hs. cbn [andb]. now apply first_useful_keep. Qed.

(** ** A scenario's report *)

Section Report.
Context {R : Type} `{Rand R} `{Unicode} (http_do : Z -> ApiCall -> Backend R -> Exchange * Backend R) (decode_error : string -> string)
  (baseURL : string) {Hnet : Delivers baseURL http_do}.
Notation W := (Backend R).

(** What a call of the two clients gives: [None] an error, else whether the
    answer passes and its tier. *)
Definition naive_gives (scenario : string) (o : option (bool * string)) : Prop :=
  match o with
  | None => scenario = "down"%string
  | Some (useful, tier) => scenario <> "down"%string /\ tier = "naive"%string /\ (scenario = "garbage"%string -> useful = false)
  end.
Definition shield_gives (scenario : string) (o : option (bool * string)) : Prop :=
  exists tier, o = Some (true, tier) /\ tier_of scenario tier.

Lemma naive_calls cl : cl_baseURL cl = baseURL -> 0 <= cl_maxRetries cl ->
  call_gives (naive_fn http_do decode_error cl) (fun _ => True) (naive_gives (cl_scenario cl)).
Proof.
  intros Hb Hr prompt c b _. unfold naive_fn.
  destruct (Generate_naive_answers http_do decode_error baseURL cl prompt b Hb Hr) as (x & b' & -> & Hc & Hx).
  unfold answered in Hx. destruct (String.eqb_spec (cl_scenario cl) "down") as [Hd|Hd].
  - destruct Hx as [e ->]. eexists _, _, _, _, _. split; [reflexivity|]. split; [exact I|]. split; [exact Hc|]. split; [reflexivity|exact Hd].
  - destruct Hx as (text & -> & Hin). eexists _, _, _, _, _. split; [reflexivity|]. split; [exact I|]. split; [exact Hc|].
    split; [now apply (table_answers (cl_scenario cl))|]. split; [exact Hd|]. split; [reflexivity|]. intros E. rewrite E in Hin. now apply garbage_fails.
Qed.
Lemma shield_calls scenario : call_gives (shield_fn http_do decode_error) (shield_ok baseURL scenario) (shield_gives scenario).
Proof.
  intros prompt c b Hok. unfold shield_fn.
  destruct (Generate_shield_answers http_do decode_error baseURL scenario prompt c b Hok) as (text & tier & c' & b' & -> & Hok' & Hc & Hin & Hp & Ht).
  cbn [mbind option_bind]. eexists _, _, _, _, _. split; [reflexivity|]. split; [exact Hok'|]. split; [exact Hc|]. split; [exact Hin|].
  exists tier. rewrite Hp. auto.
Qed.

(** What a path shows: its samples, each as a call gives it, and their
    statistics. *)
Definition path_shows (name : string) (n : Z) (Q : option (bool * string) -> Prop) (pr : PathResult) : Prop :=
  Path pr = name /\ len (path_Samples pr) = n /\ Forall (sample_of Q) (path_Samples pr) /\
  stats_of (path_Samples pr) (first_useful (path_Samples pr)) (path_Stats pr).
Lemma runPath_runs {C} name n prompts (fn : generateFn (W := W) C) ok Q st : call_gives fn ok Q -> prompts <> [] -> 1 <= n <= 2000 ->
  state_ok ok st -> exists pr st', runPath now_b name n prompts fn st = Some (pr, st') /\ path_shows name n Q pr /\ state_ok ok st'.
Proof.
  intros Hfn Hne Hn Hst. unfold runPath. rewrite (proj2 (Z.ltb_ge n 0)) by lia.
  destruct prompts as [|p0 ps]; [done|]. cbn [lookup list_lookup mbind option_bind].
  destruct (run_samples_runs fn ok Q (p0 :: ps) (Z.to_nat n) Hfn Hne 0 st Hst) as (l & st' & -> & Hst' & Hl & Hall). cbn [mbind option_bind].
  destruct (computeStats_runs l (first_useful l)) as (s & -> & Hs); [lia|]. cbn [mbind option_bind].
  eexists _, st'. split; [reflexivity|]. split; [|exact Hst']. split; [reflexivity|]. split; [cbn; lia|]. split; [exact Hall|exact Hs].
Qed.
Lemma RunScenario_runs scenario n prompts b e : prompts <> [] -> 1 <= n <= 2000 -> calibrated e ->
  exists r b' e', RunScenario http_do decode_error now_b scenario baseURL n prompts (b, e) = Some (r, (b', e')) /\ calibrated e' /\
    Scenario r = scenario /\ path_shows "naive" n (naive_gives scenario) (Naive r) /\ path_shows "agentshield" n (shield_gives scenario) (Shield r).
Proof.
  intros Hne Hn He. unfold RunScenario. cbn [fst snd].
  destruct (runPath_runs "naive" n prompts _ _ _ (tt, b, e) (naive_calls (NewClient baseURL "bench-model" [WithScenario scenario; WithMaxRetries 1]) eq_refl ltac:(discriminate)) Hne Hn)
    as (pr & [[[] b1] e1] & -> & Hpr & _ & He1); [now split|]. cbn [mbind option_bind].
  destruct (runPath_runs "agentshield" n prompts _ _ _ (NewAgentShieldClient baseURL scenario, b1, e1) (shield_calls scenario) Hne Hn)
    as (pr2 & [[c2 b2] e2] & -> & Hpr2 & _ & He2); [split; [|exact He1]; split; [reflexivity|]; split; [reflexivity|apply calibrated_new]|].
  cbn [mbind option_bind]. eexists _, b2, e2. split; [reflexivity|]. auto.
Qed.

(** The samples of a path that all are as some call result says. *)
Lemma samples_rates n name Q pr f g : path_shows name n Q pr -> 1 <= n <= 2000 ->
  (forall o, Q o -> bool_decide (is_Some o) = f /\ (match o with Some (useful, _) => useful | None => false end) = g) ->
  B2R (SuccessRate (path_Stats pr)) = (if f then 1 else 0)%R /\ B2R (UsefulRate (path_Stats pr)) = (if g then 1 else 0)%R /\
  (if g then exists s l, path_Samples pr = s :: l /\ TimeToFirstUsefulMS (path_Stats pr) = LatencyMS s
   else TimeToFirstUsefulMS (path_Stats pr) = -1).
Proof.
  intros (_ & Hl & Hall & Hs) Hn Hq. destruct Hs as (_ & _ & _ & _ & E1 & E2 & _ & _ & E3). rewrite E1, E2, E3.
  assert (Hsu : Forall (fun s => Success s = f) (path_Samples pr) /\ Forall (fun s => Useful s = g) (path_Samples pr)).
  { split; eapply Forall_impl; try exact Hall; intros s (_ & Q1 & _ & Hu); destruct (Hq _ Q1) as [<- <-];
      destruct (Success s); try reflexivity; now apply Hu. }
  destruct Hsu as [Hsf Hsg]. split; [destruct f; [apply rate_all|apply rate_none]; (lia || exact Hsf)|].
  split; [destruct g; [apply rate_all|apply rate_none]; (lia || exact Hsg)|].
  destruct g; [|now apply first_useful_none]. destruct (path_Samples pr) as [|s l]; [change (len []) with 0 in Hl; lia|].
  exists s, l. split; [reflexivity|]. apply Forall_cons in Hall as [(Hlat & _) _]. apply Forall_cons in Hsg as [Hs0 _]. now apply first_useful_head.
Qed.
End Report.

(** ** The command *)

Section Command.
Context {R : Type} `{Rand R} `{Unicode} (http_do : Z -> ApiCall -> Backend R -> Exchange * Backend R) (decode_error : string -> string)
  (baseURL : string) {Hnet : Delivers baseURL http_do}.

Lemma warmup_runs n b : exists b', warmup http_do decode_error baseURL n b = Some b'.
Proof.
  unfold warmup. assert (Hw : forall k i c b, shield_ok baseURL EmptyString c -> exists x, warmup_calls http_do decode_error k i c b = Some x).
  { induction k as [|k IH]; intros i c b0 Hc; [now eexists|]. cbn [warmup_calls].
    destruct (lookup_lt_is_Some_2 benchPrompts (i mod length benchPrompts)%nat) as [prompt ->]; [apply Nat.mod_upper_bound; discriminate|].
    cbn [mbind option_bind]. destruct (Generate_shield_answers http_do decode_error baseURL EmptyString prompt c b0 Hc) as (t & tier & c' & b' & -> & Hc' & _).
    cbn [mbind option_bind]. now apply IH. }
  destruct (Hw (Z.to_nat n) 0%nat (NewAgentShieldClient baseURL EmptyString) b) as [[c b'] ->]; [|now eexists].
  split; [reflexivity|]. split; [reflexivity|apply calibrated_new].
Qed.
Lemma run_scenarios_runs l n b e : 1 <= n <= 2000 -> calibrated e -> exists rs we,
  run_scenarios http_do decode_error now_b l baseURL n (b, e) = Some (rs, we) /\ length rs = length l /\
  Forall (fun r => exists scenario, path_shows "naive" n (naive_gives scenario) (Naive r) /\ path_shows "agentshield" n (shield_gives scenario) (Shield r)) rs.
Proof.
  intros Hn. revert b e. induction l as [|s l IH]; intros b e He; [now exists [], (b, e)|]. cbn [run_scenarios].
  destruct (RunScenario_runs http_do decode_error baseURL s n benchPrompts b e ltac:(discriminate) Hn He) as (r & b' & e' & -> & He' & _ & H1 & H2).
  cbn [mbind option_bind]. destruct (IH b' e' He') as (rs & we & -> & Hl & Hall). cbn [mbind option_bind].
  exists (r :: rs), we. split; [reflexivity|]. split; [cbn; lia|]. constructor; [now exists s|exact Hall].
Qed.
(** A row of the report. *)
Definition row_ok (row : list string) : Prop :=
  length row = 8%nat /\ (row !! 1%nat = Some "agentshield" -> row !! 5%nat = Some "1")%string.
Lemma path_rows_ok scenario path l : (path = "agentshield"%string -> Forall (fun s => Useful s = true) l) ->
  Forall row_ok (path_rows scenario path l) /\ length (path_rows scenario path l) = length l.
Proof.
  intros Hl. unfold path_rows. split; [|apply length_imap]. apply Forall_lookup. intros i row Hi. apply list_lookup_imap_Some in Hi as (s & Hs & ->).
  split; [reflexivity|]. cbn. intros [= Hp]. specialize (Hl Hp). rewrite Forall_lookup in Hl. now rewrite (Hl i s Hs).
Qed.
Lemma csv_rows_ok rs n : Forall (fun r => exists scenario, path_shows "naive" n (naive_gives scenario) (Naive r) /\ path_shows "agentshield" n (shield_gives scenario) (Shield r)) rs ->
  exists rows, csv_rows rs = csv_header :: rows /\ len rows = 2 * n * len rs /\ Forall row_ok rows.
Proof.
  intros Hrs. eexists. split; [reflexivity|]. induction Hrs as [|r rs (scenario & (_ & Hn1 & _) & (_ & Hn2 & Hall & _)) _ [IHl IHr]]; [split; [change (0 = 2 * n * 0); lia|constructor]|].
  cbn [map concat].
  destruct (path_rows_ok (Scenario r) "naive" (path_Samples (Naive r)) ltac:(discriminate)) as [N1 N2].
  destruct (path_rows_ok (Scenario r) "agentshield" (path_Samples (Shield r))) as [S1 S2].
  { intros _. eapply Forall_impl; [exact Hall|]. intros x (_ & (tier & Hx & _) & _). destruct (Success x); [now injection Hx|discriminate Hx]. }
  split; [|apply Forall_app; split; [now apply Forall_app|exact IHr]]. rewrite !len_app, IHl. unfold len in *. rewrite N2, S2, Hn1, Hn2. cbn [length]. rewrite Nat2Z.inj_succ. ring.
Qed.
End Command.

(** The command's report: whatever list of scenarios the mode names, as
    long as one is valid, the warm-up and all runs end without a panic, and the
    report is the header and, for each scenario, one row of eight fields for
    each request of each path; every row of the shielded path has its useful
    bit set.  A mode without a valid scenario gives no report. *)
Theorem bench_main_report {R} `{Rand R} `{Unicode} http_do decode_error baseURL `{!Delivers (R := R) baseURL http_do} mode n b :
  1 <= n <= 2000 ->
  match bench_main http_do decode_error now_b mode baseURL n b with
  | Some report => parseMode mode <> [] /\ exists rows, report = csv_header :: rows /\ len rows = 2 * n * len (parseMode mode) /\ Forall row_ok rows
  | None => parseMode mode = []
  end.
Proof.
  intros Hn. unfold bench_main, bench_results. destruct (parseMode mode) as [|s l] eqn:El; [reflexivity|].
  destruct (warmup_runs http_do decode_error baseURL 3 b) as [b' ->]. cbn [mbind option_bind].
  destruct (run_scenarios_runs http_do decode_error baseURL (s :: l) n b' (NewEvaluator None) Hn calibrated_new) as (rs & we & -> & Hl & Hall).
  cbn [mbind option_bind]. split; [discriminate|]. destruct (csv_rows_ok rs n Hall) as (rows & -> & Hlen & Hok). exists rows.
  split; [reflexivity|]. split; [|exact Hok]. rewrite Hlen. unfold len. now rewrite Hl.
Qed.
(** C37.  The benchmark measures what it says: against the fake backend, for
    any draws of its generator, prompts and one to two thousand requests, a
    scenario runs without a panic; every request of the shielded path is
    answered usefully from the first on, by the primary or, when it is down or
    talks garbage, by the fallback (the cache and the denial are never
    reached); the naive path fails on every request when the backend is down,
    returns garbage counted as success but never as useful in the garbage
    scenario, and only successes in a brownout; a sample is useful exactly
    when its score passes; and the percentiles are the nearest-rank ones.
    bench/README.md says otherwise of the backend that is down: it has the
    fallback fail as well and the cache or a denial answer, and a denial
    count as useful. *)
Theorem scenario_report {R} `{Rand R} `{Unicode} http_do decode_error baseURL `{!Delivers (R := R) baseURL http_do} scenario n prompts b e :
  prompts <> [] -> 1 <= n <= 2000 -> calibrated e ->
  exists r b' e', RunScenario http_do decode_error now_b scenario baseURL n prompts (b, e) = Some (r, (b', e')) /\
    path_shows "naive" n (naive_gives scenario) (Naive r) /\ path_shows "agentshield" n (shield_gives scenario) (Shield r) /\
    let shield := path_Stats (Shield r) in let naive := path_Stats (Naive r) in
    B2R (SuccessRate shield) = 1%R /\ B2R (UsefulRate shield) = 1%R /\
    (exists s l, path_Samples (Shield r) = s :: l /\ TimeToFirstUsefulMS shield = LatencyMS s) /\
    (scenario = "down"%string -> B2R (SuccessRate naive) = 0%R /\ B2R (UsefulRate naive) = 0%R /\ TimeToFirstUsefulMS naive = -1) /\
    (scenario = "garbage"%string -> B2R (SuccessRate naive) = 1%R /\ B2R (UsefulRate naive) = 0%R /\ TimeToFirstUsefulMS naive = -1) /\
    (scenario = "brownout"%string -> B2R (SuccessRate naive) = 1%R).
Proof.
  intros Hne Hn He. destruct (RunScenario_runs http_do decode_error baseURL scenario n prompts b e Hne Hn He) as (r & b' & e' & E & _ & _ & Hna & Hsh).
  exists r, b', e'. split; [exact E|]. split; [exact Hna|]. split; [exact Hsh|]. cbv zeta.
  destruct (samples_rates n "agentshield" (shield_gives scenario) (Shield r) true true Hsh Hn) as (S1 & S2 & S3); [intros o (t & -> & _); auto|].
  split; [exact S1|]. split; [exact S2|]. split; [exact S3|]. split; [|split].
  - intros ->. apply (samples_rates n "naive" _ (Naive r) false false Hna Hn). intros [[u t]|] Hq; [now destruct Hq|auto].
  - intros ->. apply (samples_rates n "naive" _ (Naive r) true false Hna Hn). intros [[u t]|] Hq; [|discriminate Hq]. destruct Hq as (_ & _ & ->); auto.
  - intros ->. destruct Hna as (_ & Hl & Hall & (_ & _ & _ & _ & -> & _)). apply rate_all; [lia|].
    eapply Forall_impl; [exact Hall|]. intros s (_ & Q1 & _). destruct (Success s); [reflexivity|discriminate Q1].
Qed.

(** ** A run *)

Module SampleBench.
(** A small linear congruential generator. *)
Definition next (r : Z) : Z := (1103515245 * r + 12345) mod 2 ^ 31.
#[export] Program Instance lcg : Rand Z := {|
  Float64 := fun r => (fdiv (f64_of_Z (r / 2 ^ 11)) (f64_of_Z (2 ^ 20)), next r);
  Intn := fun n r => ((r / 2 ^ 16) mod n, next r);
|}.
Next Obligation. intros n r Hn. apply Z.mod_pos_bound. exact Hn. Qed.
Definition header (name : string) (c : ApiCall) : string :=
  match List.find (fun h => String.eqb h.1 name) (call_Headers c) with Some h => h.2 | None => EmptyString end.
Definition deliver (t : Z) (c : ApiCall) (b : Backend Z) : Exchange * Backend Z :=
  let '(reply, b') := handleGenerate (header "X-Bench-Scenario" c) b in (Reply reply.1 reply.2 None, b').
#[export] Instance deliver_delivers baseURL : Delivers baseURL deliver.
Proof.
  intros t model prompt scenario b. unfold deliver, header, bench_call. cbn [call_Headers].
  destruct (String.eqb_spec scenario EmptyString) as [->|_]; reflexivity.
Qed.
Definition start : Backend Z := mkBackend 42 0.
Definition show (r : ScenarioResult) : list (list string) := tail (csv_rows [r]).
End SampleBench.
Export (hints) SampleBench.

Lemma scenario_report_witness : exists r b' e',
  RunScenario SampleBench.deliver (fun _ => EmptyString) now_b "garbage" "http://bench" 3 benchPrompts (SampleBench.start, NewEvaluator None) = Some (r, (b', e')) /\
  B2R (UsefulRate (path_Stats (Shield r))) = 1%R.
Proof.
  destruct (scenario_report SampleBench.deliver (fun _ => EmptyString) "http://bench" "garbage" 3 benchPrompts SampleBench.start (NewEvaluator None))
    as (r & b' & e' & E & _ & _ & _ & Hu & _).
  - discriminate.
  - split; discriminate.
  - apply calibrated_new.
  - exists r, b', e'. split; [exact E|exact Hu].
Defined.
(** The rows of a brownout: the naive path takes the garbage of its second
    request for a success; it scores 0.41. *)
Example brownout_rows : option_map (fun x => SampleBench.show x.1)
  (RunScenario SampleBench.deliver (fun _ => EmptyString) now_b "brownout" "http://bench" 2 benchPrompts (SampleBench.start, NewEvaluator None))
  = Some
    [["brownout"; "naive"; "1"; "8072"; "1"; "1"; "1.000"; "naive"];
     ["brownout"; "naive"; "2"; "210"; "1"; "0"; "0.410"; "naive"];
     ["brownout"; "agentshield"; "1"; "399"; "1"; "1"; "1.000"; "primary"];
     ["brownout"; "agentshield"; "2"; "253"; "1"; "1"; "1.000"; "primary"]]%string.
Proof. vm_compute. reflexivity. Qed.
Lemma bench_main_report_witness : exists rows,
  bench_main SampleBench.deliver (fun _ => EmptyString) now_b " down,nonsense,brownout" "http://bench" 2 SampleBench.start = Some (csv_header :: rows) /\ len rows = 8.
Proof.
  pose proof (bench_main_report SampleBench.deliver (fun _ => EmptyString) "http://bench" " down,nonsense,brownout" 2 SampleBench.start
    ltac:(split; discriminate)) as P.
  assert (E : parseMode " down,nonsense,brownout" = ["down"; "brownout"]%string) by (vm_compute; reflexivity).
  rewrite E in P. destruct (bench_main _ _ _ _ _ _ _) as [report|]; [|discriminate P].
  destruct P as (_ & rows & -> & Hl & _). now exists rows.
Defined.
