(* ===== verification/Report.v ===== *)
(** * The report of the benchmark (bench/cmd/bench/main.go)

    The three texts the command makes of its results: the CSV file, as
    encoding/csv writes it, the Markdown file and the table it prints.  The
    padded verbs of package fmt count runes.  [bench_command] is the whole
    command; whether a file can be written is its parameter [save].  Of the log
    only the summaries of the scenarios are modelled. *)
From S2P Require Import Prelude Float64 GoStrings Utf8 Lines Strconv Json Decode Evaluator Provider Backends GetTime Bench.
From Stdlib Require Import ZArith Lia String Ascii.
From stdpp Require Import base tactics list gmap strings.
#[local] Open Scope Z_scope.

(** ** Text *)

Fixpoint str_repeat (s : string) (n : nat) : string := match n with O => EmptyString | S n => s +:+ str_repeat s n end.
(** [%<n>s] and [%-<n>s]. *)
Definition padding (n : nat) (s : string) : string := str_repeat " " (n - length (runes s)).
Definition pad_left (n : nat) (s : string) : string := padding n s +:+ s.
Definition pad_right (n : nat) (s : string) : string := s +:+ padding n s.
Definition lines_of (l : list string) : string := String.concat EmptyString (map (fun s => s +:+ nl) l).
Definition percent (prec width : nat) (x : f64) : string := pad_left width (fmt_fixed prec (fmul x (f64_of_Z 100))).

(** ** The CSV file *)

Definition csv_special (c : ascii) : bool := Ascii.eqb c "," || (byte_val c =? 34) || (byte_val c =? 10) || (byte_val c =? 13).
Definition fieldNeedsQuotes (s : string) : bool :=
  negb (String.eqb s EmptyString) &&
  (String.eqb s "\." || existsb csv_special (list_ascii_of_string s) ||
   match decode_rune s with Some (r, _) => is_space r | None => false end).
Fixpoint double_quotes (s : string) : string :=
  match s with
  | EmptyString => EmptyString
  | String c t => if byte_val c =? 34 then quote +:+ quote +:+ double_quotes t else String c (double_quotes t)
  end.
Definition csv_field (s : string) : string := if fieldNeedsQuotes s then quote +:+ double_quotes s +:+ quote else s.
Definition csv_line (row : list string) : string := str_join "," (map csv_field row).
(** What [writeCSV] leaves in the file. *)
Definition writeCSV (rows : list (list string)) : string := lines_of (map csv_line rows).

(** ** The Markdown file *)

Definition writeResultRow (scenario path : string) (s : Stats) : string :=
  let firstUseful := if TimeToFirstUsefulMS s <? 0 then "N/A"%string else itoa (TimeToFirstUsefulMS s) in
  "| " +:+ pad_right 8 scenario +:+ " | " +:+ pad_right 11 path +:+ " | " +:+ percent 0 7 (SuccessRate s) +:+ "% | " +:+
  percent 0 6 (UsefulRate s) +:+ "% | " +:+ pad_left 8 (itoa (st_P50 s)) +:+ " | " +:+ pad_left 8 (itoa (st_P95 s)) +:+ " | " +:+
  pad_left 8 (itoa (st_P99 s)) +:+ " | " +:+ pad_left 11 (fmt_fixed 0 (StdDevMS s)) +:+ " | " +:+ pad_left 17 firstUseful +:+ " |".
Definition observation (r : ScenarioResult) : string :=
  let naive := UsefulRate (path_Stats (Naive r)) in
  let shield := UsefulRate (path_Stats (Shield r)) in
  let delta := fsub shield naive in
  "**" +:+ Scenario r +:+ "**: naive useful rate " +:+ percent 0 0 naive +:+ "% → agentshield useful rate " +:+ percent 0 0 shield +:+ "%" +:+
  (if flt f0 delta then " (+" +:+ percent 0 0 delta +:+ " pp)" else EmptyString) +:+ ".".
(** The UTC time in RFC 3339, of a time in nanoseconds and a year up to 9999. *)
Definition rfc3339 (t : Z) : string :=
  let secs := t / second in
  let d := date_of (secs / 86400) in
  let secs := secs mod 86400 in
  zero_pad 4 (Year d) +:+ "-" +:+ zero_pad 2 (Month d) +:+ "-" +:+ zero_pad 2 (Day d) +:+ "T" +:+
  zero_pad 2 (secs / 3600) +:+ ":" +:+ zero_pad 2 (secs mod 3600 / 60) +:+ ":" +:+ zero_pad 2 (secs mod 60) +:+ "Z".
Definition result_rows (row : string -> string -> Stats -> string) (results : list ScenarioResult) : list string :=
  concat (map (fun r => [row (Scenario r) "naive"%string (path_Stats (Naive r)); row (Scenario r) "agentshield"%string (path_Stats (Shield r))]) results).
Definition writeMarkdown (results : list ScenarioResult) (t : Z) : string :=
  lines_of (
    ["# AgentShield vs Naive Integration — Benchmark Results"; EmptyString;
     "> Generated by `go run ./bench/cmd/bench`. See [bench/README.md](README.md) for methodology."; EmptyString;
     "## Results"; EmptyString;
     "| Scenario | Path | Success% | Useful% | p50 (ms) | p95 (ms) | p99 (ms) | StdDev (ms) | First Useful (ms) |";
     "|----------|------|----------|---------|----------|----------|----------|-------------|-------------------|"]%string
    ++ result_rows writeResultRow results
    ++ [EmptyString; "## Key Observations"; EmptyString]%string
    ++ concat (map (fun r => [observation r; EmptyString]) results)
    ++ ["---"; "_Run at " +:+ rfc3339 t +:+ "_"]%string).

(** ** The table *)

Definition printRow (scenario path : string) (s : Stats) : string :=
  pad_right 10 scenario +:+ "  " +:+ pad_right 12 path +:+ "  " +:+ percent 0 8 (SuccessRate s) +:+ "%  " +:+ percent 0 7 (UsefulRate s) +:+ "%  " +:+
  pad_left 9 (itoa (st_P50 s)) +:+ "  " +:+ pad_left 9 (itoa (st_P95 s)).
Definition printSummaryTable (results : list ScenarioResult) : string :=
  lines_of ([EmptyString; "=== BENCH SUMMARY ===";
             pad_right 10 "SCENARIO" +:+ "  " +:+ pad_right 12 "PATH" +:+ "  " +:+ pad_left 9 "SUCCESS%" +:+ "  " +:+ pad_left 8 "USEFUL%" +:+ "  " +:+
             pad_left 9 "P50(ms)" +:+ "  " +:+ pad_left 9 "P95(ms)"; str_repeat "-" 65]%string
            ++ result_rows printRow results ++ [EmptyString]).

(** ** The command *)

(** What is logged of a scenario. *)
Definition summary_line (path : string) (s : Stats) : string :=
  path +:+ "success=" +:+ percent 0 0 (SuccessRate s) +:+ "% useful=" +:+ percent 0 0 (UsefulRate s) +:+ "% p50=" +:+ itoa (st_P50 s) +:+
  "ms p95=" +:+ itoa (st_P95 s) +:+ "ms".
Definition logScenarioSummary (r : ScenarioResult) : list string :=
  [summary_line "  naive    " (path_Stats (Naive r)); summary_line "  shield   " (path_Stats (Shield r))].
(** [log.Fatal] ends the process with status 1; otherwise the table is
    printed, after the summaries were logged. *)
Inductive BenchEnd := Fatal (msg : string) | Printed (logged : list string) (table : string).
Section Command.
(** Writing a file: the text of the error of creating, writing or closing it. *)
Context {W : Type} `{Unicode} (http_do : Z -> ApiCall -> W -> Exchange * W) (decode_error : string -> string) (now : W -> Z * W)
  (save : string -> string -> option string).
(** [main], with the time of the Markdown file; [None]: a panic. *)
Definition bench_command (mode out md baseURL : string) (n t : Z) (w : W) : option BenchEnd :=
  match parseMode mode with
  | [] => Some (Fatal "no valid scenarios specified")
  | _ =>
      rs ← bench_results http_do decode_error now mode baseURL n w;
      Some match save out (writeCSV (csv_rows rs)) with
           | Some err => Fatal ("bench: write CSV: " +:+ err)
           | None => match save md (writeMarkdown rs t) with
                     | Some err => Fatal ("bench: write Markdown: " +:+ err)
                     | None => Printed (concat (map logScenarioSummary rs)) (printSummaryTable rs)
                     end
           end
  end.
(** The table is printed only when both files of the same results are
    written. *)
Lemma bench_command_prints mode out md baseURL n t w logged table :
  bench_command mode out md baseURL n t w = Some (Printed logged table) ->
  exists rs, bench_results http_do decode_error now mode baseURL n w = Some rs /\ logged = concat (map logScenarioSummary rs) /\
    table = printSummaryTable rs /\ save out (writeCSV (csv_rows rs)) = None /\ save md (writeMarkdown rs t) = None.
Proof.
  unfold bench_command. destruct (parseMode mode); [discriminate|]. destruct (bench_results _ _ _ _ _ _ _) as [rs|]; [|discriminate]. cbn [mbind option_bind].
  destruct (save out _) eqn:E1; [discriminate|]. destruct (save md _) eqn:E2; [discriminate|]. intros [= <- <-]. now exists rs.
Qed.
End Command.

(** ** The file reads back *)

(** Splitting at the line ends and the commas. *)
Definition read_csv (file : string) : list (list string) := map (split_byte ","%char) (removelast (split_byte newline file)).

(** Letters, digits, and the punctuation of numbers. *)
Definition word_byte (c : ascii) : bool :=
  let b := byte_val c in
  ((48 <=? b) && (b <=? 57)) || ((65 <=? b) && (b <=? 90)) || ((97 <=? b) && (b <=? 122)) || (b =? 43) || (b =? 45) || (b =? 46) || (b =? 95).
Definition word (s : string) : bool := forallb word_byte (list_ascii_of_string s).
Lemma word_app a b : word (a +:+ b) = word a && word b.
Proof. unfold word. induction a as [|c a IH]; [done|]. change (String c a +:+ b) with (String c (a +:+ b)). cbn. now rewrite IH, andb_assoc. Qed.
Lemma word_byte_of b : 0 <= b < 256 -> word_byte (byte_of b) = true <-> 48 <= b <= 57 \/ 65 <= b <= 90 \/ 97 <= b <= 122 \/ b = 43 \/ b = 45 \/ b = 46 \/ b = 95.
Proof.
  intros Hb. unfold word_byte. rewrite byte_val_of by lia. cbv zeta.
  rewrite !orb_true_iff, !andb_true_iff, !Z.leb_le, !Z.eqb_eq. lia.
Qed.
Lemma digits_word n : word (digits n) = true.
Proof.
  unfold digits. assert (H : forall k n acc, word acc = true -> word (digits_go k n acc) = true).
  { induction k as [|k IH]; intros m acc Ha; [exact Ha|]. cbn [digits_go].
    assert (Hc : word (String (byte_of (48 + m mod 10)) acc) = true).
    { change (word_byte (byte_of (48 + m mod 10)) && word acc = true). rewrite Ha, andb_true_r.
      pose proof (Z.mod_pos_bound m 10 ltac:(lia)). apply word_byte_of; lia. }
    case_bool; auto. }
  now apply H.
Qed.
Lemma zeros_word n : word (zeros n) = true.
Proof. induction n as [|n IH]; [done|]. exact IH. Qed.
Lemma itoa_word n : word (itoa n) = true.
Proof. unfold itoa. case_bool; rewrite ?word_app, digits_word; reflexivity. Qed.
Lemma fmt_fixed_word prec x : word (fmt_fixed prec x) = true.
Proof.
  assert (H : forall (neg : bool) ds, word ds = true ->
    word ((if neg then str1 45 else EmptyString) +:+
      (if (prec =? 0)%nat then ds else str_take (String.length ds - prec) ds +:+ "." +:+ str_drop (String.length ds - prec) ds)) = true).
  { intros neg ds Hd. rewrite word_app. replace (word (if neg then str1 45 else EmptyString)) with true by (now destruct neg). cbn [andb].
    case_bool; [exact Hd|]. rewrite <- (str_take_drop (String.length ds - prec) ds), word_app in Hd. apply andb_prop in Hd as [H1 H2].
    rewrite !word_app, H1, H2. reflexivity. }
  destruct x as [s|s| |s m e]; [|now destruct s|done|]; apply H; rewrite word_app, zeros_word; apply digits_word.
Qed.

Lemma word_in s c : word s = true -> In c (list_ascii_of_string s) -> word_byte c = true.
Proof. unfold word. rewrite forallb_forall. auto. Qed.
Lemma word_not_special c : word_byte c = true -> csv_special c = false.
Proof.
  intros Hc. rewrite <- (byte_of_val c) in Hc. pose proof (byte_val_range c). apply word_byte_of in Hc; [|lia]. unfold csv_special.
  destruct (Ascii.eqb_spec c ",") as [->|_]; [change (byte_val ",") with 44 in Hc; lia|].
  apply orb_false_iff. rewrite orb_false_iff, !Z.eqb_neq. cbn [orb]. lia.
Qed.
Lemma word_no_quotes s : word s = true -> fieldNeedsQuotes s = false.
Proof.
  intros Hs. unfold fieldNeedsQuotes. destruct s as [|c t]; [done|]. change (negb (String.eqb (String c t) EmptyString)) with true. cbn [andb].
  assert (Hc : word_byte c = true) by (apply (word_in _ _ Hs); now left).
  replace (String c t =? "\.")%string with false
    by (symmetry; apply String.eqb_neq; intros [= -> ->]; discriminate Hs).
  replace (existsb csv_special (list_ascii_of_string (String c t))) with false.
  2:{ symmetry. apply not_true_is_false. rewrite existsb_exists. intros (d & Hd & E). rewrite (word_not_special d) in E; [discriminate|]. now apply (word_in _ _ Hs). }
  rewrite <- (byte_of_val c) in Hc. pose proof (byte_val_range c). apply word_byte_of in Hc; [|lia].
  rewrite <- (byte_of_val c). change (String (byte_of (byte_val c)) t) with (str_of [byte_val c] +:+ t).
  rewrite (decode_good _ _ t (rune_1 (byte_val c) ltac:(lia))). cbn [orb].
  apply not_true_is_false. unfold is_space. rewrite !orb_true_iff, !andb_true_iff, !Z.leb_le, !Z.eqb_eq. lia.
Qed.

Definition row_words (row : list string) : Prop := row <> [] /\ Forall (fun s => word s = true) row.
Lemma csv_line_word row : Forall (fun s => word s = true) row -> csv_line row = str_join "," row.
Proof.
  intros Hr. unfold csv_line. f_equal. induction Hr as [|s l Hs _ IH]; [done|]. cbn [map]. rewrite IH. f_equal. unfold csv_field.
  now rewrite word_no_quotes.
Qed.
Lemma in_app c a b : In c (list_ascii_of_string (a +:+ b)) <-> In c (list_ascii_of_string a) \/ In c (list_ascii_of_string b).
Proof. induction a as [|d a IH]; [cbn; tauto|]. change (String d a +:+ b) with (String d (a +:+ b)). cbn. rewrite IH. tauto. Qed.
Lemma word_free s c : word s = true -> csv_special c = true -> ~ In c (list_ascii_of_string s).
Proof. intros Hs Hc Hin. rewrite (word_not_special c (word_in s c Hs Hin)) in Hc. discriminate. Qed.
Lemma join_splits row : row_words row -> split_byte "," (str_join "," row) = row /\ ~ In newline (list_ascii_of_string (str_join "," row)).
Proof.
  intros [Hne Hr]. induction Hr as [|s l Hs Hl IH]; [done|]. destruct l as [|s2 l].
  - cbn. split; [apply split_byte_one|]; now apply word_free.
  - change (str_join "," (s :: s2 :: l)) with (s +:+ "," +:+ str_join "," (s2 :: l)).
    destruct IH as [IH1 IH2]; [done|]. split.
    + change ("," +:+ str_join "," (s2 :: l)) with (String ","%char (str_join "," (s2 :: l))). rewrite split_byte_app, IH1 by now apply word_free. reflexivity.
    + rewrite in_app. intros [Hin|[E|Hin]]; [now apply (word_free s newline) in Hin|discriminate E|now apply IH2].
Qed.
Lemma lines_split l : Forall (fun s => ~ In newline (list_ascii_of_string s)) l -> split_byte newline (lines_of l) = l ++ [EmptyString].
Proof.
  induction 1 as [|s l Hs _ IH]; [reflexivity|]. unfold lines_of in *. cbn [map].
  replace (String.concat EmptyString ((s +:+ nl) :: map (fun s => s +:+ nl) l)) with (s +:+ String newline (String.concat EmptyString (map (fun s => s +:+ nl) l))).
  - rewrite split_byte_app by exact Hs. now rewrite IH.
  - destruct (map _ l) as [|x xs]; cbn [String.concat]; [reflexivity|]. rewrite str_app_assoc. reflexivity.
Qed.
(** A file of words comes back. *)
Lemma read_writeCSV rows : Forall row_words rows -> read_csv (writeCSV rows) = rows.
Proof.
  intros Hr. unfold read_csv, writeCSV. rewrite lines_split.
  - rewrite removelast_last, map_map. induction Hr as [|row rows Hw _ IH]; [done|]. cbn [map]. rewrite IH, csv_line_word by apply Hw.
    now rewrite (proj1 (join_splits row Hw)).
  - apply Forall_map. eapply Forall_impl; [exact Hr|]. intros row Hw. cbn. rewrite csv_line_word by apply Hw. now apply join_splits.
Qed.

(** ** The rows are words *)

Section Words.
Context {W : Type} `{Unicode} (http_do : Z -> ApiCall -> W -> Exchange * W) (decode_error : string -> string) (now : W -> Z * W).

Definition word_tiers {C} (fn : generateFn (W := W) C) : Prop :=
  forall prompt c w text tier err cw, fn prompt c w = Some ((text, tier, err), cw) -> word tier = true.
Lemma naive_tiers cl : word_tiers (naive_fn http_do decode_error cl).
Proof. intros prompt c w text tier err cw E. unfold naive_fn in E. destruct (Generate_naive _ _ _ _ _) as [[e|t] w']; now injection E as _ <- _ _. Qed.
Lemma shield_tiers : word_tiers (shield_fn http_do decode_error).
Proof.
  intros prompt c w text tier err cw E. unfold shield_fn, Generate_shield, lower_tiers in E.
  destruct (callBackend _ _ _ _ _ w) as [x w1]. destruct (try_tier c prompt x) as [[good c1]|]; [|discriminate]. cbn [mbind option_bind] in E.
  destruct good as [t|]; [cbn in E; now injection E as _ <- _ _|].
  destruct (callBackend _ _ _ _ _ w1) as [x2 w2]. destruct (try_tier c1 prompt x2) as [[good c2]|]; [|discriminate]. cbn [mbind option_bind] in E.
  destruct good as [t|]; [now injection E as _ <- _ _|]. destruct (sh_cache c2 !! _); now injection E as _ <- _ _.
Qed.

Lemma run_samples_words {C} (fn : generateFn (W := W) C) prompts k : word_tiers fn -> forall i st l st',
  run_samples now fn prompts k i st = Some (l, st') -> Forall (fun s => word (sample_Tier s) = true) l.
Proof.
  intros Hfn. induction k as [|k IH]; intros i st l st' E; cbn [run_samples] in E; [injection E as <- _; constructor|].
  destruct (prompts !! _) as [prompt|]; [|discriminate]. cbn [mbind option_bind] in E.
  destruct (take_sample now fn prompt st) as [[s st1]|] eqn:Es; [|discriminate]. cbn [mbind option_bind] in E.
  destruct (run_samples now fn prompts k (S i) st1) as [[l1 st2]|] eqn:El; [|discriminate]. injection E as <- _.
  constructor; [|exact (IH _ _ _ _ El)]. clear El. destruct st as [[c w] e]. unfold take_sample in Es. destruct (now w) as [t0 w0].
  destruct (fn prompt c w0) as [[[[text tier] err] [c1 w1]]|] eqn:Ef; [|discriminate]. cbn [mbind option_bind] in Es. apply Hfn in Ef.
  destruct (now w1) as [t1 w2]. destruct (_ && _); [|now injection Es as <- _].
  destruct (score prompt text e) as [[q e1]|]; [|discriminate]. cbn [mbind option_bind] in Es.
  destruct (isUseful prompt text e1) as [[u e2]|]; [|discriminate]. now injection Es as <- _.
Qed.
Lemma runPath_words {C} (fn : generateFn (W := W) C) name n prompts st pr st' : word_tiers fn ->
  runPath now name n prompts fn st = Some (pr, st') -> Forall (fun s => word (sample_Tier s) = true) (path_Samples pr).
Proof.
  intros Hfn E. unfold runPath in E. destruct (n <? 0); [discriminate|]. destruct (prompts !! 0%nat); [|discriminate]. cbn [mbind option_bind] in E.
  destruct (run_samples now fn prompts _ 0 st) as [[l st1]|] eqn:El; [|discriminate]. cbn [mbind option_bind] in E.
  destruct (computeStats l _); [|discriminate]. injection E as <- _. exact (run_samples_words fn prompts _ Hfn _ _ _ _ El).
Qed.
Lemma path_rows_words scenario path l : word scenario = true -> word path = true -> Forall (fun s => word (sample_Tier s) = true) l ->
  Forall row_words (path_rows scenario path l).
Proof.
  intros Hs Hp Hl. apply Forall_lookup. intros i row Hi. apply list_lookup_imap_Some in Hi as (s & Hi & ->). rewrite Forall_lookup in Hl.
  split; [discriminate|]. repeat (apply Forall_cons; split);
    [exact Hs|exact Hp|apply itoa_word|apply itoa_word|now destruct (Success s)|now destruct (Useful s)|apply fmt_fixed_word|exact (Hl i s Hi)|constructor].
Qed.
Lemma run_scenarios_words l baseURL n : Forall (fun s => word s = true) l -> forall we rs we',
  run_scenarios http_do decode_error now l baseURL n we = Some (rs, we') -> Forall row_words (csv_rows rs).
Proof.
  intros Hl we rs we' E. constructor; [split; [discriminate|repeat constructor]|]. revert we rs we' E.
  induction Hl as [|s l Hs _ IH]; intros we rs we' E; cbn [run_scenarios] in E; [injection E as <- _; constructor|].
  destruct (RunScenario http_do decode_error now s baseURL n benchPrompts we) as [[r we1]|] eqn:Er; [|discriminate]. cbn [mbind option_bind] in E.
  destruct (run_scenarios _ _ _ l _ _ we1) as [[rs1 we2]|] eqn:El; [|discriminate]. injection E as <- _. cbn [map concat].
  apply Forall_app. split; [|exact (IH _ _ _ El)]. clear IH El. unfold RunScenario in Er.
  destruct (runPath now "naive" _ _ _ _) as [[na [[u w1] e1]]|] eqn:E1; [|discriminate]. cbn [mbind option_bind] in Er.
  destruct (runPath now "agentshield" _ _ _ _) as [[sh [[c2 w2] e2]]|] eqn:E2; [|discriminate]. injection Er as <- _. cbn [Scenario Naive Shield].
  apply runPath_words in E1; [|apply naive_tiers]. apply runPath_words in E2; [|apply shield_tiers].
  apply Forall_app. split; apply path_rows_words; auto.
Qed.
Lemma parseMode_words mode : Forall (fun s => word s = true) (parseMode mode).
Proof.
  assert (Hw : forall s, s ∈ valid_scenarios -> word s = true) by (intros s Hs; apply list_elem_of_In in Hs; destruct Hs as [<-|[<-|[<-|[]]]]; reflexivity).
  unfold parseMode. case_bool; apply Forall_forall; intros s Hs; apply Hw; [exact Hs|]. now apply list_elem_of_filter in Hs.
Qed.
End Words.

(** The CSV file of a run says what was measured: whatever the backend
    answers and whatever the flags are, splitting the file at line ends and
    commas gives back the header and the rows of the samples (no field ever
    needs a quote). *)
Theorem csv_reads_back {W} `{Unicode} (http_do : Z -> ApiCall -> W -> Exchange * W) decode_error now mode baseURL n w report :
  bench_main http_do decode_error now mode baseURL n w = Some report -> read_csv (writeCSV report) = report.
Proof.
  intros E. apply read_writeCSV. unfold bench_main, bench_results in E. pose proof (parseMode_words mode) as Hm.
  destruct (parseMode mode) as [|s l]; [discriminate|]. destruct (warmup http_do decode_error baseURL 3 w) as [w1|]; [|discriminate]. cbn [mbind option_bind] in E.
  destruct (run_scenarios _ _ _ _ _ _ _) as [[rs we]|] eqn:Er; [|discriminate]. injection E as <-. exact (run_scenarios_words _ _ _ _ _ _ Hm _ _ _ Er).
Qed.
(** A run whose every call fails. *)
Lemma csv_reads_back_witness : exists report,
  bench_main (fun _ _ t => (CallFailed (plain_error "no route"), t + millisecond)) (fun _ => EmptyString) (fun t => (t, t)) "down" "http://bench" 1 0 = Some report /\
  read_csv (writeCSV report) = report /\
  report = [csv_header; ["down"; "naive"; "1"; "2"; "0"; "0"; "0.000"; "naive"]; ["down"; "agentshield"; "1"; "2"; "1"; "1"; "1.000"; "degraded"]]%string.
Proof.
  eexists. split; [vm_compute; reflexivity|]. split; [|reflexivity].
  apply (csv_reads_back (fun _ _ t => (CallFailed (plain_error "no route"), t + millisecond)) (fun _ => EmptyString) (fun t : Z => (t, t)) "down" "http://bench" 1 0).
  vm_compute. reflexivity.
Defined.

Example texts_ex :
  writeResultRow "down" "naive" (mkStats 2 3 4 f0 f0 f1 (-1)) =
    "| down     | naive       |       0% |    100% |        2 |        3 |        4 |           0 |               N/A |"%string /\
  printRow "down" "naive" (mkStats 2 3 4 f0 f0 f1 (-1)) = "down        naive                0%      100%          2          3"%string /\
  rfc3339 (1700000000 * second) = "2023-11-14T22:13:20Z"%string /\
  csv_field ("a" +:+ quote +:+ ",b") = quote +:+ "a" +:+ quote +:+ quote +:+ ",b" +:+ quote /\ csv_field " x" = quote +:+ " x" +:+ quote.
Proof. vm_compute. auto. Qed.
