(* ===== verification/McpMock.v ===== *)
(** * The mock MCP server (cmd/mcp-mock/main.go)

    The demo's tool server: one flag, which two endpoints set and clear, and
    canned answers.  A reply is the status with the body.  The theorem runs the
    agent's lookup tool (Toolset.v) against it.  [main] is its addresses, its
    warning and its timeouts; other log lines are not modelled. *)
From S2P Require Backends.
From S2P Require Import Prelude Float64 GoStrings Utf8 Lines Strconv Json Decode Provider Chaos Calculator Orchestrator Guarded Tools Agent Toolset.
From Stdlib Require Import ZArith Lia String.
From stdpp Require Import base tactics list strings.
#[local] Open Scope Z_scope.

Definition HttpReply : Type := Z * string.
Definition writeJSON (status : Z) (v : jvalue) : HttpReply := (status, default EmptyString (marshal v) +:+ nl).

Section Server.
Context `{Unicode} `{Printable}.

Definition handleCall (tool args : string) : string :=
  let t := to_lower tool in
  if String.eqb t "weather" then
    let city := if String.eqb args EmptyString then "(unspecified)"%string else args in
    "Current weather in " +:+ city +:+ ": 18°C, partly cloudy. (mock data)"
  else if String.eqb t "currency" then "1 USD = 0.92 EUR (mock rate for " +:+ Quote args +:+ ")"
  else if String.eqb t "fact" then "Mock fact: Go was released in November 2009 at Google."
  else "Mock MCP server received tool=" +:+ Quote tool +:+ " args=" +:+ Quote args +:+ " (no canned response).".

(** The request of a call. *)
Record CallRequest := mkCallRequest { Tool_name : string; Args : string }.
Definition into_call : decoder CallRequest := into_struct
  [field "tool" Tool_name (fun t r => mkCallRequest t (Args r)) into_string;
   field "args" Args (fun a r => mkCallRequest (Tool_name r) a) into_string]%string.

(** The endpoints; the state is the flag [killed]. *)
Inductive McpRequest := GetHealth | PostKill | PostRestore | GetStatus | PostCall (body : string).
#[export] Instance McpRequest_eq : EqDecision McpRequest.
Proof. solve_decision. Defined.
Definition call (killed : bool) (body : string) : HttpReply :=
  if killed then writeJSON 503 (JObj [("error", JStr "mcp server unavailable (chaos demo)")]%string)
  else match r ← raw_first body; into_call r (mkCallRequest EmptyString EmptyString) with
       | None => writeJSON 400 (JObj [("error", JStr "bad json")]%string)
       | Some c => writeJSON 200 (JObj [("result", JStr (handleCall (Tool_name c) (Args c)))]%string)
       end.
Definition handle (r : McpRequest) (killed : bool) : HttpReply * bool :=
  match r with
  | GetHealth => ((200, "ok"%string), killed)
  | PostKill => (writeJSON 200 (JObj [("status", JStr "killed")]%string), true)
  | PostRestore => (writeJSON 200 (JObj [("status", JStr "ok")]%string), false)
  | GetStatus => (writeJSON 200 (JObj [("killed", JBool killed); ("tools", JArr [JStr "weather"; JStr "currency"; JStr "fact"])]%string), killed)
  | PostCall body => (call killed body, killed)
  end.
(** [main]: the address listened on, whether the warning about it is logged,
    the read and the write timeout. *)
Definition or_else (s d : string) : string := if String.eqb s EmptyString then d else s.
Definition mcp_server (bind port : string) : string * (Z * Z) := (bind +:+ ":" +:+ port, (10 * second, 10 * second)).
Definition mcp_main (Getenv : string -> string) : bool * (string * (Z * Z)) :=
  let port := or_else (Getenv "MCP_MOCK_PORT"%string) "8081" in
  let bind := or_else (Getenv "MCP_MOCK_BIND"%string) "127.0.0.1" in
  (negb (String.eqb bind "127.0.0.1") && negb (String.eqb bind "localhost") && negb (String.eqb bind "::1"), mcp_server bind port).
(** The flag after some requests. *)
Definition serve_all (l : list McpRequest) (killed : bool) : bool := foldl (fun k r => (handle r k).2) killed l.
End Server.

(** The kill switch leaves the machine only with a warning: without one the
    address is a loopback one, and that is the default. *)
Lemma mcp_main_loopback Getenv : let '(warned, (addr, _)) := mcp_main Getenv in
  (warned = false -> exists port, In addr (map (fun h => h +:+ ":" +:+ port) ["127.0.0.1"; "localhost"; "::1"]%string)) /\
  (Getenv "MCP_MOCK_BIND"%string = EmptyString -> warned = false).
Proof.
  unfold mcp_main, mcp_server. cbv beta zeta iota. split; [|intros ->; reflexivity]. set (bind := or_else (Getenv "MCP_MOCK_BIND"%string) _). intros Hw. clearbody bind.
  exists (or_else (Getenv "MCP_MOCK_PORT"%string) "8081").
  destruct (String.eqb_spec bind "127.0.0.1") as [E|_]; [left; now rewrite E|]. destruct (String.eqb_spec bind "localhost") as [E|_]; [right; left; now rewrite E|].
  destruct (String.eqb_spec bind "::1") as [E|_]; [right; right; left; now rewrite E|discriminate].
Qed.

(** ** The bodies are read back *)

(** The canned answers are UTF-8 texts when the call's are. *)
Create HintDb valid.
#[local] Hint Resolve valid_app valid_encode ValidString_valid : valid.
#[local] Hint Extern 3 (valid_utf8 _) => apply ValidString_valid; reflexivity : valid.
Lemma hex_pad_valid n r : valid_utf8 (hex_pad n r).
Proof.
  induction n as [|n IH]; [constructor|]. cbn [hex_pad]. apply valid_app; [|exact IH]. unfold hex_char. apply valid_str1.
  assert (0 <= Z.land (Z.shiftr r (4 * Z.of_nat n)) 15 < 16) by (change 15 with (Z.ones 4); rewrite Z.land_ones by lia; apply Z.mod_pos_bound; lia).
  case_bool; lia.
Qed.
#[local] Hint Resolve hex_pad_valid : valid.
Lemma quote_valid `{Printable} n s : valid_utf8 s -> (String.length s <= n)%nat -> valid_utf8 (quote_go n s).
Proof.
  intros Hs. revert n. induction Hs as [|r l t Hr Ht IH]; intros [|n] Hn; try constructor. cbn [quote_go].
  rewrite (decode_good r l t Hr). rewrite str_length_app, str_of_length in Hn. pose proof (rune_at_pos _ _ Hr).
  apply valid_app; [|rewrite <- (str_of_length l), str_drop_app; apply IH; lia]. unfold quote_rune.
  case_bool; [apply andb_prop in Heqb as [E1 E2]; destruct Hr; zbool; unfold rune_error in *; try lia; discriminate|].
  case_bool; [apply valid_app; [eauto with valid|]; apply valid_str1; apply orb_prop in Heqb0 as [E|E]; zbool; lia|].
  repeat (case_bool; [eauto with valid|]). eauto with valid.
Qed.
Lemma Quote_valid `{Printable} s : valid_utf8 s -> valid_utf8 (Quote s).
Proof. intros Hs. unfold Quote. auto 6 using quote_valid with valid. Qed.
#[local] Hint Resolve Quote_valid : valid.
Lemma handleCall_valid `{Unicode} `{Printable} tool args : ValidString tool = true -> ValidString args = true ->
  ValidString (handleCall tool args) = true.
Proof. intros Ht Ha. apply valid_ValidString. unfold handleCall. repeat case_bool; auto 12 with valid. Qed.

Lemma object_newline v t m : marshal v = Some t -> json_text v = true -> depth v <= maxNestingDepth -> v = JObj m ->
  decode_object (t +:+ nl) = Some m.
Proof.
  intros E Hv Hd ->. pose proof (parse_marshal _ _ E Hv Hd) as Hp. unfold parse_json in Hp.
  destruct (scan t (mkScanner MBegin [] false)) as [s|] eqn:Es; [|discriminate]. cbn [mbind option_bind] in Hp.
  assert (Hs : stack s = [] /\ scan_mode s = MEnd (JObj m) /\ out_of_range s = false).
  { unfold scan_eof in Hp. destruct s as [mode st bad]. cbn [stack scan_mode out_of_range] in *. destruct st; [|discriminate].
    destruct mode; try discriminate; [destruct (num_done n); [|discriminate]; unfold end_number in Hp; destruct (ParseFloat_literal (rev acc)) as [x []]; discriminate|].
    injection Hp as -> ->. auto. }
  destruct s as [mode st bad]. cbn [stack scan_mode out_of_range] in Hs. destruct Hs as (-> & -> & ->).
  unfold decode_object, decode_first.
  rewrite (scan_first_whole (t +:+ nl) _ (mkScanner (MEnd (JObj m)) [] false) (JObj m, false)); [reflexivity| |reflexivity].
  rewrite scan_app, Es. reflexivity.
Qed.

Lemma handle_call_doc killed tool args t `{Unicode} `{Printable} :
  marshal (JObj [("args", JStr args); ("tool", JStr tool)]%string) = Some t -> ValidString tool = true -> ValidString args = true ->
  call killed t = if killed : bool then writeJSON 503 (JObj [("error", JStr "mcp server unavailable (chaos demo)")]%string)
                  else writeJSON 200 (JObj [("result", JStr (handleCall tool args))]%string).
Proof.
  intros E Ht Ha. unfold call. destruct killed; [reflexivity|].
  destruct (Backends.plain_marshal _ _ (RObj [("args", RStr args); ("tool", RStr tool)]%string) E) as [_ ->];
    [cbn -[ValidString]; now rewrite Ht, Ha|vm_compute; discriminate|reflexivity|reflexivity].
Qed.

(** The lookup's exchange reaches the server. *)
Class Reaches {W} `{Unicode} `{Printable} (url : string) (killed_of : W -> bool) (http_post : string -> string -> W -> Exchange * W) : Prop :=
  reaches : forall body w, http_post (url +:+ "/mcp/call") body w
    = (let '(status, reply) := (handle (PostCall body) (killed_of w)).1 in Replied status reply, w).

(** The last kill or restore among some requests. *)
Definition last_switch (l : list McpRequest) : option McpRequest := last (filter (fun r => r = PostKill \/ r = PostRestore) l).
Lemma serve_all_last `{Unicode} `{Printable} l k : serve_all l k = if decide (last_switch l = Some PostKill) then true
  else match last_switch l with Some _ => false | None => k end.
Proof.
  unfold serve_all, last_switch. induction l as [|r l IH] using rev_ind; [reflexivity|].
  rewrite foldl_snoc, filter_app, IH.
  destruct r; cbn [handle snd];
    lazymatch goal with |- context [filter ?P [?r]] => let e := eval cbv in (filter P [r]) in change (filter P [r]) with e end;
    rewrite ?app_nil_r, ?last_snoc; reflexivity.
Qed.

(** C39.  The lookup tool against the mock server: after any requests the
    server's flag is that of the last kill or restore; while it is set a lookup
    fails with the status 503, which is what the tool's circuit breaker counts;
    otherwise the lookup returns exactly the canned answer for its tool and
    arguments, through the JSON of both trips, for any UTF-8 texts; and a
    lookup changes nothing on either side. *)
Theorem mcp_lookup_answers {W} `{Unicode} `{Printable} url (killed_of : W -> bool) http_post decode_error tool arguments (s : AState W) l :
  Reaches url killed_of http_post -> url <> EmptyString -> tool <> EmptyString ->
  ValidString tool = true -> ValidString arguments = true ->
  killed_of (getw s) = serve_all l false ->
  let args := Some [("tool", JStr tool); ("args", JStr arguments)]%string in
  MCPLookupTool_Execute http_post decode_error url args s =
    Some (if decide (last_switch l = Some PostKill) then (EmptyString, Some (plain_error "mcp status 503"))
          else (handleCall tool arguments, None), s).
Proof.
  intros Hnet Hurl Htool Hvt Hva Hk args. pose proof (handleCall_valid tool arguments Hvt Hva) as Hvr. rewrite serve_all_last in Hk.
  assert (Hk' : killed_of (getw s) = bool_decide (last_switch l = Some PostKill)).
  { rewrite Hk. case_decide as Hl; [now rewrite bool_decide_true|]. rewrite bool_decide_false by exact Hl. now destruct (last_switch l). }
  unfold MCPLookupTool_Execute. rewrite (proj2 (String.eqb_neq _ _) Hurl).
  change (string_arg args "tool") with tool. change (string_arg args "args") with arguments.
  rewrite (proj2 (String.eqb_neq _ _) Htool). cbv zeta.
  destruct (marshal (JObj [("args", JStr arguments); ("tool", JStr tool)]%string)) as [body|] eqn:Eb; [|discriminate Eb]. cbn [default].
  rewrite reaches. cbn [handle fst]. rewrite (handle_call_doc _ tool arguments body Eb Hvt Hva), Hk'.
  assert (Es : putw (getw s) s = s) by (destruct s as [[] ? ?]; reflexivity). rewrite Es.
  case_decide as Hl; [now rewrite bool_decide_true|]. rewrite bool_decide_false by exact Hl. cbn [writeJSON].
  change (negb (200 =? 200)) with false. cbv iota.
  destruct (marshal (JObj [("result", JStr (handleCall tool arguments))]%string)) as [reply|] eqn:Er; [|discriminate Er]. cbn [default].
  unfold id. rewrite (object_newline _ _ _ Er ltac:(cbn -[ValidString]; now rewrite Hvr) ltac:(vm_compute; discriminate) eq_refl). reflexivity.
Qed.

(** The exchange with the server of a world that holds its flag. *)
Definition mock_post {W} `{Unicode} `{Printable} (killed_of : W -> bool) (url body : string) (w : W) : Exchange * W :=
  (let '(status, reply) := (handle (PostCall body) (killed_of w)).1 in Replied status reply, w).
#[export] Instance mock_reaches {W} `{Unicode} `{Printable} url (killed_of : W -> bool) : Reaches url killed_of (mock_post killed_of).
Proof. now intros body w. Qed.
Lemma mcp_lookup_answers_witness :
  let s := SampleAgent.state (NewChaos true) in
  let lookup on := MCPLookupTool_Execute (mock_post (fun w : Z => on)) (fun _ => "bad json"%string) "http://127.0.0.1:8081"
                  (Some [("tool", JStr "Weather"); ("args", JStr "Алматы")]%string) s in
  lookup false = Some (("Current weather in Алматы: 18°C, partly cloudy. (mock data)"%string, None), s) /\
  lookup true = Some ((EmptyString, Some (plain_error "mcp status 503")), s).
Proof.
  intros s lookup. split.
  - exact (mcp_lookup_answers "http://127.0.0.1:8081" (fun _ => false) (mock_post (fun _ => false)) (fun _ => "bad json"%string) "Weather" "Алматы" s
             [PostKill; GetStatus; PostRestore; GetHealth] (mock_reaches _ _) ltac:(discriminate) ltac:(discriminate) eq_refl eq_refl eq_refl).
  - exact (mcp_lookup_answers "http://127.0.0.1:8081" (fun _ => true) (mock_post (fun _ => true)) (fun _ => "bad json"%string) "Weather" "Алматы" s
             [PostRestore; PostKill; PostCall "{}"] (mock_reaches _ _) ltac:(discriminate) ltac:(discriminate) eq_refl eq_refl eq_refl).
Defined.
